(* ===== verification/_CoqProject ===== *)
-Q . S2P
Prelude.v
RustStr.v
Ivc.v
Hvc.v
Vmm.v
Command.v
VmCommands.v
Console.v
Disk.v
Gpt.v
RootSpec.v
Vfs.v
BaseCmd.v
BaseFiles.v
RootFs.v
BootFs.v
Stream.v
Ext4Dev.v
Ext4Path.v
Ext4Fs.v
FatDev.v
FatFs.v
Fops.v
Api.v
FdtTree.v
FdtWrite.v
GuestMem.v
FdtCreate.v
FdtGuest.v
FdtUpdate.v
FdtDevice.v
FdtSetup.v
FdtExamples.v
Images.v
Timer.v
Gic.v
Boot.v
Devspace.v
Clippy.v
GuestImages.v
BuildScript.v
LinuxHeader.v
VmCreate.v
GuestBoot.v
VmShow.v
CommandTree.v
BlockDrivers.v
X86Plat.v
Hal.v
Startup.v
DriverProbe.v
X86Start.v
RuntimeStart.v
XTask.v
FdtPrint.v
AxConfig.v
ApiFiles.v
