(* ===== verification/Prelude.v ===== *)
(** * A verification library for AxVisor

    AxVisor is a hypervisor written in Rust on top of ArceOS.  This library
    models the parts of it that decide things, as functions that can be run, and
    proves what makes them correct.  It has a file for every component; a file
    names the source file it models, and its definitions keep the names of the
    code.

    ** The program and its model

    The hypervisor ([kernel/src]) starts guests, runs their virtual CPUs as tasks,
    answers their hypercalls and reads commands from a console.  Its configurations,
    images and logs come from a file system ([modules/axfs]) on partitions of a
    block device.  Below it are the runtime that brings up the processors
    ([modules/axruntime]), drivers ([modules/driver]) and a platform ([platform]);
    beside it are the tools that configure and build it ([xtask], [kernel/build.rs]).

    - [Prelude] (this file) has what all files share: the outcomes of Rust code, a
      value, an error or a panic ([outcome]); the state and error monad [st] in which
      stateful code is written; machine integers with their overflow, which panics or
      wraps depending on how the program is built ([OverflowChecks]); ordered maps
      ([btree_iter]); and rules to reason about runs ([triple], [keeps], [pres],
      [returns]).  [RustStr] models strings as bytes in UTF-8.
    - [Ivc] and [Hvc]: shared memory channels between guests ([vmm/ivc.rs]) and the
      hypercalls that make and join them ([vmm/hvc.rs]).  The frame allocator and the
      memory of the guests are explicit state.  The theorems account for every
      frame, and for what a guest can do with a hypercall.
    - [Vmm], [VmCommands]: the list of guests, the tasks and counters of their
      virtual CPUs ([vmm/vm_list.rs], [vmm/vcpus.rs], [vmm/mod.rs], [task.rs]) and
      the shell commands that start, stop and delete guests ([command/vm.rs]).  The
      scheduler is a step relation; the theorems are invariants of all its runs.
    - [Command], [Console]: the parser of command lines ([command/mod.rs]) and the
      line editor with its history ([shell/mod.rs], [command/history.rs]).
    - [BaseCmd], [BaseFiles]: the commands on files, from [ls] to [mv], and on the
      system ([command/base.rs]); [BaseFiles] has the laws of files and the theorems.
    - [FdtTree], [FdtWrite], [FdtCreate], [FdtGuest], [FdtUpdate], [FdtDevice],
      [FdtSetup]: device trees ([vmm/fdt]).  [FdtDevice] finds the devices that a
      guest needs, [FdtCreate] writes the trees of guests, [FdtSetup] takes CPUs,
      regions and interrupts from trees and puts the steps together.  [FdtTree] and
      [FdtWrite] have the theory: paths, and that a sequence of nodes with levels is
      written as the tree it stands for.  [FdtGuest] and [FdtUpdate] have the
      theorems on the trees that are written, [FdtExamples] a writer and a parser
      that satisfy the laws, and examples.
    - [GuestMem], [Images]: the memory of a guest and the images that are loaded into
      it ([vmm/images/mod.rs], parts of [vmm/config.rs]).
    - [LinuxHeader]: the headers of kernel images ([vmm/images/linux.rs]).
    - [VmCreate], [GuestBoot]: creating guests from configurations ([vmm/config.rs],
      [vm create]).  [VmCreate] is written against the interface [GuestSetup];
      [GuestBoot] implements it with [FdtSetup], [GuestMem], [Images] and [LinuxHeader].
    - [VmShow], [CommandTree]: [vm show], [vm help], and the tree of all commands
      ([command/vm.rs], [command/mod.rs]).
    - [Startup]: [main] of the hypervisor ([main.rs]), which composes [Boot], [VmCreate]
      and [Vmm]: the state in which the guests run and the shell starts.
    - [FdtPrint]: printing device trees with statistics ([vmm/fdt/print.rs]).
    - [Timer]: the timers of each CPU ([vmm/timer.rs]).
    - [Gic], [Hal]: virtual interrupts on [aarch64] and the functions that the VM crates
      call ([hal]).
    - [Boot]: starting the processors, the barrier before the program, virtualization on
      every core, memory for the allocator and the periodic timer ([axruntime],
      [hal/mod.rs]).  The processors are interleaved by step relations.  [RuntimeStart]
      has the initialisation calls that each processor makes, for any features, and
      processors that run these sequences.
    - [AxConfig]: the constants of [axconfig] and what depends on them.
    - [BlockDrivers], [DriverProbe]: the request queues of two SD and eMMC drivers and a
      clock, and how drivers are attached to nodes of the device tree ([driver/src]).
    - [X86Plat], [X86Start]: time, interrupts, memory, CPUs and console of a platform, and
      its entry, initialisation and link script ([platform/x86-qemu-q35]).
    - [Disk], [Gpt]: a block device as a stream of bytes, and partitions as windows
      of it ([dev.rs]); finding partitions ([partition.rs]).
    - [RootSpec], [BootFs]: which partition is the root, and bringing up the file
      systems ([lib.rs], [mounts.rs]).
    - [Vfs], [RootFs]: nodes of file systems, and the directory that joins them, with
      mount points and the current directory ([root.rs]).
    - [Stream], [Ext4Dev], [Ext4Path], [Ext4Fs], [FatDev], [FatFs]: the two file
      systems ([fs/ext4fs.rs], [fs/fatfs.rs]): the devices they see, and their nodes.
    - [Fops], [Api], [ApiFiles]: open files and directories, the interface of programs,
      and reading and writing whole files ([fops.rs], [api]).
    - [BuildScript]: from a board to the compiled-in configurations and images
      ([xtask/src/main.rs], [tbuld.rs], [cargo.rs], [ctx.rs], [kernel/build.rs]).
    - [Devspace], [Clippy], [GuestImages]: the tools that patch dependencies, run the
      linter and download guest images ([xtask/src/devspace.rs], [clippy.rs],
      [image.rs]).  [XTask] is the command line that runs them ([xtask/src/main.rs]).

    ** Code of other crates

    What is not in the repository is a class: the block device ([BlockDevice]), the
    file system drivers ([Rsext4], [Fatfs]), capabilities ([CapAccess]), the writer
    and the parser of device trees ([FdtWriter], [FdtParser]), lists of timers
    ([TimerList]), the files of [axstd] ([StdFs], [ConfigFiles]), the functions of [axvm]
    ([AxVm], [VmFactory], [AxvmState], [VmInfo]), the drivers of interrupt controllers and
    cards ([GicDriver], [MciCard], [EmmcHost], [ClockUnit]), the table of interrupt handlers
    ([HandlerTable]), what the x86 processor and its firmware report ([X86Env]), device
    probing ([ProbeEnv]), the linker ([Linker]), the methods that [axio] gives every reader
    and writer ([AxIo]), and the host of the tools ([Workspace], [Cargo], [Host],
    [BuildHost], [ToolHost]).  The documented behaviour that the code relies on is a second class
    with laws ([BlockDeviceOk] and so on), and every theorem that assumes laws is
    applied to a concrete instance.

    ** What the theorems show

    - Memory is accounted for: the frames in use are exactly those of the channels, no two
      channels share one, and a hypercall changes the mappings of no other guest than the
      caller; partitions, files and images occupy exactly their bytes and nothing outside
      them changes.  (Mappings of a frame that is no longer in use do remain after some
      calls; theorems show these.)
    - Refinement: the line editor refines an editor of text, a partition refines an
      array of blocks and a file, an open file refines bytes with a cursor, the
      directory iterator its listing, and the tree written for a guest is the part
      of the host's tree that the selection describes.
    - Exactness: the scan finds the partitions of a well-formed table, the analysis
      of passthrough devices computes the closure of the dependencies, timers run
      once and in order if handlers do not register timers for the present, the counters
      of virtual CPUs agree with the tasks that came after the last start, a copied file
      has the bytes of its source, and a move that has to copy does not lose them.
    - Creation: a new guest is added without touching the others and has a device tree of
      its own; the build compiles in exactly the configurations that were named; a
      downloaded image has the checksum of the table; the development workspace is
      restored when it is closed.
    - Starting: once the guests of its configurations are created, the hypervisor comes up
      with exactly these, each with a task for its first virtual CPU and running if its
      boot succeeded; as many processors run as the build configuration names, from one to
      eight; the x86 platform initialises every one of them and addresses it as its APIC
      needs it; a written file is read back.
    - Concurrency: no processor passes the boot barrier, and none runs a program, before
      all have done all of their initialisation, and the boot completes in every
      interleaving; an injected interrupt takes a list register that holds none.
    - Totality: lines, paths and root specifications never make the parsers panic,
      and loops end within the fuel they are given.
    - Where the code does not do what it means to, a theorem says what it does
      instead: a stop request that is never seen by a waiting guest, an excluded
      device that the guest gets all the same, children of a skipped node that move
      to another parent, a guest started again whose old virtual CPUs are not counted, an
      interrupt for another CPU that goes to the first, an access past the end of a partition that never returns,
      moving several files, which panics, a second guest with the same identifier that is
      reported as created, an interrupt that is injected twice, a far deadline that
      stops the hypervisor.

    ** Fuel

    Loops that are not structural have fuel.  Where the code has a bound the fuel
    is that bound, and a theorem says that it is enough: the length of a path
    ([Ext4Path]), eight rounds for a block ([Ext4Dev]), the length of a buffer
    ([FatDev]), the number of entries ([Api]), the number of configured devices and
    twice the number of nodes ([FdtDevice]), the number of timers that are due ([Timer]), the
    length of a file ([BaseFiles], [GuestImages]), the length of a string ([Devspace]), the
    sixteen digits of a word ([VmShow]).  Recursion into directories ([BaseCmd]) has fuel
    too, and no theorem depends on it.  Where
    the code has none the theorem holds for every amount of fuel.

    ** Not modelled

    Log messages and the logos; percentages in floating point ([FdtPrint]).  Functions of
    [hal] that pass a call on, cache maintenance, thread-local storage, the panic handler,
    and assembly with the control registers it is given.  The drivers of serial ports and
    of the power manager, which no module of the build declares.  The parsing of command
    lines of the tools and the terminal interface of [menuconfig], which belong to other
    crates.  [get_host_fdt], which turns a raw pointer into the bytes that are an argument
    here.  Text files have lines that end in LF alone: the compiler turns CR LF in the
    generated source into LF, which [BuildScript] does not. *)

From Stdlib Require Import ZArith Lia Ascii.
From stdpp Require Export base gmap strings sorting pretty numbers option list.

#[global] Open Scope Z_scope.

(** ** Outcomes of Rust code

    [outcome E A] is what a fallible Rust function of type [Result<A, E>] does:
    it returns [Ok a] or [Err e], or it panics ([unwrap] on [None], [expect] on
    [Err], a failed [assert!], [unimplemented!], an index out of range, or an
    arithmetic overflow in a build with overflow checks). *)
Inductive outcome (E A : Type) : Type :=
| Ok (a : A)
| Err (e : E)
| Panic.
Arguments Ok {E A} _.
Arguments Err {E A} _.
Arguments Panic {E A}.

(** The error codes of the [axerrno] crate that the sources of AxVisor name. *)
Inductive AxError : Type :=
| AlreadyExists
| BadState
| DirectoryNotEmpty
| InvalidData
| InvalidInput
| Io
| IsADirectory
| NoMemory
| NotADirectory
| NotFound
| PermissionDenied
| StorageFull
| UnexpectedEof
| Unsupported
| WriteZero.

#[global] Instance AxError_eq_dec : EqDecision AxError.
Proof. solve_decision. Defined.

#[global] Instance outcome_ret {E} : MRet (outcome E) := λ A a, Ok a.

#[global] Instance outcome_bind {E} : MBind (outcome E) := λ A B f m,
  match m with
  | Ok a => f a
  | Err e => Err e
  | Panic => Panic
  end.

#[global] Instance outcome_fmap {E} : FMap (outcome E) := λ A B f m,
  match m with
  | Ok a => Ok (f a)
  | Err e => Err e
  | Panic => Panic
  end.

(** [x.unwrap()] on an [Option]. *)
Definition unwrap {E A} (o : option A) : outcome E A :=
  match o with Some a => Ok a | None => Panic end.

(** [x.ok_or(e)?] on an [Option]. *)
Definition ok_or {E A} (o : option A) (e : E) : outcome E A :=
  match o with Some a => Ok a | None => Err e end.

(** [x.expect(..)] on a [Result]. *)
Definition expect {E E' A} (r : outcome E A) : outcome E' A :=
  match r with Ok a => Ok a | Err _ => Panic | Panic => Panic end.

Definition is_ok {E A} (r : outcome E A) : bool :=
  match r with Ok _ => true | _ => false end.

(** ** Stateful code

    [st S E A] is code that threads a state of type [S]: the state it leaves
    behind is there also when it returns an error or panics, because a Rust
    function that returns early keeps the effects it already had. *)
Definition st (S E A : Type) : Type := S → outcome E A * S.

#[global] Instance st_ret {S E} : MRet (st S E) := λ A a s, (Ok a, s).

#[global] Instance st_bind {S E} : MBind (st S E) := λ A B f m s,
  match m s with
  | (Ok a, s') => f a s'
  | (Err e, s') => (Err e, s')
  | (Panic, s') => (Panic, s')
  end.

Definition get {S E} : st S E S := λ s, (Ok s, s).
Definition gets {S E A} (f : S → A) : st S E A := λ s, (Ok (f s), s).
Definition put {S E} (s : S) : st S E () := λ _, (Ok (), s).
Definition modify {S E} (f : S → S) : st S E () := λ s, (Ok (), f s).
Definition throw {S E A} (e : E) : st S E A := λ s, (Err e, s).
Definition panic {S E A} : st S E A := λ s, (Panic, s).
Definition lift {S E A} (r : outcome E A) : st S E A := λ s, (r, s).

(** Looking at the result of a fallible call instead of passing the error on. *)
Definition attempt {S E E' A} (m : st S E A) : st S E' (option A) := λ s,
  match m s with
  | (Ok a, s) => (Ok (Some a), s)
  | (Err _, s) => (Ok None, s)
  | (Panic, s) => (Panic, s)
  end.

(** [m.expect(..)] *)
Definition expecting {S E E' A} (m : st S E A) : st S E' A := λ s,
  let '(r, s') := m s in (expect r, s').

(** Inverting a successful bind. *)
Lemma st_bind_ok {S E A B} (m : st S E A) (f : A → st S E B) s b s' :
  (m ≫= f) s = (Ok b, s') →
  ∃ a s1, m s = (Ok a, s1) ∧ f a s1 = (Ok b, s').
Proof.
  unfold mbind, st_bind. destruct (m s) as [[a|e|] s1]; intros H; try done.
  by exists a, s1.
Qed.

Lemma lift_inv {S E A} (r : outcome E A) (s s' : S) x : lift r s = (Ok x, s') → r = Ok x ∧ s' = s.
Proof. by intros [= -> <-]. Qed.

Lemma bind_run {S E A B} (m : st S E A) (k : A → st S E B) s a s1 :
  m s = (Ok a, s1) → (m ≫= k) s = k a s1.
Proof. intros Hm. unfold mbind, st_bind. by rewrite Hm. Qed.

Lemma outcome_bind_ok {E A B} (m : outcome E A) (f : A → outcome E B) b :
  m ≫= f = Ok b → ∃ a, m = Ok a ∧ f a = Ok b.
Proof. destruct m as [a|e|]; intros H; try done. by exists a. Qed.

Lemma unwrap_ok {E A} (o : option A) (a : A) :
  unwrap (E:=E) o = Ok a ↔ o = Some a.
Proof. destruct o; simpl; split; intros; simplify_eq; done. Qed.

(** [st_run] evaluates the primitives of [st] in the goal and the hypotheses;
    [st_run in H] in one of them. *)
Ltac st_run :=
  unfold mbind, mret, st_bind, st_ret, get, gets, put, modify, throw, panic, lift in *;
  cbn beta iota in *.

(** [orun] evaluates the binds of [outcome] in the goal. *)
Ltac orun := cbn [mbind outcome_bind mret outcome_ret].

(** Closed equations by evaluation in the virtual machine, without reading the values
    back into terms. *)
Ltac vm_refl := match goal with |- ?x = _ => vm_cast_no_check (@eq_refl _ x) end.

(** A run, by its result only: the state it leaves is not compared. *)
Lemma run_pair {A B} (p : A * B) a : p.1 = a → p = (a, p.2).
Proof. intros <-. apply surjective_pairing. Qed.

(** ** Machine integers

    [usize] and [u64] values are integers in [0, 2^64).  Atomic and explicitly
    wrapping operations wrap around.  The plain operators [+], [-] and [*] panic
    on overflow when the build has overflow checks (the debug profile) and wrap
    around otherwise (the release profile); [overflow_checks] says which build
    is meant, and the theorems hold for both unless they say otherwise. *)
Definition usize_max : Z := 2 ^ 64 - 1.

Definition in_usize (n : Z) : Prop := 0 ≤ n ≤ usize_max.

Definition wrap64 (n : Z) : Z := n mod 2 ^ 64.

Class OverflowChecks : Type := overflow_checks : bool.

Definition checked {E} `{OverflowChecks} (n : Z) : outcome E Z :=
  if bool_decide (0 ≤ n ≤ usize_max) then Ok n
  else if overflow_checks then Panic else Ok (wrap64 n).

Definition usize_add {E} `{OverflowChecks} (a b : Z) : outcome E Z := checked (a + b).
Definition usize_sub {E} `{OverflowChecks} (a b : Z) : outcome E Z := checked (a - b).
Definition usize_mul {E} `{OverflowChecks} (a b : Z) : outcome E Z := checked (a * b).

Lemma wrap64_range n : in_usize (wrap64 n).
Proof. unfold in_usize, wrap64, usize_max. pose proof (Z.mod_pos_bound n (2 ^ 64)). lia. Qed.

Lemma wrap64_id n : in_usize n → wrap64 n = n.
Proof. unfold in_usize, wrap64, usize_max. intros. apply Z.mod_small. lia. Qed.

Lemma checked_ok {E} `{OverflowChecks} n : in_usize n → checked (E:=E) n = Ok n.
Proof. intros. unfold checked. by rewrite bool_decide_true. Qed.

Lemma checked_range {E} `{OverflowChecks} n r : checked (E:=E) n = Ok r → in_usize r.
Proof.
  unfold checked. case_bool_decide; [by intros [= <-]|].
  destruct overflow_checks; [done|]. intros [= <-]. apply wrap64_range.
Qed.

Lemma checked_total {E} `{OverflowChecks} n e : checked (E:=E) n ≠ Err e.
Proof. unfold checked. repeat case_match; done. Qed.

(** [SeekFrom] of the I/O crates; the offsets are [i64]. *)
Inductive SeekFrom : Type :=
| SeekStart (pos : Z)
| SeekCurrent (off : Z)
| SeekEnd (off : Z).

(** [u64::checked_add_signed] *)
Definition checked_add_signed (a off : Z) : option Z :=
  if bool_decide (0 ≤ a + off ≤ usize_max) then Some (a + off) else None.

(** ** The target of the build *)
Inductive Arch : Type := X86_64 | AArch64 | RiscV64 | LoongArch64.

#[global] Instance Arch_eq_dec : EqDecision Arch.
Proof. solve_decision. Defined.

Class TargetArch : Type := target_arch : Arch.

(** ** Triples

    [triple P m Q X]: from a state that satisfies [P], [m] does not panic; when
    it returns [Ok a] the final state satisfies [Q a], and when it returns
    [Err e] it satisfies [X e]. *)
Definition triple {S E A} (P : S → Prop) (m : st S E A)
    (Q : A → S → Prop) (X : E → S → Prop) : Prop :=
  ∀ s, P s →
  match m s with
  | (Ok a, s') => Q a s'
  | (Err e, s') => X e s'
  | (Panic, _) => False
  end.

Section triples.
Context {S E : Type}.
Implicit Types (P : S → Prop) (X : E → S → Prop).

Lemma triple_ret {A} P (a : A) X : triple P (mret a) (λ b s, b = a ∧ P s) X.
Proof. intros s Hs. by split. Qed.

Lemma triple_ret' {A} (Q : A → S → Prop) (a : A) X : triple (Q a) (mret a) Q X.
Proof. by intros s Hs. Qed.

Lemma triple_throw {A} (Q : A → S → Prop) e X : triple (X e) (throw e) Q X.
Proof. by intros s Hs. Qed.

Lemma triple_bind {A B} P (m : st S E A) (f : A → st S E B) Q1 Q X :
  triple P m Q1 X → (∀ a, triple (Q1 a) (f a) Q X) → triple P (m ≫= f) Q X.
Proof.
  intros Hm Hf s Hs. specialize (Hm s Hs). unfold mbind, st_bind.
  destruct (m s) as [[a|e|] s']; [by apply Hf|done..].
Qed.

Lemma triple_seq {A B} P P' (m : st S E A) (k : st S E B) Q X :
  triple P m (λ _, P') X → triple P' k Q X → triple P (m ;; k) Q X.
Proof. intros Hm Hk. by eapply triple_bind. Qed.

Lemma triple_conseq {A} P P' (m : st S E A) (Q Q' : A → S → Prop) X X' :
  triple P m Q X → (∀ s, P' s → P s) →
  (∀ a s, Q a s → Q' a s) → (∀ e s, X e s → X' e s) → triple P' m Q' X'.
Proof.
  intros Hm HP HQ HX s Hs. specialize (Hm s (HP s Hs)).
  destruct (m s) as [[a|e|] s']; eauto.
Qed.

Lemma triple_ok {A} P (m : st S E A) Q X s a s' :
  triple P m Q X → P s → m s = (Ok a, s') → Q a s'.
Proof. intros Hm Hs He. specialize (Hm s Hs). by rewrite He in Hm. Qed.
End triples.

(** ** Views

    [keeps P f m]: from a state whose view [f s] satisfies [P], the code [m]
    leaves the view as it was, whatever it returns. *)
Definition keeps {S E A V} (P : V → Prop) (f : S → V) (m : st S E A) : Prop :=
  ∀ s, P (f s) → f (m s).2 = f s.

Section keeps.
Context {S E V : Type} (P : V → Prop) (f : S → V).

Lemma keeps_ret {A} (a : A) : keeps (E:=E) P f (mret a).
Proof. by intros s. Qed.

Lemma keeps_get : keeps (E:=E) P f get.
Proof. by intros s. Qed.

Lemma keeps_gets {A} (g : S → A) : keeps (E:=E) P f (gets g).
Proof. by intros s. Qed.

Lemma keeps_lift {A} (r : outcome E A) : keeps P f (lift r).
Proof. by intros s. Qed.

Lemma keeps_panic {A} : keeps (E:=E) (A:=A) P f panic.
Proof. by intros s. Qed.

Lemma keeps_throw {A} (e : E) : keeps (A:=A) P f (throw e).
Proof. by intros s. Qed.

Lemma keeps_modify (g : S → S) :
  (∀ s, P (f s) → f (g s) = f s) → keeps (E:=E) P f (modify g).
Proof. intros Hg s. apply Hg. Qed.

Lemma keeps_bind {A B} (m : st S E A) (k : A → st S E B) :
  keeps P f m → (∀ a, keeps P f (k a)) → keeps P f (m ≫= k).
Proof.
  intros Hm Hk s Hs. specialize (Hm s Hs). unfold mbind, st_bind.
  destruct (m s) as [[a|e|] s']; simpl in *; [|done..].
  rewrite Hk; [done|by rewrite Hm].
Qed.

Lemma keeps_if {A} (b : bool) (m k : st S E A) :
  keeps P f m → keeps P f k → keeps P f (if b then m else k).
Proof. by destruct b. Qed.

Lemma keeps_run {A} (m : st S E A) s r s' :
  keeps P f m → P (f s) → m s = (r, s') → f s' = f s.
Proof. intros Hm Hs He. specialize (Hm s Hs). by rewrite He in Hm. Qed.
End keeps.

Create HintDb keeps.
#[export] Hint Resolve keeps_ret keeps_get keeps_gets keeps_lift keeps_panic keeps_throw
  keeps_if : keeps.

(** Decomposes code along its binds and case distinctions. *)
Ltac keeps_tac :=
  repeat first
  [ solve [eauto 5 with keeps]
  | match goal with
    | |- keeps _ _ (mbind _ _) => apply keeps_bind; [|intros ?]
    | |- keeps _ _ (match ?x with _ => _ end) => destruct x
    | |- keeps _ _ (let '_ := ?x in _) => destruct x
    end ].

(** [pres I m]: the code keeps the invariant [I], whatever it returns. *)
Definition pres {S E A} (I : S → Prop) (m : st S E A) : Prop := ∀ s, I s → I (m s).2.

Lemma pres_bind {S E A B} (I : S → Prop) (m : st S E A) (k : A → st S E B) :
  pres I m → (∀ a, pres I (k a)) → pres I (m ≫= k).
Proof.
  intros Hm Hk s Hs. specialize (Hm s Hs). unfold mbind, st_bind.
  destruct (m s) as [[a|e|] s']; [by apply Hk|done..].
Qed.

Section pres.
Context {S E : Type} (I : S → Prop).

Lemma pres_ret {A} (a : A) : pres (E:=E) I (mret a).
Proof. by intros s. Qed.

Lemma pres_lift {A} (r : outcome E A) : pres I (lift r).
Proof. by intros s. Qed.

Lemma pres_throw {A} (e : E) : pres (A:=A) I (throw e).
Proof. by intros s. Qed.

Lemma pres_panic {A} : pres (E:=E) (A:=A) I panic.
Proof. by intros s. Qed.

Lemma pres_get : pres (E:=E) I get.
Proof. by intros s. Qed.

Lemma pres_gets {A} (f : S → A) : pres (E:=E) I (gets f).
Proof. by intros s. Qed.

Lemma pres_attempt {E' A} (m : st S E A) : pres I m → pres (E:=E') I (attempt m).
Proof. intros Hm s Hs. specialize (Hm s Hs). unfold attempt. by destruct (m s) as [[] ?]. Qed.
End pres.

Create HintDb pres.
#[export] Hint Resolve pres_ret pres_lift pres_throw pres_panic pres_get pres_gets : pres.

(** Goes through the binds and the branches of the code. *)
Ltac pres_tac :=
  repeat first
    [ solve [eauto with pres nocore]
    | apply pres_bind; [|intros ?]
    | apply pres_attempt
    | case_match ].

(** [returns P m]: what the code returns, when it does, satisfies [P]. *)
Definition returns {S E A} (P : A → Prop) (m : st S E A) : Prop :=
  ∀ s a s', m s = (Ok a, s') → P a.

Lemma returns_ret {S E A} (P : A → Prop) (a : A) : P a → returns P (mret (M:=st S E) a).
Proof. intros Ha s b s' Hb. unfold mret, st_ret in Hb. by simplify_eq. Qed.

Lemma returns_bind {S E A B} (P : B → Prop) (Q : A → Prop) (m : st S E A) (k : A → st S E B) :
  returns Q m → (∀ a, Q a → returns P (k a)) → returns P (m ≫= k).
Proof.
  intros Hm Hk s b s' Hb. apply st_bind_ok in Hb as (a & s1 & Ha & Hb).
  apply (Hk a) in Hb; [done|]. by eapply Hm.
Qed.

Lemma returns_bind_any {S E A B} (P : B → Prop) (m : st S E A) (k : A → st S E B) :
  (∀ a, returns P (k a)) → returns P (m ≫= k).
Proof. intros Hk. by apply (returns_bind P (λ _, True)). Qed.

Lemma returns_throw {S E A} (P : A → Prop) (e : E) : returns P (throw (S:=S) e).
Proof. by intros s a s'. Qed.

Lemma returns_lift {S E A} (P : A → Prop) (r : outcome E A) :
  (∀ a, r = Ok a → P a) → returns P (lift (S:=S) r).
Proof. intros Hr s a s' Ha. unfold lift in Ha. simplify_eq. by apply Hr. Qed.

Lemma returns_attempt {S E E' A} (P : A → Prop) (m : st S E A) :
  returns P m → returns (λ o, ∀ a, o = Some a → P a) (attempt (E':=E') m).
Proof.
  intros Hm s o s' Ho a ->. unfold attempt in Ho.
  destruct (m s) as [[b|e|] s1] eqn:He; simplify_eq. by eapply Hm.
Qed.

Lemma keeps_pres {S E A V} (I : V → Prop) (f : S → V) (m : st S E A) :
  keeps (λ _, True) f m → pres (λ s, I (f s)) m.
Proof. intros Hm s Hs. by rewrite (Hm s). Qed.

(** ** Collections of the standard library *)

Definition is_empty {A} (l : list A) : bool :=
  match l with [] => true | _ => false end.

(** A [BTreeMap] is a finite map whose iterators visit the keys in increasing
    order: [btree_iter] is that sequence. *)
Class BTreeKey (K : Type) `{Countable K} : Type := {
  key_le : relation K;
  #[global] key_le_dec :: RelDecision key_le;
  #[global] key_le_total :: Total key_le;
  #[global] key_le_po :: PartialOrder key_le;
}.

Definition entry_le {K V} `{BTreeKey K} : relation (K * V) :=
  λ a b, key_le a.1 b.1.

#[global] Instance entry_le_dec {K V} `{BTreeKey K} : RelDecision (entry_le (K:=K) (V:=V)) :=
  λ a b, key_le_dec a.1 b.1.

Definition btree_iter {K V} `{BTreeKey K} (m : gmap K V) : list (K * V) :=
  merge_sort entry_le (map_to_list m).

#[global] Program Instance Z_btree_key : BTreeKey Z := {| key_le := Z.le |}.

Section btree.
Context {K V : Type} `{BTreeKey K}.
Implicit Types m : gmap K V.

#[global] Instance entry_le_trans : Transitive (entry_le (K:=K) (V:=V)).
Proof. intros a b c. unfold entry_le. apply transitivity. Qed.

#[global] Instance entry_le_total : Total (entry_le (K:=K) (V:=V)).
Proof. intros a b. unfold entry_le. apply (total key_le). Qed.

Lemma btree_iter_perm m : btree_iter m ≡ₚ map_to_list m.
Proof. apply merge_sort_Permutation. Qed.

Lemma btree_iter_sorted m : StronglySorted entry_le (btree_iter m).
Proof. apply StronglySorted_merge_sort; apply _. Qed.

Lemma elem_of_btree_iter m k v : (k, v) ∈ btree_iter m ↔ m !! k = Some v.
Proof. by rewrite btree_iter_perm, elem_of_map_to_list. Qed.

Lemma btree_iter_nodup m : NoDup (btree_iter m).*1.
Proof. rewrite btree_iter_perm. apply NoDup_fst_map_to_list. Qed.

Lemma btree_iter_length m : length (btree_iter m) = size m.
Proof. by rewrite btree_iter_perm, length_map_to_list. Qed.

Lemma btree_iter_empty m : is_empty (btree_iter m) = true ↔ m = ∅.
Proof.
  rewrite <-map_to_list_empty_iff. pose proof (btree_iter_perm m) as Hp.
  destruct (btree_iter m) as [|x l]; simpl.
  - apply Permutation_nil_l in Hp. by rewrite <-Hp.
  - split; [done|]. intros Hm. rewrite Hm in Hp.
    by apply Permutation_nil_r in Hp.
Qed.
End btree.
