(* ===== verification/RustStr.v ===== *)
(** * Strings of the Rust standard library

    A [str] is a [string] of bytes (its UTF-8 encoding), and a [char] is the
    string of the bytes that encode it; [chars] cuts a string at its character
    boundaries.  The operations below are those the sources use. *)

From Stdlib Require Import NArith Ascii.
From S2P Require Import Prelude.

#[global] Open Scope string_scope.
#[global] Open Scope list_scope.
#[global] Open Scope Z_scope.

Definition byte_of (a : ascii) : Z := Z.of_N (N_of_ascii a).
Definition ascii_of_byte (n : Z) : ascii := ascii_of_N (Z.to_N n).

Fixpoint of_bytes (l : list Z) : string :=
  match l with [] => "" | b :: l => String (ascii_of_byte b) (of_bytes l) end.

Fixpoint to_bytes (s : string) : list Z :=
  match s with "" => [] | String a s => byte_of a :: to_bytes s end.

Definition str_is_empty (s : string) : bool := match s with "" => true | _ => false end.

Fixpoint str_concat (l : list string) : string :=
  match l with [] => "" | s :: l => s +:+ str_concat l end.

(** [join(sep)]. *)
Fixpoint str_join (sep : string) (l : list string) : string :=
  match l with
  | [] => ""
  | [s] => s
  | s :: l => s +:+ sep +:+ str_join sep l
  end.

(** ** Characters *)

Definition is_cont (a : ascii) : bool := bool_decide (128 ≤ byte_of a < 192).

Definition flush (cur : string) : list string := if str_is_empty cur then [] else [cur].

Fixpoint chars_from (cur : string) (s : string) : list string :=
  match s with
  | "" => flush cur
  | String a s =>
      if is_cont a then chars_from (cur +:+ String a "") s
      else flush cur ++ chars_from (String a "") s
  end.

Definition chars (s : string) : list string := chars_from "" s.

(** [char::is_whitespace]: the characters with the property White_Space. *)
Definition whitespace_chars : list string :=
  of_bytes <$>
  [[9]; [10]; [11]; [12]; [13]; [32]; [0xC2; 0x85]; [0xC2; 0xA0]; [0xE1; 0x9A; 0x80];
   [0xE2; 0x80; 0x80]; [0xE2; 0x80; 0x81]; [0xE2; 0x80; 0x82]; [0xE2; 0x80; 0x83];
   [0xE2; 0x80; 0x84]; [0xE2; 0x80; 0x85]; [0xE2; 0x80; 0x86]; [0xE2; 0x80; 0x87];
   [0xE2; 0x80; 0x88]; [0xE2; 0x80; 0x89]; [0xE2; 0x80; 0x8A]; [0xE2; 0x80; 0xA8];
   [0xE2; 0x80; 0xA9]; [0xE2; 0x80; 0xAF]; [0xE2; 0x81; 0x9F]; [0xE3; 0x80; 0x80]].

Definition is_whitespace (c : string) : bool := bool_decide (c ∈ whitespace_chars).

(** [str::trim]. *)
Fixpoint drop_while {A} (p : A → bool) (l : list A) : list A :=
  match l with
  | [] => []
  | x :: l' => if p x then drop_while p l' else l
  end.

Definition trim (s : string) : string :=
  str_concat (reverse (drop_while is_whitespace (reverse (drop_while is_whitespace (chars s))))).

(** [str::split_whitespace]. *)
Fixpoint split_ws (cur : string) (l : list string) : list string :=
  match l with
  | [] => flush cur
  | c :: l => if is_whitespace c then flush cur ++ split_ws "" l else split_ws (cur +:+ c) l
  end.

Definition split_whitespace (s : string) : list string := split_ws "" (chars s).

(** ** Prefixes and searching *)

Fixpoint strip_prefix (p s : string) : option string :=
  match p, s with
  | "", _ => Some s
  | String a p, String b s => if bool_decide (a = b) then strip_prefix p s else None
  | _, "" => None
  end.

Definition starts_with (p s : string) : bool := bool_decide (is_Some (strip_prefix p s)).

(** [s.contains(p)]. *)
Fixpoint str_contains (p s : string) : bool :=
  starts_with p s || match s with "" => false | String _ s => str_contains p s end.

(** [s.find(p)]: the text before the first occurrence and the text from it on. *)
Fixpoint find_str (p s : string) : option (string * string) :=
  if starts_with p s then Some ("", s) else
  match s with
  | "" => None
  | String a s' => '(before, from) ← find_str p s'; Some (String a before, from)
  end.

(** [s.split(c)] for a one-byte character; [cur] is the piece read so far. *)
Fixpoint split_char (c : ascii) (cur : string) (s : string) : list string :=
  match s with
  | "" => [cur]
  | String a s => if bool_decide (a = c) then cur :: split_char c "" s
                  else split_char c (cur +:+ String a "") s
  end.

(** [s.find(c)] for a one-byte character and the text around the position. *)
Fixpoint split_at_char (c : ascii) (s : string) : option (string * string) :=
  match s with
  | "" => None
  | String a s' =>
      if bool_decide (a = c) then Some ("", s)
      else '(p, r) ← split_at_char c s'; Some (String a p, r)
  end.

(** [&s[n..]], which panics when [n] is past the end or inside a character. *)
Fixpoint slice_from {E} (n : nat) (s : string) : outcome E string :=
  match n, s with
  | O, String a _ => if is_cont a then Panic else Ok s
  | O, "" => Ok s
  | S n, String _ s => slice_from n s
  | S _, "" => Panic
  end.

(** [s.trim_matches(c)] for a one-byte character. *)
Fixpoint trim_start (c : ascii) (s : string) : string :=
  match s with
  | "" => ""
  | String a s' => if bool_decide (a = c) then trim_start c s' else s
  end.

Fixpoint trim_end (c : ascii) (s : string) : string :=
  match s with
  | "" => ""
  | String a s' =>
      match trim_end c s' with
      | "" => if bool_decide (a = c) then "" else String a ""
      | t => String a t
      end
  end.

Definition trim_matches (c : ascii) (s : string) : string := trim_end c (trim_start c s).

(** [s.ends_with(p)]. *)
Fixpoint ends_with (p s : string) : bool :=
  bool_decide (p = s) || match s with "" => false | String _ s => ends_with p s end.

(** Strings as keys: [str] is ordered by its bytes. *)
Fixpoint str_leb (s t : string) : bool :=
  match s, t with
  | "", _ => true
  | String _ _, "" => false
  | String a s, String b t =>
      (byte_of a <? byte_of b) || (byte_of a =? byte_of b) && str_leb s t
  end.

(** ** Numbers *)

Definition digit (a : ascii) : option Z :=
  let d := byte_of a - 48 in if bool_decide (0 ≤ d ≤ 9) then Some d else None.

Fixpoint parse_digits (acc : Z) (s : string) : option Z :=
  match s with
  | "" => Some acc
  | String a s =>
      d ← digit a;
      let n := acc * 10 + d in
      if bool_decide (n ≤ usize_max) then parse_digits n s else None
  end.

(** [s.parse::<usize>()]: an optional [+], then at least one digit; [None] is the
    error. *)
Definition parse_usize (s : string) : option Z :=
  match s with
  | "" => None
  | String a s' =>
      if bool_decide (a = "+"%char) then
        if str_is_empty s' then None else parse_digits 0 s'
      else parse_digits 0 s
  end.

(** ** UTF-8 *)

Definition in_range (lo hi : Z) (a : ascii) : bool := bool_decide (lo ≤ byte_of a ≤ hi).

(** The second byte that a lead byte of a longer character admits, and the number
    of continuation bytes after it. *)
Definition lead (a : ascii) : option (Z * Z * nat) :=
  let b := byte_of a in
  if bool_decide (0xC2 ≤ b ≤ 0xDF) then Some (0x80, 0xBF, 0%nat)
  else if bool_decide (b = 0xE0) then Some (0xA0, 0xBF, 1%nat)
  else if bool_decide (b = 0xED) then Some (0x80, 0x9F, 1%nat)
  else if bool_decide (0xE1 ≤ b ≤ 0xEF) then Some (0x80, 0xBF, 1%nat)
  else if bool_decide (b = 0xF0) then Some (0x90, 0xBF, 2%nat)
  else if bool_decide (0xF1 ≤ b ≤ 0xF3) then Some (0x80, 0xBF, 2%nat)
  else if bool_decide (b = 0xF4) then Some (0x80, 0x8F, 2%nat)
  else None.

(** What is expected next: the start of a character, or a byte in a range with
    [n] more continuation bytes to come. *)
Fixpoint utf8_from (next : option (Z * Z * nat)) (s : string) : bool :=
  match next, s with
  | None, "" => true
  | None, String a s =>
      if in_range 0 127 a then utf8_from None s
      else match lead a with Some x => utf8_from (Some x) s | None => false end
  | Some _, "" => false
  | Some (lo, hi, n), String a s =>
      in_range lo hi a &&
      utf8_from (match n with O => None | S n => Some (0x80, 0xBF, n) end) s
  end.

(** [str::from_utf8(bytes).is_ok()]. *)
Definition is_utf8 (s : string) : bool := utf8_from None s.

(** ** Facts *)

#[local] Arguments String.append !_ _ : simpl nomatch.

Lemma string_app_nil_r s : s +:+ "" = s.
Proof. induction s as [|a s IH]; simpl; [done|by rewrite IH]. Qed.

Lemma string_app_assoc s t u : (s +:+ t) +:+ u = s +:+ (t +:+ u).
Proof. induction s as [|a s IH]; simpl; [done|by rewrite IH]. Qed.

Lemma string_app_length s t : String.length (s +:+ t) = (String.length s + String.length t)%nat.
Proof. induction s as [|a s IH]; simpl; [done|]. by rewrite IH. Qed.

Lemma str_concat_app l k : str_concat (l ++ k) = str_concat l +:+ str_concat k.
Proof. induction l as [|s l IH]; simpl; [done|]. by rewrite IH, string_app_assoc. Qed.

Lemma str_concat_flush cur : str_concat (flush cur) = cur.
Proof. unfold flush. destruct cur; simpl; [done|]. by rewrite string_app_nil_r. Qed.

Lemma chars_from_concat s cur : str_concat (chars_from cur s) = cur +:+ s.
Proof.
  revert cur. induction s as [|a s IH]; intros cur; simpl.
  - by rewrite str_concat_flush, string_app_nil_r.
  - destruct (is_cont a).
    + by rewrite IH, string_app_assoc.
    + by rewrite str_concat_app, str_concat_flush, IH.
Qed.

(** Cutting a string into characters loses nothing. *)
Lemma chars_concat s : str_concat (chars s) = s.
Proof. apply chars_from_concat. Qed.

Fixpoint all_cont (s : string) : bool :=
  match s with "" => true | String a s => is_cont a && all_cont s end.

(** One character: a first byte that is no continuation byte, then only those. *)
Definition is_char (c : string) : bool :=
  match c with "" => false | String a s => negb (is_cont a) && all_cont s end.

Lemma chars_from_cont s cur t :
  all_cont s = true → chars_from cur (s +:+ t) = chars_from (cur +:+ s) t.
Proof.
  revert cur. induction s as [|a s IH]; intros cur; simpl.
  - by rewrite string_app_nil_r.
  - intros [Ha Hs]%andb_prop. rewrite Ha, IH by done. by rewrite string_app_assoc.
Qed.

Lemma chars_from_char c cur t :
  is_char c = true → chars_from cur (c +:+ t) = flush cur ++ chars_from c t.
Proof.
  destruct c as [|a s]; simpl; [done|]. intros [Ha Hs]%andb_prop.
  rewrite negb_true_iff in Ha. rewrite Ha. by rewrite (chars_from_cont s (String a "")) by done.
Qed.

(** A sequence of characters is the sequence of characters of its text. *)
Lemma chars_of_chars l : Forall (λ c, is_char c = true) l → chars (str_concat l) = l.
Proof.
  intros Hl. assert (Hc : ∀ cur, chars_from cur (str_concat l) = flush cur ++ l).
  { induction Hl as [|c l Hc Hl IH]; intros cur; simpl; [by rewrite app_nil_r|].
    rewrite chars_from_char by done. rewrite IH. by destruct c. }
  apply (Hc "").
Qed.

Lemma parse_digits_range s acc n :
  in_usize acc → parse_digits acc s = Some n → in_usize n.
Proof.
  revert acc. induction s as [|a s IH]; simpl; intros acc Hacc; [by intros [= <-]|].
  destruct (digit a) as [d|] eqn:Hd; simpl; [|done]. case_bool_decide; [|done].
  apply IH. unfold digit in Hd. case_bool_decide; [|done]. simplify_eq.
  unfold in_usize in *. lia.
Qed.

(** Parsing never leaves the range of the type. *)
Lemma parse_usize_range s n : parse_usize s = Some n → in_usize n.
Proof.
  assert (in_usize 0) by done. destruct s as [|a s]; simpl; [done|].
  case_bool_decide.
  - destruct (str_is_empty s); [done|]. by apply parse_digits_range.
  - intros Hp. by apply (parse_digits_range (String a s) 0).
Qed.

Lemma strip_prefix_app p s : strip_prefix p (p +:+ s) = Some s.
Proof. induction p as [|a p IH]; simpl; [done|]. by rewrite bool_decide_true. Qed.

Lemma strip_prefix_Some p s t : strip_prefix p s = Some t ↔ s = p +:+ t.
Proof.
  split; [|intros ->; apply strip_prefix_app].
  revert s. induction p as [|a p IH]; intros s; simpl; [by intros [= ->]|].
  destruct s as [|b s]; [done|]. case_bool_decide; [|done]. intros Hs%IH. by subst.
Qed.

Lemma starts_with_app p s : starts_with p s = true ↔ ∃ t, s = p +:+ t.
Proof.
  unfold starts_with. rewrite bool_decide_eq_true. unfold is_Some.
  by setoid_rewrite strip_prefix_Some.
Qed.

Lemma starts_with_refl s : starts_with s s = true.
Proof. apply starts_with_app. exists "". by rewrite string_app_nil_r. Qed.

(** ** Text: what valid UTF-8 decodes to

    A well-formed character is a single byte below 128, or a lead byte followed
    by continuation bytes. *)
Definition good_char (c : string) : bool :=
  match c with
  | "" => false
  | String a s =>
      negb (is_cont a) && all_cont s && (bool_decide (128 ≤ byte_of a) || str_is_empty s)
  end.

Definition good (l : list string) : Prop := Forall (λ c, good_char c = true) l.

Definition text (s : string) : Prop := ∃ l, s = str_concat l ∧ good l.

Lemma good_is_char c : good_char c = true → is_char c = true.
Proof. destruct c; simpl; [done|]. rewrite !andb_true_iff. tauto. Qed.

Lemma good_chars l : good l → chars (str_concat l) = l.
Proof.
  intros Hl. apply chars_of_chars. eapply Forall_impl; [exact Hl|]. apply good_is_char.
Qed.

Lemma text_chars s : text s → good (chars s).
Proof. intros (l & -> & Hl). by rewrite good_chars. Qed.

Lemma text_concat l : good l → text (str_concat l).
Proof. intros Hl. by exists l. Qed.

Lemma text_app s t : text s → text t → text (s +:+ t).
Proof.
  intros (l & -> & Hl) (k & -> & Hk). exists (l ++ k).
  split; [by rewrite str_concat_app|]. by apply Forall_app.
Qed.

(** Taking an ASCII character off the front leaves a character boundary. *)
Lemma text_tail a s : text (String a s) → byte_of a < 128 → text s.
Proof.
  intros ([|c l] & Hs & Hl) Ha; simpl in *; [done|].
  apply Forall_cons in Hl as [Hc Hl]. destruct c as [|b c]; [done|]. simpl in Hs.
  injection Hs as <- ->. simpl in Hc. rewrite !andb_true_iff in Hc.
  rewrite bool_decide_false in Hc by lia. destruct c; [|naive_solver].
  by exists l.
Qed.

Lemma text_not_cont a s : text (String a s) → is_cont a = false.
Proof.
  intros ([|c l] & Hs & Hl); simpl in *; [done|].
  apply Forall_cons in Hl as [Hc Hl]. destruct c as [|b c]; [done|]. simpl in Hs.
  injection Hs as <- ->. simpl in Hc. rewrite !andb_true_iff, negb_true_iff in Hc. tauto.
Qed.

Lemma text_slice_1 {E} a s :
  text (String a s) → byte_of a < 128 → slice_from (E:=E) 1 (String a s) = Ok s.
Proof.
  intros Ht Ha. pose proof (text_tail _ _ Ht Ha) as Hs. simpl.
  destruct s as [|b s]; [done|]. by rewrite (text_not_cont _ _ Hs).
Qed.

Lemma byte_of_range a : 0 ≤ byte_of a < 256.
Proof. unfold byte_of. pose proof (N_ascii_bounded a). lia. Qed.

Lemma cont_range lo hi a :
  0x80 ≤ lo → hi ≤ 0xBF → in_range lo hi a = true → is_cont a = true.
Proof.
  unfold in_range, is_cont. rewrite !bool_decide_eq_true. lia.
Qed.

(** The continuation bytes that the automaton expects. *)
Lemma utf8_rest n lo hi s :
  0x80 ≤ lo → hi ≤ 0xBF → utf8_from (Some (lo, hi, n)) s = true →
  ∃ c t, s = c +:+ t ∧ all_cont c = true ∧ utf8_from None t = true ∧
         (String.length t < String.length s)%nat.
Proof.
  revert lo hi s. induction n as [|n IH]; intros lo hi s Hlo Hhi;
    destruct s as [|a s]; simpl; try done; intros [Ha Hs]%andb_prop.
  - exists (String a ""), s. simpl. rewrite (cont_range lo hi a) by done. split_and!; try done. lia.
  - apply IH in Hs as (c & t & -> & Hc & Ht & Hlen); [|lia..].
    exists (String a c), t. simpl. rewrite (cont_range lo hi a), Hc by done.
    split_and!; try done. simpl in *. lia.
Qed.

Lemma lead_range a lo hi n :
  lead a = Some (lo, hi, n) → 128 ≤ byte_of a ∧ is_cont a = false ∧ 0x80 ≤ lo ∧ hi ≤ 0xBF.
Proof.
  unfold lead, is_cont. rewrite bool_decide_eq_false.
  repeat case_bool_decide; intros; simplify_eq; lia.
Qed.

(** Valid UTF-8 is text. *)
Lemma is_utf8_text s : is_utf8 s = true → text s.
Proof.
  unfold is_utf8. remember (String.length s) as n eqn:Hn.
  revert s Hn. induction (lt_wf n) as [n _ IH]. intros s -> Hs.
  destruct s as [|a s]; [exists []; by split; [|constructor]|]. simpl in Hs.
  destruct (in_range 0 127 a) eqn:Ha.
  - destruct (IH (String.length s)) with (s := s) as (l & -> & Hl); [simpl; lia|done|done|].
    exists (String a "" :: l). split; [done|]. apply Forall_cons. split; [|done]. simpl.
    unfold in_range in Ha. rewrite bool_decide_eq_true in Ha.
    unfold is_cont. by rewrite (bool_decide_false (128 ≤ byte_of a < 192)), orb_true_r by lia.
  - destruct (lead a) as [[[lo hi] k]|] eqn:Hl; [|done].
    apply lead_range in Hl as (Hb & Hc & Hlo & Hhi).
    apply utf8_rest in Hs as (c & t & -> & Hcc & Ht & Hlen); [|done..].
    destruct (IH (String.length t)) with (s := t) as (l & -> & Hl); [simpl; lia|done|done|].
    exists (String a c :: l). split; [done|]. apply Forall_cons. split; [|done]. simpl.
    by rewrite Hc, Hcc, bool_decide_true.
Qed.

Lemma drop_while_incl {A} (p : A → bool) l : drop_while p l ⊆+ l.
Proof.
  induction l as [|x l IH]; simpl; [done|]. destruct (p x); [|done].
  by apply submseteq_cons.
Qed.

Lemma good_sub l k : good l → k ⊆+ l → good k.
Proof.
  intros Hl Hk. apply Forall_forall. intros c Hc. unfold good in Hl.
  rewrite Forall_forall in Hl. apply Hl. by eapply elem_of_submseteq.
Qed.

Lemma trim_text s : text s → text (trim s).
Proof.
  intros Hs%text_chars. unfold trim. apply text_concat.
  eapply good_sub; [exact Hs|]. rewrite reverse_Permutation.
  etrans; [apply drop_while_incl|]. rewrite reverse_Permutation. apply drop_while_incl.
Qed.

(** A split before an ASCII character is at a character boundary. *)
Lemma text_split_before p a s : text (p +:+ String a s) → byte_of a < 128 → text (String a s).
Proof.
  intros (l & Hs & Hl) Ha. assert (Hc : is_cont a = false).
  { unfold is_cont. apply bool_decide_eq_false. lia. }
  revert p Hs. induction Hl as [|c l Hg Hl IH]; intros p Hs; [by destruct p|].
  destruct p as [|b p]; [exists (c :: l); split; [done|by constructor]|].
  destruct c as [|b' c]; [done|]. simpl in Hs, Hg. injection Hs as <- Hs.
  rewrite !andb_true_iff in Hg. destruct Hg as [[_ Hcc] _].
  assert (Hp : ∃ q, p = c +:+ q).
  { clear -Hs Hcc Hc. revert p Hs. induction c as [|x c IHc]; intros p Hs; [by exists p|].
    simpl in Hcc. apply andb_prop in Hcc as [Hx Hcc].
    destruct p as [|y p]; simpl in Hs; injection Hs as Hy Hs; [congruence|].
    destruct (IHc Hcc _ Hs) as [q ->]. exists q. by rewrite Hy. }
  destruct Hp as [q ->]. rewrite string_app_assoc in Hs.
  apply (IH q). clear -Hs. induction c as [|x c IHc]; simpl in Hs; [done|].
  injection Hs as Hs. by apply IHc.
Qed.

Lemma split_at_char_Some c s p r :
  split_at_char c s = Some (p, r) → s = p +:+ r ∧ ∃ r', r = String c r'.
Proof.
  revert p. induction s as [|a s IH]; intros p; simpl; [done|].
  case_bool_decide; [intros [= <- <-]; subst; by eauto|].
  destruct (split_at_char c s) as [[p' r']|]; simpl; [|done].
  intros [= <- <-]. destruct (IH _ eq_refl) as [-> ?]. done.
Qed.

Lemma existsb_find {A} (f : A → bool) l : existsb f l = true → is_Some (List.find f l).
Proof. induction l as [|x l IH]; simpl; [done|]. destruct (f x); simpl; eauto. Qed.

(** Cutting valid UTF-8 after valid UTF-8 leaves valid UTF-8. *)
Lemma utf8_from_app_inv n p s :
  utf8_from n (p +:+ s) = true → utf8_from n p = true → utf8_from None s = true.
Proof.
  revert n. induction p as [|a p IH]; intros n; simpl.
  - by destruct n as [[[??]?]|].
  - destruct n as [[[lo hi] n]|].
    + intros [_ H1]%andb_prop [_ H2]%andb_prop. by eapply IH.
    + destruct (in_range 0 127 a); [by apply IH|]. destruct (lead a); [by apply IH|done].
Qed.

Lemma is_utf8_app_inv p s : is_utf8 (p +:+ s) = true → is_utf8 p = true → is_utf8 s = true.
Proof. apply utf8_from_app_inv. Qed.

Lemma utf8_from_app n p s :
  utf8_from n p = true → utf8_from None s = true → utf8_from n (p +:+ s) = true.
Proof.
  revert n. induction p as [|a p IH]; intros n; simpl.
  - by destruct n as [[[??]?]|].
  - destruct n as [[[lo hi] n]|].
    + intros [-> H1]%andb_prop H2. by apply IH.
    + destruct (in_range 0 127 a); [by apply IH|]. destruct (lead a); [by apply IH|done].
Qed.

Lemma is_utf8_app p s : is_utf8 p = true → is_utf8 s = true → is_utf8 (p +:+ s) = true.
Proof. apply utf8_from_app. Qed.

(** Slicing at a character boundary. *)
Lemma slice_from_app {E} p s : text s → slice_from (E:=E) (String.length p) (p +:+ s) = Ok s.
Proof.
  intros Hs. induction p as [|a p IH]; simpl; [|done].
  destruct s as [|b s]; [done|]. by rewrite (text_not_cont _ _ Hs).
Qed.

Lemma text_strip_ascii p s :
  Forall (λ b, b < 128) (to_bytes p) → text (p +:+ s) → text s.
Proof.
  induction p as [|a p IH]; simpl; [done|]. intros [Ha Hp]%Forall_cons Ht.
  apply IH; [done|]. by eapply text_tail.
Qed.

(** The words of a text are texts. *)
Lemma split_ws_text l cur : good l → text cur → Forall text (split_ws cur l).
Proof.
  intros Hl. revert cur. induction Hl as [|c l Hc Hl IH]; intros cur Hcur; simpl.
  - unfold flush. destruct (str_is_empty cur); by repeat constructor.
  - assert (Hn : text "") by (exists []; by split; [|constructor]).
    destruct (is_whitespace c).
    + apply Forall_app. split; [unfold flush; destruct (str_is_empty cur); by repeat constructor|].
      by apply IH.
    + apply IH. apply text_app; [done|]. exists [c]. simpl. rewrite string_app_nil_r.
      split; [done|]. by constructor.
Qed.

Lemma split_whitespace_text s : text s → Forall text (split_whitespace s).
Proof. intros Hs. apply split_ws_text; [by apply text_chars|]. exists []. by split; [|constructor]. Qed.

Lemma string_app_inj p s t : p +:+ s = p +:+ t → s = t.
Proof. induction p as [|a p IH]; simpl; [done|]. intros [=]. by apply IH. Qed.

Lemma ends_with_app p s : ends_with p (s +:+ p) = true.
Proof.
  induction s as [|a s IH].
  - change ("" +:+ p) with p. destruct p; cbn [ends_with]; by rewrite bool_decide_true.
  - change (String a s +:+ p) with (String a (s +:+ p)). cbn [ends_with].
    by rewrite IH, orb_true_r.
Qed.

(** ** Strings as keys *)
Lemma byte_of_inj a b : byte_of a = byte_of b → a = b.
Proof.
  unfold byte_of. intros Hb%N2Z.inj. rewrite <-(ascii_N_embedding a), <-(ascii_N_embedding b).
  by rewrite Hb.
Qed.

Lemma str_leb_refl s : str_leb s s = true.
Proof. induction s as [|a s IH]; simpl; [done|]. by rewrite Z.eqb_refl, IH, orb_true_r. Qed.

Lemma str_leb_cons a s b t :
  str_leb (String a s) (String b t) = true ↔
  byte_of a < byte_of b ∨ byte_of a = byte_of b ∧ str_leb s t = true.
Proof. simpl. by rewrite orb_true_iff, andb_true_iff, Z.ltb_lt, Z.eqb_eq. Qed.

#[local] Opaque str_leb.
#[global] Program Instance string_btree_key : BTreeKey string :=
  {| key_le s t := str_leb s t = true; key_le_dec s t := decide (str_leb s t = true) |}.
Next Obligation.
  intros s. induction s as [|a s IH]; intros [|b t]; [by left..|by right|]. rewrite !str_leb_cons.
  destruct (Z.lt_trichotomy (byte_of a) (byte_of b)) as [?|[?|?]]; [auto| |auto].
  destruct (IH t); [left|right]; right; split; congruence.
Qed.
Next Obligation.
  split; [split|].
  - intros s. apply str_leb_refl.
  - intros s. induction s as [|a s IH]; intros [|b t] [|c u]; try done.
    rewrite !str_leb_cons. intros [?|[? ?]] [?|[? ?]]; [left; lia..|]. right.
    split; [lia|]. by eapply IH.
  - intros s. induction s as [|a s IH]; intros [|b t]; try done.
    rewrite !str_leb_cons. intros [?|[Hb Ht]] [?|[? ?]]; try lia.
    apply byte_of_inj in Hb as ->. f_equal. by apply IH.
Qed.
