(* ===== verification/Ivc.v ===== *)
(** * Inter-VM communication channels ([kernel/src/vmm/ivc.rs])

    The state is the global map [IVC_CHANNELS] from (publisher VM id, key) to
    channels, the host frame allocator the channels take their shared region
    from, and the headers written at the start of the shared regions.  A channel
    value that goes out of scope runs [IVCChannel::drop], which gives its frame
    back; the model calls [drop_channel] at each place where Rust drops one. *)

From S2P Require Import Prelude.

(** ** The host frame allocator

    [page_table_multiarch::PagingHandler] is a trait of another crate: its
    operations are parameters, and [PagingHandlerOk] is what its documentation
    promises: an allocated frame was free and is in use afterwards; freeing a
    frame makes it available again. *)
Class PagingHandler (F : Type) : Type := {
  alloc_frame : F → option Z * F;
  dealloc_frame : Z → F → F;
}.

Class PagingHandlerOk (F : Type) `{!PagingHandler F} : Type := {
  in_use : F → gset Z;
  alloc_frame_some fa p fa' :
    alloc_frame fa = (Some p, fa') →
    (p ∉ in_use fa) ∧ (in_use fa' = {[p]} ∪ in_use fa);
  alloc_frame_none fa fa' :
    alloc_frame fa = (None, fa') → in_use fa' = in_use fa;
  dealloc_frame_in_use p fa :
    in_use (dealloc_frame p fa) = in_use fa ∖ {[p]};
}.

(** ** Data *)

Record IVCChannelHeader : Type := {
  hdr_publisher_id : Z;
  hdr_key : Z;
}.

Record IVCChannel : Type := mkIVCChannel {
  publisher_vm_id : Z;
  key : Z;
  subscriber_vms : gmap Z Z;
  shared_region_base : Z;
  shared_region_size : Z;
  base_gpa : option Z;
}.

Definition set_base_gpa (g : option Z) (c : IVCChannel) : IVCChannel :=
  mkIVCChannel (publisher_vm_id c) (key c) (subscriber_vms c)
    (shared_region_base c) (shared_region_size c) g.

Definition set_subscriber_vms (m : gmap Z Z) (c : IVCChannel) : IVCChannel :=
  mkIVCChannel (publisher_vm_id c) (key c) m
    (shared_region_base c) (shared_region_size c) (base_gpa c).

(** Accessors of [impl IVCChannel]. *)
Definition base_hpa (c : IVCChannel) : Z := shared_region_base c.
Definition base_gpa_in_publisher (c : IVCChannel) : option Z := base_gpa c.
Definition channel_size (c : IVCChannel) : Z := shared_region_size c.

(** [entry(id).or_insert(gpa)]: an existing subscription is kept. *)
Definition add_subscriber (subscriber_vm_id subscriber_gpa : Z) (c : IVCChannel)
  : IVCChannel :=
  match subscriber_vms c !! subscriber_vm_id with
  | Some _ => c
  | None => set_subscriber_vms (<[subscriber_vm_id := subscriber_gpa]> (subscriber_vms c)) c
  end.

Definition remove_subscriber (subscriber_vm_id : Z) (c : IVCChannel)
  : option Z * IVCChannel :=
  (subscriber_vms c !! subscriber_vm_id,
   set_subscriber_vms (delete subscriber_vm_id (subscriber_vms c)) c).

Definition subscribers (c : IVCChannel) : list (Z * Z) := btree_iter (subscriber_vms c).

(** ** The module's state and operations *)

Record ivc_state (F : Type) : Type := mkIvc {
  channels : gmap (Z * Z) IVCChannel;
  frames : F;
  headers : gmap Z IVCChannelHeader;
}.
Arguments mkIvc {F} _ _ _.
Arguments channels {F} _.
Arguments frames {F} _.
Arguments headers {F} _.

Section operations.
Context {F : Type} `{!PagingHandler F}.

Abbreviation ivcM := (st (ivc_state F) AxError).

Definition set_channels (m : gmap (Z * Z) IVCChannel) (s : ivc_state F) : ivc_state F :=
  mkIvc m (frames s) (headers s).

(** [Drop for IVCChannel]: the shared frame is given back. *)
Definition drop_channel (c : IVCChannel) : ivcM () :=
  modify (λ s, mkIvc (channels s) (dealloc_frame (shared_region_base c) (frames s)) (headers s)).

(** [channel.header_mut().publisher_id = ..; channel.header_mut().key = ..]. *)
Definition write_header (c : IVCChannel) (h : IVCChannelHeader) : ivcM () :=
  modify (λ s, mkIvc (channels s) (frames s) (<[shared_region_base c := h]> (headers s))).

(** [IVCChannel::alloc]. *)
Definition alloc (pub_id k req_size gpa : Z) : ivcM IVCChannel :=
  let sz := Z.min req_size 4096 in
  s ← get;
  match alloc_frame (frames s) with
  | (None, fa) => put (mkIvc (channels s) fa (headers s));; throw NoMemory
  | (Some base, fa) =>
      put (mkIvc (channels s) fa (headers s));;
      let channel := mkIVCChannel pub_id k ∅ base sz (Some gpa) in
      write_header channel {| hdr_publisher_id := pub_id; hdr_key := k |};;
      mret channel
  end.

(** [insert_channel]: [BTreeMap::insert] puts the new channel in place also when
    there was one; the old one is dropped when the condition has been read. *)
Definition insert_channel (pub_id : Z) (channel : IVCChannel) : ivcM () :=
  s ← get;
  let old := channels s !! (pub_id, key channel) in
  put (set_channels (<[(pub_id, key channel) := channel]> (channels s)) s);;
  match old with
  | Some c => drop_channel c;; throw AlreadyExists
  | None => mret ()
  end.

(** [unpublish_channel]: the channel is taken out of the map first; the [?] on a
    missing base GPA returns with the channel dropped. *)
Definition unpublish_channel (pub_id k : Z) : ivcM (option (Z * Z)) :=
  s ← get;
  match channels s !! (pub_id, k) with
  | Some channel =>
      put (set_channels (delete (pub_id, k) (channels s)) s);;
      match base_gpa_in_publisher channel with
      | None => drop_channel channel;; throw NotFound
      | Some gpa =>
          let sz := channel_size channel in
          (if negb (is_empty (subscribers channel)) then
             s ← get;
             put (set_channels
                    (<[(pub_id, k) := set_base_gpa None channel]> (channels s)) s)
           else drop_channel channel);;
          mret (Some (gpa, sz))
      end
  | None => throw NotFound
  end.

Definition get_channel_size (pub_id k : Z) : ivcM Z :=
  s ← get;
  match channels s !! (pub_id, k) with
  | Some channel => mret (channel_size channel)
  | None => throw NotFound
  end.

Definition subscribe_to_channel_of_publisher (pub_id k sub_id sub_gpa : Z)
  : ivcM (Z * Z) :=
  s ← get;
  match channels s !! (pub_id, k) with
  | Some channel =>
      let channel := add_subscriber sub_id sub_gpa channel in
      put (set_channels (<[(pub_id, k) := channel]> (channels s)) s);;
      mret (base_hpa channel, channel_size channel)
  | None => throw NotFound
  end.

Definition unsubscribe_from_channel_of_publisher (pub_id k sub_id : Z)
  : ivcM (Z * Z) :=
  s ← get;
  '(gpa, sz) ←
    match channels s !! (pub_id, k) with
    | Some channel =>
        let '(removed, channel) := remove_subscriber sub_id channel in
        put (set_channels (<[(pub_id, k) := channel]> (channels s)) s);;
        match removed with
        | Some sub_gpa => mret (sub_gpa, channel_size channel)
        | None => throw NotFound
        end
    | None => throw NotFound
    end;
  s ← get;
  match channels s !! (pub_id, k) with
  | Some c =>
      if is_empty (subscribers c) && negb (bool_decide (is_Some (base_gpa c))) then
        put (set_channels (delete (pub_id, k) (channels s)) s);;
        drop_channel c
      else mret ()
  | None => mret ()
  end;;
  mret (gpa, sz).

End operations.

(** ** The invariant

    [ivc_wf R s]: [R] is the set of frames in use for other purposes (other
    parts of the hypervisor, or a channel that is allocated and not inserted
    yet).  The frames in use are exactly those of [R] and those of the channels
    of the map, each owned once; so no frame of a channel leaks or is freed
    while the map still names it. *)
Section invariant.
Context {F : Type} `{!PagingHandler F} `{!PagingHandlerOk F}.
Implicit Types (s : ivc_state F) (c : IVCChannel) (R : gset Z).

Record ivc_wf R s : Prop := {
  wf_key i c : channels s !! i = Some c → i = (publisher_vm_id c, key c);
  wf_size i c : channels s !! i = Some c → 0 ≤ channel_size c ≤ 4096;
  wf_unpublished i c :
    channels s !! i = Some c → base_gpa c = None → subscriber_vms c ≠ ∅;
  wf_in_use p :
    p ∈ in_use (frames s) ↔
    p ∈ R ∨ ∃ i c, channels s !! i = Some c ∧ base_hpa c = p;
  wf_reserved i c : channels s !! i = Some c → base_hpa c ∉ R;
  wf_owner i j c d :
    channels s !! i = Some c → channels s !! j = Some d →
    base_hpa c = base_hpa d → i = j;
}.

(** A channel value outside the map: its frame is reserved. *)
Record channel_ok R c : Prop := {
  ok_size : 0 ≤ channel_size c ≤ 4096;
  ok_fresh : base_hpa c ∉ R;
  ok_published : base_gpa c = None → subscriber_vms c ≠ ∅;
}.

Lemma wf_channel_ok R s i c :
  ivc_wf R s → channels s !! i = Some c → channel_ok R c.
Proof. intros W Hc. split; eauto using wf_size, wf_reserved, wf_unpublished. Qed.

(** Taking a channel out of the map reserves its frame. *)
Lemma wf_take R s i c :
  ivc_wf R s → channels s !! i = Some c →
  ivc_wf ({[base_hpa c]} ∪ R) (set_channels (delete i (channels s)) s).
Proof.
  intros W Hc. split; simpl; intros *;
    rewrite ?lookup_delete_Some; intros; destruct_and?;
    eauto using wf_key, wf_size, wf_unpublished, wf_owner.
  - rewrite (wf_in_use _ _ W), elem_of_union, elem_of_singleton.
    setoid_rewrite lookup_delete_Some. split.
    + intros [?|(j & d & Hd & <-)]; [by auto|].
      destruct (decide (i = j)) as [<-|]; [|naive_solver].
      simplify_eq. by auto.
    + naive_solver.
  - rewrite not_elem_of_union, not_elem_of_singleton.
    split; [|by eapply wf_reserved]. intros ?.
    by pose proof (wf_owner _ _ W i0 i c0 c ltac:(done) ltac:(done) ltac:(done)); subst.
Qed.

(** Putting it back in place of nothing releases the reservation. *)
Lemma wf_give R s c :
  channel_ok R c →
  channels s !! (publisher_vm_id c, key c) = None →
  ivc_wf ({[base_hpa c]} ∪ R) s →
  ivc_wf R (set_channels (<[(publisher_vm_id c, key c) := c]> (channels s)) s).
Proof.
  intros [Hsz Hfr Hpub] Hn W.
  assert (Hno : ∀ i d, channels s !! i = Some d → base_hpa d ≠ base_hpa c ∧ base_hpa d ∉ R).
  { intros i d Hd. pose proof (wf_reserved _ _ W _ _ Hd) as Hr. set_solver. }
  split; simpl.
  - intros i d [[<- <-]|[_ Hd]]%lookup_insert_Some; [done|by eapply wf_key].
  - intros i d [[<- <-]|[_ Hd]]%lookup_insert_Some; [done|by eapply wf_size].
  - intros i d [[<- <-]|[_ Hd]]%lookup_insert_Some; [done|by eapply wf_unpublished].
  - intros p. rewrite (wf_in_use _ _ W), elem_of_union, elem_of_singleton. split.
    + intros [[->|?]|(i & d & Hd & <-)]; [right|by auto|right].
      * eexists _, c. by rewrite lookup_insert_eq.
      * exists i, d. rewrite lookup_insert_ne; [done|]. intros <-. congruence.
    + intros [?|(i & d & [[<- <-]|[_ Hd]]%lookup_insert_Some & <-)]; eauto.
  - intros i d [[<- <-]|[_ Hd]]%lookup_insert_Some; [done|by eapply Hno].
  - intros i j d e [[<- <-]|[Hi Hd]]%lookup_insert_Some [[<- <-]|[Hj He]]%lookup_insert_Some Hb.
    + done.
    + by destruct (Hno _ _ He) as [[] _].
    + by destruct (Hno _ _ Hd) as [[] _].
    + by eapply wf_owner.
Qed.

(** Dropping a channel that is in no map frees exactly its frame. *)
Lemma wf_drop R s c :
  base_hpa c ∉ R →
  ivc_wf ({[base_hpa c]} ∪ R) s → ivc_wf R (drop_channel c s).2.
Proof.
  intros Hfr W. split; simpl; intros *; intros;
    eauto using wf_key, wf_size, wf_unpublished, wf_owner.
  - rewrite dealloc_frame_in_use, elem_of_difference, (wf_in_use _ _ W),
      elem_of_union, !elem_of_singleton.
    unfold base_hpa in *. split; [naive_solver|].
    intros [?|(i & d & Hd & <-)]; [set_solver|].
    pose proof (wf_reserved _ _ W _ _ Hd). unfold base_hpa in *.
    split; [by eauto|set_solver].
  - pose proof (wf_reserved _ _ W i c0 ltac:(done)). set_solver.
Qed.

(** A change of a channel in place that keeps what the invariant reads. *)
Lemma wf_update R s i c d :
  channels s !! i = Some c →
  publisher_vm_id d = publisher_vm_id c → key d = key c →
  channel_size d = channel_size c → base_hpa d = base_hpa c →
  (base_gpa d = None → subscriber_vms d ≠ ∅) →
  ivc_wf R s → ivc_wf R (set_channels (<[i := d]> (channels s)) s).
Proof.
  intros Hc Hp Hk Hs Hb Hg W. pose proof (wf_key _ _ W _ _ Hc) as Hi.
  rewrite <-Hp, <-Hk in Hi. rewrite <-(insert_delete_eq (channels s)).
  pose proof (wf_channel_ok _ _ _ _ W Hc) as [].
  pose proof (wf_take _ _ _ _ W Hc) as Wt. rewrite Hi in *.
  refine (wf_give R (set_channels (delete (publisher_vm_id d, key d) (channels s)) s) d _ _ _).
  - split; [by rewrite Hs|by rewrite Hb|done].
  - exact (lookup_delete_eq (channels s) _).
  - by rewrite Hb.
Qed.

Lemma alloc_wf R s pub_id k req_size gpa c s' :
  0 ≤ req_size → ivc_wf R s → alloc pub_id k req_size gpa s = (Ok c, s') →
  ivc_wf ({[base_hpa c]} ∪ R) s' ∧ (base_hpa c ∉ R) ∧ channels s' = channels s ∧
  c = mkIVCChannel pub_id k ∅ (base_hpa c) (Z.min req_size 4096) (Some gpa) ∧
  headers s' = <[base_hpa c := {| hdr_publisher_id := pub_id; hdr_key := k |}]> (headers s).
Proof.
  intros Hsz W. unfold alloc, write_header. st_run.
  destruct (alloc_frame (frames s)) as [[p|] fa] eqn:Ha; intros [= <- <-].
  destruct (alloc_frame_some _ _ _ Ha) as [Hp Hu]. simpl.
  unfold base_hpa. simpl. rewrite (wf_in_use _ _ W) in Hp.
  split_and!; [|naive_solver..].
  split; simpl; eauto using wf_key, wf_size, wf_unpublished, wf_owner.
  - intros q. rewrite Hu, !elem_of_union, (wf_in_use _ _ W). naive_solver.
  - intros i c Hc. pose proof (wf_reserved _ _ W _ _ Hc).
    rewrite not_elem_of_union, not_elem_of_singleton. naive_solver.
Qed.

Lemma alloc_err_wf R s pub_id k req_size gpa e s' :
  ivc_wf R s → alloc pub_id k req_size gpa s = (Err e, s') →
  ivc_wf R s' ∧ e = NoMemory ∧ channels s' = channels s.
Proof.
  intros W. unfold alloc, write_header. st_run.
  destruct (alloc_frame (frames s)) as [[p|] fa] eqn:Ha; intros [= <- <-].
  apply alloc_frame_none in Ha. split; [|done].
  split; simpl; rewrite ?Ha; apply W.
Qed.

Lemma alloc_in_use s pub_id k req_size gpa c s' :
  alloc pub_id k req_size gpa s = (Ok c, s') →
  in_use (frames s') = {[base_hpa c]} ∪ in_use (frames s).
Proof.
  unfold alloc, write_header. st_run.
  destruct (alloc_frame (frames s)) as [[p|] fa] eqn:Ha; intros [= <- <-].
  by apply alloc_frame_some in Ha as [_ ?].
Qed.

Lemma alloc_fresh s pub_id k req_size gpa c s' :
  alloc pub_id k req_size gpa s = (Ok c, s') → base_hpa c ∉ in_use (frames s).
Proof.
  unfold alloc, write_header. st_run.
  destruct (alloc_frame (frames s)) as [[p|] fa] eqn:Ha; intros [= <- <-].
  by apply alloc_frame_some in Ha as [? _].
Qed.

Lemma insert_channel_wf R s c r s' :
  channel_ok R c → ivc_wf ({[base_hpa c]} ∪ R) s →
  insert_channel (publisher_vm_id c) c s = (r, s') → ivc_wf R s'.
Proof.
  intros Hok W. unfold insert_channel. st_run.
  destruct (channels s !! (publisher_vm_id c, key c)) as [d|] eqn:Hd.
  2: { intros [= <- <-]. by apply wf_give. }
  pose proof (wf_channel_ok _ _ _ _ W Hd) as Hdok.
  intros [= <- <-].
  refine (wf_drop _ (set_channels (<[_ := c]> (channels s)) s) d _ _);
    [destruct Hdok; set_solver|].
  rewrite <-(insert_delete_eq (channels s)).
  refine (wf_give _ (set_channels (delete _ (channels s)) s) c _ _ _).
  - destruct Hok, Hdok. split; [done|set_solver|done].
  - exact (lookup_delete_eq (channels s) _).
  - replace ({[base_hpa c]} ∪ ({[base_hpa d]} ∪ R))
      with ({[base_hpa d]} ∪ ({[base_hpa c]} ∪ R)) by set_solver.
    by apply wf_take.
Qed.

Lemma unpublish_channel_wf R s pub_id k r s' :
  ivc_wf R s → unpublish_channel pub_id k s = (r, s') → ivc_wf R s'.
Proof.
  intros W. unfold unpublish_channel. st_run.
  destruct (channels s !! (pub_id, k)) as [c|] eqn:Hc; [|by intros [= <- <-]].
  pose proof (wf_channel_ok _ _ _ _ W Hc) as Hok.
  pose proof (wf_take _ _ _ _ W Hc) as Wt.
  destruct (base_gpa_in_publisher c) as [gpa|] eqn:Hg; cycle 1.
  { intros [= <- <-]. by refine (wf_drop _ _ _ _ Wt); apply Hok. }
  destruct (is_empty (subscribers c)) eqn:He; simpl.
  { intros [= <- <-]. by refine (wf_drop _ _ _ _ Wt); apply Hok. }
  intros [= <- <-]. unfold set_channels. simpl. rewrite insert_delete_eq.
  apply (wf_update R s _ c); try done.
  intros _ Hs%btree_iter_empty. unfold subscribers in He. simpl in Hs. congruence.
Qed.

Lemma subscribe_wf R s pub_id k sub_id gpa r s' :
  ivc_wf R s → subscribe_to_channel_of_publisher pub_id k sub_id gpa s = (r, s') →
  ivc_wf R s'.
Proof.
  intros W. unfold subscribe_to_channel_of_publisher, add_subscriber. st_run.
  destruct (channels s !! (pub_id, k)) as [c|] eqn:Hc; [|by intros [= <- <-]].
  intros [= <- <-]. apply (wf_update R s _ c); try done; repeat case_match; try done.
  - by eapply wf_unpublished.
  - intros _. apply insert_non_empty.
Qed.

Lemma unsubscribe_wf R s pub_id k sub_id r s' :
  ivc_wf R s → unsubscribe_from_channel_of_publisher pub_id k sub_id s = (r, s') →
  ivc_wf R s'.
Proof.
  intros W. unfold unsubscribe_from_channel_of_publisher, remove_subscriber. st_run.
  destruct (channels s !! (pub_id, k)) as [c|] eqn:Hc; [|by intros [= <- <-]].
  destruct (subscriber_vms c !! sub_id) as [g|] eqn:Hs; simpl; cycle 1.
  { intros [= <- <-]. apply (wf_update R s _ c); try done. simpl.
    rewrite delete_id by done. by eapply wf_unpublished. }
  rewrite lookup_insert_eq. simpl. set (d := set_subscriber_vms _ _).
  destruct (is_empty (subscribers d)) eqn:He; simpl; cycle 1.
  { intros [= <- <-]. apply (wf_update R s _ c); try done.
    intros _ Hn%btree_iter_empty. unfold subscribers in He. congruence. }
  destruct (base_gpa c) as [gpa|] eqn:Hg; simpl.
  { intros [= <- <-]. apply (wf_update R s _ c); try done. simpl. by rewrite Hg. }
  intros [= <- <-]. rewrite delete_insert_eq.
  refine (wf_drop R _ c _ (wf_take R s _ c W Hc)). by eapply wf_reserved.
Qed.
End invariant.

(** ** Interleaved executions

    Hypercalls of several vCPUs interleave: each function of the module holds
    the lock of [IVC_CHANNELS] for its whole body, but a publisher allocates its
    channel, maps it and only then inserts it.  A state of the system is the
    module's state with the channels that are allocated and not inserted yet;
    each of those is inserted under the id it was allocated for, or dropped when
    the hypercall fails in between. *)
Section system.
Context {F : Type} `{!PagingHandler F} `{!PagingHandlerOk F}.

Inductive ivc_step : relation (ivc_state F * list IVCChannel) :=
| step_alloc s l pub_id k req_size gpa c s' :
    0 ≤ req_size → alloc pub_id k req_size gpa s = (Ok c, s') →
    ivc_step (s, l) (s', c :: l)
| step_alloc_fail s l pub_id k req_size gpa e s' :
    alloc pub_id k req_size gpa s = (Err e, s') → ivc_step (s, l) (s', l)
| step_insert s l1 c l2 r s' :
    insert_channel (publisher_vm_id c) c s = (r, s') →
    ivc_step (s, l1 ++ c :: l2) (s', l1 ++ l2)
| step_abandon s l1 c l2 r s' :
    drop_channel c s = (r, s') → ivc_step (s, l1 ++ c :: l2) (s', l1 ++ l2)
| step_unpublish s l pub_id k r s' :
    unpublish_channel pub_id k s = (r, s') → ivc_step (s, l) (s', l)
| step_subscribe s l pub_id k sub_id gpa r s' :
    subscribe_to_channel_of_publisher pub_id k sub_id gpa s = (r, s') →
    ivc_step (s, l) (s', l)
| step_unsubscribe s l pub_id k sub_id r s' :
    unsubscribe_from_channel_of_publisher pub_id k sub_id s = (r, s') →
    ivc_step (s, l) (s', l).

Definition pending_frames (l : list IVCChannel) : gset Z := list_to_set (base_hpa <$> l).

Definition sys_wf (R : gset Z) (x : ivc_state F * list IVCChannel) : Prop :=
  ivc_wf (pending_frames x.2 ∪ R) x.1 ∧ NoDup (base_hpa <$> x.2) ∧
  Forall (channel_ok R) x.2.

(** The in-flight channel that a step consumes can be taken to the front. *)
Lemma sys_wf_focus R s l1 c l2 :
  sys_wf R (s, l1 ++ c :: l2) →
  channel_ok (pending_frames (l1 ++ l2) ∪ R) c ∧
  ivc_wf ({[base_hpa c]} ∪ (pending_frames (l1 ++ l2) ∪ R)) s ∧
  NoDup (base_hpa <$> (l1 ++ l2)) ∧ Forall (channel_ok R) (l1 ++ l2).
Proof.
  intros (W & Hnd & Hok). simpl in *.
  rewrite <-Permutation_middle in Hnd, Hok. simpl in Hnd.
  apply NoDup_cons in Hnd as [Hc Hnd]. apply Forall_cons in Hok as [Hcok Hok].
  split_and!; try done.
  - destruct Hcok as [? Hr ?]. split; [done| |done].
    rewrite not_elem_of_union. split; [|done].
    unfold pending_frames. by rewrite elem_of_list_to_set.
  - assert (pending_frames (l1 ++ c :: l2) ∪ R
            = {[base_hpa c]} ∪ (pending_frames (l1 ++ l2) ∪ R)) as <-; [|done].
    unfold pending_frames. rewrite !fmap_app, fmap_cons, !list_to_set_app_L. set_solver.
Qed.

Lemma ivc_step_wf R x y : sys_wf R x → ivc_step x y → sys_wf R y.
Proof.
  intros W Hstep. destruct Hstep; cbn [fst snd] in *;
    try (apply sys_wf_focus in W as (Hok & W & Hnd & Hall));
    try (destruct W as (W & Hnd & Hall); cbn [fst snd] in * ).
  - destruct (alloc_wf _ _ _ _ _ _ _ _ ltac:(done) W ltac:(done)) as (W' & Hf & _ & Hc & _).
    split_and!; cbn [fst snd].
    + unfold pending_frames in *. simpl. by rewrite <-(assoc_L (∪)).
    + apply NoDup_cons. split; [|done]. unfold pending_frames in Hf.
      rewrite not_elem_of_union, elem_of_list_to_set in Hf. naive_solver.
    + apply Forall_cons. split; [|done]. rewrite Hc in Hf |- *.
      split; [unfold channel_size; simpl; lia|set_solver|done].
  - split; [by eapply alloc_err_wf|done].
  - split; [by eapply insert_channel_wf|done].
  - split; [|done]. destruct Hok as [_ Hf _].
    pose proof (wf_drop _ _ _ Hf W) as W'. by rewrite H in W'.
  - split; [by eapply unpublish_channel_wf|done].
  - split; [by eapply subscribe_wf|done].
  - split; [by eapply unsubscribe_wf|done].
Qed.

(** The module's state at boot: no channel, and [R] the frames in use. *)
Definition ivc_init (fa : F) : ivc_state F * list IVCChannel := (mkIvc ∅ fa ∅, []).

Lemma ivc_init_wf fa : sys_wf (in_use fa) (ivc_init fa).
Proof.
  split_and!; [|constructor..]. split; simpl; try by intros *; rewrite lookup_empty.
  intros p. rewrite elem_of_union. setoid_rewrite lookup_empty.
  unfold pending_frames. set_solver.
Qed.

Lemma ivc_reachable_wf fa x : rtc ivc_step (ivc_init fa) x → sys_wf (in_use fa) x.
Proof.
  intros H. remember (ivc_init fa) as x0 eqn:Hx.
  pose proof (ivc_init_wf fa) as W. rewrite <-Hx in W. clear Hx.
  induction H; eauto using ivc_step_wf.
Qed.
End system.

(** ** An allocator that satisfies the interface

    Frames in use as a set; the first free frame of a pool of four. *)
Definition pool : Type := gset Z.

Definition pool_frames : list Z := [0x1000; 0x2000; 0x3000; 0x4000].

Definition pool_alloc (u : pool) : option Z * pool :=
  match list_find (λ p, p ∉ u) pool_frames with
  | Some (_, p) => (Some p, {[p]} ∪ u)
  | None => (None, u)
  end.

#[global] Instance pool_handler : PagingHandler pool := {|
  alloc_frame := pool_alloc;
  dealloc_frame p u := u ∖ {[p]};
|}.

#[global] Program Instance pool_handler_ok : PagingHandlerOk pool := {| in_use u := u |}.
Next Obligation.
  simpl. unfold pool_alloc. intros u p u'.
  destruct (list_find _ _) as [[i q]|] eqn:Hf; [|done].
  intros [= <- <-]. apply list_find_Some in Hf as (_ & Hq & _). done.
Qed.
Next Obligation.
  simpl. unfold pool_alloc. intros u u'. by destruct (list_find _ _) as [[i q]|]; intros [= <-].
Qed.
Next Obligation. done. Qed.

(** ** Functional behaviour, branch by branch *)
Section behaviour.
Context {F : Type} `{!PagingHandler F}.
Implicit Types (s : ivc_state F) (c : IVCChannel).

Definition free_frame (p : Z) (s : ivc_state F) : ivc_state F :=
  mkIvc (channels s) (dealloc_frame p (frames s)) (headers s).

Lemma add_subscriber_new v gpa c :
  subscriber_vms c !! v = None →
  add_subscriber v gpa c = set_subscriber_vms (<[v := gpa]> (subscriber_vms c)) c.
Proof. intros Hv. unfold add_subscriber. by rewrite Hv. Qed.

Lemma insert_channel_eq pub_id c s :
  insert_channel pub_id c s =
  let s' := set_channels (<[(pub_id, key c) := c]> (channels s)) s in
  match channels s !! (pub_id, key c) with
  | None => (Ok (), s')
  | Some d => (Err AlreadyExists, free_frame (base_hpa d) s')
  end.
Proof. unfold insert_channel. st_run. by destruct (_ !! _). Qed.

Lemma unpublish_channel_eq pub_id k s :
  unpublish_channel pub_id k s =
  match channels s !! (pub_id, k) with
  | None => (Err NotFound, s)
  | Some c =>
      let s' := set_channels (delete (pub_id, k) (channels s)) s in
      match base_gpa c with
      | None => (Err NotFound, free_frame (base_hpa c) s')
      | Some gpa =>
          (Ok (Some (gpa, channel_size c)),
           if decide (subscriber_vms c = ∅) then free_frame (base_hpa c) s'
           else set_channels (<[(pub_id, k) := set_base_gpa None c]> (channels s)) s)
      end
  end.
Proof.
  unfold unpublish_channel. st_run. destruct (_ !! _) as [c|]; [|done].
  unfold base_gpa_in_publisher. destruct (base_gpa c); [|done].
  unfold subscribers. pose proof (btree_iter_empty (subscriber_vms c)) as He.
  destruct (decide _) as [Hd|Hd]; [by rewrite (proj2 He Hd)|].
  destruct (is_empty _); [by destruct Hd; apply He|].
  simpl. unfold set_channels. simpl. by rewrite insert_delete_eq.
Qed.

Lemma subscribe_eq pub_id k sub_id gpa s :
  subscribe_to_channel_of_publisher pub_id k sub_id gpa s =
  match channels s !! (pub_id, k) with
  | None => (Err NotFound, s)
  | Some c =>
      (Ok (base_hpa c, channel_size c),
       set_channels (<[(pub_id, k) := add_subscriber sub_id gpa c]> (channels s)) s)
  end.
Proof.
  unfold subscribe_to_channel_of_publisher, add_subscriber. st_run.
  destruct (_ !! _) as [c|]; [|done]. by destruct (subscriber_vms c !! sub_id).
Qed.

Lemma unsubscribe_eq pub_id k sub_id s :
  unsubscribe_from_channel_of_publisher pub_id k sub_id s =
  match channels s !! (pub_id, k) with
  | None => (Err NotFound, s)
  | Some c =>
      match subscriber_vms c !! sub_id with
      | None => (Err NotFound, s)
      | Some gpa =>
          let subs := delete sub_id (subscriber_vms c) in
          (Ok (gpa, channel_size c),
           if decide (subs = ∅ ∧ base_gpa c = None)
           then free_frame (base_hpa c) (set_channels (delete (pub_id, k) (channels s)) s)
           else set_channels (<[(pub_id, k) := set_subscriber_vms subs c]> (channels s)) s)
      end
  end.
Proof.
  unfold unsubscribe_from_channel_of_publisher, remove_subscriber. st_run.
  destruct (channels s !! (pub_id, k)) as [c|] eqn:Hc; [|done].
  destruct (subscriber_vms c !! sub_id) as [g|] eqn:Hs; simpl; cycle 1.
  { rewrite delete_id by done. destruct c, s; simpl in *.
    unfold set_channels. simpl. by rewrite insert_id. }
  rewrite lookup_insert_eq. unfold subscribers. simpl.
  pose proof (btree_iter_empty (delete sub_id (subscriber_vms c))) as He.
  destruct (decide _) as [[Hd Hb]|Hn].
  - rewrite (proj2 He Hd), Hb. unfold set_channels. simpl. by rewrite delete_insert_eq.
  - destruct (is_empty _); [|done]. destruct (base_gpa c); [done|].
    destruct Hn. split; [by apply He|done].
Qed.
End behaviour.

(** The subscription of [v] to channel [i] as one VM sees it. *)
Definition still_subscribed {F} (s : ivc_state F) (i : Z * Z) (v gpa base sz : Z) : Prop :=
  ∃ c, channels s !! i = Some c ∧ subscriber_vms c !! v = Some gpa ∧
       base_hpa c = base ∧ channel_size c = sz.

(** The calls that end it. *)
Definition subscription_ends {F} `{!PagingHandler F}
    (s s' : ivc_state F) (i : Z * Z) (c : IVCChannel) (v : Z) : Prop :=
  (∃ r, unsubscribe_from_channel_of_publisher i.1 i.2 v s = (r, s')) ∨
  (base_gpa c = None ∧ ∃ r, unpublish_channel i.1 i.2 s = (r, s')) ∨
  (∃ d r, (publisher_vm_id d, key d) = i ∧ insert_channel i.1 d s = (r, s')).

Section subscriber.
Context {F : Type} `{!PagingHandler F}.
Implicit Types (s : ivc_state F) (c : IVCChannel).

Lemma still_subscribed_same s s' i c v gpa :
  channels s !! i = Some c → subscriber_vms c !! v = Some gpa →
  channels s' !! i = channels s !! i →
  still_subscribed s' i v gpa (base_hpa c) (channel_size c).
Proof. intros Hc Hv He. exists c. by rewrite He. Qed.

Lemma alloc_channels s pub_id k req_size gpa r s' :
  alloc pub_id k req_size gpa s = (r, s') → channels s' = channels s.
Proof.
  unfold alloc, write_header. st_run.
  by destruct (alloc_frame _) as [[?|] ?]; intros [= <- <-].
Qed.

Lemma subscriber_step s l s' l' i c v gpa :
  ivc_step (s, l) (s', l') →
  channels s !! i = Some c → subscriber_vms c !! v = Some gpa →
  still_subscribed s' i v gpa (base_hpa c) (channel_size c) ∨ subscription_ends s s' i c v.
Proof.
  intros Hstep Hc Hv. pose proof (still_subscribed_same s s' i c v gpa Hc Hv) as Hsame.
  inversion Hstep; subst; try (left; apply Hsame; by erewrite alloc_channels);
    match goal with H : _ = (_, s') |- _ => rename H into Hr end.
  - destruct (decide ((publisher_vm_id c0, key c0) = i)) as [<-|Hi].
    { right. do 2 right. eauto. }
    left. apply Hsame. rewrite insert_channel_eq in Hr.
    destruct (channels s !! (publisher_vm_id c0, key c0)); simplify_eq/=;
      by rewrite lookup_insert_ne.
  - left. apply Hsame. by injection Hr as <- <-.
  - destruct (decide ((pub_id, k) = i)) as [<-|Hi].
    + destruct (base_gpa c) as [g|] eqn:Hg; [left|right; right; left; by eauto].
      rewrite unpublish_channel_eq, Hc, Hg in Hr. injection Hr as _ <-.
      rewrite decide_False by (intros He; by rewrite He in Hv).
      exists (set_base_gpa None c). simpl. by rewrite lookup_insert_eq.
    + left. apply Hsame. rewrite unpublish_channel_eq in Hr.
      repeat case_match; simplify_eq/=; by rewrite ?lookup_insert_ne, ?lookup_delete_ne.
  - left. destruct (decide ((pub_id, k) = i)) as [<-|Hi].
    + rewrite subscribe_eq, Hc in Hr. injection Hr as _ <-.
      exists (add_subscriber sub_id gpa0 c). simpl. rewrite lookup_insert_eq.
      unfold add_subscriber. destruct (subscriber_vms c !! sub_id) eqn:Hs; [done|].
      simpl. rewrite lookup_insert_ne by congruence. done.
    + apply Hsame. rewrite subscribe_eq in Hr.
      repeat case_match; simplify_eq/=; by rewrite ?lookup_insert_ne.
  - destruct (decide ((pub_id, k) = i)) as [<-|Hi].
    + destruct (decide (sub_id = v)) as [<-|Hne]; [right; left; by eauto|left].
      rewrite unsubscribe_eq, Hc in Hr.
      destruct (subscriber_vms c !! sub_id) eqn:Hs; injection Hr as _ <-; [|by apply Hsame].
      assert (Hd : delete sub_id (subscriber_vms c) !! v = Some gpa)
        by by rewrite lookup_delete_ne.
      rewrite decide_False by (intros [He _]; by rewrite He in Hd).
      exists (set_subscriber_vms (delete sub_id (subscriber_vms c)) c). simpl.
      by rewrite lookup_insert_eq.
    + left. apply Hsame. rewrite unsubscribe_eq in Hr. cbv zeta in Hr.
      repeat case_match; simplify_eq/=; by rewrite ?lookup_insert_ne, ?lookup_delete_ne.
Qed.
End subscriber.

(** ** Properties *)
Section properties.
Context {F : Type} `{!PagingHandler F} `{!PagingHandlerOk F}.
Implicit Types (s : ivc_state F) (c : IVCChannel).

(** C1: in every interleaving of the operations from boot on, a host frame is in
    use exactly when it was in use at boot, belongs to a channel that is being
    published, or belongs to a channel of the map; two channels never share a
    frame, and no channel's frame is one that is in use for anything else. So no
    frame leaks and none is freed while the map names it, also in the calls
    that return an error. *)
Theorem ivc_frames_exact fa s l :
  rtc ivc_step (ivc_init fa) (s, l) →
  (∀ p, p ∈ in_use (frames s) ↔
        p ∈ in_use fa ∨ (∃ c, c ∈ l ∧ base_hpa c = p) ∨
        ∃ i c, channels s !! i = Some c ∧ base_hpa c = p) ∧
  (∀ i j c d, channels s !! i = Some c → channels s !! j = Some d →
              base_hpa c = base_hpa d → i = j) ∧
  (∀ i c, channels s !! i = Some c →
          (base_hpa c ∉ in_use fa) ∧ (∀ d, d ∈ l → base_hpa c ≠ base_hpa d) ∧
          i = (publisher_vm_id c, key c) ∧ 0 ≤ channel_size c ≤ 4096 ∧
          (base_gpa c = None → subscriber_vms c ≠ ∅)).
Proof.
  intros H%ivc_reachable_wf. destruct H as (W & _ & _). simpl in *.
  unfold pending_frames in W. split_and!; [|by apply W|].
  - intros p. rewrite (wf_in_use _ _ W), elem_of_union, elem_of_list_to_set, list_elem_of_fmap.
    naive_solver.
  - intros i c Hc. pose proof (wf_reserved _ _ W _ _ Hc) as Hr.
    rewrite not_elem_of_union, elem_of_list_to_set, list_elem_of_fmap in Hr.
    split_and!; try by eapply W. naive_solver. naive_solver.
Qed.

(** C12: a subscriber keeps its shared frame. When VM [v] is a subscriber of a
    channel, then after any step of the system it is still recorded at the same
    guest address, with the same host frame and size, and the frame is still
    in use, except for the steps that end the subscription: [v] unsubscribes
    itself, the publisher unpublishes the channel a second time, or it inserts
    another channel under the same key. *)
Theorem subscriber_keeps_frame R s l s' l' i c v gpa :
  sys_wf R (s, l) → ivc_step (s, l) (s', l') →
  channels s !! i = Some c → subscriber_vms c !! v = Some gpa →
  (still_subscribed s' i v gpa (base_hpa c) (channel_size c) ∧
   (base_hpa c ∈ in_use (frames s'))) ∨ subscription_ends s s' i c v.
Proof.
  intros W Hstep Hc Hv. pose proof (ivc_step_wf _ _ _ W Hstep) as (W' & _).
  destruct (subscriber_step _ _ _ _ _ _ _ _ Hstep Hc Hv) as [Hs|?]; [left|by right].
  split; [done|]. destruct Hs as (c' & Hc' & _ & <- & _).
  rewrite (wf_in_use _ _ W'). eauto.
Qed.

(** the life of a channel. Under a fresh key, a channel that was allocated is
    inserted; a subscriber gets the publisher's host frame and the size capped
    at one page; unpublishing while it is subscribed returns the publisher's
    mapping and keeps the frame in use; the last unsubscription returns the
    subscriber's mapping and removes the channel, after which the map and the
    frames in use are those from before the allocation. *)
Theorem channel_life_cycle R s pub_id k req_size gpa v sub_gpa c s1 :
  ivc_wf R s → 0 ≤ req_size → channels s !! (pub_id, k) = None →
  alloc pub_id k req_size gpa s = (Ok c, s1) →
  ∃ s2 s3 s4 s5,
    insert_channel pub_id c s1 = (Ok (), s2) ∧
    subscribe_to_channel_of_publisher pub_id k v sub_gpa s2
      = (Ok (base_hpa c, Z.min req_size 4096), s3) ∧
    unpublish_channel pub_id k s3 = (Ok (Some (gpa, Z.min req_size 4096)), s4) ∧
    (base_hpa c ∈ in_use (frames s4)) ∧
    unsubscribe_from_channel_of_publisher pub_id k v s4
      = (Ok (sub_gpa, Z.min req_size 4096), s5) ∧
    channels s5 = channels s ∧ in_use (frames s5) = in_use (frames s).
Proof.
  intros W Hsz Hn Ha. pose proof (alloc_in_use _ _ _ _ _ _ _ Ha) as Hu.
  destruct (alloc_wf _ _ _ _ _ _ _ _ Hsz W Ha) as (W1 & Hf & Hch & Hc & _).
  pose proof (alloc_fresh _ _ _ _ _ _ _ Ha) as Hfr.
  remember (base_hpa c) as p eqn:Hp. subst c. clear Hp.
  eexists _, _, _, _. rewrite insert_channel_eq. simpl. rewrite Hch, Hn. split; [done|].
  rewrite subscribe_eq. simpl. rewrite lookup_insert_eq, add_subscriber_new by done.
  split; [done|]. rewrite unpublish_channel_eq. simpl. rewrite lookup_insert_eq. simpl.
  rewrite decide_False by (simpl; apply insert_non_empty). split; [done|].
  split; [simpl; rewrite Hu; set_solver|].
  rewrite unsubscribe_eq. simpl. rewrite lookup_insert_eq. simpl. rewrite lookup_insert_eq.
  split; [done|]. rewrite decide_True by (split; [by rewrite delete_insert_eq|done]).
  simpl. rewrite !insert_insert_eq, delete_insert_eq, delete_id by done.
  split; [done|]. rewrite dealloc_frame_in_use, Hu. unfold base_hpa. simpl. set_solver.
Qed.

(** publishing a second channel under a key in use fails with [AlreadyExists],
    yet the new channel has taken the old one's place in the map, and the old
    one's frame has been freed, whoever had subscribed to it. *)
Theorem insert_channel_replaces R s c d :
  channel_ok R c → ivc_wf ({[base_hpa c]} ∪ R) s →
  channels s !! (publisher_vm_id c, key c) = Some d →
  ∃ s', insert_channel (publisher_vm_id c) c s = (Err AlreadyExists, s') ∧
        channels s' !! (publisher_vm_id c, key c) = Some c ∧
        base_hpa d ∉ in_use (frames s').
Proof.
  intros Hok W Hd. eexists. rewrite insert_channel_eq, Hd. split; [done|]. simpl.
  rewrite lookup_insert_eq. split; [done|]. rewrite dealloc_frame_in_use. set_solver.
Qed.

(** unpublishing a channel that is already unpublished fails with [NotFound],
    but has removed the channel and freed its frame although it still has
    subscribers, whose unsubscription fails from then on. *)
Theorem unpublish_twice_frees R s pub_id k c :
  ivc_wf R s → channels s !! (pub_id, k) = Some c → base_gpa c = None →
  ∃ s', unpublish_channel pub_id k s = (Err NotFound, s') ∧
        subscriber_vms c ≠ ∅ ∧ (base_hpa c ∈ in_use (frames s)) ∧
        (base_hpa c ∉ in_use (frames s')) ∧
        ∀ v, unsubscribe_from_channel_of_publisher pub_id k v s' = (Err NotFound, s').
Proof.
  intros W Hc Hg. eexists. rewrite unpublish_channel_eq, Hc, Hg. split; [done|].
  split; [by eapply wf_unpublished|]. split; [apply (wf_in_use _ _ W); by eauto|].
  split; [simpl; rewrite dealloc_frame_in_use; set_solver|].
  intros v. rewrite unsubscribe_eq. simpl. by rewrite lookup_delete_eq.
Qed.
End properties.

(** ** Concrete runs *)
Module Examples.

Definition boot : ivc_state pool := (ivc_init (∅ : pool)).1.

(** VM 1 publishes 8 KiB under key 7, VM 2 subscribes. *)
Definition chan : IVCChannel := mkIVCChannel 1 7 ∅ 0x1000 4096 (Some 0x80000000).
Definition allocated : ivc_state pool := (alloc 1 7 8192 0x80000000 boot).2.
Definition published : ivc_state pool := (insert_channel 1 chan allocated).2.
Definition subscribed : ivc_state pool :=
  (subscribe_to_channel_of_publisher 1 7 2 0x90000000 published).2.
Definition unpublished : ivc_state pool := (unpublish_channel 1 7 subscribed).2.

Lemma run_allocated : ivc_step (boot, []) (allocated, [chan]).
Proof. eapply (step_alloc _ _ 1 7 8192 0x80000000); [done|vm_compute; reflexivity]. Qed.

Lemma run_published : ivc_step (allocated, [chan]) (published, []).
Proof. eapply (step_insert _ [] chan []). vm_compute. reflexivity. Qed.

Lemma run_subscribed : ivc_step (published, []) (subscribed, []).
Proof. eapply (step_subscribe _ _ 1 7 2 0x90000000). vm_compute. reflexivity. Qed.

Lemma run_unpublished : ivc_step (subscribed, []) (unpublished, []).
Proof. eapply (step_unpublish _ _ 1 7). vm_compute. reflexivity. Qed.

Lemma reach_subscribed : rtc ivc_step (ivc_init (∅ : pool)) (subscribed, []).
Proof.
  eapply rtc_l; [apply run_allocated|]. eapply rtc_l; [apply run_published|].
  apply rtc_once, run_subscribed.
Qed.

Lemma reach_unpublished : rtc ivc_step (ivc_init (∅ : pool)) (unpublished, []).
Proof. eapply rtc_r; [apply reach_subscribed|apply run_unpublished]. Qed.

Lemma unpublished_wf : ivc_wf ∅ unpublished.
Proof. exact (proj1 (ivc_reachable_wf _ _ reach_unpublished)). Qed.

Lemma ivc_frames_exact_witness :
  rtc ivc_step (ivc_init (∅ : pool)) (unpublished, []) ∧
  0x1000 ∈ in_use (frames unpublished).
Proof.
  split; [apply reach_unpublished|].
  refine (proj2 (proj1 (ivc_frames_exact _ _ _ reach_unpublished) _) _).
  do 2 right. exists (1, 7). eexists. split; vm_compute; reflexivity.
Defined.

Lemma subscriber_keeps_frame_witness :
  (still_subscribed unpublished (1, 7) 2 0x90000000 0x1000 4096 ∧
   (0x1000 ∈ in_use (frames unpublished))) ∨
  subscription_ends subscribed unpublished (1, 7)
    (add_subscriber 2 0x90000000 chan) 2.
Proof.
  apply (subscriber_keeps_frame ∅ _ _ _ _ _ (add_subscriber 2 0x90000000 chan) 2 0x90000000
           (ivc_reachable_wf _ _ reach_subscribed) run_unpublished);
    vm_compute; reflexivity.
Defined.

Lemma channel_life_cycle_witness :
  ∃ s2 s3 s4 s5,
    insert_channel 1 chan allocated = (Ok (), s2) ∧
    subscribe_to_channel_of_publisher 1 7 2 0x90000000 s2 = (Ok (0x1000, 4096), s3) ∧
    unpublish_channel 1 7 s3 = (Ok (Some (0x80000000, 4096)), s4) ∧
    (0x1000 ∈ in_use (frames s4)) ∧
    unsubscribe_from_channel_of_publisher 1 7 2 s4 = (Ok (0x90000000, 4096), s5) ∧
    channels s5 = ∅ ∧ in_use (frames s5) = ∅.
Proof.
  assert (Ha : alloc 1 7 8192 0x80000000 boot = (Ok chan, allocated))
    by (vm_compute; reflexivity).
  exact (channel_life_cycle ∅ boot 1 7 8192 0x80000000 2 0x90000000 chan allocated
           (proj1 (ivc_init_wf (∅ : pool))) ltac:(done) ltac:(done) Ha).
Defined.

(** VM 1 publishes again under key 7 while VM 2 is subscribed. *)
Definition chan' : IVCChannel := mkIVCChannel 1 7 ∅ 0x2000 4096 (Some 0x80001000).
Definition reallocated : ivc_state pool := (alloc 1 7 8192 0x80001000 subscribed).2.

Lemma reallocated_wf : ivc_wf ({[base_hpa chan']} ∪ ∅) reallocated.
Proof.
  apply (alloc_wf ∅ subscribed 1 7 8192 0x80001000 chan' reallocated);
    [done|exact (proj1 (ivc_reachable_wf _ _ reach_subscribed))|vm_compute; reflexivity].
Qed.

Lemma insert_channel_replaces_witness :
  ∃ s', insert_channel 1 chan' reallocated = (Err AlreadyExists, s') ∧
        channels s' !! (1, 7) = Some chan' ∧ (0x1000 ∉ in_use (frames s')).
Proof.
  apply (insert_channel_replaces ∅ reallocated chan' (add_subscriber 2 0x90000000 chan));
    [|apply reallocated_wf|vm_compute; reflexivity].
  split; [by vm_compute|set_solver|done].
Defined.

Lemma unpublish_twice_frees_witness :
  ∃ s', unpublish_channel 1 7 unpublished = (Err NotFound, s') ∧
        ({[2 := 0x90000000]} : gmap Z Z) ≠ ∅ ∧ (0x1000 ∈ in_use (frames unpublished)) ∧
        (0x1000 ∉ in_use (frames s')) ∧
        ∀ v, unsubscribe_from_channel_of_publisher 1 7 v s' = (Err NotFound, s').
Proof.
  apply (unpublish_twice_frees ∅ unpublished 1 7
           (set_base_gpa None (add_subscriber 2 0x90000000 chan)));
    [apply unpublished_wf|vm_compute; reflexivity|reflexivity].
Defined.
End Examples.
