(* ===== verification/Hvc.v ===== *)
(** * Hypercalls ([kernel/src/vmm/hvc.rs])

    [HyperCall::new] decodes a hypercall of a guest and [HyperCall::execute]
    runs it: the four IVC calls, composed of the operations of [Ivc] and of the
    operations of the calling VM (guest memory accesses, the guest physical
    regions for channels, and the stage-2 mapping). *)

From S2P Require Import Prelude Ivc.

(** ** The virtual machines

    The VM object is code of the [axvm] crate.  Its operations are parameters of
    the model, run on the VM with the given id. *)
Inductive MappingFlag : Type := READ | WRITE | EXECUTE.

Class GuestVM (G : Type) : Type := {
  read_from_guest_of : Z → Z → st G AxError Z;
  write_to_guest_of : Z → Z → Z → st G AxError ();
  alloc_ivc_channel : Z → Z → st G AxError (Z * Z);
  map_region : Z → Z → Z → Z → list MappingFlag → st G AxError ();
  unmap_region : Z → Z → Z → st G AxError ();
}.

(** What the documentation of those operations promises, in terms of the
    stage-2 translation of each VM: only mapping and unmapping change it, only
    for the given VM and range, and only when they succeed.  Reported sizes are
    values of [usize], and no operation panics. *)
Class GuestVMOk (G : Type) `{!GuestVM G} : Type := {
  translate : G → Z → Z → option Z;
  read_guest_translate vm p g r g' :
    read_from_guest_of vm p g = (r, g') → translate g' = translate g;
  read_guest_range vm p g n g' : read_from_guest_of vm p g = (Ok n, g') → 0 ≤ n;
  read_guest_total vm p g g' : read_from_guest_of vm p g ≠ (Panic, g');
  write_guest_translate vm p n g r g' :
    write_to_guest_of vm p n g = (r, g') → translate g' = translate g;
  write_guest_total vm p n g g' : write_to_guest_of vm p n g ≠ (Panic, g');
  alloc_ivc_translate vm n g r g' :
    alloc_ivc_channel vm n g = (r, g') → translate g' = translate g;
  alloc_ivc_range vm n g a sz g' :
    alloc_ivc_channel vm n g = (Ok (a, sz), g') → 0 ≤ sz;
  alloc_ivc_total vm n g g' : alloc_ivc_channel vm n g ≠ (Panic, g');
  map_region_ok vm gpa hpa n fl g g' :
    map_region vm gpa hpa n fl g = (Ok (), g') →
    ∀ v a, translate g' v a =
           (if bool_decide (v = vm ∧ gpa ≤ a < gpa + n) then Some (hpa + (a - gpa))
            else translate g v a);
  map_region_err vm gpa hpa n fl g e g' :
    map_region vm gpa hpa n fl g = (Err e, g') → translate g' = translate g;
  map_region_total vm gpa hpa n fl g g' : map_region vm gpa hpa n fl g ≠ (Panic, g');
  unmap_region_ok vm gpa n g g' :
    unmap_region vm gpa n g = (Ok (), g') →
    ∀ v a, translate g' v a =
           (if bool_decide (v = vm ∧ gpa ≤ a < gpa + n) then None
            else translate g v a);
  unmap_region_err vm gpa n g e g' :
    unmap_region vm gpa n g = (Err e, g') → translate g' = translate g;
  unmap_region_total vm gpa n g g' : unmap_region vm gpa n g ≠ (Panic, g');
}.

(** The codes are an enum of the [axhvc] crate: the four that the code names and
    the others, and the conversion from a number. *)
Inductive HyperCallCode : Type :=
| HIVCPublishChannel
| HIVCUnPublishChannel
| HIVCSubscribChannel
| HIVCUnSubscribChannel
| HOther (n : Z).

Class HyperCallCodes : Type := code_try_from : Z → option HyperCallCode.

(** ** The hypercall *)
Record HyperCall : Type := mkHyperCall {
  hc_vm : Z;
  hc_code : HyperCallCode;
  hc_args : vec Z 6;
}.

(** [HyperCall::new]; [code as u32] keeps the low 32 bits. *)
Definition hypercall_new `{HyperCallCodes} (vm_id code : Z) (args : vec Z 6)
  : outcome AxError HyperCall :=
  match code_try_from (code mod 2 ^ 32) with
  | Some c => Ok (mkHyperCall vm_id c args)
  | None => Err InvalidInput
  end.

Section execute.
Context {F G : Type} `{!PagingHandler F} `{!GuestVM G}.

(** The state of the hypercall layer: the IVC module and the VMs. *)
Definition hvc_state : Type := ivc_state F * G.

Abbreviation hvM := (st hvc_state AxError).

Definition ivc_do {A} (m : st (ivc_state F) AxError A) : hvM A := λ s,
  let '(r, i) := m s.1 in (r, (i, s.2)).

Definition vm_do {A} (m : st G AxError A) : hvM A := λ s,
  let '(r, g) := m s.2 in (r, (s.1, g)).

(** [ivc_channel] is a local variable of the publishing branch until it is moved
    into [insert_channel]: an early return by [?] drops it. *)
Definition drop_on_error {A} (c : IVCChannel) (m : hvM A) : hvM A := λ s,
  match m s with
  | (Err e, s') => (Err e, (ivc_do (drop_channel c) s').2)
  | x => x
  end.

Definition publish (vm : Z) (args : vec Z 6) : hvM Z :=
  let k := args !!! 0%fin in
  let shm_base_gpa_ptr := args !!! 1%fin in
  let shm_size_ptr := args !!! 2%fin in
  shm_region_size ← vm_do (read_from_guest_of vm shm_size_ptr);
  '(shm_base_gpa, shm_region_size) ← vm_do (alloc_ivc_channel vm shm_region_size);
  ivc_channel ← ivc_do (alloc vm k shm_region_size shm_base_gpa);
  let actual_size := channel_size ivc_channel in
  drop_on_error ivc_channel (
    vm_do (map_region vm shm_base_gpa (base_hpa ivc_channel) actual_size [READ; WRITE]);;
    vm_do (write_to_guest_of vm shm_base_gpa_ptr shm_base_gpa);;
    vm_do (write_to_guest_of vm shm_size_ptr actual_size));;
  ivc_do (insert_channel vm ivc_channel);;
  mret 0.

Definition unpublish (vm : Z) (args : vec Z 6) : hvM Z :=
  let k := args !!! 0%fin in
  r ← ivc_do (unpublish_channel vm k);
  '(gpa, sz) ← lift (unwrap r);
  vm_do (unmap_region vm gpa sz);;
  mret 0.

Definition subscribe (vm : Z) (args : vec Z 6) : hvM Z :=
  let pub_id := args !!! 0%fin in
  let k := args !!! 1%fin in
  let shm_base_gpa_ptr := args !!! 2%fin in
  let shm_size_ptr := args !!! 3%fin in
  shm_size ← ivc_do (get_channel_size pub_id k);
  '(shm_base_gpa, _) ← vm_do (alloc_ivc_channel vm shm_size);
  '(hpa, actual_size) ←
    ivc_do (subscribe_to_channel_of_publisher pub_id k vm shm_base_gpa);
  vm_do (map_region vm shm_base_gpa hpa actual_size [READ; WRITE]);;
  vm_do (write_to_guest_of vm shm_base_gpa_ptr shm_base_gpa);;
  vm_do (write_to_guest_of vm shm_size_ptr actual_size);;
  mret 0.

Definition unsubscribe (vm : Z) (args : vec Z 6) : hvM Z :=
  let pub_id := args !!! 0%fin in
  let k := args !!! 1%fin in
  '(gpa, sz) ← ivc_do (unsubscribe_from_channel_of_publisher pub_id k vm);
  vm_do (unmap_region vm gpa sz);;
  mret 0.

Definition execute (h : HyperCall) : hvM Z :=
  match hc_code h with
  | HIVCPublishChannel => publish (hc_vm h) (hc_args h)
  | HIVCUnPublishChannel => unpublish (hc_vm h) (hc_args h)
  | HIVCSubscribChannel => subscribe (hc_vm h) (hc_args h)
  | HIVCUnSubscribChannel => unsubscribe (hc_vm h) (hc_args h)
  | HOther _ => throw Unsupported
  end.
End execute.
Arguments hvc_state : clear implicits.

(** ** Invariants of a hypercall *)
Section invariants.
Context {F G : Type} `{!PagingHandler F} `{!PagingHandlerOk F} `{!GuestVM G} `{!GuestVMOk G}.
Implicit Types (s : hvc_state F G) (R : gset Z).

(** [others_keep vm T s]: the VMs other than [vm] have the translation [T]. *)
Definition others_keep (vm : Z) (T : Z → Z → option Z) s : Prop :=
  ∀ v a, v ≠ vm → translate s.2 v a = T v a.

Definition hvc_inv R (vm : Z) (T : Z → Z → option Z) s : Prop :=
  ivc_wf R s.1 ∧ others_keep vm T s.

Lemma ivc_do_triple {A} R (R' : A → gset Z) vm T (m : st (ivc_state F) AxError A) (Q : A → Prop) :
  triple (ivc_wf R) m (λ a i, ivc_wf (R' a) i ∧ Q a) (λ _, ivc_wf R) →
  triple (hvc_inv R vm T) (ivc_do m) (λ a s, hvc_inv (R' a) vm T s ∧ Q a)
    (λ _, hvc_inv R vm T).
Proof.
  intros Hm [i g] [Hi Hg]. unfold ivc_do. simpl in *. specialize (Hm i Hi).
  destruct (m i) as [[a|e|] i']; [|by split|done].
  destruct Hm. by split_and!.
Qed.

Lemma vm_do_triple {A} R vm T (m : st G AxError A) (Q : A → Prop) :
  (∀ g g', m g ≠ (Panic, g')) →
  (∀ g a g', m g = (Ok a, g') → Q a) →
  (∀ g r g', m g = (r, g') → ∀ v a, v ≠ vm → translate g' v a = translate g v a) →
  triple (hvc_inv R vm T) (vm_do m) (λ a s, hvc_inv R vm T s ∧ Q a) (λ _, hvc_inv R vm T).
Proof.
  intros Hp Hq Ht [i g] [Hi Hg]. unfold vm_do. simpl in *.
  destruct (m g) as [[a|e|] g'] eqn:Hm; [| |by eapply Hp].
  all: assert (others_keep vm T (i, g'))
    by (intros v x Hv; simpl; rewrite (Ht _ _ _ Hm v x Hv); exact (Hg v x Hv)).
  - split; [by split|by eapply Hq].
  - by split.
Qed.

Lemma read_triple R vm T p :
  triple (hvc_inv R vm T) (vm_do (read_from_guest_of vm p))
    (λ n s, hvc_inv R vm T s ∧ 0 ≤ n) (λ _, hvc_inv R vm T).
Proof.
  apply vm_do_triple; eauto using read_guest_total, read_guest_range.
  intros g r g' H v a _. by rewrite (read_guest_translate _ _ _ _ _ H).
Qed.

Lemma write_triple R vm T p n :
  triple (hvc_inv R vm T) (vm_do (write_to_guest_of vm p n))
    (λ _, hvc_inv R vm T) (λ _, hvc_inv R vm T).
Proof.
  eapply triple_conseq; [apply (vm_do_triple R vm T _ (λ _, True))|naive_solver..];
    eauto using write_guest_total.
  intros g r g' H v a _. by rewrite (write_guest_translate _ _ _ _ _ _ H).
Qed.

Lemma alloc_ivc_triple R vm T n :
  triple (hvc_inv R vm T) (vm_do (alloc_ivc_channel vm n))
    (λ x s, hvc_inv R vm T s ∧ 0 ≤ x.2) (λ _, hvc_inv R vm T).
Proof.
  apply vm_do_triple; eauto using alloc_ivc_total.
  - intros g [a sz] g' H. simpl. by eapply alloc_ivc_range.
  - intros g r g' H v a _. by rewrite (alloc_ivc_translate _ _ _ _ _ H).
Qed.

Lemma map_triple R vm T gpa hpa n fl :
  triple (hvc_inv R vm T) (vm_do (map_region vm gpa hpa n fl))
    (λ _, hvc_inv R vm T) (λ _, hvc_inv R vm T).
Proof.
  eapply triple_conseq; [apply (vm_do_triple R vm T _ (λ _, True))|naive_solver..];
    eauto using map_region_total.
  intros g [[]|e|] g' H v a Hv.
  - rewrite (map_region_ok _ _ _ _ _ _ _ H). by rewrite bool_decide_false by naive_solver.
  - by rewrite (map_region_err _ _ _ _ _ _ _ _ H).
  - by apply map_region_total in H.
Qed.

Lemma unmap_triple R vm T gpa n :
  triple (hvc_inv R vm T) (vm_do (unmap_region vm gpa n))
    (λ _, hvc_inv R vm T) (λ _, hvc_inv R vm T).
Proof.
  eapply triple_conseq; [apply (vm_do_triple R vm T _ (λ _, True))|naive_solver..];
    eauto using unmap_region_total.
  intros g [[]|e|] g' H v a Hv.
  - rewrite (unmap_region_ok _ _ _ _ _ H). by rewrite bool_decide_false by naive_solver.
  - by rewrite (unmap_region_err _ _ _ _ _ _ H).
  - by apply unmap_region_total in H.
Qed.
End invariants.

Create HintDb hvc.
#[export] Hint Resolve read_triple write_triple alloc_ivc_triple map_triple unmap_triple : hvc.

Section hypercalls.
Context {F G : Type} `{!PagingHandler F} `{!PagingHandlerOk F} `{!GuestVM G} `{!GuestVMOk G}.
Implicit Types (s : hvc_state F G) (R : gset Z) (T : Z → Z → option Z).

Lemma alloc_triple R vm T k n gpa :
  0 ≤ n →
  triple (hvc_inv (G:=G) R vm T) (ivc_do (alloc vm k n gpa))
    (λ c s, hvc_inv ({[base_hpa c]} ∪ R) vm T s ∧ publisher_vm_id c = vm ∧ channel_ok R c)
    (λ _, hvc_inv R vm T).
Proof.
  intros Hn. apply ivc_do_triple. intros i W.
  destruct (alloc vm k n gpa i) as [[c|e|] i'] eqn:Ha.
  - destruct (alloc_wf _ _ _ _ _ _ _ _ Hn W Ha) as (W' & Hf & _ & Hc & _).
    split; [done|]. rewrite Hc in Hf |- *.
    split; [done|]. split; [unfold channel_size; simpl; lia|done|done].
  - by eapply alloc_err_wf.
  - revert Ha. unfold alloc. st_run. by destruct (alloc_frame _) as [[?|] ?].
Qed.

Lemma insert_triple R vm T c :
  publisher_vm_id c = vm → channel_ok R c →
  triple (hvc_inv (G:=G) ({[base_hpa c]} ∪ R) vm T) (ivc_do (insert_channel vm c))
    (λ _, hvc_inv R vm T) (λ _, hvc_inv R vm T).
Proof.
  intros <- Hok [i g] [Hi Hg]. unfold ivc_do. simpl in *.
  destruct (insert_channel _ c i) as [r i'] eqn:He.
  pose proof (insert_channel_wf _ _ _ _ _ Hok Hi He).
  rewrite insert_channel_eq in He. destruct (_ !! _); injection He as <- <-; by split.
Qed.

Lemma drop_on_error_triple {A} R vm T c (m : st (hvc_state F G) AxError A) (Q : A → hvc_state F G → Prop) :
  base_hpa c ∉ R →
  triple (hvc_inv ({[base_hpa c]} ∪ R) vm T) m Q (λ _, hvc_inv ({[base_hpa c]} ∪ R) vm T) →
  triple (hvc_inv ({[base_hpa c]} ∪ R) vm T) (drop_on_error c m) Q (λ _, hvc_inv R vm T).
Proof.
  intros Hf Hm s Hs. specialize (Hm s Hs). unfold drop_on_error.
  destruct (m s) as [[a|e|] [i g]]; [done| |done].
  destruct Hm as [W Ho]. split; [exact (wf_drop _ _ _ Hf W)|exact Ho].
Qed.

Lemma publish_triple R vm T args :
  triple (hvc_inv R vm T) (publish (F:=F) (G:=G) vm args)
    (λ _, hvc_inv R vm T) (λ _, hvc_inv R vm T).
Proof.
  unfold publish. eapply triple_bind; [apply read_triple|]. intros n.
  apply (triple_bind _ _ _ (λ x s, hvc_inv R vm T s ∧ 0 ≤ x.2)).
  { eapply triple_conseq; [apply (alloc_ivc_triple R vm T)|naive_solver..]. }
  intros [gpa sz]. simpl. eapply triple_bind.
  { intros s [Hs Hsz]. by apply alloc_triple. }
  intros c. simpl. intros s (Hs & Hp & Hok).
  eapply (triple_bind _ _ _ (λ _, hvc_inv ({[base_hpa c]} ∪ R) vm T)); [| |exact Hs].
  - apply drop_on_error_triple; [apply Hok|].
    do 2 (eapply triple_seq; [eauto with hvc|]). eauto with hvc.
  - intros _. eapply triple_seq; [by apply insert_triple|exact (triple_ret' (λ _, hvc_inv R vm T) 0 _)].
Qed.

Lemma ivc_op_triple {A} R vm T (m : st (ivc_state F) AxError A) :
  (∀ i i', m i ≠ (Panic, i')) →
  (∀ i r i', ivc_wf R i → m i = (r, i') → ivc_wf R i') →
  triple (hvc_inv (G:=G) R vm T) (ivc_do m) (λ _, hvc_inv R vm T) (λ _, hvc_inv R vm T).
Proof.
  intros Hp Hw [i g] [Hi Hg]. unfold ivc_do. simpl in *.
  destruct (m i) as [[a|e|] i'] eqn:He; [..|by eapply Hp]; by split; [eapply Hw|].
Qed.

Lemma unpublish_result_some pub_id k (i : ivc_state F) r i' :
  unpublish_channel pub_id k i = (r, i') →
  r = Err NotFound ∨ ∃ x, r = Ok (Some x).
Proof. rewrite unpublish_channel_eq. repeat case_match; naive_solver. Qed.

Lemma unpublish_triple R vm T args :
  triple (hvc_inv R vm T) (unpublish (F:=F) (G:=G) vm args)
    (λ _, hvc_inv R vm T) (λ _, hvc_inv R vm T).
Proof.
  unfold unpublish. apply (triple_bind _ _ _ (λ r s, hvc_inv R vm T s ∧ is_Some r)).
  - intros [i g] [Hi Hg]. unfold ivc_do. simpl in *.
    destruct (unpublish_channel vm _ i) as [r i'] eqn:He.
    pose proof (unpublish_channel_wf _ _ _ _ _ _ Hi He).
    destruct (unpublish_result_some _ _ _ _ _ He) as [->|[x ->]]; [by split|].
    by split; [split|eexists].
  - intros r s [Hs [[gpa sz] ->]].
    refine (triple_bind _ _ _ (λ _, hvc_inv R vm T) _ _ _ _ s Hs); [by intros s' Hs'|].
    intros [gpa' sz']. eapply triple_seq; [eauto with hvc|exact (triple_ret' (λ _, hvc_inv R vm T) 0 _)].
Qed.

Lemma subscribe_triple R vm T args :
  triple (hvc_inv R vm T) (subscribe (F:=F) (G:=G) vm args)
    (λ _, hvc_inv R vm T) (λ _, hvc_inv R vm T).
Proof.
  unfold subscribe. apply (triple_bind _ _ _ (λ _, hvc_inv R vm T)).
  { apply ivc_op_triple; unfold get_channel_size; st_run; intros i;
      destruct (channels i !! _); naive_solver. }
  intros n. apply (triple_bind _ _ _ (λ _, hvc_inv R vm T)).
  { eapply triple_conseq; [apply (alloc_ivc_triple R vm T)|naive_solver..]. }
  intros [gpa sz]. apply (triple_bind _ _ _ (λ _, hvc_inv R vm T)).
  { apply ivc_op_triple; [|by intros; eapply subscribe_wf].
    intros i i'. rewrite subscribe_eq. by destruct (channels i !! _). }
  intros [hpa n']. do 3 (eapply triple_seq; [eauto with hvc|]). exact (triple_ret' (λ _, hvc_inv R vm T) 0 _).
Qed.

Lemma unsubscribe_triple R vm T args :
  triple (hvc_inv R vm T) (unsubscribe (F:=F) (G:=G) vm args)
    (λ _, hvc_inv R vm T) (λ _, hvc_inv R vm T).
Proof.
  unfold unsubscribe. apply (triple_bind _ _ _ (λ _, hvc_inv R vm T)).
  { apply ivc_op_triple; [|by intros; eapply unsubscribe_wf].
    intros i i'. rewrite unsubscribe_eq. repeat case_match; congruence. }
  intros [gpa sz]. eapply triple_seq; [eauto with hvc|exact (triple_ret' (λ _, hvc_inv R vm T) 0 _)].
Qed.

(** C3: every hypercall, on every branch and error path, keeps the frame
    invariant of the channels, leaves the stage-2 translation of every other VM
    as it was, and does not panic: the [unwrap] on the result of
    [unpublish_channel] cannot fail. *)
Theorem execute_safe R s h :
  ivc_wf R s.1 →
  ∃ r s', execute h s = (r, s') ∧ r ≠ Panic ∧ ivc_wf R s'.1 ∧
          ∀ v a, v ≠ hc_vm h → translate s'.2 v a = translate s.2 v a.
Proof.
  intros W. destruct h as [vm code args]. simpl.
  assert (H : triple (hvc_inv R vm (translate s.2)) (execute (mkHyperCall vm code args))
                (λ _, hvc_inv R vm (translate s.2)) (λ _, hvc_inv R vm (translate s.2))).
  { destruct code; [apply publish_triple|apply unpublish_triple|
                    apply subscribe_triple|apply unsubscribe_triple|by intros s' Hs']. }
  specialize (H s (conj W (λ v a _, eq_refl))).
  destruct (execute _ s) as [[a|e|] s']; [| |done]; destruct H as [? Ho];
    eexists _, _; (split; [done|split; [done|split; [done|exact Ho]]]).
Qed.

(** Inverting successful calls of the two layers. *)
Lemma ivc_do_ok {A} (m : st (ivc_state F) AxError A) s r s' :
  ivc_do m s = (r, s') → m s.1 = (r, s'.1) ∧ s'.2 = s.2.
Proof. unfold ivc_do. destruct (m s.1) as [x i]. by intros [= <- <-]. Qed.

Lemma vm_do_ok {A} (m : st G AxError A) s r s' :
  vm_do m s = (r, s') → m s.2 = (r, s'.2) ∧ s'.1 = s.1.
Proof. unfold vm_do. destruct (m s.2) as [x i]. by intros [= <- <-]. Qed.

Lemma drop_on_error_ok {A} c (m : st (hvc_state F G) AxError A) s a s' :
  drop_on_error c m s = (Ok a, s') → m s = (Ok a, s').
Proof. unfold drop_on_error. by destruct (m s) as [[?|?|] ?]. Qed.

(** [vm] sees the channel's region at [gpa]. *)
Definition region_mapped (g : G) (vm gpa : Z) (c : IVCChannel) : Prop :=
  ∀ o, 0 ≤ o < channel_size c → translate g vm (gpa + o) = Some (base_hpa c + o).

Lemma map_region_mapped vm gpa c fl g g' :
  map_region vm gpa (base_hpa c) (channel_size c) fl g = (Ok (), g') →
  region_mapped g' vm gpa c.
Proof.
  intros H o Ho. rewrite (map_region_ok _ _ _ _ _ _ _ H).
  rewrite bool_decide_true by lia. f_equal. lia.
Qed.

(** A successful publish leaves the new channel in the map, mapped at the
    address it records. *)
Lemma publish_ok vm args s n s' :
  publish vm args s = (Ok n, s') →
  ∃ c gpa, channels s'.1 = <[(vm, args !!! 0%fin) := c]> (channels s.1) ∧
           base_gpa c = Some gpa ∧ subscriber_vms c = ∅ ∧
           region_mapped s'.2 vm gpa c.
Proof.
  unfold publish. intros H.
  apply st_bind_ok in H as (n1 & s1 & H1 & H). apply vm_do_ok in H1 as [_ E1].
  apply st_bind_ok in H as ([gpa sz] & s2 & H2 & H). apply vm_do_ok in H2 as [_ E2].
  apply st_bind_ok in H as (c & s3 & H3 & H). apply ivc_do_ok in H3 as [H3 _].
  apply st_bind_ok in H as (? & s4 & H4 & H). apply drop_on_error_ok in H4.
  apply st_bind_ok in H4 as ([] & s5 & H5 & H4). apply vm_do_ok in H5 as [H5 E5].
  apply st_bind_ok in H4 as (? & s6 & H6 & H4). apply vm_do_ok in H6 as [H6 E6].
  apply vm_do_ok in H4 as [H7 E7].
  apply st_bind_ok in H as (? & s8 & H8 & H). apply ivc_do_ok in H8 as [H8 E8].
  injection H as <- <-.
  apply map_region_mapped in H5. apply write_guest_translate in H6, H7.
  pose proof (alloc_channels _ _ _ _ _ _ _ H3) as Hch.
  assert (Hc : key c = args !!! 0%fin ∧ base_gpa c = Some gpa ∧ subscriber_vms c = ∅).
  { revert H3. unfold alloc, write_header. st_run.
    by destruct (alloc_frame _) as [[?|] ?]; intros [= <- _]. }
  destruct Hc as (Hk & Hg & Hs). exists c, gpa. split_and!; [|done|done|].
  - rewrite insert_channel_eq, Hk in H8. destruct (channels s4.1 !! _); [done|].
    injection H8 as _ <-. simpl. by rewrite E7, E6, E5, Hch, E2, E1.
  - intros o Ho. by rewrite E8, H7, H6, H5.
Qed.

(** A successful subscription leaves the channel's region mapped at a fresh
    guest address, which is the one recorded unless there already was one. *)
Lemma subscribe_ok vm args s n s' :
  subscribe vm args s = (Ok n, s') →
  ∃ c gpa, channels s.1 !! (args !!! 0%fin, args !!! 1%fin) = Some c ∧
           channels s'.1 = <[(args !!! 0%fin, args !!! 1%fin) := add_subscriber vm gpa c]>
                             (channels s.1) ∧
           frames s'.1 = frames s.1 ∧
           region_mapped s'.2 vm gpa c ∧
           (∀ v a, v ≠ vm ∨ ¬ (gpa ≤ a < gpa + channel_size c) →
                   translate s'.2 v a = translate s.2 v a).
Proof.
  unfold subscribe. intros H.
  apply st_bind_ok in H as (n1 & s1 & H1 & H). apply ivc_do_ok in H1 as [H1 E1].
  apply st_bind_ok in H as ([gpa sz] & s2 & H2 & H). apply vm_do_ok in H2 as [H2 E2].
  apply st_bind_ok in H as ([hpa n2] & s3 & H3 & H). apply ivc_do_ok in H3 as [H3 E3].
  apply st_bind_ok in H as ([] & s5 & H5 & H). apply vm_do_ok in H5 as [H5 E5].
  apply st_bind_ok in H as (? & s6 & H6 & H). apply vm_do_ok in H6 as [H6 E6].
  apply st_bind_ok in H as (? & s7 & H7 & H). apply vm_do_ok in H7 as [H7 E7].
  injection H as <- <-.
  assert (Es : s1.1 = s.1).
  { revert H1. unfold get_channel_size. st_run. by destruct (_ !! _); intros [= _ <-]. }
  rewrite subscribe_eq, E2, Es in H3.
  destruct (channels s.1 !! _) as [c|] eqn:Hc; [|done]. injection H3 as <- <- Hi.
  apply write_guest_translate in H6, H7. apply alloc_ivc_translate in H2.
  exists c, gpa. rewrite E7, E6, E5, <-Hi. split_and!; try done.
  - intros o Ho. rewrite H7, H6. by apply (map_region_mapped _ _ _ _ _ _ H5).
  - intros v a Hv. rewrite H7, H6, (map_region_ok _ _ _ _ _ _ _ H5).
    rewrite bool_decide_false by naive_solver. by rewrite E3, H2, E1.
Qed.

(** C14: what publishing and subscribing is for. After a successful publish of VM
    [p] and a successful subscription of another VM [v] to it, both VMs see the
    same host frame: at each offset of the channel, the address the publisher was
    given and the address the subscriber was given translate to the same host
    address, and the channel records both. *)
Theorem publish_subscribe_share s p v k pargs vargs n s1 n' s2 :
  v ≠ p → pargs !!! 0%fin = k → vargs !!! 0%fin = p → vargs !!! 1%fin = k →
  execute (mkHyperCall p HIVCPublishChannel pargs) s = (Ok n, s1) →
  execute (mkHyperCall v HIVCSubscribChannel vargs) s1 = (Ok n', s2) →
  ∃ c gpa gpa', channels s2.1 !! (p, k) = Some c ∧
    base_gpa c = Some gpa ∧ subscriber_vms c = {[v := gpa']} ∧
    region_mapped s2.2 p gpa c ∧ region_mapped s2.2 v gpa' c.
Proof.
  intros Hv <- <- Hk Hp Hs. unfold execute in *; simpl in *.
  apply publish_ok in Hp as (c & gpa & Hc & Hg & Hn & Hm).
  apply subscribe_ok in Hs as (d & gpa' & Hd & Hd' & _ & Hm' & Ho).
  rewrite Hk, Hc, lookup_insert_eq in Hd. injection Hd as <-.
  exists (add_subscriber v gpa' c), gpa, gpa'.
  rewrite Hd', Hk, lookup_insert_eq, add_subscriber_new by by rewrite Hn.
  split_and!; [done|done|simpl; by rewrite Hn| |done].
  intros o Ho'. rewrite Ho by auto. by apply Hm.
Qed.

(** when the publisher's region is mapped and the write of its address to the
    guest then fails, the hypercall returns that error with the channel's frame
    freed, while the guest still has it mapped. *)
Theorem publish_fault_leaves_mapping i g vm k p sp n g1 gpa sz g2 c i3 g4 e g5 args :
  args = [# k; p; sp; 0; 0; 0] →
  read_from_guest_of vm sp g = (Ok n, g1) →
  alloc_ivc_channel vm n g1 = (Ok (gpa, sz), g2) →
  alloc vm k sz gpa i = (Ok c, i3) →
  map_region vm gpa (base_hpa c) (channel_size c) [READ; WRITE] g2 = (Ok (), g4) →
  write_to_guest_of vm p gpa g4 = (Err e, g5) →
  ∃ i', execute (mkHyperCall vm HIVCPublishChannel args) (i, g) = (Err e, (i', g5)) ∧
        (base_hpa c ∉ in_use (frames i')) ∧ region_mapped g5 vm gpa c.
Proof.
  intros -> H1 H2 H3 H4 H5. eexists. unfold execute, publish. simpl.
  unfold drop_on_error, vm_do, ivc_do. st_run. simpl. rewrite H1. simpl. rewrite H2. simpl.
  rewrite H3. simpl. rewrite H4. simpl. rewrite H5. simpl. split; [done|].
  split; [simpl; rewrite dealloc_frame_in_use; unfold base_hpa; set_solver|].
  intros o Ho. rewrite (write_guest_translate _ _ _ _ _ _ H5).
  by apply (map_region_mapped _ _ _ _ _ _ H4).
Qed.

(** a VM that subscribes a second time gets a second mapping that nothing
    records: its next unsubscription unmaps the address of the first
    subscription only, and the second one still reaches the frame. *)
Theorem resubscribe_keeps_mapping s v args c gpa n s1 n' s2 :
  channels s.1 !! (args !!! 0%fin, args !!! 1%fin) = Some c →
  subscriber_vms c !! v = Some gpa →
  execute (mkHyperCall v HIVCSubscribChannel args) s = (Ok n, s1) →
  execute (mkHyperCall v HIVCUnSubscribChannel args) s1 = (Ok n', s2) →
  ∃ gpa', region_mapped s1.2 v gpa' c ∧
    (∀ o, 0 ≤ o < channel_size c → ¬ (gpa ≤ gpa' + o < gpa + channel_size c) →
          translate s2.2 v (gpa' + o) = Some (base_hpa c + o)) ∧
    ∀ c', channels s2.1 !! (args !!! 0%fin, args !!! 1%fin) = Some c' →
          subscriber_vms c' !! v = None.
Proof.
  intros Hc Hv Hs Hu. unfold execute in *; simpl in *.
  apply subscribe_ok in Hs as (d & gpa' & Hd & Hd' & _ & Hm & _). simplify_eq.
  unfold add_subscriber in Hd'. rewrite Hv, insert_id in Hd' by done.
  unfold unsubscribe in Hu. apply st_bind_ok in Hu as ([g sz] & s3 & H3 & Hu).
  apply ivc_do_ok in H3 as [H3 E3]. rewrite unsubscribe_eq, Hd', Hc, Hv in H3.
  injection H3 as <- <- H3. apply st_bind_ok in Hu as ([] & s4 & H4 & Hu).
  apply vm_do_ok in H4 as [H4 E4]. injection Hu as <- <-. rewrite E3 in H4.
  exists gpa'. split_and!; [done| |].
  - intros o Ho Hno. rewrite (unmap_region_ok _ _ _ _ _ H4).
    rewrite bool_decide_false by naive_solver. by apply Hm.
  - intros c'. rewrite E4, <-H3. destruct (decide _); simpl.
    + by rewrite lookup_delete_eq.
    + rewrite lookup_insert_eq. intros [= <-]. simpl. apply lookup_delete_eq.
Qed.
End hypercalls.

(** ** Concrete VMs

    A VM state with the latest mapping changes first; every guest region is one
    page, guest writes to address 0 fail. *)
Module Demo.

Record guests : Type := mkGuests {
  next_gpa : Z;
  changes : list (Z * Z * Z * option Z);
}.

Fixpoint lookup_change (l : list (Z * Z * Z * option Z)) (vm a : Z) : option Z :=
  match l with
  | [] => None
  | (v, gpa, n, h) :: l =>
      if bool_decide (vm = v ∧ gpa ≤ a < gpa + n) then (λ x, x + (a - gpa)) <$> h
      else lookup_change l vm a
  end.

#[global] Instance guests_vm : GuestVM guests := {|
  read_from_guest_of _ _ g := (Ok 0x1000, g);
  write_to_guest_of _ p _ g := (if bool_decide (p = 0) then Err InvalidInput else Ok (), g);
  alloc_ivc_channel _ _ g :=
    (Ok (next_gpa g, 0x1000), mkGuests (next_gpa g + 0x1000) (changes g));
  map_region vm gpa hpa n _ g :=
    (Ok (), mkGuests (next_gpa g) ((vm, gpa, n, Some hpa) :: changes g));
  unmap_region vm gpa n g :=
    (Ok (), mkGuests (next_gpa g) ((vm, gpa, n, None) :: changes g));
|}.

#[global] Program Instance guests_vm_ok : GuestVMOk guests := {|
  translate g := lookup_change (changes g);
|}.
Solve Obligations with
  intros; simpl in *; simplify_eq/=; try done; try (by intros [=]); try (by case_bool_decide).

(** VM 1 publishes under key 7, VM 2 subscribes twice. *)
Definition start : hvc_state pool guests := (mkIvc ∅ ∅ ∅, mkGuests 0x80000000 []).
Definition pub_args : vec Z 6 := [# 7; 0x100; 0x108; 0; 0; 0].
Definition sub_args : vec Z 6 := [# 1; 7; 0x100; 0x108; 0; 0].
Definition pub_call : HyperCall := mkHyperCall 1 HIVCPublishChannel pub_args.
Definition sub_call : HyperCall := mkHyperCall 2 HIVCSubscribChannel sub_args.
Definition unsub_call : HyperCall := mkHyperCall 2 HIVCUnSubscribChannel sub_args.
Definition s_pub : hvc_state pool guests := (execute pub_call start).2.
Definition s_sub : hvc_state pool guests := (execute sub_call s_pub).2.
Definition s_sub2 : hvc_state pool guests := (execute sub_call s_sub).2.
Definition s_unsub : hvc_state pool guests := (execute unsub_call s_sub2).2.

Lemma start_wf : ivc_wf ∅ start.1.
Proof. exact (proj1 (ivc_init_wf (∅ : pool))). Qed.

Lemma execute_safe_witness :
  ∃ r s', execute pub_call start = (r, s') ∧ r ≠ Panic ∧ ivc_wf ∅ s'.1 ∧
          ∀ v a, v ≠ 1 → translate s'.2 v a = translate start.2 v a.
Proof. exact (execute_safe ∅ start pub_call start_wf). Defined.

Lemma publish_subscribe_share_witness :
  ∃ c gpa gpa', channels s_sub.1 !! (1, 7) = Some c ∧
    base_gpa c = Some gpa ∧ subscriber_vms c = {[2 := gpa']} ∧
    region_mapped s_sub.2 1 gpa c ∧ region_mapped s_sub.2 2 gpa' c.
Proof.
  apply (publish_subscribe_share start 1 2 7 pub_args sub_args 0 s_pub 0 s_sub);
    vm_compute; try reflexivity; discriminate.
Defined.

Definition c_pub : IVCChannel := mkIVCChannel 1 7 ∅ 0x1000 0x1000 (Some 0x80000000).

Lemma publish_fault_leaves_mapping_witness :
  ∃ i', execute (mkHyperCall 1 HIVCPublishChannel [# 7; 0; 0x108; 0; 0; 0]) start
        = (Err InvalidInput, (i', mkGuests 0x80001000 [(1, 0x80000000, 0x1000, Some 0x1000)])) ∧
        (0x1000 ∉ in_use (frames i')) ∧
        region_mapped (mkGuests 0x80001000 [(1, 0x80000000, 0x1000, Some 0x1000)])
          1 0x80000000 c_pub.
Proof.
  eapply (publish_fault_leaves_mapping start.1 start.2 1 7 0 0x108 0x1000 start.2
            0x80000000 0x1000 (mkGuests 0x80001000 []) c_pub);
    vm_compute; reflexivity.
Defined.

Lemma resubscribe_keeps_mapping_witness :
  ∃ gpa', region_mapped s_sub2.2 2 gpa' c_pub ∧
    (∀ o, 0 ≤ o < 0x1000 → ¬ (0x80001000 ≤ gpa' + o < 0x80001000 + 0x1000) →
          translate s_unsub.2 2 (gpa' + o) = Some (0x1000 + o)) ∧
    ∀ c', channels s_unsub.1 !! (1, 7) = Some c' → subscriber_vms c' !! 2 = None.
Proof.
  assert (H1 : execute sub_call s_sub = (Ok 0, s_sub2)) by (vm_compute; reflexivity).
  assert (H2 : execute unsub_call s_sub2 = (Ok 0, s_unsub)) by (vm_compute; reflexivity).
  refine (resubscribe_keeps_mapping s_sub 2 sub_args
            (add_subscriber 2 0x80001000 c_pub) 0x80001000 0 s_sub2 0 s_unsub _ _ H1 H2);
    vm_compute; reflexivity.
Defined.
End Demo.
