(* ===== verification/Vmm.v ===== *)
(** * The VM list, the vCPU queues and the VMM
      ([kernel/src/vmm/{vm_list,vcpus,mod}.rs], [kernel/src/task.rs])

    One state holds what the modules share: the VM objects (by the identity of
    their [Arc]), the global VM list, the map of [VMVCpus] by VM id, the wait
    queues (by identity, since a task can be blocked on the queue of a
    [VMVCpus] that has been replaced), the tasks, and the count of running VMs.
    [vcpu_run] is a state machine: [t_pc] is the point a task has reached, and
    one call of [vcpu_step] runs it up to its next access to shared state, so
    that the interleavings of the tasks are the sequences of steps. *)

From S2P Require Import Prelude Ivc Hvc.

(** ** Data of the [axvm] and [axvcpu] crates that the code names *)
Inductive VMStatus : Type :=
| Loading | Loaded | Running | Suspended | Stopping | Stopped.

#[global] Instance VMStatus_eq_dec : EqDecision VMStatus.
Proof. solve_decision. Defined.

Inductive VCpuState : Type :=
| VInvalid | VCreated | VFree | VReady | VRunning | VBlocked.

#[global] Instance VCpuState_eq_dec : EqDecision VCpuState.
Proof. solve_decision. Defined.

Inductive AxVCpuExitReason : Type :=
| Hypercall (nr : Z) (args : vec Z 6)
| FailEntry (hardware_entry_failure_reason : Z)
| ExternalInterrupt (vector : Z)
| Halt
| Nothing
| CpuDown (state : Z)
| CpuUp (target_cpu entry_point arg : Z)
| SystemDown
| SendIPI (target_cpu target_cpu_aux : Z) (send_to_all send_to_self : bool) (vector : Z)
| OtherExit.

Record VCpu : Type := mkVCpu {
  vcpu_id : Z;
  vcpu_state : VCpuState;
  phys_cpu_set : option Z;
}.

Record VM : Type := mkVM {
  vm_id : Z;
  vm_name : string;
  vm_status : VMStatus;
  vcpu_list : list VCpu;
  vcpu_affinities_pcpu_ids : list (Z * option Z * Z);
  memory_region_sizes : list Z;
}.

Definition set_vm_status (st : VMStatus) (v : VM) : VM :=
  mkVM (vm_id v) (vm_name v) st (vcpu_list v) (vcpu_affinities_pcpu_ids v)
    (memory_region_sizes v).

Definition set_vcpu_list (l : list VCpu) (v : VM) : VM :=
  mkVM (vm_id v) (vm_name v) (vm_status v) l (vcpu_affinities_pcpu_ids v)
    (memory_region_sizes v).

Definition vcpu_num (v : VM) : Z := Z.of_nat (length (vcpu_list v)).
Definition running (v : VM) : bool := bool_decide (vm_status v = Running).
Definition suspending (v : VM) : bool := bool_decide (vm_status v = Suspended).
Definition stopping (v : VM) : bool := bool_decide (vm_status v = Stopping).

(** Operations of the VM object: their result and the status they leave. *)
Class AxVm : Type := {
  boot : VM → outcome AxError () * VMStatus;
  shutdown : VM → outcome AxError () * VMStatus;
  set_entry : VM → Z → Z → outcome AxError ();
  inject_interrupt_to_vcpu : VM → Z → Z → outcome AxError ();
}.

(** The documented transitions: a successful boot makes the VM run, a successful
    shutdown makes it stop, and a failure leaves the status as it was. *)
Class AxVmOk `{!AxVm} : Prop := {
  boot_ok v st : boot v = (Ok (), st) → st = Running;
  boot_err v e st : boot v = (Err e, st) → st = vm_status v;
  boot_total v st : boot v ≠ (Panic, st);
  shutdown_ok v st : shutdown v = (Ok (), st) → st = Stopping;
  shutdown_err v e st : shutdown v = (Err e, st) → st = vm_status v;
  shutdown_total v st : shutdown v ≠ (Panic, st);
}.

(** ** Tasks and queues *)

(** The points of [vcpu_run] between two accesses to shared state; [wq] is the
    wait queue the call of [wait_for] has looked up. *)
Inductive pc : Type :=
| PStart
| PBootWait
| PWaitRunning (wq : Z)
| PMark
| PRun
| PHalted
| PCheckSuspend
| PSuspended
| PWaitResume (wq : Z)
| PCheckStop
| PExiting
| PSetStopped
| PSubCount
| PExited.

#[global] Instance pc_eq_dec : EqDecision pc.
Proof. solve_decision. Defined.

Record Task : Type := mkTask {
  t_name : string;
  t_cpumask : option Z;
  t_vm : Z;
  t_vcpu : nat;
  t_pc : pc;
  t_blocked : bool;
}.

Definition set_pc (p : pc) (t : Task) : Task :=
  mkTask (t_name t) (t_cpumask t) (t_vm t) (t_vcpu t) p (t_blocked t).

Definition set_blocked (b : bool) (t : Task) : Task :=
  mkTask (t_name t) (t_cpumask t) (t_vm t) (t_vcpu t) (t_pc t) b.

Record VMVCpus : Type := mkVMVCpus {
  q_vm_id : Z;
  wait_queue : Z;
  vcpu_task_list : list Z;
  running_halting_vcpu_count : Z;
}.

Definition add_vcpu_task (tid : Z) (q : VMVCpus) : VMVCpus :=
  mkVMVCpus (q_vm_id q) (wait_queue q) (vcpu_task_list q ++ [tid])
    (running_halting_vcpu_count q).

Definition set_count (n : Z) (q : VMVCpus) : VMVCpus :=
  mkVMVCpus (q_vm_id q) (wait_queue q) (vcpu_task_list q) n.

(** Calls that leave the modelled state: what they are given is recorded. *)
Inductive event : Type :=
| EBusyWait (seconds : Z)
| ESetReturnValue (vm vcpu value : Z)
| ESetGpr (vm vcpu reg value : Z)
| EIrqHandler (vector : Z)
| ECheckEvents
| EInjectInterrupt (vector : Z)
| EWakeVmm.

Record vmm_state (H : Type) : Type := mkVmm {
  heap : gmap Z VM;
  vms : gmap Z Z;
  queue : gmap Z VMVCpus;
  wqs : gmap Z (list Z);
  tasks : gmap Z Task;
  next_wq : Z;
  running_vm_count : Z;
  hvc : H;
  trace : list event;
  out : list string;
}.
Arguments mkVmm {H}.
Arguments heap {H}.
Arguments vms {H}.
Arguments queue {H}.
Arguments wqs {H}.
Arguments tasks {H}.
Arguments next_wq {H}.
Arguments running_vm_count {H}.
Arguments hvc {H}.
Arguments trace {H}.
Arguments out {H}.

(** A call that never returns. *)
Inductive blocked : Type := Forever.

Section updates.
Context {H : Type}.
Implicit Types s : vmm_state H.

Definition upd_heap (f : gmap Z VM → gmap Z VM) s : vmm_state H :=
  mkVmm (f (heap s)) (vms s) (queue s) (wqs s) (tasks s) (next_wq s)
    (running_vm_count s) (hvc s) (trace s) (out s).
Definition upd_vms (f : gmap Z Z → gmap Z Z) s : vmm_state H :=
  mkVmm (heap s) (f (vms s)) (queue s) (wqs s) (tasks s) (next_wq s)
    (running_vm_count s) (hvc s) (trace s) (out s).
Definition upd_queue (f : gmap Z VMVCpus → gmap Z VMVCpus) s : vmm_state H :=
  mkVmm (heap s) (vms s) (f (queue s)) (wqs s) (tasks s) (next_wq s)
    (running_vm_count s) (hvc s) (trace s) (out s).
Definition upd_wqs (f : gmap Z (list Z) → gmap Z (list Z)) s : vmm_state H :=
  mkVmm (heap s) (vms s) (queue s) (f (wqs s)) (tasks s) (next_wq s)
    (running_vm_count s) (hvc s) (trace s) (out s).
Definition upd_tasks (f : gmap Z Task → gmap Z Task) s : vmm_state H :=
  mkVmm (heap s) (vms s) (queue s) (wqs s) (f (tasks s)) (next_wq s)
    (running_vm_count s) (hvc s) (trace s) (out s).
Definition upd_next_wq (f : Z → Z) s : vmm_state H :=
  mkVmm (heap s) (vms s) (queue s) (wqs s) (tasks s) (f (next_wq s))
    (running_vm_count s) (hvc s) (trace s) (out s).
Definition upd_count (f : Z → Z) s : vmm_state H :=
  mkVmm (heap s) (vms s) (queue s) (wqs s) (tasks s) (next_wq s)
    (f (running_vm_count s)) (hvc s) (trace s) (out s).
Definition upd_hvc (f : H → H) s : vmm_state H :=
  mkVmm (heap s) (vms s) (queue s) (wqs s) (tasks s) (next_wq s)
    (running_vm_count s) (f (hvc s)) (trace s) (out s).
Definition upd_trace (f : list event → list event) s : vmm_state H :=
  mkVmm (heap s) (vms s) (queue s) (wqs s) (tasks s) (next_wq s)
    (running_vm_count s) (hvc s) (f (trace s)) (out s).
Definition upd_out (f : list string → list string) s : vmm_state H :=
  mkVmm (heap s) (vms s) (queue s) (wqs s) (tasks s) (next_wq s)
    (running_vm_count s) (hvc s) (trace s) (f (out s)).
End updates.

Section vmm.
Context {F G : Type} `{!PagingHandler F} `{!GuestVM G} `{!HyperCallCodes}.
Context `{!AxVm} `{!OverflowChecks} `{!TargetArch}.

Abbreviation state := (vmm_state (hvc_state F G)).
Abbreviation M := (st state blocked).
Implicit Types s : state.

Definition emit (e : event) : M () := modify (upd_trace (λ t, t ++ [e])).
Definition println (line : string) : M () := modify (upd_out (λ o, o ++ [line])).

(** Dereferencing a [VMRef]. *)
Definition deref (l : Z) : M VM := s ← get; lift (unwrap (heap s !! l)).

Definition store (l : Z) (v : VM) : M () := modify (upd_heap <[l := v]>).

(** ** [vm_list.rs] *)

(** [VMList::push_vm]: an id that is taken keeps its VM. *)
Definition push_vm_id (id l : Z) : M () :=
  s ← get;
  match vms s !! id with
  | Some _ => mret ()
  | None => modify (upd_vms <[id := l]>)
  end.

Definition push_vm (l : Z) : M () := v ← deref l; push_vm_id (vm_id v) l.

Definition remove_vm (id : Z) : M (option Z) :=
  s ← get; modify (upd_vms (delete id));; mret (vms s !! id).

Definition get_vm_by_id (id : Z) : M (option Z) := gets (λ s, vms s !! id).

Definition get_vm_list : M (list Z) := gets (λ s, (btree_iter (vms s)).*2).

(** ** [vcpus.rs]: the map of queues *)

Definition queue_get (id : Z) : M (option VMVCpus) := gets (λ s, queue s !! id).

Definition drop_vmvcpus (o : option VMVCpus) : M () :=
  match o with
  | Some q => modify (upd_wqs (delete (wait_queue q)))
  | None => mret ()
  end.

Definition queue_insert (id : Z) (q : VMVCpus) : M () :=
  s ← get; modify (upd_queue <[id := q]>);; drop_vmvcpus (queue s !! id).

Definition queue_remove (id : Z) : M (option VMVCpus) :=
  s ← get; modify (upd_queue (delete id));; mret (queue s !! id).

Definition new_vmvcpus (l : Z) : M VMVCpus :=
  v ← deref l;
  s ← get;
  let wq := next_wq s in
  modify (upd_next_wq Z.succ);; modify (upd_wqs <[wq := []]>);;
  mret (mkVMVCpus (vm_id v) wq [] 0).

(** Blocking the current task on a wait queue, and waking tasks. *)
Definition upd_task (tid : Z) (f : Task → Task) : M () :=
  modify (upd_tasks (alter f tid)).

Definition block_on (tid wq : Z) : M () :=
  modify (upd_wqs (alter (λ w, w ++ [tid]) wq));; upd_task tid (set_blocked true).

Definition wake (tid : Z) : M () := upd_task tid (set_blocked false).

Definition notify_one (wq : Z) : M () :=
  s ← get;
  match wqs s !! wq with
  | Some (t :: w) => modify (upd_wqs <[wq := w]>);; wake t
  | _ => mret ()
  end.

Fixpoint wake_all (l : list Z) : M () :=
  match l with [] => mret () | t :: l => wake t;; wake_all l end.

Definition notify_all (wq : Z) : M () :=
  s ← get;
  match wqs s !! wq with
  | Some w => modify (upd_wqs <[wq := []]>);; wake_all w
  | None => mret ()
  end.

Definition notify_primary_vcpu (id : Z) : M () :=
  q ← queue_get id; q ← lift (unwrap q); notify_one (wait_queue q).

Definition notify_all_vcpus (id : Z) : M () :=
  q ← queue_get id;
  match q with Some q => notify_all (wait_queue q) | None => mret () end.

Definition mark_vcpu_running (id : Z) : M () :=
  q ← queue_get id; q ← lift (unwrap q);
  modify (upd_queue <[id := set_count (wrap64 (running_halting_vcpu_count q + 1)) q]>).

Definition mark_vcpu_exiting (id : Z) : M bool :=
  q ← queue_get id; q ← lift (unwrap q);
  let n := running_halting_vcpu_count q in
  modify (upd_queue <[id := set_count (wrap64 (n - 1)) q]>);;
  mret (bool_decide (n = 1)).

(** [axtask::spawn_task] makes the new task runnable. *)
Definition alloc_vcpu_task (l : Z) (n : nat) (c : VCpu) : M Z :=
  v ← deref l;
  s ← get;
  let tid := fresh (dom (tasks s) : gset Z) in
  modify (upd_tasks <[tid :=
    mkTask ("VM[" +:+ pretty (vm_id v) +:+ "]-VCpu[" +:+ pretty (vcpu_id c) +:+ "]")
      (phys_cpu_set c) l n PStart false]>);;
  mret tid.

Definition vcpu_at (l : Z) (n : nat) : M VCpu :=
  v ← deref l; lift (unwrap (vcpu_list v !! n)).

Definition vcpu_on (l : Z) (target : nat) (entry_point arg : Z) : M () :=
  vcpu ← vcpu_at l target;
  if negb (bool_decide (vcpu_state vcpu = VFree)) then panic else
  v ← deref l;
  lift (expect (set_entry v (vcpu_id vcpu) entry_point));;
  emit (ESetGpr (vm_id v) (vcpu_id vcpu) 0 arg);;
  (if bool_decide (target_arch = RiscV64) then
     emit (ESetGpr (vm_id v) (vcpu_id vcpu) 0 (Z.of_nat target));;
     emit (ESetGpr (vm_id v) (vcpu_id vcpu) 1 arg)
   else mret ());;
  vcpu_task ← alloc_vcpu_task l target vcpu;
  q ← queue_get (vm_id v); q ← lift (unwrap q);
  modify (upd_queue <[vm_id v := add_vcpu_task vcpu_task q]>).

Definition setup_vm_primary_vcpu (l : Z) : M () :=
  v ← deref l;
  vm_vcpus ← new_vmvcpus l;
  primary_vcpu ← vcpu_at l 0;
  primary_vcpu_task ← alloc_vcpu_task l 0 primary_vcpu;
  queue_insert (vm_id v) (add_vcpu_task primary_vcpu_task vm_vcpus).

Definition with_vcpu_task {T} (id : Z) (vcpu : nat) (f : Z → T) : M (option T) :=
  q ← queue_get id; q ← lift (unwrap q);
  mret (f <$> vcpu_task_list q !! vcpu).

(** ** [mod.rs] *)

Definition add_running_vm_count (n : Z) : M () := modify (upd_count (λ c, wrap64 (c + n))).
Definition sub_running_vm_count (n : Z) : M () := modify (upd_count (λ c, wrap64 (c - n))).

Definition with_vm {T} (id : Z) (f : Z → M T) : M (option T) :=
  l ← get_vm_by_id id;
  match l with
  | Some l => x ← f l; mret (Some x)
  | None => mret None
  end.

Definition with_vm_and_vcpu {T} (id : Z) (vcpu : nat) (f : Z → VCpu → M T) : M (option T) :=
  l ← get_vm_by_id id;
  match l with
  | Some l =>
      v ← deref l;
      match vcpu_list v !! vcpu with
      | Some c => x ← f l c; mret (Some x)
      | None => mret None
      end
  | None => mret None
  end.

(** [VM::boot] and [VM::shutdown] on the object. *)
Definition vm_boot (l : Z) : M (outcome AxError ()) :=
  v ← deref l;
  let '(r, st) := boot v in
  store l (set_vm_status st v);;
  match r with Panic => panic | _ => mret r end.

Definition vm_shutdown (l : Z) : M (outcome AxError ()) :=
  v ← deref l;
  let '(r, st) := shutdown v in
  store l (set_vm_status st v);;
  match r with Panic => panic | _ => mret r end.

Definition start_one (l : Z) : M () :=
  r ← vm_boot l;
  match r with
  | Ok _ => v ← deref l; notify_primary_vcpu (vm_id v);; add_running_vm_count 1
  | _ => mret ()
  end.

Fixpoint for_each {A} (l : list A) (f : A → M ()) : M () :=
  match l with [] => mret () | x :: l => f x;; for_each l f end.

(** [init] and the booting part of [start]; the configuration step of [init] is
    its argument. *)
Definition init (init_guest_vms : M ()) : M () :=
  init_guest_vms;; l ← get_vm_list; for_each l setup_vm_primary_vcpu.

Definition start_boot : M () := l ← get_vm_list; for_each l start_one.

(** The condition [start] waits for. *)
Definition all_vms_stopped s : bool := bool_decide (running_vm_count s = 0).

(** ** Tasks: [task.rs] and [vcpu_run] *)

(** A strong reference to a VM is held by the VM list and by every vCPU task
    that has entered [vcpu_run] and not left it; [VCpuTask] itself holds a weak
    one.  [locals] counts the references of the running function. *)
Definition holds_vm (l : Z) (t : Task) : bool :=
  bool_decide (t_vm t = l ∧ t_pc t ≠ PStart ∧ t_pc t ≠ PExited).

Definition strong_count s (l : Z) (locals : Z) : Z :=
  Z.of_nat (length (filter (λ p, p.2 = l) (map_to_list (vms s)))) +
  Z.of_nat (length (filter (λ p, holds_vm l p.2) (map_to_list (tasks s)))) + locals.

Definition task_at (tid : Z) : M Task := s ← get; lift (unwrap (tasks s !! tid)).

(** [VCpuTask::vm]: upgrading the weak reference. *)
Definition task_vm (t : Task) : M Z :=
  s ← get;
  if bool_decide (is_Some (heap s !! t_vm t)) && bool_decide (0 < strong_count s (t_vm t) 0)
  then mret (t_vm t) else panic.

Definition with_vm_and_vcpu_on_pcpu (current id : Z) (vcpu : nat) (f : Z → VCpu → M ())
  : M (outcome AxError ()) :=
  t ← task_at current;
  l ← task_vm t;
  v ← deref l;
  c ← vcpu_at l (t_vcpu t);
  if bool_decide (vm_id v = id) && bool_decide (vcpu_id c = Z.of_nat vcpu) then
    r ← with_vm_and_vcpu id vcpu f;
    lift (unwrap r);;
    mret (Ok ())
  else
    task ← with_vcpu_task id vcpu (λ task, task);
    match task with
    | None => mret (Err NotFound)
    | Some _ => panic
    end.

(** What [run_vcpu] returns, and the state it leaves the vCPU in. *)
Record run_result : Type := mkRun {
  exit_reason : outcome AxError AxVCpuExitReason;
  state_after : VCpuState;
}.

Definition set_vcpu_state (l : Z) (n : nat) (x : VCpuState) : M () :=
  v ← deref l;
  store l (set_vcpu_list
             (alter (λ c, mkVCpu (vcpu_id c) x (phys_cpu_set c)) n (vcpu_list v)) v).

Definition hypercall (l : Z) (c : VCpu) (nr : Z) (args : vec Z 6) : M () :=
  v ← deref l;
  match hypercall_new (vm_id v) nr args with
  | Ok h =>
      s ← get;
      let '(r, x) := execute h (hvc s) in
      modify (upd_hvc (λ _, x));;
      match r with
      | Ok ret_val => emit (ESetReturnValue (vm_id v) (vcpu_id c) ret_val)
      | Err _ => emit (ESetReturnValue (vm_id v) (vcpu_id c) (wrap64 (-1)))
      | Panic => panic
      end
  | _ => mret ()
  end.

Definition cpu_up (l : Z) (c : VCpu) (target_cpu entry_point arg : Z) : M () :=
  v ← deref l;
  let target :=
    list_find (λ m : Z * option Z * Z, m.2 = target_cpu) (vcpu_affinities_pcpu_ids v) in
  m ← lift (unwrap (snd <$> target));
  vcpu_on l (Z.to_nat m.1.1) entry_point arg;;
  emit (ESetGpr (vm_id v) (vcpu_id c) 0 0).

Definition send_ipi (l : Z) (c : VCpu) (target_cpu : Z) (to_all to_self : bool) (vector : Z)
  : M () :=
  if to_all then panic
  else if bool_decide (target_cpu = vcpu_id c) || to_self then emit (EInjectInterrupt vector)
  else v ← deref l; lift (unwrap (match inject_interrupt_to_vcpu v target_cpu vector with
                                  | Ok x => Some x | _ => None end)).

(** [vm.shutdown().expect(..)]. *)
Definition shutdown_expect (l : Z) : M () := r ← vm_shutdown l; lift (expect r).

Definition goto (tid : Z) (p : pc) : M () := upd_task tid (set_pc p).

(** [wait(vm_id)]: the queue is looked up and the task blocked on it. *)
Definition wait (tid id : Z) : M () :=
  q ← queue_get id; q ← lift (unwrap q); block_on tid (wait_queue q).

(** The body of the loop of [vcpu_run] up to the checks of the status. *)
Definition run_once (tid l : Z) (c : VCpu) (id : Z) (r : run_result) : M () :=
  match exit_reason r with
  | Ok (Hypercall nr args) => hypercall l c nr args;; goto tid PCheckSuspend
  | Ok (FailEntry _) => goto tid PCheckSuspend
  | Ok (ExternalInterrupt vector) =>
      emit (EIrqHandler vector);; emit ECheckEvents;; goto tid PCheckSuspend
  | Ok Halt => goto tid PHalted;; wait tid id
  | Ok Nothing => goto tid PCheckSuspend
  | Ok (CpuDown _) => goto tid PHalted;; wait tid id
  | Ok (CpuUp target_cpu entry_point arg) =>
      cpu_up l c target_cpu entry_point arg;; goto tid PCheckSuspend
  | Ok SystemDown => shutdown_expect l;; goto tid PCheckSuspend
  | Ok (SendIPI target_cpu _ to_all to_self vector) =>
      send_ipi l c target_cpu to_all to_self vector;; goto tid PCheckSuspend
  | Ok OtherExit => goto tid PCheckSuspend
  | Err _ => shutdown_expect l;; goto tid PCheckSuspend
  | Panic => panic
  end.

(** One step of a task that is not blocked. *)
Definition vcpu_step (tid : Z) (r : run_result) : M () :=
  t ← task_at tid;
  let l := t_vm t in
  match t_pc t with
  | PStart =>
      l ← task_vm t;
      v ← deref l;
      d ← lift (usize_sub (vm_id v) 1);
      boot_delay_sec ← lift (usize_mul d 5);
      emit (EBusyWait boot_delay_sec);; goto tid PBootWait
  | PBootWait =>
      v ← deref l;
      q ← queue_get (vm_id v); q ← lift (unwrap q);
      goto tid (PWaitRunning (wait_queue q))
  | PWaitRunning wq =>
      v ← deref l;
      if running v then goto tid PMark else block_on tid wq
  | PMark => v ← deref l; mark_vcpu_running (vm_id v);; goto tid PRun
  | PRun =>
      v ← deref l;
      c ← vcpu_at l (t_vcpu t);
      set_vcpu_state l (t_vcpu t) (state_after r);;
      run_once tid l c (vm_id v) r
  | PHalted => goto tid PCheckSuspend
  | PCheckSuspend =>
      v ← deref l; goto tid (if suspending v then PSuspended else PCheckStop)
  | PSuspended =>
      v ← deref l;
      q ← queue_get (vm_id v); q ← lift (unwrap q);
      goto tid (PWaitResume (wait_queue q))
  | PWaitResume wq =>
      v ← deref l;
      if suspending v then block_on tid wq else goto tid PRun
  | PCheckStop => v ← deref l; goto tid (if stopping v then PExiting else PRun)
  | PExiting =>
      v ← deref l;
      last ← mark_vcpu_exiting (vm_id v);
      goto tid (if (last : bool) then PSetStopped else PExited)
  | PSetStopped => v ← deref l; store l (set_vm_status Stopped v);; goto tid PSubCount
  | PSubCount => sub_running_vm_count 1;; emit EWakeVmm;; goto tid PExited
  | PExited => panic
  end.

Definition runnable s (tid : Z) : Prop :=
  ∃ t, tasks s !! tid = Some t ∧ t_blocked t = false ∧ t_pc t ≠ PExited.

(** The steps of the scheduler. *)
Inductive task_step : relation state :=
| do_task_step s tid r s' :
    runnable s tid → vcpu_step tid r s = (Ok (), s') → task_step s s'.
End vmm.

(** ** The count of running or halting vCPUs

    The points of [vcpu_run] between the call of [mark_vcpu_running] and that of
    [mark_vcpu_exiting]. *)
Definition in_loop (p : pc) : bool :=
  match p with
  | PRun | PHalted | PCheckSuspend | PSuspended | PWaitResume _ | PCheckStop | PExiting => true
  | _ => false
  end.

Definition loop_vm (t : Task) : option Z := if in_loop (t_pc t) then Some (t_vm t) else None.

(** The part of the state the count depends on: the ids of the VM objects, the
    counters, and the VM of every task that is in the loop. *)
Definition view {H} (s : vmm_state H) : gmap Z Z * gmap Z Z * gmap Z Z :=
  (vm_id <$> heap s, running_halting_vcpu_count <$> queue s, omap loop_vm (tasks s)).

(** The tasks of the VM with a given id that are in the loop. *)
Definition loop_tasks {H} (s : vmm_state H) (id : Z) : gset Z :=
  dom (filter (λ p, (vm_id <$> heap s) !! p.2 = Some id) (omap loop_vm (tasks s))).

(** Every counter is the number of those tasks (as a [usize]). *)
Definition counts_ok {H} (s : vmm_state H) : Prop :=
  ∀ id q, queue s !! id = Some q →
          running_halting_vcpu_count q = wrap64 (Z.of_nat (size (loop_tasks s id))).

(** The same with tasks that a counter never counted: [base] gives their number for a
    VM that was started while tasks of an earlier start were still in the loop. *)
Definition uncounted (base : gmap Z Z) (id : Z) : Z := default 0 (base !! id).

Definition counts_from {H} (base : gmap Z Z) (s : vmm_state H) : Prop :=
  ∀ id q, queue s !! id = Some q →
          running_halting_vcpu_count q = wrap64 (Z.of_nat (size (loop_tasks s id)) - uncounted base id).

Section counts.
Context {F G : Type} `{!PagingHandler F} `{!GuestVM G} `{!HyperCallCodes}.
Context `{!AxVm} `{!OverflowChecks} `{!TargetArch}.

Abbreviation state := (vmm_state (hvc_state F G)).
Abbreviation V := (gmap Z Z * gmap Z Z * gmap Z Z)%type.
Implicit Types (s : state) (P : V → Prop).

Lemma view_heap s l v w :
  heap s !! l = Some v → vm_id w = vm_id v → view (upd_heap <[l := w]> s) = view s.
Proof.
  intros Hl Hw. unfold view. simpl. f_equal. f_equal.
  rewrite fmap_insert, Hw. apply insert_id. by rewrite lookup_fmap, Hl.
Qed.

Lemma view_queue s id q q' :
  queue s !! id = Some q → running_halting_vcpu_count q' = running_halting_vcpu_count q →
  view (upd_queue <[id := q']> s) = view s.
Proof.
  intros Hq Hc. unfold view. simpl. f_equal. f_equal.
  rewrite fmap_insert, Hc. apply insert_id. by rewrite lookup_fmap, Hq.
Qed.

(** A change of one task that keeps it in, or out of, the loop of its VM. *)
Lemma view_task s tid t t' :
  tasks s !! tid = Some t → loop_vm t' = loop_vm t →
  view (upd_tasks <[tid := t']> s) = view s.
Proof.
  intros Ht Hl. unfold view. simpl. f_equal. apply map_eq. intros i.
  rewrite !lookup_omap. destruct (decide (i = tid)) as [->|].
  - rewrite lookup_insert_eq, Ht. simpl. done.
  - by rewrite lookup_insert_ne.
Qed.

Lemma view_alter s tid f :
  (∀ t, tasks s !! tid = Some t → loop_vm (f t) = loop_vm t) →
  view (upd_tasks (alter f tid) s) = view s.
Proof.
  intros Hf. unfold view. simpl. f_equal. apply map_eq. intros i.
  rewrite !lookup_omap. destruct (decide (i = tid)) as [->|].
  - rewrite lookup_alter_eq. destruct (tasks s !! tid) as [t|] eqn:Ht; [|done].
    simpl. by apply Hf.
  - by rewrite lookup_alter_ne.
Qed.

(** A new task is not in the loop, and its id was not in use. *)
Lemma new_task_none s : tasks s !! fresh (dom (tasks s) : gset Z) = None.
Proof. apply (not_elem_of_dom (D:=gset Z)), is_fresh. Qed.

Lemma view_new_task s t :
  loop_vm t = None → view (upd_tasks <[fresh (dom (tasks s) : gset Z) := t]> s) = view s.
Proof.
  intros Hn. unfold view. simpl. f_equal. apply map_eq. intros i.
  rewrite !lookup_omap. destruct (decide (i = fresh (dom (tasks s) : gset Z))) as [->|].
  - rewrite lookup_insert_eq. simpl. by rewrite Hn, new_task_none.
  - by rewrite lookup_insert_ne.
Qed.
End counts.

(** ** Code that leaves a view alone

    The view [f] does not depend on the trace, the wait queues, the hypercall
    state and the task lists of the queues ([Quiet]), on the contents of the VM
    at [l] other than its id and on new tasks of it ([QuietVm]), or, where it
    satisfies [P], on whether task [tid] is blocked ([QuietTask]). *)
Class Quiet {F G V : Type} (f : vmm_state (hvc_state F G) → V) : Prop := {
  quiet_trace g s : f (upd_trace g s) = f s;
  quiet_wqs g s : f (upd_wqs g s) = f s;
  quiet_hvc g s : f (upd_hvc g s) = f s;
  quiet_queue s id q t :
    queue s !! id = Some q → f (upd_queue <[id := add_vcpu_task t q]> s) = f s;
}.

Class QuietVm {F G V : Type} (f : vmm_state (hvc_state F G) → V) (l : Z) : Prop := {
  quiet_heap s v w :
    heap s !! l = Some v → vm_id w = vm_id v → f (upd_heap <[l := w]> s) = f s;
  quiet_new s t :
    t_vm t = l → t_pc t = PStart →
    f (upd_tasks <[fresh (dom (tasks s) : gset Z) := t]> s) = f s;
}.

Class QuietTask {F G V : Type} (P : V → Prop) (f : vmm_state (hvc_state F G) → V) (tid : Z)
  : Prop :=
  quiet_blocked s b : P (f s) → f (upd_tasks (alter (set_blocked b) tid) s) = f s.

Section quiet.
Context {F G : Type} `{!PagingHandler F} `{!GuestVM G} `{!HyperCallCodes}.
Context `{!AxVm} `{!OverflowChecks} `{!TargetArch}.
Context {V : Type} (P : V → Prop) (f : vmm_state (hvc_state F G) → V) (l tid : Z).
Context `{!Quiet f} `{!QuietVm f l} `{!QuietTask P f tid}.

Lemma keeps_emit e : keeps P f (emit e).
Proof. apply keeps_modify. intros s _. apply quiet_trace. Qed.

Lemma keeps_deref l' : keeps P f (deref l').
Proof. unfold deref. keeps_tac. Qed.

Lemma keeps_queue_get id : keeps P f (queue_get id).
Proof. unfold queue_get. keeps_tac. Qed.

Lemma keeps_wqs g : keeps P f (modify (E:=blocked) (upd_wqs g)).
Proof. apply keeps_modify. intros s _. apply quiet_wqs. Qed.

Lemma keeps_set_blocked b : keeps P f (upd_task tid (set_blocked b)).
Proof. apply keeps_modify. intros s. apply quiet_blocked. Qed.
#[local] Hint Resolve keeps_emit keeps_deref keeps_queue_get keeps_wqs keeps_set_blocked : keeps.

Lemma keeps_vcpu_at l' n : keeps P f (vcpu_at l' n).
Proof. unfold vcpu_at. keeps_tac. Qed.

Lemma keeps_block_on wq : keeps P f (block_on tid wq).
Proof. unfold block_on. keeps_tac. Qed.
#[local] Hint Resolve keeps_vcpu_at keeps_block_on : keeps.

Lemma keeps_wait id : keeps P f (wait tid id).
Proof. unfold wait. keeps_tac. Qed.

Lemma keeps_shutdown : keeps P f (vm_shutdown l).
Proof.
  intros s _. unfold vm_shutdown, deref, store. st_run.
  destruct (heap s !! l) as [v|] eqn:Hl; simpl; [|done].
  destruct (shutdown v) as [r st]. destruct r; simpl; by apply (quiet_heap s v).
Qed.

Lemma keeps_set_vcpu_state n x : keeps P f (set_vcpu_state l n x).
Proof.
  intros s _. unfold set_vcpu_state, deref, store. st_run.
  destruct (heap s !! l) as [v|] eqn:Hl; simpl; [|done]. by apply (quiet_heap s v).
Qed.

Lemma keeps_alloc_vcpu_task n c : keeps P f (alloc_vcpu_task l n c).
Proof.
  intros s _. unfold alloc_vcpu_task, deref. st_run.
  destruct (heap s !! l); simpl; [|done]. by apply quiet_new.
Qed.

Lemma keeps_add_task id t :
  keeps P f (q ← queue_get id; q ← lift (unwrap q);
             modify (upd_queue <[id := add_vcpu_task t q]>)).
Proof.
  intros s _. unfold queue_get. st_run.
  destruct (queue s !! id) as [q|] eqn:Hq; simpl; [|done]. by apply quiet_queue.
Qed.
#[local] Hint Resolve keeps_wait keeps_shutdown keeps_set_vcpu_state
  keeps_alloc_vcpu_task keeps_add_task : keeps.

Lemma keeps_vcpu_on n e a : keeps P f (vcpu_on l n e a).
Proof. unfold vcpu_on. keeps_tac. Qed.

Lemma keeps_hypercall c nr args : keeps P f (hypercall l c nr args).
Proof.
  unfold hypercall. keeps_tac. all: apply keeps_modify; intros s' _; apply quiet_hvc.
Qed.
#[local] Hint Resolve keeps_vcpu_on keeps_hypercall : keeps.

Lemma keeps_cpu_up c t e a : keeps P f (cpu_up l c t e a).
Proof. unfold cpu_up. keeps_tac. Qed.

Lemma keeps_send_ipi c t b1 b2 v : keeps P f (send_ipi l c t b1 b2 v).
Proof. unfold send_ipi. keeps_tac. Qed.

Lemma keeps_shutdown_expect : keeps P f (shutdown_expect l).
Proof. unfold shutdown_expect. keeps_tac. Qed.
#[local] Hint Resolve keeps_cpu_up keeps_send_ipi keeps_shutdown_expect : keeps.

Lemma keeps_run_once c id r :
  keeps P f (goto tid PCheckSuspend) → keeps P f (goto tid PHalted) →
  keeps P f (run_once tid l c id r).
Proof. intros Hg1 Hg2. unfold run_once. keeps_tac. Qed.

Lemma keeps_store_status x (k : st (vmm_state (hvc_state F G)) blocked ()) :
  keeps P f k → keeps P f (v ← deref l; store l (set_vm_status x v);; k).
Proof.
  intros Hk s Hs. unfold deref, store. st_run.
  destruct (heap s !! l) as [v|] eqn:Hl; simpl; [|done].
  assert (Hv := quiet_heap s v (set_vm_status x v) Hl eq_refl).
  specialize (Hk (upd_heap <[l := set_vm_status x v]> s)). rewrite Hv in Hk.
  destruct (k _) as [[]]; by apply Hk.
Qed.
End quiet.
#[export] Hint Resolve keeps_emit keeps_deref keeps_queue_get keeps_wqs keeps_set_blocked
  keeps_vcpu_at keeps_block_on keeps_wait keeps_shutdown keeps_set_vcpu_state
  keeps_alloc_vcpu_task keeps_add_task keeps_vcpu_on keeps_hypercall keeps_cpu_up
  keeps_send_ipi keeps_shutdown_expect keeps_run_once keeps_store_status : keeps.

#[global] Instance view_quiet {F G} : Quiet (F:=F) (G:=G) view.
Proof. split; try done. intros. by eapply view_queue. Qed.

#[global] Instance view_quiet_vm {F G} l : QuietVm (F:=F) (G:=G) view l.
Proof.
  split; [intros; by eapply view_heap|].
  intros s t _ Hp. apply view_new_task. unfold loop_vm. by rewrite Hp.
Qed.

#[global] Instance view_quiet_task {F G} P tid : QuietTask (F:=F) (G:=G) P view tid.
Proof. intros s b _. by apply view_alter. Qed.
#[export] Hint Resolve view_quiet view_quiet_vm view_quiet_task : keeps.

Section counting.
Context {F G : Type} `{!PagingHandler F} `{!GuestVM G} `{!HyperCallCodes}.
Context `{!AxVm} `{!OverflowChecks} `{!TargetArch}.

Abbreviation state := (vmm_state (hvc_state F G)).
Implicit Types (s : state).

Lemma view_loop s tid t :
  tasks s !! tid = Some t → (view s).2 !! tid = loop_vm t.
Proof. intros Ht. unfold view. simpl. by rewrite lookup_omap, Ht. Qed.

Lemma keeps_goto_in tid l p :
  in_loop p = true → keeps (λ w, w.2 !! tid = Some l) view (goto (F:=F) (G:=G) tid p).
Proof.
  intros Hp. apply keeps_modify. intros s Hs. apply view_alter. intros t Ht.
  rewrite (view_loop _ _ _ Ht) in Hs. unfold loop_vm in *. simpl. rewrite Hp.
  by destruct (in_loop (t_pc t)).
Qed.

Lemma keeps_goto_out tid p :
  in_loop p = false → keeps (λ w, w.2 !! tid = None) view (goto (F:=F) (G:=G) tid p).
Proof.
  intros Hp. apply keeps_modify. intros s Hs. apply view_alter. intros t Ht.
  rewrite (view_loop _ _ _ Ht) in Hs. unfold loop_vm in *. simpl. rewrite Hp.
  by destruct (in_loop (t_pc t)).
Qed.

(** What a step does to the view: it enters the loop with the counter
    incremented, leaves it with the counter decremented, or changes nothing. *)
Definition step_view s tid t (w : gmap Z Z * gmap Z Z * gmap Z Z) : Prop :=
  match t_pc t with
  | PMark =>
      ∃ v q, heap s !! t_vm t = Some v ∧ queue s !! vm_id v = Some q ∧
        w = ((view s).1.1,
             <[vm_id v := wrap64 (running_halting_vcpu_count q + 1)]> (view s).1.2,
             <[tid := t_vm t]> (view s).2)
  | PExiting =>
      ∃ v q, heap s !! t_vm t = Some v ∧ queue s !! vm_id v = Some q ∧
        w = ((view s).1.1,
             <[vm_id v := wrap64 (running_halting_vcpu_count q - 1)]> (view s).1.2,
             delete tid (view s).2)
  | _ => w = view s
  end.

Lemma goto_view s tid t p :
  tasks s !! tid = Some t →
  view (goto tid p s).2 =
  ((view s).1, (if in_loop p then <[tid := t_vm t]> (view s).2 else delete tid (view s).2)).
Proof.
  intros Ht. unfold view, goto, upd_task. simpl. f_equal. apply map_eq. intros i.
  rewrite lookup_omap. destruct (decide (i = tid)) as [->|].
  - rewrite lookup_alter_eq, Ht. simpl. unfold loop_vm. simpl.
    destruct (in_loop p); by rewrite ?lookup_insert_eq, ?lookup_delete_eq.
  - rewrite lookup_alter_ne by done.
    destruct (in_loop p); by rewrite ?lookup_insert_ne, ?lookup_delete_ne, lookup_omap by done.
Qed.

Lemma task_at_bind {A} s tid t (k : Task → st state blocked A) :
  tasks s !! tid = Some t → (task_at tid ≫= k) s = k t s.
Proof. intros Ht. unfold task_at. st_run. by rewrite Ht. Qed.

Lemma deref_bind_ok {A} s l (k : VM → st state blocked A) a s' :
  (deref l ≫= k) s = (Ok a, s') → ∃ v, heap s !! l = Some v ∧ k v s = (Ok a, s').
Proof. unfold deref. st_run. destruct (heap s !! l) as [v|]; [by eauto|done]. Qed.

(** A step outside the loop that stays outside, and one inside that stays in. *)
Lemma step_keeps s tid t r s' :
  tasks s !! tid = Some t → vcpu_step tid r s = (Ok (), s') →
  t_pc t ≠ PMark → t_pc t ≠ PExiting → view s' = view s.
Proof.
  intros Ht. unfold vcpu_step. rewrite (task_at_bind _ _ _ _ Ht).
  pose proof (view_loop _ _ _ Ht) as Hw. unfold loop_vm in Hw.
  assert (Hin : ∀ p, in_loop p = true →
    keeps (λ w, w.2 !! tid = Some (t_vm t)) view (goto (F:=F) (G:=G) tid p)).
  { intros p Hp. by apply keeps_goto_in. }
  assert (Hout : ∀ p, in_loop p = false →
    keeps (λ w, w.2 !! tid = None) view (goto (F:=F) (G:=G) tid p)).
  { intros p Hp. by apply keeps_goto_out. }
  destruct (t_pc t) eqn:Hpc; simpl in Hw; intros He ??; try done.
  all: first [eapply (keeps_run (λ w, w.2 !! tid = None)); [|exact Hw|exact He]
             |eapply (keeps_run (λ w, w.2 !! tid = Some (t_vm t))); [|exact Hw|exact He]].
  all: unfold task_vm, sub_running_vm_count.
  all: keeps_tac; try (apply Hin; by case_match); try (by apply keeps_modify).
Qed.

Lemma step_mark s tid t r s' :
  tasks s !! tid = Some t → vcpu_step tid r s = (Ok (), s') → t_pc t = PMark →
  step_view s tid t (view s').
Proof.
  intros Ht He Hpc. unfold vcpu_step in He. rewrite (task_at_bind _ _ _ _ Ht), Hpc in He.
  apply deref_bind_ok in He as (v & Hv & He). unfold step_view. rewrite Hpc.
  unfold mark_vcpu_running, queue_get in He. st_run.
  destruct (queue s !! vm_id v) as [q|] eqn:Hq; [|done]. cbn [unwrap] in He.
  exists v, q. split_and!; [done..|]. apply (f_equal snd) in He. cbn [snd] in He.
  rewrite <-He, (goto_view (upd_queue _ s) _ t) by done. unfold view. simpl.
  by rewrite fmap_insert.
Qed.

Lemma step_exit s tid t r s' :
  tasks s !! tid = Some t → vcpu_step tid r s = (Ok (), s') → t_pc t = PExiting →
  step_view s tid t (view s').
Proof.
  intros Ht He Hpc. unfold vcpu_step in He. rewrite (task_at_bind _ _ _ _ Ht), Hpc in He.
  apply deref_bind_ok in He as (v & Hv & He). unfold step_view. rewrite Hpc.
  unfold mark_vcpu_exiting, queue_get in He. st_run.
  destruct (queue s !! vm_id v) as [q|] eqn:Hq; [|done]. cbn [unwrap] in He.
  exists v, q. split_and!; [done..|]. apply (f_equal snd) in He. cbn [snd] in He.
  rewrite <-He, (goto_view (upd_queue _ s) _ t) by done. unfold view. simpl.
  rewrite fmap_insert. by case_bool_decide.
Qed.

Lemma vcpu_step_view s tid t r s' :
  tasks s !! tid = Some t → vcpu_step tid r s = (Ok (), s') → step_view s tid t (view s').
Proof.
  intros Ht He.
  destruct (decide (t_pc t = PMark)); [by eapply step_mark|].
  destruct (decide (t_pc t = PExiting)); [by eapply step_exit|].
  pose proof (step_keeps _ _ _ _ _ Ht He ltac:(done) ltac:(done)).
  unfold step_view. by destruct (t_pc t).
Qed.

(** The counter invariant in terms of the view. *)
Definition loop_set (w : gmap Z Z * gmap Z Z * gmap Z Z) (id : Z) : gset Z :=
  dom (filter (λ p, w.1.1 !! p.2 = Some id) w.2).

Definition view_ok (base : gmap Z Z) (w : gmap Z Z * gmap Z Z * gmap Z Z) : Prop :=
  ∀ id n, w.1.2 !! id = Some n →
          n = wrap64 (Z.of_nat (size (loop_set w id)) - uncounted base id).

Lemma counts_from_view base s : counts_from base s ↔ view_ok base (view s).
Proof.
  unfold counts_from, view_ok, loop_tasks, loop_set. simpl. split; intros Hc id.
  - intros n. rewrite lookup_fmap. destruct (queue s !! id) as [q|] eqn:Hq; [|done].
    intros [= <-]. by apply Hc.
  - intros q Hq. apply (Hc id). by rewrite lookup_fmap, Hq.
Qed.

Lemma counts_ok_from s : counts_ok s ↔ counts_from ∅ s.
Proof.
  unfold counts_ok, counts_from, uncounted. setoid_rewrite lookup_empty. simpl.
  by setoid_rewrite Z.sub_0_r.
Qed.

Lemma counts_ok_view s : counts_ok s ↔ view_ok ∅ (view s).
Proof. by rewrite counts_ok_from, counts_from_view. Qed.

Lemma elem_of_loop_set w id tid :
  tid ∈ loop_set w id ↔ ∃ l, w.2 !! tid = Some l ∧ w.1.1 !! l = Some id.
Proof.
  unfold loop_set. rewrite elem_of_dom. unfold is_Some.
  setoid_rewrite map_lookup_filter_Some. naive_solver.
Qed.

Lemma wrap64_succ n : wrap64 (wrap64 n + 1) = wrap64 (n + 1).
Proof. unfold wrap64. apply Zplus_mod_idemp_l. Qed.

Lemma wrap64_pred n : wrap64 (wrap64 n - 1) = wrap64 (n - 1).
Proof. unfold wrap64. apply Zminus_mod_idemp_l. Qed.

Lemma view_ok_enter base ids cs ls tid l id n :
  ls !! tid = None → ids !! l = Some id → cs !! id = Some n →
  view_ok base (ids, cs, ls) → view_ok base (ids, <[id := wrap64 (n + 1)]> cs, <[tid := l]> ls).
Proof.
  intros Hn Hl Hc Hok id' n'. simpl. rewrite lookup_insert_Some.
  assert (Hset : ∀ i, loop_set (ids, <[id := wrap64 (n + 1)]> cs, <[tid := l]> ls) i
                 = (if decide (i = id) then {[tid]} else ∅) ∪ loop_set (ids, cs, ls) i).
  { intros i. apply set_eq. intros x. rewrite elem_of_union, !elem_of_loop_set. simpl.
    setoid_rewrite lookup_insert_Some. case_decide; set_solver. }
  assert (Hni : ∀ i, tid ∉ loop_set (ids, cs, ls) i).
  { intros i. rewrite elem_of_loop_set. simpl. rewrite Hn. naive_solver. }
  rewrite Hset. intros [[<- <-]|[Hne Hn']].
  - rewrite decide_True, size_union, size_singleton by set_solver.
    rewrite (Hok _ _ Hc), wrap64_succ. f_equal. lia.
  - rewrite decide_False, (left_id_L ∅ (∪)) by done. by apply Hok.
Qed.

Lemma view_ok_leave base ids cs ls tid l id n :
  ls !! tid = Some l → ids !! l = Some id → cs !! id = Some n →
  view_ok base (ids, cs, ls) → view_ok base (ids, <[id := wrap64 (n - 1)]> cs, delete tid ls).
Proof.
  intros Ht Hl Hc Hok id' n'. simpl. rewrite lookup_insert_Some.
  assert (Hset : ∀ i, loop_set (ids, <[id := wrap64 (n - 1)]> cs, delete tid ls) i
                 = loop_set (ids, cs, ls) i ∖ {[tid]}).
  { intros i. apply set_eq. intros x. rewrite elem_of_difference, !elem_of_loop_set. simpl.
    setoid_rewrite lookup_delete_Some. set_solver. }
  rewrite Hset. intros [[<- <-]|[Hne Hn']].
  - assert (tid ∈ loop_set (ids, cs, ls) id) as Hin by (apply elem_of_loop_set; by eauto).
    rewrite size_difference, size_singleton by set_solver.
    rewrite (Hok _ _ Hc), wrap64_pred. f_equal.
    assert (size (loop_set (ids, cs, ls) id) ≠ 0%nat).
    { intros Hz. apply size_empty_inv in Hz. set_solver. }
    lia.
  - assert (tid ∉ loop_set (ids, cs, ls) id') as Hni.
    { rewrite elem_of_loop_set. simpl. naive_solver. }
    rewrite difference_disjoint_L by set_solver. by apply Hok.
Qed.

Lemma task_step_counts base s s' : task_step s s' → counts_from base s → counts_from base s'.
Proof.
  intros [s0 tid r s1 (t & Ht & _ & _) He]. rewrite !counts_from_view.
  pose proof (vcpu_step_view _ _ _ _ _ Ht He) as Hv.
  pose proof (view_loop _ _ _ Ht) as Hl. unfold step_view, loop_vm in *.
  destruct (t_pc t); simpl in Hl; try (by rewrite Hv);
    destruct Hv as (v & q & Hh & Hq & ->); unfold view; simpl.
  - apply (view_ok_enter _ _ _ _ _ _ _ (running_halting_vcpu_count q)); [done|..];
      by rewrite lookup_fmap, ?Hh, ?Hq.
  - apply (view_ok_leave _ _ _ _ _ (t_vm t) _ (running_halting_vcpu_count q)); [done|..];
      by rewrite lookup_fmap, ?Hh, ?Hq.
Qed.

Lemma loop_tasks_view s id : loop_tasks s id = loop_set (view s) id.
Proof. done. Qed.

Lemma exiting_in_loop s tid t v :
  tasks s !! tid = Some t → t_pc t = PExiting → heap s !! t_vm t = Some v →
  tid ∈ loop_tasks s (vm_id v).
Proof.
  intros Ht Hp Hv. rewrite loop_tasks_view, elem_of_loop_set. exists (t_vm t). simpl.
  rewrite lookup_omap, lookup_fmap, Ht, Hv. simpl. unfold loop_vm. by rewrite Hp.
Qed.

(** The step of a task at [mark_vcpu_exiting]. *)
Lemma exiting_step s tid t v r s' :
  tasks s !! tid = Some t → t_pc t = PExiting → heap s !! t_vm t = Some v →
  vcpu_step tid r s = (Ok (), s') →
  ∃ q, queue s !! vm_id v = Some q ∧
       loop_tasks s' (vm_id v) = loop_tasks s (vm_id v) ∖ {[tid]} ∧
       (t_pc <$> tasks s' !! tid)
       = Some (if bool_decide (running_halting_vcpu_count q = 1) then PSetStopped else PExited).
Proof.
  intros Ht Hp Hv He. pose proof (step_exit _ _ _ _ _ Ht He Hp) as Hw.
  unfold step_view in Hw. rewrite Hp in Hw. destruct Hw as (v' & q & Hv' & Hq & Hw). simplify_eq.
  exists q. split_and!; [done| |].
  - rewrite !loop_tasks_view, Hw. apply set_eq. intros x.
    rewrite elem_of_difference, !elem_of_loop_set. cbn -[view].
    setoid_rewrite lookup_delete_Some. set_solver.
  - unfold vcpu_step in He. rewrite (task_at_bind _ _ _ _ Ht), Hp in He.
    unfold deref, mark_vcpu_exiting, queue_get in He. st_run. rewrite Hv in He.
    cbn [unwrap] in He. rewrite Hq in He. cbn [unwrap] in He. injection He as <-. simpl.
    rewrite lookup_alter_eq, Ht. simpl. done.
Qed.

Lemma last_iff (X : gset Z) tid :
  tid ∈ X → X ∖ {[tid]} = ∅ ↔ bool_decide (Z.of_nat (size X) = 1) = true.
Proof.
  intros Hin. rewrite bool_decide_eq_true.
  assert (Hs : size (X ∖ {[tid]}) = (size X - 1)%nat).
  { rewrite size_difference, size_singleton by set_solver. done. }
  assert (size X ≠ 0%nat) by (intros Hz%size_empty_inv; set_solver).
  split.
  - intros He. rewrite He, size_empty in Hs. lia.
  - intros He. apply leibniz_equiv, size_empty_inv. lia.
Qed.
End counting.

(** ** Tasks of one VM do not touch another *)

(** The VM object at [l] and its tasks. *)
Definition vm_view (l : Z) {H} (s : vmm_state H) : option VM * gmap Z Task :=
  (heap s !! l, filter (λ p, t_vm p.2 = l) (tasks s)).

Section isolation.
Context {F G : Type} `{!PagingHandler F} `{!GuestVM G} `{!HyperCallCodes}.
Context `{!AxVm} `{!OverflowChecks} `{!TargetArch}.

Abbreviation state := (vmm_state (hvc_state F G)).
Implicit Types (s : state).

(** [others tid w]: [tid] is not a task of the viewed VM. *)
Definition others (tid : Z) (w : option VM * gmap Z Task) : Prop := w.2 !! tid = None.

Lemma vm_view_task l s tid f :
  (∀ t, t_vm (f t) = t_vm t) → others tid (vm_view l s) →
  vm_view l (upd_tasks (alter f tid) s) = vm_view l s.
Proof.
  unfold others, vm_view. simpl. intros Hf Ho. f_equal. apply map_eq. intros i.
  apply option_eq. intros t. rewrite !map_lookup_filter_Some. simpl.
  destruct (decide (i = tid)) as [->|]; [|by rewrite lookup_alter_ne].
  rewrite map_lookup_filter_None in Ho. rewrite lookup_alter_Some.
  split; [|naive_solver].
  intros [[(_ & t0 & Ht0 & ->)|[[]]] Hl]; [|done].
  destruct Ho as [Ho|Ho]; [congruence|]. destruct (Ho _ Ht0). simpl. by rewrite <-Hf.
Qed.

#[global] Instance vm_view_quiet l : Quiet (F:=F) (G:=G) (vm_view l).
Proof. by split. Qed.

Lemma vm_view_quiet_vm l l' : l' ≠ l → QuietVm (F:=F) (G:=G) (vm_view l) l'.
Proof.
  intros Hne. split.
  - intros s v w _ _. unfold vm_view. simpl. by rewrite lookup_insert_ne.
  - intros s t Ht _. unfold vm_view. simpl. f_equal.
    rewrite map_filter_insert_False by (simpl; congruence).
    rewrite delete_id; [done|]. apply new_task_none.
Qed.

#[global] Instance vm_view_quiet_task l tid :
  QuietTask (F:=F) (G:=G) (others tid) (vm_view l) tid.
Proof. intros s b Ho. by apply vm_view_task. Qed.

Lemma keeps_goto_others l tid p : keeps (others tid) (vm_view l) (goto (F:=F) (G:=G) tid p).
Proof. apply keeps_modify. intros s Ho. by apply vm_view_task. Qed.
#[local] Hint Resolve vm_view_quiet vm_view_quiet_vm vm_view_quiet_task keeps_goto_others : keeps.

Lemma keeps_step_others l s tid t r s' :
  tasks s !! tid = Some t → t_vm t ≠ l →
  vcpu_step tid r s = (Ok (), s') → vm_view l s' = vm_view l s.
Proof.
  intros Ht Hl He. unfold vcpu_step in He. rewrite (task_at_bind _ _ _ _ Ht) in He.
  assert (Hq := vm_view_quiet_vm _ _ Hl).
  eapply (keeps_run (others tid)); [|..|exact He].
  - unfold task_vm, mark_vcpu_running, mark_vcpu_exiting, sub_running_vm_count.
    keeps_tac. all: by apply keeps_modify.
  - unfold others, vm_view. simpl. rewrite map_lookup_filter_None. right.
    intros t' Ht'. simpl. congruence.
Qed.

(** ** A VM that never stops *)

(** Points before the task has seen its VM running. *)
Definition before_running (p : pc) : bool :=
  match p with PStart | PBootWait | PWaitRunning _ => true | _ => false end.

Definition stuck_task (t : Task) : Prop :=
  t_blocked t = true ∨ before_running (t_pc t) = true ∨ t_pc t = PExited.

(** The VM is stopping, and each of its tasks has exited, is blocked, or is still
    waiting to see the VM running. *)
Definition stuck (l : Z) s : Prop :=
  (∃ v, heap s !! l = Some v ∧ vm_status v = Stopping) ∧
  ∀ tid t, tasks s !! tid = Some t → t_vm t = l → stuck_task t.

Lemma stuck_view l s s' : vm_view l s' = vm_view l s → stuck l s → stuck l s'.
Proof.
  intros Hv [Hst Ht]. unfold vm_view in Hv. injection Hv as Hh Hf. split; [by rewrite Hh|].
  intros tid t Htid Hl. eapply (Ht tid); [|done].
  assert (filter (λ p, t_vm p.2 = l) (tasks s') !! tid = Some t) as Hin
    by by apply map_lookup_filter_Some.
  rewrite Hf in Hin. by apply map_lookup_filter_Some in Hin as [? _].
Qed.

(** [st_bind_ok] with a first command that does not write. *)
Lemma bind_read_ok {A B} (m : st state blocked A) (k : A → st state blocked B) s b s' :
  (∀ r s1, m s = (r, s1) → s1 = s) → (m ≫= k) s = (Ok b, s') →
  ∃ a, m s = (Ok a, s) ∧ k a s = (Ok b, s').
Proof.
  intros Hm He. apply st_bind_ok in He as (a & s1 & He1 & He2).
  pose proof (Hm _ _ He1) as ->. eauto.
Qed.

Lemma stuck_goto l s tid p s' :
  before_running p = true → stuck l s → goto tid p s = (Ok (), s') → stuck l s'.
Proof.
  intros Hp Hst. unfold goto, upd_task, modify. intros [= <-].
  destruct Hst as [Hv Ht]. split; [done|]. intros i t Hi Hl. simpl in Hi.
  apply lookup_alter_Some in Hi as [(-> & t0 & Ht0 & ->)|[_ Hi]]; [|by eapply Ht].
  right. by left.
Qed.

Lemma stuck_block l s tid wq s' :
  stuck l s → block_on tid wq s = (Ok (), s') → stuck l s'.
Proof.
  intros Hst. unfold block_on, upd_task. st_run. intros [= <-].
  destruct Hst as [Hv Ht]. split; [done|]. intros i t Hi Hl. simpl in Hi.
  apply lookup_alter_Some in Hi as [(-> & t0 & Ht0 & ->)|[_ Hi]]; [|by eapply Ht].
  by left.
Qed.

Lemma stuck_step l s s' : task_step s s' → stuck l s → stuck l s'.
Proof.
  intros [s0 tid r s1 (t & Ht & Hb & Hx) He] Hst.
  destruct (decide (t_vm t = l)) as [Hl|Hl];
    [|by eapply stuck_view, Hst; eapply keeps_step_others].
  destruct (proj2 Hst _ _ Ht Hl) as [?|[Hp|?]]; [congruence| |done].
  unfold vcpu_step in He. rewrite (task_at_bind _ _ _ _ Ht) in He.
  destruct (t_pc t) eqn:Hpc; try done; clear Hp Hx.
  - apply bind_read_ok in He as (l' & _ & He).
    2: { unfold task_vm. st_run. intros ??. destruct (_ && _); congruence. }
    apply deref_bind_ok in He as (v & _ & He).
    apply bind_read_ok in He as (d & _ & He); [|intros ??; unfold lift; congruence].
    apply bind_read_ok in He as (d' & _ & He); [|intros ??; unfold lift; congruence].
    apply st_bind_ok in He as (? & s2 & [= _ <-] & He).
    by eapply stuck_goto in He; [|done|].
  - apply deref_bind_ok in He as (v & _ & He).
    apply bind_read_ok in He as (q & _ & He); [|intros ??; unfold queue_get, gets; congruence].
    apply bind_read_ok in He as (q' & _ & He); [|intros ??; unfold lift; congruence].
    by eapply stuck_goto in He.
  - apply deref_bind_ok in He as (v & Hv & He). rewrite Hl in Hv.
    pose proof Hst as [(v' & Hv' & Hs) _]. simplify_eq.
    unfold running in He. rewrite bool_decide_false in He by congruence.
    by eapply stuck_block in He.
Qed.

(** Its tasks that have not exited never do. *)
Definition alive (l tid : Z) s : Prop :=
  ∃ t, tasks s !! tid = Some t ∧ t_vm t = l ∧ t_pc t ≠ PExited.

Lemma alive_view l tid s s' : vm_view l s' = vm_view l s → alive l tid s → alive l tid s'.
Proof.
  intros Hv (t & Ht & Hl & Hp). exists t. split; [|done].
  assert (filter (λ p, t_vm p.2 = l) (tasks s) !! tid = Some t) as Hin
    by by apply map_lookup_filter_Some.
  injection Hv as _ Hf. rewrite <-Hf in Hin. by apply map_lookup_filter_Some in Hin as [? _].
Qed.

Lemma alive_alter l tid tid' f s s' :
  (∀ t, t_vm (f t) = t_vm t) → (∀ t, t_pc t ≠ PExited → t_pc (f t) ≠ PExited) →
  tasks s' = alter f tid' (tasks s) → alive l tid s → alive l tid s'.
Proof.
  intros Hf1 Hf2 Hs (t & Ht & Hl & Hp). destruct (decide (tid' = tid)) as [->|Hne].
  - exists (f t). rewrite Hs, lookup_alter_eq, Ht, Hf1. eauto.
  - exists t. by rewrite Hs, lookup_alter_ne.
Qed.

Lemma stuck_step_alive l tid s s' :
  task_step s s' → stuck l s → alive l tid s → alive l tid s'.
Proof.
  intros [s0 tid' r s1 (t & Ht & Hb & Hx) He] Hst Ha.
  destruct (decide (t_vm t = l)) as [Hl|Hl]; [|by eapply alive_view, Ha; eapply keeps_step_others].
  destruct (proj2 Hst _ _ Ht Hl) as [?|[Hp|?]]; [congruence| |done].
  unfold vcpu_step in He. rewrite (task_at_bind _ _ _ _ Ht) in He.
  assert (Hpc : ∀ p, p ≠ PExited → alive l tid (goto tid' p s0).2).
  { intros p Hp'. by eapply (alive_alter l tid tid' (set_pc p)), Ha. }
  destruct (t_pc t) eqn:E; try done; clear Hp Hx.
  - apply bind_read_ok in He as (l' & _ & He).
    2: { unfold task_vm. st_run. intros ??. destruct (_ && _); congruence. }
    apply deref_bind_ok in He as (v & _ & He).
    apply bind_read_ok in He as (d & _ & He); [|intros ??; unfold lift; congruence].
    apply bind_read_ok in He as (d' & _ & He); [|intros ??; unfold lift; congruence].
    apply st_bind_ok in He as (? & s2 & [= _ <-] & He).
    injection He as <-. by apply (Hpc PBootWait).
  - apply deref_bind_ok in He as (v & _ & He).
    apply bind_read_ok in He as (q & _ & He); [|intros ??; unfold queue_get, gets; congruence].
    apply bind_read_ok in He as (q' & _ & He); [|intros ??; unfold lift; congruence].
    injection He as <-. by apply (Hpc (PWaitRunning _)).
  - apply deref_bind_ok in He as (v & _ & He).
    destruct (running v); [injection He as <-; by apply (Hpc PMark)|].
    revert He. unfold block_on, upd_task. st_run. intros [= <-].
    by eapply (alive_alter l tid tid' (set_blocked true)), Ha.
Qed.

Lemma stuck_forever l s s' : rtc task_step s s' → stuck l s → stuck l s'.
Proof. induction 1; eauto using stuck_step. Qed.

Lemma stuck_alive_forever l tid s s' :
  rtc task_step s s' → stuck l s → alive l tid s → alive l tid s'.
Proof. induction 1; eauto using stuck_step, stuck_step_alive. Qed.
End isolation.
