(* ===== verification/Command.v ===== *)
(** * The command parser of the shell ([kernel/src/shell/command/mod.rs])

    Tokens, the lookup in the command tree, options, flags and positional
    arguments, and the execution of a line.  A node's handler is a value of a
    type [A] that the tree is built over: which function is called. *)

From Stdlib Require Import Ascii.
From S2P Require Import Prelude RustStr.

(** ** Data *)

Record OptionDef : Type := mkOption {
  opt_name : string;
  opt_short : option string;
  opt_long : option string;
  opt_description : string;
  opt_required : bool;
}.

Record FlagDef : Type := mkFlag {
  flag_name : string;
  flag_short : option string;
  flag_long : option string;
  flag_description : string;
}.

(** The map of subcommands is an association list, sorted by its keys. *)
Inductive CommandNode (A : Type) : Type := mkNode {
  handler : option A;
  subcommands : list (string * CommandNode A);
  description : string;
  usage : option string;
  node_options : list OptionDef;
  node_flags : list FlagDef;
}.
Arguments mkNode {A}.
Arguments handler {A}.
Arguments subcommands {A}.
Arguments description {A}.
Arguments usage {A}.
Arguments node_options {A}.
Arguments node_flags {A}.

Record ParsedCommand : Type := mkParsed {
  command_path : list string;
  options : gmap string string;
  flags : gmap string bool;
  positional_args : list string;
}.

Inductive ParseError : Type :=
| UnknownCommand (cmd : string)
| UnknownOption (opt : string)
| MissingValue (opt : string)
| MissingRequiredOption (opt : string)
| NoHandler (cmd : string).

(** [BTreeMap] of names as a sorted association list: lookup and insertion. *)
Fixpoint assoc_get {B} (k : string) (l : list (string * B)) : option B :=
  match l with
  | [] => None
  | (k', b) :: l => if bool_decide (k = k') then Some b else assoc_get k l
  end.

Fixpoint assoc_insert {B} (k : string) (b : B) (l : list (string * B)) : list (string * B) :=
  match l with
  | [] => [(k, b)]
  | (k', b') :: l' =>
      match String.compare k k' with
      | Eq => (k, b) :: l'
      | Lt => (k, b) :: l
      | Gt => (k', b') :: assoc_insert k b l'
      end
  end.

(** ** Builders *)
Section builders.
Context {A : Type}.

Definition node_new (desc : string) : CommandNode A := mkNode None [] desc None [] [].

Definition with_handler (h : A) (n : CommandNode A) : CommandNode A :=
  mkNode (Some h) (subcommands n) (description n) (usage n) (node_options n) (node_flags n).

Definition with_usage (u : string) (n : CommandNode A) : CommandNode A :=
  mkNode (handler n) (subcommands n) (description n) (Some u) (node_options n) (node_flags n).

Definition with_option (o : OptionDef) (n : CommandNode A) : CommandNode A :=
  mkNode (handler n) (subcommands n) (description n) (usage n) (node_options n ++ [o])
    (node_flags n).

Definition with_flag (f : FlagDef) (n : CommandNode A) : CommandNode A :=
  mkNode (handler n) (subcommands n) (description n) (usage n) (node_options n)
    (node_flags n ++ [f]).

Definition add_subcommand (name : string) (sub : CommandNode A) (n : CommandNode A)
  : CommandNode A :=
  mkNode (handler n) (assoc_insert name sub (subcommands n)) (description n) (usage n)
    (node_options n) (node_flags n).
End builders.

Definition option_new (name desc : string) : OptionDef := mkOption name None None desc false.
Definition option_short (c : string) (o : OptionDef) : OptionDef :=
  mkOption (opt_name o) (Some c) (opt_long o) (opt_description o) (opt_required o).
Definition option_long (l : string) (o : OptionDef) : OptionDef :=
  mkOption (opt_name o) (opt_short o) (Some l) (opt_description o) (opt_required o).
Definition option_require (o : OptionDef) : OptionDef :=
  mkOption (opt_name o) (opt_short o) (opt_long o) (opt_description o) true.

Definition flag_new (name desc : string) : FlagDef := mkFlag name None None desc.
Definition flag_with_short (c : string) (f : FlagDef) : FlagDef :=
  mkFlag (flag_name f) (Some c) (flag_long f) (flag_description f).
Definition flag_with_long (l : string) (f : FlagDef) : FlagDef :=
  mkFlag (flag_name f) (flag_short f) (Some l) (flag_description f).

(** ** Tokens *)

Definition backslash : string := of_bytes [92].
Definition dquote : string := of_bytes [34].

Record tok_state : Type := mkTok {
  toks : list string;
  current_token : string;
  in_quotes : bool;
  escape_next : bool;
}.

Definition tok_char (ts : tok_state) (ch : string) : tok_state :=
  if escape_next ts then
    mkTok (toks ts) (current_token ts +:+ ch) (in_quotes ts) false
  else if bool_decide (ch = backslash) then
    mkTok (toks ts) (current_token ts) (in_quotes ts) true
  else if bool_decide (ch = dquote) then
    mkTok (toks ts) (current_token ts) (negb (in_quotes ts)) false
  else if is_whitespace ch && negb (in_quotes ts) then
    if negb (str_is_empty (current_token ts)) then
      mkTok (toks ts ++ [current_token ts]) "" (in_quotes ts) false
    else ts
  else mkTok (toks ts) (current_token ts +:+ ch) (in_quotes ts) false.

Definition tokenize (input : string) : list string :=
  let ts := fold_left tok_char (chars input) (mkTok [] "" false false) in
  if negb (str_is_empty (current_token ts)) then toks ts ++ [current_token ts] else toks ts.

(** ** Options and flags of a node *)
Section parser.
Context {A : Type}.
Implicit Types n : CommandNode A.

Definition is_option (name : string) n : bool :=
  existsb (λ o, bool_decide (opt_long o = Some name) || bool_decide (opt_name o = name))
    (node_options n).

Definition is_flag (name : string) n : bool :=
  existsb (λ f, bool_decide (flag_long f = Some name) || bool_decide (flag_name f = name))
    (node_flags n).

Definition is_short_option (ch : string) n : bool :=
  existsb (λ o, bool_decide (opt_short o = Some ch)) (node_options n).

Definition is_short_flag (ch : string) n : bool :=
  existsb (λ f, bool_decide (flag_short f = Some ch)) (node_flags n).

Definition get_option_name_by_short (ch : string) n : option string :=
  opt_name <$> List.find (λ o, bool_decide (opt_short o = Some ch)) (node_options n).

Definition get_flag_name_by_short (ch : string) n : option string :=
  flag_name <$> List.find (λ f, bool_decide (flag_short f = Some ch)) (node_flags n).

Fixpoint find_sub n (path toks : list string) : list string * CommandNode A * list string :=
  match toks with
  | [] => (path, n, [])
  | t :: rest =>
      match assoc_get t (subcommands n) with
      | Some sub => find_sub sub (path ++ [t]) rest
      | None => (path, n, toks)
      end
  end.

Definition find_command (tree : list (string * CommandNode A)) (toks : list string)
  : outcome ParseError (list string * CommandNode A * list string) :=
  match toks with
  | [] => Panic
  | t :: rest =>
      n ← ok_or (assoc_get t tree) (UnknownCommand t);
      Ok (find_sub n [t] rest)
  end.

(** The loop over the characters of a group of short options: [more] is the rest
    of the tokens after the group; the result says whether the next token was
    taken as a value. *)
Definition opts : Type := gmap string string * gmap string bool * list string.

Fixpoint short_group n (chs : list string) (more : list string) (o : opts)
  : outcome ParseError (opts * list string) :=
  match chs with
  | [] => Ok (o, more)
  | ch :: chs =>
      if is_short_flag ch n then
        name ← unwrap (get_flag_name_by_short ch n);
        short_group n chs more (o.1.1, <[name := true]> o.1.2, o.2)
      else if is_short_option ch n then
        name ← unwrap (get_option_name_by_short ch n);
        match chs, more with
        | [], v :: more => Ok ((<[name := v]> o.1.1, o.1.2, o.2), more)
        | _, _ => Err (MissingValue ("-" +:+ ch))
        end
      else Err (UnknownOption ("-" +:+ ch))
  end.

(** [tokens] shrinks in every round; the fuel is their number. *)
Fixpoint parse_args_loop (fuel : nat) n (tokens : list string) (o : opts)
  : outcome ParseError opts :=
  match fuel, tokens with
  | _, [] => Ok o
  | O, _ => Panic
  | S fuel, token :: more =>
      match strip_prefix "--" token with
      | Some name =>
          match split_at_char "="%char name with
          | Some (opt, value) =>
              value ← slice_from 1 value;
              if is_option opt n then
                parse_args_loop fuel n more (<[opt := value]> o.1.1, o.1.2, o.2)
              else Err (UnknownOption ("--" +:+ opt))
          | None =>
              if is_flag name n then
                parse_args_loop fuel n more (o.1.1, <[name := true]> o.1.2, o.2)
              else if is_option name n then
                match more with
                | [] => Err (MissingValue ("--" +:+ name))
                | v :: more => parse_args_loop fuel n more (<[name := v]> o.1.1, o.1.2, o.2)
                end
              else Err (UnknownOption ("--" +:+ name))
          end
      | None =>
          if starts_with "-" token && bool_decide (1 < String.length token)%nat then
            rest ← slice_from 1 token;
            '(o, more) ← short_group n (chars rest) more o;
            parse_args_loop fuel n more o
          else parse_args_loop fuel n more (o.1, o.2 ++ [token])
      end
  end.

Definition parse_args (tokens : list string) n : outcome ParseError opts :=
  parse_args_loop (length tokens) n tokens (∅, ∅, []).

Fixpoint validate_required (l : list OptionDef) (m : gmap string string)
  : outcome ParseError () :=
  match l with
  | [] => Ok ()
  | o :: l =>
      if opt_required o && negb (bool_decide (is_Some (m !! opt_name o)))
      then Err (MissingRequiredOption (opt_name o)) else validate_required l m
  end.

Definition validate_required_options n (m : gmap string string) : outcome ParseError () :=
  validate_required (node_options n) m.

Definition parse (tree : list (string * CommandNode A)) (input : string)
  : outcome ParseError ParsedCommand :=
  let tokens := tokenize input in
  if is_empty tokens then Err (UnknownCommand "empty command") else
  '(path, node, remaining) ← find_command tree tokens;
  '(os, fs, args) ← parse_args remaining node;
  validate_required_options node os;;
  Ok (mkParsed path os fs args).

(** [execute_command] up to the call of the handler: the handler and what it is
    given. *)
Fixpoint walk n (path : list string) : outcome ParseError (CommandNode A) :=
  match path with
  | [] => Ok n
  | cmd :: path => sub ← unwrap (assoc_get cmd (subcommands n)); walk sub path
  end.

Definition execute_command (tree : list (string * CommandNode A)) (input : string)
  : outcome ParseError (A * ParsedCommand) :=
  parsed ← parse tree input;
  match command_path parsed with
  | [] => Panic
  | c :: path =>
      n ← unwrap (assoc_get c tree);
      n ← walk n path;
      match handler n with
      | Some h => Ok (h, parsed)
      | None => Err (NoHandler (str_join " " (command_path parsed)))
      end
  end.

(** ** Help and built-in commands *)

(** What is printed: a line of text, or an error in its [Debug] form. *)
Inductive printed : Type :=
| Line (text : string)
| Raw (text : string)
| ErrorDebug (e : ParseError).

(** [format!("{:<w$}", s)] pads with spaces to [w] characters. *)
Fixpoint spaces (n : nat) : string := match n with O => "" | S n => " " +:+ spaces n end.
Definition pad_right (w : nat) (s : string) : string := s +:+ spaces (w - length (chars s)).

Definition newline : string := of_bytes [10].
Definition esc : string := of_bytes [27].

(** The text [-s, --long] of an option or a flag, or its name. *)
Definition switch_str (short long : option string) (name : string) : string :=
  let a := match short with Some c => "-" +:+ c | None => "" end in
  let b := match long with
           | Some l => a +:+ (if negb (str_is_empty a) then ", " else "") +:+ "--" +:+ l
           | None => a
           end in
  if str_is_empty b then name else b.

Definition option_line (o : OptionDef) : printed :=
  Line ("  " +:+ pad_right 20 (switch_str (opt_short o) (opt_long o) (opt_name o)) +:+ " " +:+
        opt_description o +:+ (if opt_required o then " (required)" else "")).

Definition flag_line (f : FlagDef) : printed :=
  Line ("  " +:+ pad_right 20 (switch_str (flag_short f) (flag_long f) (flag_name f)) +:+ " " +:+
        flag_description f).

Definition show_node (path : list string) n : list printed :=
  [Line ("Command: " +:+ str_join " " path); Line ("Description: " +:+ description n)] ++
  match usage n with Some u => [Line ("Usage: " +:+ u)] | None => [] end ++
  (if negb (is_empty (node_options n)) then
     Line (newline +:+ "Options:") :: (option_line <$> node_options n) else []) ++
  (if negb (is_empty (node_flags n)) then
     Line (newline +:+ "Flags:") :: (flag_line <$> node_flags n) else []) ++
  (if negb (is_empty (subcommands n)) then
     Line (newline +:+ "Subcommands:") ::
     ((λ p, Line ("  " +:+ pad_right 20 p.1 +:+ " " +:+ description p.2)) <$> subcommands n)
   else []).

Fixpoint help_walk n (path : list string) : outcome ParseError (CommandNode A) :=
  match path with
  | [] => Ok n
  | cmd :: path => sub ← ok_or (assoc_get cmd (subcommands n)) (UnknownCommand cmd);
                   help_walk sub path
  end.

Definition show_help (tree : list (string * CommandNode A)) (path : list string)
  : outcome ParseError (list printed) :=
  match path with
  | [] => Panic
  | c :: rest =>
      n ← ok_or (assoc_get c tree) (UnknownCommand c);
      n ← help_walk n rest;
      Ok (show_node path n)
  end.

Definition show_available_commands (tree : list (string * CommandNode A)) : list printed :=
  [Line "ArceOS Shell - Available Commands:"; Line ""] ++
  mjoin ((λ p : string * CommandNode A,
    Line ("  " +:+ pad_right 15 p.1 +:+ " " +:+ description p.2) ::
    ((λ q, Line ("    " +:+ pad_right 13 q.1 +:+ " " +:+ description q.2))
       <$> subcommands p.2)) <$> tree) ++
  [Line ""; Line "Built-in Commands:";
   Line "  help            Show help information";
   Line "  help <command>  Show help for a specific command";
   Line "  clear           Clear the screen";
   Line "  exit/quit       Exit the shell"; Line "";
   Line "Tip: Use 'help <command>' to see detailed usage of a command"].

Inductive builtin : Type :=
| Handled (o : list printed)
| ExitProcess (o : list printed)
| NotBuiltin.

Definition handle_builtin_commands (tree : list (string * CommandNode A)) (input : string)
  : outcome ParseError builtin :=
  let t := trim input in
  if bool_decide (t = "help") then Ok (Handled (show_available_commands tree))
  else if bool_decide (t = "exit") || bool_decide (t = "quit") then
    Ok (ExitProcess [Line "Goodbye!"])
  else if bool_decide (t = "clear") then
    Ok (Handled [Raw (esc +:+ "[2J" +:+ esc +:+ "[H")])
  else if starts_with "help " input then
    rest ← slice_from 5 input;
    match show_help tree (split_whitespace rest) with
    | Ok o => Ok (Handled o)
    | Err e => Ok (Handled [ErrorDebug e])
    | Panic => Panic
    end
  else Ok NotBuiltin.

(** [run_cmd_bytes]: the handler to call with its command, or what is printed. *)
Definition error_lines (e : ParseError) : list printed :=
  match e with
  | UnknownCommand cmd =>
      [Line ("Error: Unknown command '" +:+ cmd +:+ "'");
       Line "Type 'help' to see available commands"]
  | UnknownOption opt => [Line ("Error: Unknown option '" +:+ opt +:+ "'")]
  | MissingValue opt => [Line ("Error: Option '" +:+ opt +:+ "' is missing a value")]
  | MissingRequiredOption opt => [Line ("Error: Missing required option '" +:+ opt +:+ "'")]
  | NoHandler cmd => [Line ("Error: Command '" +:+ cmd +:+ "' has no handler function")]
  end.

Inductive run : Type :=
| CallHandler (h : A) (cmd : ParsedCommand)
| Printed (o : list printed).

Definition run_cmd_bytes (tree : list (string * CommandNode A)) (cmd_bytes : string)
  : outcome ParseError run :=
  if is_utf8 cmd_bytes then
    let trimmed := trim cmd_bytes in
    if str_is_empty trimmed then Ok (Printed []) else
    match execute_command tree trimmed with
    | Ok (h, cmd) => Ok (CallHandler h cmd)
    | Err e => Ok (Printed (error_lines e))
    | Panic => Panic
    end
  else Ok (Printed [Line "Error: Input contains invalid UTF-8 characters"]).
End parser.

(** ** The parser is total *)

#[local] Arguments slice_from : simpl never.
#[local] Arguments chars : simpl never.
#[local] Arguments strip_prefix : simpl never.
#[local] Arguments starts_with : simpl never.

Lemma tok_char_text ts ch :
  good_char ch = true → Forall text (toks ts) → text (current_token ts) →
  Forall text (toks (tok_char ts ch)) ∧ text (current_token (tok_char ts ch)).
Proof.
  intros Hc Ht Hcur.
  assert (text ch).
  { exists [ch]. simpl. rewrite string_app_nil_r. split; [done|]. by constructor. }
  assert (text "") by (exists []; by split; [|constructor]).
  unfold tok_char. repeat case_match; simpl; split; auto using text_app.
  apply Forall_app. split; [done|]. by constructor.
Qed.

Lemma tokenize_text input : text input → Forall text (tokenize input).
Proof.
  intros Hi%text_chars. unfold tokenize.
  assert (Hinv : ∀ l ts, good l → Forall text (toks ts) → text (current_token ts) →
    Forall text (toks (fold_left tok_char l ts)) ∧
    text (current_token (fold_left tok_char l ts))).
  { intros l ts Hl. revert ts. induction Hl as [|c l Hc Hl IH]; intros ts Ht Hcur; [done|].
    simpl. destruct (tok_char_text _ _ Hc Ht Hcur). by apply IH. }
  destruct (Hinv (chars input) (mkTok [] "" false false)) as [Ht Hc]; [done|by constructor| |].
  { exists []. by split; [|constructor]. }
  case_match; [|done]. apply Forall_app. split; [done|]. by constructor.
Qed.

Section total.
Context {A : Type}.
Implicit Types n : CommandNode A.

Lemma short_name_some ch n :
  (is_short_flag ch n = true → is_Some (get_flag_name_by_short ch n)) ∧
  (is_short_option ch n = true → is_Some (get_option_name_by_short ch n)).
Proof.
  split; intros H%existsb_find; by apply fmap_is_Some.
Qed.

Lemma short_group_total n chs more o :
  short_group n chs more o ≠ Panic ∧
  ∀ o' more', short_group n chs more o = Ok (o', more') → more' `suffix_of` more.
Proof.
  revert o. induction chs as [|ch chs IH]; intros o; simpl.
  { split; [done|]. by intros o' more' [= <- <-]. }
  destruct (is_short_flag ch n) eqn:Hf.
  { destruct (proj1 (short_name_some ch n) Hf) as [name ->]. simpl. apply IH. }
  destruct (is_short_option ch n) eqn:Ho; [|done].
  destruct (proj2 (short_name_some ch n) Ho) as [name ->]. simpl.
  destruct chs, more as [|v more]; split; try done.
  intros o' more' [= <- <-]. by apply suffix_cons_r.
Qed.

Lemma dash_byte : byte_of "-"%char < 128.
Proof. done. Qed.

Lemma parse_args_loop_total fuel n tokens o :
  (length tokens ≤ fuel)%nat → Forall text tokens → parse_args_loop fuel n tokens o ≠ Panic.
Proof.
  revert tokens o. induction fuel as [|fuel IH]; intros [|token more] o Hlen Ht; simpl in *; try done.
  { lia. }
  apply Forall_cons in Ht as [Ht Hm].
  destruct (strip_prefix "--" token) as [name|] eqn:Hs.
  - apply strip_prefix_Some in Hs as ->.
    assert (Hn : text name) by by do 2 (apply text_tail in Ht; [|apply dash_byte]).
    destruct (split_at_char "="%char name) as [[opt value]|] eqn:He.
    + apply split_at_char_Some in He as [-> [v ->]].
      apply text_split_before in Hn; [|done]. rewrite text_slice_1 by done. simpl.
      destruct (is_option opt n); [|done]. apply IH; [lia|done].
    + destruct (is_flag name n); [apply IH; [lia|done]|].
      destruct (is_option name n); [|done]. destruct more as [|v more]; [done|].
      apply Forall_cons in Hm as [_ Hm]. apply IH; [simpl in Hlen; lia|done].
  - destruct (starts_with "-" token && _) eqn:Hd.
    + apply andb_prop in Hd as [[t ->]%starts_with_app _].
      change ("-" +:+ t) with (String "-" t) in *.
      rewrite text_slice_1 by done. simpl.
      destruct (short_group_total n (chars t) more o) as [Hp Hsuf].
      destruct (short_group n (chars t) more o) as [[o' more']| |]; [|done..]. simpl.
      destruct (Hsuf _ _ eq_refl) as [k Hk]. subst more.
      rewrite length_app in Hlen. apply Forall_app in Hm as [_ Hm]. apply IH; [lia|done].
    + apply IH; [lia|done].
Qed.

Lemma validate_total l m : validate_required l m ≠ Panic.
Proof. induction l as [|o l IH]; simpl; [done|]. by case_match. Qed.

(** The nodes on the path that [find_command] returns are there. *)
Lemma find_sub_walk n path tokens path' n' rest :
  find_sub n path tokens = (path', n', rest) →
  ∃ p, path' = path ++ p ∧ walk n p = Ok n' ∧ rest `suffix_of` tokens.
Proof.
  revert n path. induction tokens as [|t tokens IH]; intros n path; simpl.
  { intros [= <- <- <-]. exists []. by rewrite app_nil_r. }
  destruct (assoc_get t (subcommands n)) as [sub|] eqn:Hg; cycle 1.
  { intros [= <- <- <-]. exists []. by rewrite app_nil_r. }
  intros (p & -> & Hw & Hr)%IH. exists (t :: p). rewrite <-app_assoc. simpl. rewrite Hg.
  split_and!; [done|done|by apply suffix_cons_r].
Qed.

Lemma parse_total tree input : text input → parse (A:=A) tree input ≠ Panic.
Proof.
  intros Hi%tokenize_text. unfold parse. destruct (tokenize input) as [|t rest]; [done|].
  simpl. destruct (assoc_get t tree) as [n|]; [|done]. simpl.
  destruct (find_sub n [t] rest) as [[path n'] rem] eqn:Hf.
  apply find_sub_walk in Hf as (p & -> & _ & [k ->]).
  apply Forall_cons in Hi as [_ [_ Hi]%Forall_app].
  pose proof (parse_args_loop_total (length rem) n' rem (∅, ∅, []) ltac:(lia) Hi) as Hp.
  unfold parse_args. destruct (parse_args_loop _ _ _ _) as [[[os fs] args]| |]; [|done..].
  simpl. pose proof (validate_total (node_options n') os). unfold validate_required_options.
  by destruct (validate_required _ _).
Qed.

Lemma parse_path tree input cmd :
  parse (A:=A) tree input = Ok cmd →
  ∃ c p n n', command_path cmd = c :: p ∧ assoc_get c tree = Some n ∧ walk n p = Ok n'.
Proof.
  unfold parse. destruct (tokenize input) as [|t rest]; [done|]. simpl.
  destruct (assoc_get t tree) as [n|] eqn:Hg; [|done]. simpl.
  destruct (find_sub n [t] rest) as [[path n'] rem] eqn:Hf.
  apply find_sub_walk in Hf as (p & -> & Hw & _). simpl.
  destruct (parse_args rem n') as [[[os fs] args]| |]; [|done..]. simpl.
  destruct (validate_required_options n' os); [|done..]. simpl. intros [= <-]. simpl.
  by eexists t, p, n, n'.
Qed.

Lemma execute_command_total tree input :
  text input → execute_command (A:=A) tree input ≠ Panic.
Proof.
  intros Hi. unfold execute_command. pose proof (parse_total tree input Hi).
  destruct (parse tree input) as [cmd| |] eqn:Hp; [|done..]. simpl.
  destruct (parse_path _ _ _ Hp) as (c & p & n & n' & -> & Hg & Hw).
  rewrite Hg. simpl. rewrite Hw. simpl. by destruct (handler n').
Qed.
End total.

(** ** Built-in commands *)

Lemma split_ws_nil cur l :
  good l → split_ws cur l = [] → cur = "" ∧ Forall (λ c, is_whitespace c = true) l.
Proof.
  intros Hl. revert cur. induction Hl as [|c l Hc Hl IH]; intros cur; simpl.
  { unfold flush. by destruct cur. }
  destruct (is_whitespace c) eqn:Hw.
  - intros [Hf Hs]%app_eq_nil. destruct (IH _ Hs) as [_ Hall].
    split; [unfold flush in Hf; by destruct cur|by constructor].
  - intros [He _]%IH. destruct cur; [|done]. by destruct c.
Qed.

Lemma drop_while_all {A} (p : A → bool) l k :
  Forall (λ x, p x = true) l → drop_while p (l ++ k) = drop_while p k.
Proof. induction 1 as [|x l Hx Hl IH]; simpl; [done|]. by rewrite Hx. Qed.

Lemma help_chars : good ["h"; "e"; "l"; "p"; " "].
Proof. unfold good. by repeat constructor. Qed.

(** [help] followed by blanks only is the command [help]. *)
Lemma trim_help rest :
  text rest → split_whitespace rest = [] → trim ("help " +:+ rest) = "help".
Proof.
  intros (l & -> & Hl) Hs. unfold split_whitespace in Hs. rewrite good_chars in Hs by done.
  apply split_ws_nil in Hs as [_ Hw]; [|done].
  change ("help " +:+ str_concat l) with (str_concat (["h"; "e"; "l"; "p"; " "] ++ l)).
  unfold trim. rewrite good_chars by (apply Forall_app; split; [apply help_chars|done]).
  change (drop_while is_whitespace (["h"; "e"; "l"; "p"; " "] ++ l))
    with (["h"; "e"; "l"; "p"; " "] ++ l).
  rewrite reverse_app, drop_while_all by by apply Forall_reverse. done.
Qed.

Lemma help_tail rest : text ("help " +:+ rest) → text rest.
Proof. intros Ht. by do 5 (apply text_tail in Ht; [|done]). Qed.

Section builtins.
Context {A : Type}.

Lemma help_walk_total (n : CommandNode A) path : help_walk n path ≠ Panic.
Proof.
  revert n. induction path as [|c path IH]; intros n; simpl; [done|].
  destruct (assoc_get _ _); simpl; [apply IH|done].
Qed.

Lemma show_help_total (tree : list (string * CommandNode A)) path :
  path ≠ [] → show_help tree path ≠ Panic.
Proof.
  destruct path as [|c path]; [done|]. intros _. simpl. destruct (assoc_get c tree) as [n|]; [|done].
  simpl. pose proof (help_walk_total n path). by destruct (help_walk n path).
Qed.

Lemma builtin_total (tree : list (string * CommandNode A)) input :
  text input → handle_builtin_commands tree input ≠ Panic.
Proof.
  intros Ht. unfold handle_builtin_commands.
  case_bool_decide as Hh; [done|]. destruct (_ || _); [done|].
  destruct (bool_decide (trim input = "clear")); [done|].
  destruct (starts_with "help " input) eqn:Hp; [|done].
  apply starts_with_app in Hp as [rest ->].
  pose proof (help_tail _ Ht) as Hr.
  assert (Hs : slice_from (E:=ParseError) 5 ("help " +:+ rest) = Ok rest).
  { destruct rest as [|b rest]; [done|]. unfold slice_from. simpl.
    by rewrite (text_not_cont _ _ Hr). }
  rewrite Hs. simpl. pose proof (show_help_total tree (split_whitespace rest)) as Hn.
  destruct (show_help tree (split_whitespace rest)) eqn:E; try done.
  destruct (split_whitespace rest) eqn:Hw; [|by destruct Hn].
  by rewrite trim_help in Hh.
Qed.

(** C15: a line of input never makes the shell panic. Whatever bytes were typed,
    neither the built-in commands (which get the line as text, or the empty
    string when it is not UTF-8) nor the parser and the lookup of the handler
    panic: no slice is off a character boundary, the [unwrap]s on the command
    tree and on the names of short options succeed, and [show_help] is not
    called without a command. *)
Theorem shell_line_total (tree : list (string * CommandNode A)) (line : string) :
  handle_builtin_commands tree (if is_utf8 line then line else "") ≠ Panic ∧
  run_cmd_bytes tree line ≠ Panic.
Proof.
  split.
  - apply builtin_total. destruct (is_utf8 line) eqn:Hu; [by apply is_utf8_text|].
    exists []. by split; [|constructor].
  - unfold run_cmd_bytes. destruct (is_utf8 line) eqn:Hu; [|done].
    apply is_utf8_text, trim_text in Hu. destruct (str_is_empty (trim line)); [done|].
    pose proof (execute_command_total tree (trim line) Hu).
    by destruct (execute_command tree (trim line)) as [[??]| |].
Qed.
End builtins.

(** ** Quoting *)

(** A word with every character escaped. *)
Definition escape (word : list string) : list string :=
  mjoin ((λ c, [backslash; c]) <$> word).

Fixpoint line_chars (words : list (list string)) : list string :=
  match words with
  | [] => []
  | w :: words => escape w ++ " " :: line_chars words
  end.

Lemma fold_escape w ts :
  escape_next ts = false →
  fold_left tok_char (escape w) ts =
  mkTok (toks ts) (current_token ts +:+ str_concat w) (in_quotes ts) false.
Proof.
  revert ts. induction w as [|c w IH]; intros [tk cur q e] He; simpl in *; subst e.
  { by rewrite string_app_nil_r. }
  assert (Hc : tok_char (tok_char (mkTok tk cur q false) backslash) c
               = mkTok tk (cur +:+ c) q false) by done.
  change (escape (c :: w)) with (backslash :: c :: escape w). cbn [fold_left].
  rewrite Hc, IH by done. simpl. by rewrite string_app_assoc.
Qed.

Lemma fold_line words tk :
  Forall (λ w, good w ∧ w ≠ []) words →
  fold_left tok_char (line_chars words) (mkTok tk "" false false) =
  mkTok (tk ++ (str_concat <$> words)) "" false false.
Proof.
  intros Hw. revert tk. induction Hw as [|w words [Hg Hne] Hw IH]; intros tk; simpl.
  { by rewrite app_nil_r. }
  rewrite fold_left_app. rewrite fold_escape by done. simpl.
  assert (Hs : str_is_empty (str_concat w) = false).
  { destruct w as [|c w]; [done|]. apply Forall_cons in Hg as [Hc _]. by destruct c. }
  assert (Hc : tok_char (mkTok tk ("" +:+ str_concat w) false false) " "
               = mkTok (tk ++ [str_concat w]) "" false false).
  { unfold tok_char. simpl. change ("" +:+ str_concat w) with (str_concat w). by rewrite Hs. }
  rewrite Hc, IH. by rewrite <-app_assoc.
Qed.

Lemma line_chars_good words : Forall (λ w, good w ∧ w ≠ []) words → good (line_chars words).
Proof.
  induction 1 as [|w words [Hg _] Hw IH]; simpl; [by constructor|].
  apply Forall_app. split; [|by constructor]. clear -Hg. unfold escape.
  induction Hg as [|c w Hc Hg IH]; simpl; [by constructor|]. by repeat constructor.
Qed.

(** every list of arguments can be typed. A line that has each word with all
    its characters escaped by a backslash and a blank after each word is cut
    into exactly those words, whatever characters they contain. *)
Theorem tokenize_escaped words :
  Forall (λ w, good w ∧ w ≠ []) words →
  tokenize (str_concat (line_chars words)) = str_concat <$> words.
Proof.
  intros Hw. unfold tokenize. rewrite good_chars by by apply line_chars_good.
  by rewrite fold_line.
Qed.

Lemma tokenize_escaped_witness :
  tokenize (str_concat (line_chars [["v"; "m"]; ["a"; " "; dquote; backslash]]))
  = ["vm"; "a " +:+ dquote +:+ backslash].
Proof.
  apply (tokenize_escaped [["v"; "m"]; ["a"; " "; dquote; backslash]]).
  repeat constructor; discriminate.
Defined.
