(* ===== verification/VmCommands.v ===== *)
(** * The VM commands of the shell ([kernel/src/shell/command/vm.rs])

    The handlers of [vm start], [stop], [suspend], [resume], [restart], [delete]
    and [list] over the state of [Vmm].  The shell is a task of its own: where a
    handler waits (a busy wait, or joining a task), the other tasks run, and
    what they do in the meantime is the [Scheduler]'s choice. *)

From S2P Require Import Prelude RustStr Command Ivc Hvc Vmm.

(** What the other tasks do while the shell waits for 100 ms, and until a task
    has exited; [None] when that task never exits. *)
Class Scheduler (S : Type) : Type := {
  sched_wait : S → S;
  sched_join : Z → S → option S;
}.

(** [VMStatus::as_str] of the [axvm] crate. *)
Class StatusText : Type := status_as_str : VMStatus → string.

(** ** Transition checks *)

Definition can_start_vm (status : VMStatus) : outcome string () :=
  match status with
  | Loaded | Stopped => Ok ()
  | Running => Err "VM is already running"
  | Suspended => Err "VM is suspended, use 'vm resume' instead"
  | Stopping => Err "VM is stopping, wait for it to fully stop"
  | Loading => Err "VM is still loading"
  end.

Definition can_stop_vm (status : VMStatus) (force : bool) : outcome string () :=
  match status with
  | Running | Suspended => Ok ()
  | Stopping => if force then Ok () else Err "VM is already stopping"
  | Stopped => Err "VM is already stopped"
  | Loading | Loaded => Ok ()
  end.

Definition can_suspend_vm (status : VMStatus) : outcome string () :=
  match status with
  | Running => Ok ()
  | Suspended => Err "VM is already suspended"
  | Stopped => Err "VM is stopped, cannot suspend"
  | Stopping => Err "VM is stopping, cannot suspend"
  | Loading => Err "VM is loading, cannot suspend"
  | Loaded => Err "VM is not running, cannot suspend"
  end.

Definition can_resume_vm (status : VMStatus) : outcome string () :=
  match status with
  | Suspended => Ok ()
  | Running => Err "VM is already running"
  | Stopped => Err "VM is stopped, use 'vm start' instead"
  | Stopping => Err "VM is stopping, cannot resume"
  | Loading => Err "VM is loading, cannot resume"
  | Loaded => Err "VM is not started yet, use 'vm start' instead"
  end.

(** ** Text *)

Definition format_memory_size (bytes : Z) : string :=
  if bool_decide (bytes < 1024) then pretty bytes +:+ "B"
  else if bool_decide (bytes < 1024 * 1024) then pretty (bytes / 1024) +:+ "KB"
  else if bool_decide (bytes < 1024 * 1024 * 1024) then pretty (bytes / (1024 * 1024)) +:+ "MB"
  else pretty (bytes / (1024 * 1024 * 1024)) +:+ "GB".

(** The derived [Debug] of the status. *)
Definition status_debug (st : VMStatus) : string :=
  match st with
  | Loading => "Loading" | Loaded => "Loaded" | Running => "Running"
  | Suspended => "Suspended" | Stopping => "Stopping" | Stopped => "Stopped"
  end.

Definition quoted (s : string) : string := dquote +:+ s +:+ dquote.

Definition vm_tag (id : Z) : string := "VM[" +:+ pretty id +:+ "]".

Definition flag_set (cmd : ParsedCommand) (name : string) : bool :=
  default false (flags cmd !! name).

Section commands.
Context {F G : Type} `{!PagingHandler F} `{!GuestVM G} `{!HyperCallCodes}.
Context `{!AxVm} `{!OverflowChecks} `{!TargetArch} `{!StatusText}.
Context `{!Scheduler (vmm_state (hvc_state F G))}.

Abbreviation state := (vmm_state (hvc_state F G)).
Abbreviation M := (st state blocked).

Definition busy_wait : M () := modify sched_wait.

Definition join (tid : Z) : M () :=
  s ← get;
  match sched_join tid s with
  | Some s' => put s'
  | None => throw Forever
  end.

(** [cleanup_vm_vcpus] of [vcpus.rs]. *)
Definition cleanup_vm_vcpus (id : Z) : M () :=
  q ← queue_remove id;
  match q with
  | Some vm_vcpus => for_each (vcpu_task_list vm_vcpus) join;; drop_vmvcpus (Some vm_vcpus)
  | None => mret ()
  end.

(** A local [VMRef] goes out of scope; the last reference frees the VM. *)
Definition drop_vm (l : Z) : M () :=
  modify (λ s, if bool_decide (strong_count s l 0 = 0) then upd_heap (delete l) s else s).

(** ** [vm start] *)

Definition start_single_vm (l : Z) : M (outcome string ()) :=
  v ← deref l;
  match can_start_vm (vm_status v) with
  | Ok _ =>
      setup_vm_primary_vcpu l;;
      r ← vm_boot l;
      match r with
      | Ok _ => notify_primary_vcpu (vm_id v);; add_running_vm_count 1;; mret (Ok ())
      | _ => mret (Err "Failed to boot VM")
      end
  | e => mret e
  end.

Definition start_vm_by_id (id : Z) : M () :=
  r ← with_vm id start_single_vm;
  match r with
  | Some (Ok _) => println ("✓ " +:+ vm_tag id +:+ " started successfully")
  | Some (Err err) => println ("✗ " +:+ vm_tag id +:+ " failed to start: " +:+ err)
  | Some Panic => panic
  | None => println ("✗ " +:+ vm_tag id +:+ " not found")
  end.

(** [iter().map(..size()).sum()]. *)
Definition total_memory (v : VM) : outcome blocked Z :=
  fold_left (λ acc n, a ← acc; usize_add a n) (memory_region_sizes v) (Ok 0).

Definition simple_row (l : Z) : M () :=
  v ← deref l;
  mem ← lift (total_memory v);
  println (pad_right 4 (pretty (vm_id v)) +:+ "  " +:+ pad_right 11 (vm_name v) +:+ "    " +:+
           pad_right 7 (status_as_str (vm_status v)) +:+ "    " +:+
           pad_right 4 (pretty (vcpu_num v)) +:+ "   " +:+ format_memory_size mem).

Definition vm_list_simple : M () :=
  vms ← get_vm_list;
  println "ID    NAME           STATE      VCPU   MEMORY";;
  println "----  -----------    -------    ----   ------";;
  for_each vms simple_row.

Fixpoint start_all (l : list Z) (started_count : Z) : M Z :=
  match l with
  | [] => mret started_count
  | x :: l =>
      v ← deref x;
      let status := vm_status v in
      if bool_decide (status = Running) then
        println ("⚠ " +:+ vm_tag (vm_id v) +:+ " is already running, skipping");;
        start_all l started_count
      else if negb (bool_decide (status = Loaded)) && negb (bool_decide (status = Stopped)) then
        println ("⚠ " +:+ vm_tag (vm_id v) +:+ " is in " +:+ status_debug status +:+
                 " state, cannot start");;
        start_all l started_count
      else
        r ← start_single_vm x;
        match r with
        | Err e => println ("✗ " +:+ vm_tag (vm_id v) +:+ " failed to start: " +:+ quoted e);;
                   start_all l started_count
        | Ok _ => println ("✓ " +:+ vm_tag (vm_id v) +:+ " started successfully");;
                  start_all l (started_count + 1)
        | Panic => panic
        end
  end.

Definition vm_start (cmd : ParsedCommand) : M () :=
  let args := positional_args cmd in
  (if is_empty args then
     l ← get_vm_list;
     n ← start_all l 0;
     println ("Started " +:+ pretty n +:+ " VM(s)")
   else
     for_each args (λ vm_name,
       match parse_usize vm_name with
       | Some id => start_vm_by_id id
       | None =>
           println "Error: VM name lookup not implemented. Use VM ID instead.";;
           println "Available VMs:";;
           vm_list_simple
       end));;
  if flag_set cmd "detach" then println "VMs started in background mode" else mret ().

(** ** [vm stop] *)

Definition stop_message (id : Z) (status : VMStatus) (force : bool) : M () :=
  match status with
  | Stopping =>
      if force then println ("Force stopping " +:+ vm_tag id +:+ "...") else mret ()
  | Running =>
      println ((if force then "Force stopping " else "Gracefully stopping ") +:+
               vm_tag id +:+ "...")
  | Loading | Loaded =>
      println ("⚠ " +:+ vm_tag id +:+ " is in " +:+ status_debug status +:+
               " state, stopping anyway...")
  | _ => mret ()
  end.

Definition stop_vm (id : Z) (force : bool) (l : Z) : M (outcome string ()) :=
  v ← deref l;
  match can_stop_vm (vm_status v) force with
  | Err err => println ("⚠ " +:+ vm_tag id +:+ " " +:+ err);; mret (Err err)
  | _ =>
      stop_message id (vm_status v) force;;
      r ← vm_shutdown l;
      match r with Ok _ => mret (Ok ()) | _ => mret (Err "Failed to shutdown VM") end
  end.

Definition stop_vm_by_id (id : Z) (force : bool) : M () :=
  r ← with_vm id (stop_vm id force);
  match r with
  | Some (Ok _) =>
      println ("✓ " +:+ vm_tag id +:+ " stop signal sent successfully");;
      println "  Note: vCPU threads will exit gracefully, VM status will transition to Stopped"
  | Some (Err err) => println ("✗ Failed to stop " +:+ vm_tag id +:+ ": " +:+ quoted err)
  | Some Panic => panic
  | None => println ("✗ " +:+ vm_tag id +:+ " not found")
  end.

Definition for_ids (args : list string) (f : Z → M ()) : M () :=
  for_each args (λ vm_name,
    match parse_usize vm_name with
    | Some id => f id
    | None => println ("Error: Invalid VM ID: " +:+ vm_name)
    end).

Definition vm_stop (cmd : ParsedCommand) : M () :=
  if is_empty (positional_args cmd) then
    println "Error: No VM specified";; println "Usage: vm stop [OPTIONS] <VM_ID>"
  else for_ids (positional_args cmd) (λ id, stop_vm_by_id id (flag_set cmd "force")).

(** ** [vm restart] *)

Definition status_of (id : Z) : M (option VMStatus) :=
  with_vm id (λ l, v ← deref l; mret (vm_status v)).

(** The loop that polls the status: [tries] further busy waits before the timeout;
    the result says whether the VM is to be started again. *)
Fixpoint restart_wait (tries : nat) (id : Z) : M bool :=
  st ← status_of id;
  match st with
  | Some Stopped => println ("✓ " +:+ vm_tag id +:+ " stopped successfully");; mret true
  | Some Stopping =>
      match tries with
      | O =>
          println ("⚠ " +:+ vm_tag id +:+ " stop timeout, it may still be shutting down");;
          println ("  Use 'vm status " +:+ pretty id +:+ "' to check status manually");;
          mret false
      | S tries => busy_wait;; restart_wait tries id
      end
  | Some st =>
      println ("⚠ " +:+ vm_tag id +:+ " in unexpected state: " +:+ status_debug st);;
      mret false
  | None => println ("✗ " +:+ vm_tag id +:+ " no longer exists");; mret false
  end.

Definition restart_vm_by_id (id : Z) (force : bool) : M () :=
  println ("Restarting " +:+ vm_tag id +:+ "...");;
  current_status ← status_of id;
  match current_status with
  | None => println ("✗ " +:+ vm_tag id +:+ " not found")
  | Some (Stopped | Loaded) =>
      println (vm_tag id +:+ " is already stopped, starting...");; start_vm_by_id id
  | Some (Suspended | Running) =>
      println ("Stopping " +:+ vm_tag id +:+ "...");;
      stop_vm_by_id id force;;
      println ("Waiting for " +:+ vm_tag id +:+ " to stop completely...");;
      again ← restart_wait 49 id;
      if (again : bool) then
        println ("Starting " +:+ vm_tag id +:+ "...");; start_vm_by_id id
      else mret ()
  | Some Stopping =>
      if force then
        println ("⚠ " +:+ vm_tag id +:+
                 " is currently stopping, waiting for shutdown to complete...")
      else
        println ("⚠ " +:+ vm_tag id +:+ " is currently stopping");;
        println ("  Wait for shutdown to complete, then use 'vm start " +:+ pretty id +:+ "'");;
        println "  Or use --force to wait and then restart"
  | Some Loading => println ("✗ " +:+ vm_tag id +:+ " is still loading, cannot restart")
  end.

Definition vm_restart (cmd : ParsedCommand) : M () :=
  if is_empty (positional_args cmd) then
    println "Error: No VM specified";; println "Usage: vm restart [OPTIONS] <VM_ID>"
  else for_ids (positional_args cmd) (λ id, restart_vm_by_id id (flag_set cmd "force")).

(** ** [vm suspend] and [vm resume] *)

Definition suspend_vm (l : Z) : M (outcome string ()) :=
  v ← deref l;
  match can_suspend_vm (vm_status v) with
  | Ok _ => store l (set_vm_status Suspended v);; mret (Ok ())
  | e => mret e
  end.

(** The loop that polls the states of the vCPUs, [tries] times at most. *)
Fixpoint suspend_wait (tries : nat) (id : Z) : M bool :=
  match tries with
  | O => mret false
  | S tries =>
      l ← get_vm_by_id id;
      all_suspended ←
        match l with
        | Some l =>
            v ← deref l;
            let blocked :=
              length (filter (λ c, vcpu_state c = VBlocked) (vcpu_list v)) in
            mret (bool_decide (blocked = length (vcpu_list v)))
        | None => mret false
        end;
      if (all_suspended : bool) then mret true else busy_wait;; suspend_wait tries id
  end.

Definition suspend_vm_by_id (id : Z) : M () :=
  println ("Suspending " +:+ vm_tag id +:+ "...");;
  result ← with_vm id suspend_vm;
  match result with
  | Some (Ok _) =>
      println ("✓ " +:+ vm_tag id +:+ " suspend signal sent");;
      n ← with_vm id (λ l, v ← deref l; mret (vcpu_num v));
      println ("  Note: " +:+ pretty (default 0 n) +:+
               " VCpu task(s) will enter wait queue at next VMExit");;
      println "  Waiting for VCpus to suspend...";;
      all_suspended ← suspend_wait 10 id;
      (if (all_suspended : bool) then println "✓ All VCpu tasks are now suspended"
       else
         println "⚠ Some VCpu tasks may still be transitioning to suspended state";;
         println "  VCpus will suspend at next VMExit (timer interrupt, I/O, etc.)";;
         println "  This is normal for VMs with low interrupt rates");;
      println ("  Use 'vm resume " +:+ pretty id +:+ "' to resume the VM")
  | Some (Err err) => println ("✗ Failed to suspend " +:+ vm_tag id +:+ ": " +:+ err)
  | Some Panic => panic
  | None => println ("✗ " +:+ vm_tag id +:+ " not found")
  end.

Definition vm_suspend (cmd : ParsedCommand) : M () :=
  if is_empty (positional_args cmd) then
    println "Error: No VM specified";; println "Usage: vm suspend <VM_ID>..."
  else for_ids (positional_args cmd) suspend_vm_by_id.

Definition resume_vm (id : Z) (l : Z) : M (outcome string ()) :=
  v ← deref l;
  match can_resume_vm (vm_status v) with
  | Ok _ => store l (set_vm_status Running v);; notify_all_vcpus id;; mret (Ok ())
  | e => mret e
  end.

Definition resume_vm_by_id (id : Z) : M () :=
  println ("Resuming " +:+ vm_tag id +:+ "...");;
  result ← with_vm id (resume_vm id);
  match result with
  | Some (Ok _) => println ("✓ " +:+ vm_tag id +:+ " resumed successfully")
  | Some (Err err) => println ("✗ Failed to resume " +:+ vm_tag id +:+ ": " +:+ err)
  | Some Panic => panic
  | None => println ("✗ " +:+ vm_tag id +:+ " not found")
  end.

Definition vm_resume (cmd : ParsedCommand) : M () :=
  if is_empty (positional_args cmd) then
    println "Error: No VM specified";; println "Usage: vm resume <VM_ID>..."
  else for_ids (positional_args cmd) resume_vm_by_id.

(** ** [vm delete] *)

(** The closure of [delete_vm_by_id]: the status the VM had. *)
Definition delete_signal (id l : Z) : M VMStatus :=
  v ← deref l;
  let status := vm_status v in
  (match status with
   | Running | Suspended | Stopping =>
       println ("  " +:+ vm_tag id +:+ " is " +:+ status_debug status +:+
                ", sending shutdown signal...");;
       store l (set_vm_status Stopping v);;
       vm_shutdown l;;
       mret ()
   | Loaded => store l (set_vm_status Stopped v)
   | _ => mret ()
   end);;
  s ← get;
  println ("  [Debug] VM Arc strong_count: " +:+ pretty (strong_count s l 1));;
  mret status.

Definition delete_cleanup (id l : Z) (status : VMStatus) : M () :=
  match status with
  | Running | Suspended | Stopping | Stopped =>
      println "  Waiting for vCPU threads to exit...";;
      s ← get;
      println ("  [Debug] VM Arc count before cleanup: " +:+ pretty (strong_count s l 1));;
      println "  Cleaning up VCpu resources...";;
      cleanup_vm_vcpus id;;
      s ← get;
      println ("  [Debug] VM Arc count after final wait: " +:+ pretty (strong_count s l 1))
  | _ => cleanup_vm_vcpus id
  end.

Definition delete_report (id l : Z) (keep_data : bool) : M () :=
  (if keep_data then
     println ("✓ " +:+ vm_tag id +:+ " deleted (configuration and data preserved)")
   else
     println ("✓ " +:+ vm_tag id +:+ " deleted completely");;
     s ← get;
     let count := strong_count s l 1 in
     println ("  [Debug] VM Arc strong_count: " +:+ pretty count);;
     if bool_decide (count = 1) then
       println "  ✓ Perfect! VM will be freed immediately when function returns"
     else
       println ("  ⚠ Warning: Unexpected Arc count " +:+ pretty count +:+
                ", possible reference leak!"));;
  println ("  " +:+ vm_tag id +:+ " will be freed now").

Definition delete_vm_by_id (id : Z) (keep_data : bool) : M () :=
  vm_status ← with_vm id (delete_signal id);
  match vm_status with
  | None => println ("✗ " +:+ vm_tag id +:+ " not found or already removed")
  | Some status =>
      removed ← remove_vm id;
      (match removed with
       | Some l =>
           println ("✓ " +:+ vm_tag id +:+ " removed from VM list");;
           delete_cleanup id l status;;
           delete_report id l keep_data;;
           drop_vm l
       | None =>
           println ("✗ Failed to remove " +:+ vm_tag id +:+
                    " from list (may have been removed already)")
       end);;
      println ("✓ " +:+ vm_tag id +:+ " deletion completed")
  end.

(** Whether [vm delete] goes ahead, with what it prints. *)
Definition delete_allowed (id : Z) (status : VMStatus) (force : bool) : M bool :=
  match status with
  | Running =>
      if negb force then
        println ("✗ " +:+ vm_tag id +:+ " is currently running");;
        println ("  Use 'vm stop " +:+ pretty id +:+
                 "' first, or use '--force' to force delete");;
        mret false
      else println ("⚠ Force deleting running " +:+ vm_tag id +:+ "...");; mret true
  | Stopping =>
      if negb force then
        println ("⚠ " +:+ vm_tag id +:+ " is currently stopping");;
        println "  Wait for it to stop completely, or use '--force' to force delete";;
        mret false
      else println ("⚠ Force deleting stopping " +:+ vm_tag id +:+ "...");; mret true
  | Stopped => println ("Deleting stopped " +:+ vm_tag id +:+ "...");; mret true
  | _ =>
      println ("⚠ " +:+ vm_tag id +:+ " is in " +:+ status_debug status +:+ " state");;
      if negb force then println "Use --force to force delete";; mret false else mret true
  end.

Definition vm_delete (cmd : ParsedCommand) : M () :=
  match positional_args cmd with
  | [] => println "Error: No VM specified";; println "Usage: vm delete [OPTIONS] <VM_ID>"
  | vm_name :: _ =>
      match parse_usize vm_name with
      | Some id =>
          vm_status ← status_of id;
          match vm_status with
          | None => println ("✗ " +:+ vm_tag id +:+ " not found")
          | Some status =>
              go ← delete_allowed id status (flag_set cmd "force");
              if (go : bool) then delete_vm_by_id id (flag_set cmd "keep-data") else mret ()
          end
      | None => println ("Error: Invalid VM ID: " +:+ vm_name)
      end
  end.

(** ** [vm list] *)

Definition vcpu_state_text (x : VCpuState) : string :=
  match x with
  | VFree => "Free" | VRunning => "Run" | VBlocked => "Blk"
  | VInvalid => "Inv" | VCreated => "Cre" | VReady => "Rdy"
  end.

Definition count_states (l : list VCpu) : list (string * Z) :=
  fold_left (λ m c,
    let k := vcpu_state_text (vcpu_state c) in
    assoc_insert k (default 0 (assoc_get k m) + 1) m) l [].

Definition dashes (n : nat) : string := str_concat (replicate n "-").

Definition json_vm (last : bool) (l : Z) : M () :=
  v ← deref l;
  mem ← lift (total_memory v);
  println "    {";;
  println ("      " +:+ quoted "id" +:+ ": " +:+ pretty (vm_id v) +:+ ",");;
  println ("      " +:+ quoted "name" +:+ ": " +:+ quoted (vm_name v) +:+ ",");;
  println ("      " +:+ quoted "state" +:+ ": " +:+ quoted (status_as_str (vm_status v)) +:+ ",");;
  println ("      " +:+ quoted "vcpu" +:+ ": " +:+ pretty (vcpu_num v) +:+ ",");;
  println ("      " +:+ quoted "memory" +:+ ": " +:+ quoted (format_memory_size mem));;
  println (if last then "    }" else "    },").

Fixpoint json_vms (l : list Z) : M () :=
  match l with
  | [] => mret ()
  | x :: l => json_vm (is_empty l) x;; json_vms l
  end.

Definition table_row (a b c d e f : string) : string :=
  pad_right 6 a +:+ " " +:+ pad_right 15 b +:+ " " +:+ pad_right 12 c +:+ " " +:+
  pad_right 15 d +:+ " " +:+ pad_right 10 e +:+ " " +:+ pad_right 20 f.

Definition table_vm (l : Z) : M () :=
  v ← deref l;
  mem ← lift (total_memory v);
  let ids := str_join "," ((λ c, pretty (vcpu_id c)) <$> vcpu_list v) in
  let summary :=
    str_join "," ((λ p, p.1 +:+ ":" +:+ pretty p.2) <$> count_states (vcpu_list v)) in
  println (table_row (pretty (vm_id v)) (vm_name v) (status_as_str (vm_status v)) ids
             (format_memory_size mem) summary).

Definition vm_list (cmd : ParsedCommand) : M () :=
  let format := default "table" (options cmd !! "format") in
  display_vms ← get_vm_list;
  if is_empty display_vms then println "No virtual machines found." else
  if bool_decide (format = "json") then
    println "{";; println ("  " +:+ quoted "vms" +:+ ": [");;
    json_vms display_vms;;
    println "  ]";; println "}"
  else
    println (table_row "VM ID" "NAME" "STATUS" "VCPU" "MEMORY" "VCPU STATE");;
    println (str_join " " (dashes <$> [6; 15; 12; 15; 10; 20]%nat));;
    for_each display_vms table_vm.
End commands.

(** ** Behaviour of the commands *)
Section behaviour.
Context {F G : Type} `{!PagingHandler F} `{!GuestVM G} `{!HyperCallCodes}.
Context `{!AxVm} `{!OverflowChecks} `{!TargetArch} `{!StatusText}.
Context `{!Scheduler (vmm_state (hvc_state F G))}.

Abbreviation state := (vmm_state (hvc_state F G)).
Implicit Types (s : state) (o : list string).

(** [s] with another output: what a command that is refused leaves. *)
Definition with_out o s : state := upd_out (λ _, o) s.

(** Looking a listed VM up. *)
Lemma with_vm_bind {A} s id l v (f : Z → st state blocked A) (k : option A → st state blocked ()) :
  vms s !! id = Some l → heap s !! l = Some v →
  (with_vm id f ≫= k) s = (f l ≫= λ x, k (Some x)) s.
Proof.
  intros Hl Hv. unfold with_vm, get_vm_by_id. st_run. rewrite Hl.
  by destruct (f l s) as [[?|?|] ?].
Qed.

Lemma stop_vm_by_id_ok s id force l v st :
  vms s !! id = Some l → heap s !! l = Some v → can_stop_vm (vm_status v) force = Ok () →
  shutdown v = (Ok (), st) →
  ∃ o, stop_vm_by_id id force s
       = (Ok (), with_out o (upd_heap <[l := set_vm_status st v]> s)).
Proof.
  intros Hl Hv Hc Hs. unfold stop_vm_by_id. rewrite (with_vm_bind _ _ _ _ _ _ Hl Hv).
  unfold stop_vm, deref. st_run. rewrite Hv. cbn [unwrap]. rewrite Hc.
  unfold vm_shutdown, deref, store, stop_message, println. st_run.
  destruct (vm_status v), force; cbn; rewrite ?Hv; cbn; rewrite ?Hs; cbn; eexists; reflexivity.
Qed.

(** A command that its check refuses prints something and changes nothing else. *)
Lemma start_refused s id l v e :
  vms s !! id = Some l → heap s !! l = Some v → can_start_vm (vm_status v) = Err e →
  ∃ o, start_vm_by_id id s = (Ok (), with_out o s).
Proof.
  intros Hl Hv Hc. unfold start_vm_by_id. rewrite (with_vm_bind _ _ _ _ _ _ Hl Hv).
  unfold start_single_vm, deref, println. st_run. rewrite Hv. cbn [unwrap]. rewrite Hc.
  eexists. destruct s. reflexivity.
Qed.

Lemma stop_refused s id force l v e :
  vms s !! id = Some l → heap s !! l = Some v → can_stop_vm (vm_status v) force = Err e →
  ∃ o, stop_vm_by_id id force s = (Ok (), with_out o s).
Proof.
  intros Hl Hv Hc. unfold stop_vm_by_id. rewrite (with_vm_bind _ _ _ _ _ _ Hl Hv).
  unfold stop_vm, deref, println. st_run. rewrite Hv. cbn [unwrap]. rewrite Hc.
  eexists. destruct s. reflexivity.
Qed.

Lemma suspend_refused s id l v e :
  vms s !! id = Some l → heap s !! l = Some v → can_suspend_vm (vm_status v) = Err e →
  ∃ o, suspend_vm_by_id id s = (Ok (), with_out o s).
Proof.
  intros Hl Hv Hc. unfold suspend_vm_by_id, println. unfold mbind at 1, st_bind at 1, modify at 1.
  rewrite (with_vm_bind (upd_out _ s) _ _ _ _ _ Hl Hv).
  unfold suspend_vm, deref. st_run. cbn [heap upd_out]. rewrite Hv. cbn [unwrap]. rewrite Hc.
  eexists. destruct s. reflexivity.
Qed.

Lemma resume_refused s id l v e :
  vms s !! id = Some l → heap s !! l = Some v → can_resume_vm (vm_status v) = Err e →
  ∃ o, resume_vm_by_id id s = (Ok (), with_out o s).
Proof.
  intros Hl Hv Hc. unfold resume_vm_by_id, println. unfold mbind at 1, st_bind at 1, modify at 1.
  rewrite (with_vm_bind (upd_out _ s) _ _ _ _ _ Hl Hv).
  unfold resume_vm, deref. st_run. cbn [heap upd_out]. rewrite Hv. cbn [unwrap]. rewrite Hc.
  eexists. destruct s. reflexivity.
Qed.

Lemma status_of_eq s id l v :
  vms s !! id = Some l → heap s !! l = Some v →
  status_of id s = (Ok (Some (vm_status v)), s).
Proof.
  intros Hl Hv. unfold status_of, with_vm, get_vm_by_id, deref. st_run. rewrite Hl.
  cbn. by rewrite Hv.
Qed.

Lemma restart_stopping s id force l v :
  vms s !! id = Some l → heap s !! l = Some v → vm_status v = Stopping →
  ∃ o, restart_vm_by_id id force s = (Ok (), with_out o s).
Proof.
  intros Hl Hv Hs. unfold restart_vm_by_id, println.
  unfold mbind at 1, st_bind at 1, modify at 1.
  unfold mbind at 1, st_bind at 1. rewrite (status_of_eq (upd_out _ s) _ _ _ Hl Hv), Hs.
  st_run. destruct force; eexists; destruct s; reflexivity.
Qed.

(** The commands on VM [id], with and without [--force], and the steps of the tasks of
    all VMs. *)
Inductive user_step (id : Z) : relation state :=
| user_task s s' : task_step s s' → user_step id s s'
| user_start s s' : start_vm_by_id id s = (Ok (), s') → user_step id s s'
| user_stop force s s' : stop_vm_by_id id force s = (Ok (), s') → user_step id s s'
| user_suspend s s' : suspend_vm_by_id id s = (Ok (), s') → user_step id s s'
| user_resume s s' : resume_vm_by_id id s = (Ok (), s') → user_step id s s'
| user_restart force s s' : restart_vm_by_id id force s = (Ok (), s') → user_step id s s'.

(** The tasks do not change the VM list. *)
#[local] Instance vms_quiet : Quiet (F:=F) (G:=G) vms.
Proof. by split. Qed.
#[local] Instance vms_quiet_vm l : QuietVm (F:=F) (G:=G) vms l.
Proof. by split. Qed.
#[local] Instance vms_quiet_task P tid : QuietTask (F:=F) (G:=G) P vms tid.
Proof. by intros s b. Qed.
#[local] Hint Resolve vms_quiet vms_quiet_vm vms_quiet_task : keeps.

Lemma task_step_vms s s' : task_step s s' → vms s' = vms s.
Proof.
  intros [s0 tid r s1 _ He]. unfold vcpu_step, task_at in He.
  assert (Hg : ∀ p, keeps (λ _, True) vms (goto (F:=F) (G:=G) tid p))
    by (intros p; by apply keeps_modify).
  eapply (keeps_run (λ _, True)); [|done|exact He].
  unfold task_vm, mark_vcpu_running, mark_vcpu_exiting, sub_running_vm_count.
  keeps_tac. all: by apply keeps_modify.
Qed.

Lemma stuck_out l o s : stuck l (with_out o s) ↔ stuck l s.
Proof. done. Qed.

(** A forced stop of a VM that is stopping asks [axvm] for a shutdown again. *)
Lemma stop_stopping `{!AxVmOk} s id force l v s' :
  vms s !! id = Some l → heap s !! l = Some v → vm_status v = Stopping →
  stop_vm_by_id id force s = (Ok (), s') → ∃ o, s' = with_out o s.
Proof.
  intros Hl Hv Hs He. destruct force.
  - unfold stop_vm_by_id in He. rewrite (with_vm_bind _ _ _ _ _ _ Hl Hv) in He.
    unfold stop_vm, deref in He. st_run. rewrite Hv in He. cbn [unwrap] in He. rewrite Hs in He. simpl in He.
    unfold vm_shutdown, deref, store, println in He. st_run. simpl in He. rewrite Hv in He. simpl in He.
    destruct (shutdown v) as [r st] eqn:Eh.
    assert (Hst : st = Stopping).
    { destruct r as [[]|e|]; [by apply (shutdown_ok v)|by rewrite (shutdown_err v e st Eh)|by destruct (shutdown_total v st)]. }
    assert (Hid : upd_heap <[l := set_vm_status st v]> s = s).
    { subst st. rewrite <- Hs at 1. destruct v, s. unfold upd_heap, set_vm_status. simpl in *. by rewrite insert_id. }
    destruct r as [[]|e|]; simpl in He; [| |done]; injection He as <-; eexists; rewrite <- Hid at 2; reflexivity.
  - destruct (stop_refused s id false l v "VM is already stopping" Hl Hv) as [o Ho]; [by rewrite Hs|].
    exists o. congruence.
Qed.

Lemma user_step_stuck `{!AxVmOk} id l s s' :
  user_step id s s' → vms s !! id = Some l → stuck l s → vms s' !! id = Some l ∧ stuck l s'.
Proof.
  intros Hu Hl Hst. pose proof Hst as [(v & Hv & Hs) _].
  assert (Hout : ∀ o x, x = with_out o s → vms x !! id = Some l ∧ stuck l x)
    by (by intros o x ->).
  destruct Hu as [s s' Ht|s s' He|force s s' He|s s' He|s s' He|force s s' He].
  - rewrite (task_step_vms _ _ Ht). eauto using stuck_step.
  - edestruct (start_refused s id l v) as [o Ho]; [done|done|by rewrite Hs|]. apply (Hout o); congruence.
  - destruct (stop_stopping s id force l v s' Hl Hv Hs He) as [o Ho]. by apply (Hout o).
  - edestruct (suspend_refused s id l v) as [o Ho]; [done|done|by rewrite Hs|]. apply (Hout o); congruence.
  - edestruct (resume_refused s id l v) as [o Ho]; [done|done|by rewrite Hs|]. apply (Hout o); congruence.
  - destruct (restart_stopping s id force l v Hl Hv Hs) as [o Ho]. apply (Hout o); congruence.
Qed.

Lemma user_steps_stuck `{!AxVmOk} id l s s' :
  rtc (user_step id) s s' → vms s !! id = Some l → stuck l s → stuck l s'.
Proof.
  induction 1 as [|s s1 s' Hu _ IH]; [done|]. intros Hl Hst.
  destruct (user_step_stuck _ _ _ _ Hu Hl Hst). eauto.
Qed.

(** ** The vCPU counters under the commands *)

Lemma keeps_notify_one P wq : keeps P view (notify_one (F:=F) (G:=G) wq).
Proof.
  unfold notify_one, wake. keeps_tac.
Qed.

Lemma keeps_wake_all P w : keeps P view (wake_all (F:=F) (G:=G) w).
Proof. induction w as [|t w IH]; simpl; unfold wake; keeps_tac. Qed.

Lemma keeps_notify_all_vcpus P id : keeps P view (notify_all_vcpus (F:=F) (G:=G) id).
Proof.
  assert (Hw := keeps_wake_all P). unfold notify_all_vcpus, notify_all. keeps_tac.
Qed.

Lemma keeps_boot P l : keeps P view (vm_boot (F:=F) (G:=G) l).
Proof.
  intros s _. unfold vm_boot, deref, store. st_run.
  destruct (heap s !! l) as [v|] eqn:Hl; simpl; [|done].
  destruct (boot v) as [r st]. destruct r; simpl; by apply (view_heap s l v).
Qed.

Lemma keeps_drop_vmvcpus P q : keeps P view (drop_vmvcpus (F:=F) (G:=G) q).
Proof. unfold drop_vmvcpus. keeps_tac. Qed.

(** [start_single_vm] installs a counter at zero when the VM can be started, whatever
    its tasks are doing, and leaves the counters alone when not. *)
Lemma setup_view l v s s' :
  heap s !! l = Some v → setup_vm_primary_vcpu l s = (Ok (), s') →
  view s' = ((view s).1.1, <[vm_id v := 0]> (view s).1.2, (view s).2).
Proof.
  intros Hv He. unfold setup_vm_primary_vcpu in He. apply deref_bind_ok in He as (v' & Hv' & He).
  rewrite Hv in Hv'. injection Hv' as <-. apply st_bind_ok in He as (q & s1 & Hn & He).
  assert (Hq : running_halting_vcpu_count q = 0 ∧ view s1 = view s).
  { unfold new_vmvcpus in Hn. apply deref_bind_ok in Hn as (v' & _ & Hn). st_run. by injection Hn as <- <-. }
  destruct Hq as [Hq Hs1]. apply st_bind_ok in He as (c & s2 & Hc & He).
  apply (keeps_run (λ _, True) view) in Hc; [|keeps_tac|done].
  apply st_bind_ok in He as (t & s3 & Ht & He).
  apply (keeps_run (λ _, True) view) in Ht; [|keeps_tac|done].
  rewrite <- Hs1, <- Hc, <- Ht. unfold queue_insert in He. st_run.
  apply (keeps_run (λ _, True) view) in He; [|apply keeps_drop_vmvcpus|done]. rewrite He.
  unfold view. simpl. by rewrite fmap_insert, <- Hq.
Qed.

Lemma start_single_view l v s r s' :
  heap s !! l = Some v → start_single_vm l s = (Ok r, s') →
  view s' = match can_start_vm (vm_status v) with
            | Ok _ => ((view s).1.1, <[vm_id v := 0]> (view s).1.2, (view s).2)
            | _ => view s
            end.
Proof.
  intros Hv He. unfold start_single_vm in He. apply deref_bind_ok in He as (v' & Hv' & He).
  rewrite Hv in Hv'. injection Hv' as <-. destruct (can_start_vm _); [|by injection He as _ <-..].
  apply st_bind_ok in He as ([] & s1 & Hs1 & He). rewrite <- (setup_view _ _ _ _ Hv Hs1).
  eapply (keeps_run (λ _, True) view); [|done|exact He].
  unfold notify_primary_vcpu, add_running_vm_count.
  assert (Hb := keeps_boot (λ _, True)). assert (Hn := keeps_notify_one (λ _, True)).
  keeps_tac. all: by apply keeps_modify.
Qed.

Lemma keeps_println P line : keeps P view (println (F:=F) (G:=G) line).
Proof. by apply keeps_modify. Qed.

Lemma keeps_status_store P l x :
  keeps P view (v ← deref (F:=F) (G:=G) l; store l (set_vm_status x v)).
Proof.
  intros s _. unfold deref, store. st_run.
  destruct (heap s !! l) as [v|] eqn:Hl; simpl; [|done]. by apply (view_heap s l v).
Qed.

Lemma keeps_with_vm {A} P id (f : Z → st state blocked A) :
  (∀ l, keeps P view (f l)) → keeps P view (with_vm id f).
Proof. intros Hf. unfold with_vm, get_vm_by_id. keeps_tac. Qed.

Lemma keeps_stop P id force : keeps P view (stop_vm_by_id (F:=F) (G:=G) id force).
Proof.
  assert (Hp := keeps_println P). assert (Hs := keeps_shutdown P (F:=F) (G:=G) view).
  unfold stop_vm_by_id. apply keeps_bind; [|intros r; keeps_tac].
  apply keeps_with_vm. intros l. unfold stop_vm, stop_message. keeps_tac.
Qed.

Lemma keeps_resume_vm P id l : keeps P view (resume_vm (F:=F) (G:=G) id l).
Proof.
  assert (Hn := keeps_notify_all_vcpus P id). intros s Hs. unfold resume_vm, deref, store.
  unfold mbind, st_bind, get, lift, modify.
  destruct (heap s !! l) as [v|] eqn:Hl; [|done]. cbn [unwrap].
  destruct (can_resume_vm _); [|done..].
  assert (Hv := view_heap s l v (set_vm_status Running v) Hl eq_refl).
  specialize (Hn (upd_heap <[l := set_vm_status Running v]> s)). rewrite Hv in Hn.
  destruct (notify_all_vcpus _ _) as [[] ?]; by apply Hn.
Qed.

Lemma keeps_suspend_vm P l : keeps P view (suspend_vm (F:=F) (G:=G) l).
Proof.
  intros s _. unfold suspend_vm, deref, store. st_run.
  destruct (heap s !! l) as [v|] eqn:Hl; [|done]. cbn [unwrap].
  destruct (can_suspend_vm _); [|done..]. by apply (view_heap s l v).
Qed.

Lemma keeps_resume P id : keeps P view (resume_vm_by_id (F:=F) (G:=G) id).
Proof.
  assert (Hp := keeps_println P). assert (Hs := keeps_resume_vm P id).
  unfold resume_vm_by_id. apply keeps_bind; [done|intros _].
  apply keeps_bind; [by apply keeps_with_vm|intros r; keeps_tac].
Qed.

(** What the scheduler may do: run tasks; a joined task has exited. *)
Class SchedulerOk : Prop := {
  sched_wait_steps s : rtc task_step s (sched_wait s);
  sched_join_steps tid s s' :
    sched_join tid s = Some s' →
    rtc task_step s s' ∧ ∃ t, tasks s' !! tid = Some t ∧ t_pc t = PExited;
}.
Context `{!SchedulerOk}.

Lemma task_steps_counts base s s' : rtc task_step s s' → counts_from base s → counts_from base s'.
Proof. induction 1; eauto using task_step_counts. Qed.

Lemma view_pres {A} base (m : st state blocked A) :
  keeps (λ _, True) view m → pres (counts_from base) m.
Proof.
  intros Hm s Hs. apply counts_from_view. rewrite (Hm s) by done. by apply counts_from_view.
Qed.

Lemma busy_wait_counts base : pres (counts_from base) (busy_wait (F:=F) (G:=G)).
Proof. intros s Hs. eapply task_steps_counts; [apply sched_wait_steps|done]. Qed.

Lemma suspend_wait_counts base n id : pres (counts_from base) (suspend_wait (F:=F) (G:=G) n id).
Proof.
  induction n as [|n IH]; simpl; [by apply view_pres; keeps_tac|].
  apply pres_bind; [apply view_pres; unfold get_vm_by_id; keeps_tac|]. intros l.
  apply pres_bind; [apply view_pres; keeps_tac|]. intros [].
  - apply view_pres. keeps_tac.
  - apply pres_bind; [apply busy_wait_counts|done].
Qed.

Lemma println_counts base line : pres (counts_from base) (println (F:=F) (G:=G) line).
Proof. apply view_pres, keeps_println. Qed.

Lemma suspend_counts base id : pres (counts_from base) (suspend_vm_by_id (F:=F) (G:=G) id).
Proof.
  assert (Hp := println_counts base). unfold suspend_vm_by_id.
  apply pres_bind; [apply Hp|intros _].
  apply pres_bind; [apply view_pres, keeps_with_vm, keeps_suspend_vm|].
  intros [[?|?|]|]; [|apply Hp|by intros s|apply Hp].
  apply pres_bind; [apply Hp|intros _].
  apply pres_bind; [apply view_pres, keeps_with_vm; intros; keeps_tac|intros n].
  do 2 (apply pres_bind; [apply Hp|intros _]).
  apply pres_bind; [apply suspend_wait_counts|intros b].
  apply pres_bind; [|intros _; apply Hp]. destruct b; [apply Hp|].
  do 2 (apply pres_bind; [apply Hp|intros _]). apply Hp.
Qed.

(** The tasks that the counters do not count after a start: those of the VM that are
    in the loop when a new counter is installed. *)
Definition base_after_start (id : Z) s (base : gmap Z Z) : gmap Z Z :=
  match vms s !! id ≫= λ l, heap s !! l with
  | Some v =>
      match can_start_vm (vm_status v) with
      | Ok _ => <[vm_id v := Z.of_nat (size (loop_tasks s (vm_id v)))]> base
      | _ => base
      end
  | None => base
  end.

Lemma start_counts base id s s' :
  start_vm_by_id id s = (Ok (), s') → counts_from base s →
  counts_from (base_after_start id s base) s'.
Proof.
  intros He Hok. unfold start_vm_by_id, with_vm, get_vm_by_id in He. unfold base_after_start.
  unfold mbind, st_bind, gets in He. destruct (vms s !! id) as [l|] eqn:Hl; cbn [mbind option_bind].
  2: { unfold println in He. by injection He as <-. }
  destruct (heap s !! l) as [v|] eqn:Hv; cycle 1.
  { unfold start_single_vm, deref in He. st_run. by rewrite Hv in He. }
  destruct (start_single_vm l s) as [[r|?|] s1] eqn:Hs; [|done..].
  assert (Hview : view s' = view s1) by (destruct r; st_run; unfold println in He; st_run; by simplify_eq).
  apply counts_from_view. rewrite Hview, (start_single_view _ _ _ _ _ Hv Hs). apply counts_from_view in Hok.
  destruct (can_start_vm _); [|done..]. intros i n. cbn -[view].
  change (loop_set _ i) with (loop_set (view s) i). unfold uncounted.
  destruct (decide (i = vm_id v)) as [->|Hi].
  - rewrite !lookup_insert_eq. intros [= <-]. simpl. rewrite loop_tasks_view. by rewrite Z.sub_diag.
  - rewrite !lookup_insert_ne by done. apply Hok.
Qed.

(** The tasks and the commands of the shell, interleaved, with the number of tasks of
    each VM that its counter does not count. *)
Inductive sys_step : relation (state * gmap Z Z) :=
| sys_task s s' base : task_step s s' → sys_step (s, base) (s', base)
| sys_stop id force s s' base : stop_vm_by_id id force s = (Ok (), s') → sys_step (s, base) (s', base)
| sys_suspend id s s' base : suspend_vm_by_id id s = (Ok (), s') → sys_step (s, base) (s', base)
| sys_resume id s s' base : resume_vm_by_id id s = (Ok (), s') → sys_step (s, base) (s', base)
| sys_start id s s' base :
    start_vm_by_id id s = (Ok (), s') → sys_step (s, base) (s', base_after_start id s base).

Lemma sys_step_counts x y :
  sys_step x y → counts_from x.2 x.1 ∧ (∀ id, 0 ≤ uncounted x.2 id) →
  counts_from y.2 y.1 ∧ (∀ id, 0 ≤ uncounted y.2 id).
Proof.
  intros Hs [Hok Hpos]. destruct Hs as [s s' base Ht|id force s s' base He|id s s' base He|id s s' base He|id s s' base He];
    simpl in *; (split; [|try done]).
  - by eapply task_step_counts.
  - pose proof (view_pres base _ (keeps_stop _ id force) s Hok) as H'. by rewrite He in H'.
  - pose proof (suspend_counts base id s Hok) as H'. by rewrite He in H'.
  - pose proof (view_pres base _ (keeps_resume _ id) s Hok) as H'. by rewrite He in H'.
  - by apply start_counts.
  - intros i. unfold base_after_start, uncounted. destruct (_ ≫= _) as [v|]; [|apply Hpos].
    destruct (can_start_vm _); [|apply Hpos..]. destruct (decide (i = vm_id v)) as [->|Hi].
    + rewrite lookup_insert_eq. simpl. lia.
    + rewrite lookup_insert_ne by done. apply Hpos.
Qed.

Lemma sys_steps_counts x y :
  rtc sys_step x y → counts_from x.2 x.1 ∧ (∀ id, 0 ≤ uncounted x.2 id) →
  counts_from y.2 y.1 ∧ (∀ id, 0 ≤ uncounted y.2 id).
Proof. induction 1; eauto using sys_step_counts. Qed.

(** Before any VM runs: counters at zero, no task in the loop. *)
Definition quiescent s : Prop :=
  (∀ id q, queue s !! id = Some q → running_halting_vcpu_count q = 0) ∧
  (∀ tid t, tasks s !! tid = Some t → in_loop (t_pc t) = false).

Lemma quiescent_counts s : quiescent s → counts_ok s.
Proof.
  intros [Hq Ht] id q Hid. rewrite (Hq _ _ Hid).
  assert (loop_tasks s id = ∅) as ->; [|done].
  apply set_eq. intros tid. unfold loop_tasks. rewrite elem_of_dom. unfold is_Some.
  setoid_rewrite map_lookup_filter_Some. setoid_rewrite lookup_omap_Some.
  split; [|set_solver]. intros (l & (t & Hl & Htid) & _).
  unfold loop_vm in Hl. by rewrite (Ht _ _ Htid) in Hl.
Qed.

(** C2: in every interleaving of the vCPU tasks with the shell's start, stop, suspend
    and resume commands, nothing being assumed about when a VM is started, the counter
    of running or halting vCPUs of each VM is the number of its tasks that are between
    [mark_vcpu_running] and [mark_vcpu_exiting] (as a [usize]), less those that were there
    when the VM was last started: none if they had all left by then. A task that passes
    [mark_vcpu_exiting] goes on to set the VM to [Stopped] exactly when as many tasks are
    left in the loop as were there at the last start, none in the ordinary case
    (with fewer than 2^63 tasks). *)
Theorem vcpu_counter_exact s0 s base tid t r s' v :
  quiescent s0 → rtc sys_step (s0, ∅) (s, base) →
  tasks s !! tid = Some t → t_pc t = PExiting → heap s !! t_vm t = Some v →
  Z.of_nat (size (loop_tasks s (vm_id v))) < 2 ^ 63 → uncounted base (vm_id v) < 2 ^ 63 →
  vcpu_step tid r s = (Ok (), s') →
  (∀ id q, queue s !! id = Some q →
           running_halting_vcpu_count q =
           wrap64 (Z.of_nat (size (loop_tasks s id)) - uncounted base id)) ∧
  loop_tasks s' (vm_id v) = loop_tasks s (vm_id v) ∖ {[tid]} ∧
  ((t_pc <$> tasks s' !! tid) = Some PSetStopped ↔
   Z.of_nat (size (loop_tasks s' (vm_id v))) = uncounted base (vm_id v)).
Proof.
  intros Hq Hr Ht Hp Hv Hlt Hb He.
  destruct (sys_steps_counts _ _ Hr) as [Hok Hpos]; simpl in *.
  { split; [by apply counts_ok_from, quiescent_counts|done]. }
  split; [exact Hok|]. destruct (exiting_step _ _ _ _ _ _ Ht Hp Hv He) as (q & Hid & Hset & Hpc).
  split; [done|]. specialize (Hpos (vm_id v)). rewrite Hpc, Hset, (Hok _ _ Hid). clear Hpc.
  pose proof (exiting_in_loop _ _ _ _ Ht Hp Hv) as Hin.
  rewrite size_difference, size_singleton by set_solver.
  assert (size (loop_tasks s (vm_id v)) ≠ 0%nat) by (intros Hz%size_empty_inv; set_solver).
  rewrite (bool_decide_ext _ (Z.of_nat (size (loop_tasks s (vm_id v))) - uncounted base (vm_id v) = 1)).
  - case_bool_decide; split; intros Hx; try done; [lia|exfalso; lia].
  - unfold wrap64. set (d := Z.of_nat _ - _). assert (- 2 ^ 63 < d < 2 ^ 63) by lia.
    pose proof (Z.div_mod d (2 ^ 64) ltac:(lia)). pose proof (Z.mod_pos_bound d (2 ^ 64) ltac:(lia)).
    split; intros Hx; [lia|by rewrite Hx].
Qed.

(** C10: stopping a VM whose vCPUs wait does not end. When [vm stop] is accepted for
    a VM each of whose tasks has exited, is blocked (it has halted, or it waits for
    the VM to be resumed), or has not seen the VM running yet (its boot delay and
    the wait after it), then the VM is [Stopping] and stays so for ever: no
    execution of the tasks of any VM and no further start, stop, suspend, resume or
    restart command for it, with [--force] or without, leads to another status, because
    nothing wakes the tasks. *)
Theorem stop_waiting_vm_never_stops `{!AxVmOk} s id force l v st :
  vms s !! id = Some l → heap s !! l = Some v →
  can_stop_vm (vm_status v) force = Ok () → shutdown v = (Ok (), st) →
  (∀ tid t, tasks s !! tid = Some t → t_vm t = l → stuck_task t) →
  ∃ s', stop_vm_by_id id force s = (Ok (), s') ∧
        ∀ s'', rtc (user_step id) s' s'' →
               ∃ v', heap s'' !! l = Some v' ∧ vm_status v' = Stopping.
Proof.
  intros Hl Hv Hc Hs Ht. destruct (stop_vm_by_id_ok _ _ _ _ _ _ Hl Hv Hc Hs) as [o Ho].
  rewrite (shutdown_ok _ _ Hs) in Ho. eexists. split; [exact Ho|]. intros s'' Hr.
  eapply user_steps_stuck in Hr as [Hst _]; [exact Hst|exact Hl|].
  split; [|exact Ht]. eexists. simpl. rewrite lookup_insert_eq. done.
Qed.

Lemma join_eq tid s :
  join tid s = match sched_join tid s with
               | Some s' => (Ok (), s')
               | None => (Err Forever, s)
               end.
Proof. unfold join. st_run. by destruct (sched_join tid s). Qed.

(** Joining a list of tasks one of which never exits does not return. *)
Lemma join_forever l tid ts s :
  stuck l s → alive l tid s → tid ∈ ts →
  ∃ s', for_each ts join s = (Err Forever, s').
Proof.
  revert s. induction ts as [|t ts IH]; intros s Hst Ha Hin; [by apply not_elem_of_nil in Hin|].
  simpl. unfold mbind, st_bind. rewrite join_eq.
  destruct (sched_join t s) as [s1|] eqn:Hj; [|by eexists].
  apply sched_join_steps in Hj as [Hr (t' & Ht' & Hp')].
  apply elem_of_cons in Hin as [<-|Hin].
  - destruct (stuck_alive_forever _ _ _ _ Hr Hst Ha) as (t & Ht & _ & Hp). simplify_eq.
  - apply IH; [..|done]; [by eapply stuck_forever|by eapply stuck_alive_forever].
Qed.

Lemma cleanup_forever l id q tid s :
  queue s !! id = Some q → tid ∈ vcpu_task_list q → stuck l s → alive l tid s →
  ∃ s', cleanup_vm_vcpus id s = (Err Forever, s').
Proof.
  intros Hq Hin Hst Ha. unfold cleanup_vm_vcpus, queue_remove, drop_vmvcpus. st_run. rewrite Hq.
  edestruct (join_forever l tid (vcpu_task_list q) (upd_queue (delete id) s)) as [s' Hj];
    [exact Hst|exact Ha|done|]. rewrite Hj. eauto.
Qed.

(** The shutdown signal of [delete_vm_by_id] to a stopping VM. *)
Lemma delete_signal_stopping `{!AxVmOk} s id l v :
  heap s !! l = Some v → vm_status v = Stopping →
  ∃ o v', delete_signal id l s = (Ok Stopping, with_out o (upd_heap <[l := v']> s)) ∧
          vm_status v' = Stopping.
Proof.
  intros Hv Hs. unfold delete_signal, vm_shutdown, deref, store, println. st_run.
  rewrite Hv. cbn [unwrap]. rewrite Hs. cbn. rewrite lookup_insert_eq. cbn.
  set (w := set_vm_status Stopping v).
  assert (Hsh : ∃ r, shutdown w = (r, Stopping) ∧ r ≠ Panic).
  { destruct (shutdown w) as [[[]|e|] st'] eqn:E.
    - exists (Ok ()). by rewrite (shutdown_ok _ _ E).
    - exists (Err e). by rewrite (shutdown_err _ _ _ E).
    - by apply shutdown_total in E. }
  destruct Hsh as (r & Hsh & Hr). rewrite Hsh.
  destruct r; [..|done]; eexists _, (set_vm_status Stopping w); split; try done;
    unfold with_out, upd_out, upd_heap; cbn; by rewrite insert_insert_eq.
Qed.

(** deleting such a VM blocks the shell. When a VM is [Stopping] and each of its
    tasks has exited, is blocked, or has not seen the VM running, and one of the
    tasks that its queue lists has not exited, [vm delete --force] takes the VM out
    of the list and then never returns: it joins a task that cannot exit. *)
Theorem delete_waiting_vm_blocks `{!AxVmOk} s id keep l q tid :
  vms s !! id = Some l → stuck l s → queue s !! id = Some q →
  tid ∈ vcpu_task_list q → alive l tid s →
  ∃ s', delete_vm_by_id id keep s = (Err Forever, s').
Proof.
  intros Hl Hst Hq Hin Ha. pose proof Hst as [(v & Hv & Hs) Htasks].
  unfold delete_vm_by_id. rewrite (with_vm_bind _ _ _ _ _ _ Hl Hv).
  destruct (delete_signal_stopping s id l v Hv Hs) as (o & v' & Hd & Hs').
  unfold mbind at 1, st_bind at 1. rewrite Hd.
  unfold remove_vm, delete_cleanup, println. st_run. cbn -[cleanup_vm_vcpus strong_count].
  rewrite Hl.
  match goal with |- context [cleanup_vm_vcpus id ?x] =>
    edestruct (cleanup_forever l id q tid x) as [s' Hc] end; [done|done| |exact Ha|].
  { split; [|exact Htasks]. exists v'. simpl. by rewrite lookup_insert_eq. }
  rewrite Hc. eauto.
Qed.

(** ** One vCPU through the checks of the loop *)

(** The state after task [tid] moved to [p]. *)
Definition moved (tid : Z) (p : pc) s : state := upd_tasks (alter (set_pc p) tid) s.

Lemma moved_task tid p s t :
  tasks s !! tid = Some t → tasks (moved tid p s) !! tid = Some (set_pc p t).
Proof. intros Ht. simpl. by rewrite lookup_alter_eq, Ht. Qed.

Lemma step_check_suspend s tid t v r :
  tasks s !! tid = Some t → t_pc t = PCheckSuspend → heap s !! t_vm t = Some v →
  vcpu_step tid r s
  = (Ok (), moved tid (if suspending v then PSuspended else PCheckStop) s).
Proof.
  intros Ht Hp Hv. unfold vcpu_step. rewrite (task_at_bind _ _ _ _ Ht), Hp.
  unfold deref. st_run. by rewrite Hv.
Qed.

Lemma step_check_stop s tid t v r :
  tasks s !! tid = Some t → t_pc t = PCheckStop → heap s !! t_vm t = Some v →
  vcpu_step tid r s = (Ok (), moved tid (if stopping v then PExiting else PRun) s).
Proof.
  intros Ht Hp Hv. unfold vcpu_step. rewrite (task_at_bind _ _ _ _ Ht), Hp.
  unfold deref. st_run. by rewrite Hv.
Qed.

Lemma step_exiting s tid t v q r :
  tasks s !! tid = Some t → t_pc t = PExiting → heap s !! t_vm t = Some v →
  queue s !! vm_id v = Some q →
  let n := running_halting_vcpu_count q in
  vcpu_step tid r s
  = (Ok (), moved tid (if bool_decide (n = 1) then PSetStopped else PExited)
              (upd_queue <[vm_id v := set_count (wrap64 (n - 1)) q]> s)).
Proof.
  intros Ht Hp Hv Hq. unfold vcpu_step. rewrite (task_at_bind _ _ _ _ Ht), Hp.
  unfold deref, mark_vcpu_exiting, queue_get. st_run. rewrite Hv. cbn [unwrap].
  rewrite Hq. done.
Qed.

Lemma step_set_stopped s tid t v r :
  tasks s !! tid = Some t → t_pc t = PSetStopped → heap s !! t_vm t = Some v →
  vcpu_step tid r s
  = (Ok (), moved tid PSubCount (upd_heap <[t_vm t := set_vm_status Stopped v]> s)).
Proof.
  intros Ht Hp Hv. unfold vcpu_step. rewrite (task_at_bind _ _ _ _ Ht), Hp.
  unfold deref, store. st_run. by rewrite Hv.
Qed.

Lemma step_sub_count s tid t r :
  tasks s !! tid = Some t → t_pc t = PSubCount →
  vcpu_step tid r s
  = (Ok (), moved tid PExited
              (upd_trace (λ x, x ++ [EWakeVmm]) (upd_count (λ c, wrap64 (c - 1)) s))).
Proof.
  intros Ht Hp. unfold vcpu_step. by rewrite (task_at_bind _ _ _ _ Ht), Hp.
Qed.

Lemma do_step s tid t r s' :
  tasks s !! tid = Some t → t_blocked t = false → t_pc t ≠ PExited →
  vcpu_step tid r s = (Ok (), s') → task_step s s'.
Proof. intros Ht Hb Hp He. exists tid r; [|done]. by exists t. Qed.

(** the last vCPU of a stopping VM completes the shutdown. From its next check of
    the status, the task's own steps lead to a state in which it has exited, the
    VM is [Stopped], its counter is zero, the count of running VMs has gone down
    by one and the VMM has been woken. *)
Theorem last_vcpu_completes_shutdown s tid t v q :
  tasks s !! tid = Some t → t_pc t = PCheckSuspend → t_blocked t = false →
  heap s !! t_vm t = Some v → vm_status v = Stopping →
  queue s !! vm_id v = Some q → running_halting_vcpu_count q = 1 →
  ∃ s' v' q', rtc task_step s s' ∧
    (t_pc <$> tasks s' !! tid) = Some PExited ∧
    heap s' !! t_vm t = Some v' ∧ vm_status v' = Stopped ∧
    queue s' !! vm_id v = Some q' ∧ running_halting_vcpu_count q' = 0 ∧
    running_vm_count s' = wrap64 (running_vm_count s - 1) ∧
    trace s' = trace s ++ [EWakeVmm].
Proof.
  intros Ht Hp Hb Hv Hs Hq Hn. set (r := mkRun (Ok Nothing) VFree).
  pose proof (step_check_suspend s tid t v r Ht Hp Hv) as E1.
  unfold suspending in E1. rewrite bool_decide_false in E1 by congruence.
  set (s1 := moved tid PCheckStop s) in *. assert (T1 := moved_task tid PCheckStop s t Ht).
  pose proof (step_check_stop s1 tid _ v r T1 eq_refl Hv) as E2.
  unfold stopping in E2. rewrite bool_decide_true in E2 by congruence.
  set (s2 := moved tid PExiting s1) in *. assert (T2 := moved_task tid PExiting s1 _ T1).
  pose proof (step_exiting s2 tid _ v q r T2 eq_refl Hv Hq) as E3. cbn zeta in E3.
  rewrite Hn, bool_decide_true in E3 by done.
  match type of E3 with _ = (_, moved _ _ ?x) => set (x3 := x) in E3 end.
  assert (T3 := moved_task tid PSetStopped x3 _ T2). set (s3 := moved tid PSetStopped x3) in *.
  pose proof (step_set_stopped s3 tid _ v r T3 eq_refl Hv) as E4.
  match type of E4 with _ = (_, moved _ _ ?x) => set (x4 := x) in E4 end.
  assert (T4 := moved_task tid PSubCount x4 _ T3). set (s4 := moved tid PSubCount x4) in *.
  pose proof (step_sub_count s4 tid _ r T4 eq_refl) as E5.
  match type of E5 with _ = (_, ?x) => set (s5 := x) in E5 end.
  exists s5, (set_vm_status Stopped v), (set_count (wrap64 (1 - 1)) q). split.
  - eapply rtc_l; [by eapply (do_step _ _ _ _ _ Ht Hb); [congruence|exact E1]|].
    eapply rtc_l; [by eapply (do_step _ _ _ _ _ T1 Hb); [|exact E2]|].
    eapply rtc_l; [by eapply (do_step _ _ _ _ _ T2 Hb); [|exact E3]|].
    eapply rtc_l; [by eapply (do_step _ _ _ _ _ T3 Hb); [|exact E4]|].
    apply rtc_once. by eapply (do_step _ _ _ _ _ T4 Hb); [|exact E5].
  - unfold s5. erewrite (moved_task tid PExited (upd_trace _ _)); [|exact T4]. simpl.
    rewrite !lookup_insert_eq. by split_and!.
Qed.

(** a vCPU does not notice that its VM has stopped. Where the VM is already
    [Stopped] (a secondary vCPU that saw the VM running, but marked itself running
    only after the last other vCPU had left), each pass of the task through its
    checks leads back to running the guest. *)
Theorem late_vcpu_keeps_running s tid t v r1 r2 :
  tasks s !! tid = Some t → t_pc t = PCheckSuspend →
  heap s !! t_vm t = Some v → vm_status v = Stopped →
  ∃ s1 s2, vcpu_step tid r1 s = (Ok (), s1) ∧ vcpu_step tid r2 s1 = (Ok (), s2) ∧
           tasks s2 !! tid = Some (set_pc PRun t) ∧ heap s2 = heap s.
Proof.
  intros Ht Hp Hv Hs. pose proof (step_check_suspend s tid t v r1 Ht Hp Hv) as E1.
  unfold suspending in E1. rewrite bool_decide_false in E1 by congruence.
  assert (T1 := moved_task tid PCheckStop s t Ht).
  pose proof (step_check_stop (moved tid PCheckStop s) tid _ v r2 T1 eq_refl Hv) as E2.
  unfold stopping in E2. rewrite bool_decide_false in E2 by congruence.
  eexists _, _. split; [exact E1|]. split; [exact E2|]. split; [|done].
  by rewrite (moved_task tid PRun _ _ T1).
Qed.

(** a command that does not apply changes nothing. When the check of the VM's
    status refuses a start, stop, suspend or resume, or the VM is not in the list,
    the command only prints a message: every other part of the state is as
    before. *)
Theorem refused_commands_change_nothing s id force :
  (∀ l v e, vms s !! id = Some l → heap s !! l = Some v →
     (can_start_vm (vm_status v) = Err e → ∃ o, start_vm_by_id id s = (Ok (), with_out o s)) ∧
     (can_stop_vm (vm_status v) force = Err e →
      ∃ o, stop_vm_by_id id force s = (Ok (), with_out o s)) ∧
     (can_suspend_vm (vm_status v) = Err e → ∃ o, suspend_vm_by_id id s = (Ok (), with_out o s)) ∧
     (can_resume_vm (vm_status v) = Err e → ∃ o, resume_vm_by_id id s = (Ok (), with_out o s))) ∧
  (vms s !! id = None →
     (∃ o, start_vm_by_id id s = (Ok (), with_out o s)) ∧
     (∃ o, stop_vm_by_id id force s = (Ok (), with_out o s)) ∧
     (∃ o, suspend_vm_by_id id s = (Ok (), with_out o s)) ∧
     (∃ o, resume_vm_by_id id s = (Ok (), with_out o s))).
Proof.
  split.
  - intros l v e Hl Hv. split_and!; intros Hc;
      eauto using start_refused, stop_refused, suspend_refused, resume_refused.
  - intros Hn. unfold start_vm_by_id, stop_vm_by_id, suspend_vm_by_id, resume_vm_by_id, with_vm,
      get_vm_by_id, println. st_run. cbn [vms upd_out]. rewrite Hn.
    split_and!; eexists; destruct s; reflexivity.
Qed.
End behaviour.

(** ** Concrete runs

    One VM with two vCPUs on the concrete guests of [Hvc]. *)
Module VmExamples.

#[local] Instance demo_vm : AxVm := {|
  boot v := if bool_decide (vm_status v = Running) then (Err BadState, Running)
            else (Ok (), Running);
  shutdown v := if bool_decide (vm_status v = Stopping) then (Err BadState, Stopping)
                else (Ok (), Stopping);
  set_entry _ _ _ := Ok ();
  inject_interrupt_to_vcpu _ _ _ := Ok ();
|}.

#[local] Instance demo_vm_ok : AxVmOk.
Proof.
  split; intros v; simpl; intros; repeat case_bool_decide; simplify_eq; done.
Qed.

#[local] Instance demo_codes : HyperCallCodes := λ n, None.
#[local] Instance demo_checks : OverflowChecks := true.
#[local] Instance demo_arch : TargetArch := AArch64.
#[local] Instance demo_text : StatusText := status_debug.

Definition dstate : Type := vmm_state (hvc_state pool Demo.guests).

Definition exited (tid : Z) (s : dstate) : bool :=
  bool_decide ((t_pc <$> tasks s !! tid) = Some PExited).

#[local] Instance demo_sched : Scheduler dstate := {|
  sched_wait s := s;
  sched_join tid s := if exited tid s then Some s else None;
|}.

#[local] Instance demo_sched_ok : SchedulerOk (F:=pool) (G:=Demo.guests).
Proof.
  split; [intros; apply rtc_refl|]. intros tid s s'. simpl. unfold exited.
  case_bool_decide as He; [|done]. intros [= <-]. split; [apply rtc_refl|].
  destruct (tasks s !! tid) as [t|]; [|done]. exists t. split; [done|]. by simplify_eq/=.
Qed.

Definition vcpus : list VCpu := [mkVCpu 0 VFree None; mkVCpu 1 VFree None].
Definition vm1 : VM := mkVM 1 "linux" Loaded vcpus [(0, None, 0); (1, None, 1)] [0x1000000].

Definition s_loaded : dstate :=
  mkVmm {[100 := vm1]} {[1 := 100]} ∅ ∅ ∅ 0 0 Demo.start [] [].

Definition s_started : dstate := (start_vm_by_id 1 s_loaded).2.

Definition exit_with (e : AxVCpuExitReason) : run_result := mkRun (Ok e) VFree.
Definition tstep (tid : Z) (e : AxVCpuExitReason) (s : dstate) : dstate :=
  (vcpu_step tid (exit_with e) s).2.

(** The id that the first task gets. *)
Definition t0 : Z := fresh (∅ : gset Z).

Definition s_running : dstate :=
  tstep t0 Nothing (tstep t0 Nothing (tstep t0 Nothing (tstep t0 Nothing s_started))).
Definition s_halted : dstate := tstep t0 Halt s_running.
Definition s_stopped_halted : dstate := (stop_vm_by_id 1 false s_halted).2.

Lemma halted_stuck tid t :
  tasks s_halted !! tid = Some t → t_vm t = 100 → stuck_task t.
Proof.
  assert (Hm : map_to_list (tasks s_halted) = [(t0, mkTask "VM[1]-VCpu[0]" None 100 0 PHalted true)])
    by (vm_compute; reflexivity).
  intros Ht _. apply elem_of_map_to_list in Ht. rewrite Hm in Ht.
  apply list_elem_of_singleton, (f_equal snd) in Ht. cbn [snd] in Ht. rewrite Ht. by left.
Qed.

Lemma stop_waiting_vm_never_stops_witness :
  ∃ s', stop_vm_by_id 1 false s_halted = (Ok (), s') ∧
        ∀ s'', rtc (user_step 1) s' s'' →
               ∃ v', heap s'' !! 100 = Some v' ∧ vm_status v' = Stopping.
Proof.
  apply (stop_waiting_vm_never_stops s_halted 1 false 100 (set_vm_status Running vm1) Stopping);
    [vm_compute; reflexivity..|exact halted_stuck].
Defined.

Lemma stopped_halted_stuck : stuck 100 s_stopped_halted.
Proof.
  split; [exists (set_vm_status Stopping vm1); split; vm_compute; reflexivity|].
  intros tid t Ht. exact (halted_stuck tid t Ht).
Qed.

Lemma delete_waiting_vm_blocks_witness :
  ∃ s', delete_vm_by_id 1 true s_stopped_halted = (Err Forever, s').
Proof.
  eapply (delete_waiting_vm_blocks s_stopped_halted 1 true 100 (mkVMVCpus 1 0 [t0] 1) t0).
  - vm_compute. reflexivity.
  - exact stopped_halted_stuck.
  - vm_compute. reflexivity.
  - by apply list_elem_of_singleton.
  - eexists. split; [vm_compute; reflexivity|]. split; [reflexivity|discriminate].
Defined.

(** A task step, checked by evaluation. *)
Definition can_step (tid : Z) (e : AxVCpuExitReason) (s : dstate) : bool :=
  match tasks s !! tid with
  | Some t => negb (t_blocked t) && negb (bool_decide (t_pc t = PExited)) &&
              is_ok (vcpu_step tid (exit_with e) s).1
  | None => false
  end.

Lemma tstep_sys tid e s base : can_step tid e s = true → sys_step (s, base) (tstep tid e s, base).
Proof.
  unfold can_step, tstep. destruct (tasks s !! tid) as [t|] eqn:Ht; [|done].
  rewrite !andb_true_iff, !negb_true_iff, bool_decide_eq_false. intros [[Hb Hp] Hok].
  destruct (vcpu_step tid (exit_with e) s) as [[[]|?|] s'] eqn:He; [|done..].
  apply sys_task. exists tid (exit_with e); [|done]. by exists t.
Qed.

(** Task [tid] takes one step for each of the exit reasons (only those at [PRun]
    matter). *)
Fixpoint tsteps (tid : Z) (es : list AxVCpuExitReason) (s : dstate) : dstate :=
  match es with [] => s | e :: es => tsteps tid es (tstep tid e s) end.

Fixpoint can_steps (tid : Z) (es : list AxVCpuExitReason) (s : dstate) : bool :=
  match es with [] => true | e :: es => can_step tid e s && can_steps tid es (tstep tid e s) end.

Lemma tsteps_sys tid es s base :
  can_steps tid es s = true → rtc sys_step (s, base) (tsteps tid es s, base).
Proof.
  revert s. induction es as [|e es IH]; intros s; simpl; [intros; apply rtc_refl|].
  intros [He Hes]%andb_prop. eapply rtc_l; [by apply tstep_sys|by apply IH].
Qed.

(** The VM runs its only vCPU, is stopped, and the vCPU reaches its exit. *)
Definition s_looping : dstate := tstep t0 Nothing s_running.
Definition s_stopping : dstate := (stop_vm_by_id 1 false s_looping).2.
Definition s_exiting : dstate := tsteps t0 [Nothing; Nothing] s_stopping.

Lemma loaded_quiescent : quiescent s_loaded.
Proof. by split; intros ??; cbn [queue tasks s_loaded]; rewrite lookup_empty. Qed.

Lemma first_start : base_after_start 1 s_loaded ∅ = {[1 := 0]}.
Proof. vm_compute. reflexivity. Qed.

Lemma reach_exiting : rtc sys_step (s_loaded, ∅) (s_exiting, {[1 := 0]}).
Proof.
  rewrite <- first_start.
  eapply rtc_l.
  { apply (sys_start 1 s_loaded s_started). vm_compute. reflexivity. }
  etrans.
  { apply (tsteps_sys t0 [Nothing; Nothing; Nothing; Nothing; Nothing]). vm_compute. reflexivity. }
  change (tsteps t0 _ s_started) with s_looping. eapply rtc_l.
  { apply (sys_stop 1 false s_looping s_stopping). vm_compute. reflexivity. }
  apply tsteps_sys. vm_compute. reflexivity.
Qed.

Lemma vcpu_counter_exact_witness :
  (∀ id q, queue s_exiting !! id = Some q →
           running_halting_vcpu_count q =
           wrap64 (Z.of_nat (size (loop_tasks s_exiting id)) - uncounted {[1 := 0]} id)) ∧
  loop_tasks (tstep t0 Nothing s_exiting) 1 = loop_tasks s_exiting 1 ∖ {[t0]} ∧
  ((t_pc <$> tasks (tstep t0 Nothing s_exiting) !! t0) = Some PSetStopped ↔
   Z.of_nat (size (loop_tasks (tstep t0 Nothing s_exiting) 1)) = uncounted {[1 := 0]} 1).
Proof.
  eapply (vcpu_counter_exact s_loaded s_exiting {[1 := 0]} t0
            (mkTask "VM[1]-VCpu[0]" None 100 0 PExiting false) (exit_with Nothing) _
            (set_vm_status Stopping vm1) loaded_quiescent reach_exiting);
    vm_compute; reflexivity.
Defined.

Lemma last_vcpu_completes_shutdown_witness :
  ∃ s' v' q', rtc task_step s_stopping s' ∧
    (t_pc <$> tasks s' !! t0) = Some PExited ∧
    heap s' !! 100 = Some v' ∧ vm_status v' = Stopped ∧
    queue s' !! 1 = Some q' ∧ running_halting_vcpu_count q' = 0 ∧
    running_vm_count s' = wrap64 (running_vm_count s_stopping - 1) ∧
    trace s' = trace s_stopping ++ [EWakeVmm].
Proof.
  apply (last_vcpu_completes_shutdown s_stopping t0
           (mkTask "VM[1]-VCpu[0]" None 100 0 PCheckSuspend false)
           (set_vm_status Stopping vm1) (mkVMVCpus 1 0 [t0] 1));
    vm_compute; reflexivity.
Defined.

(** The race: the second vCPU sees the VM running, the first one leaves as the
    last, then the second marks itself running. *)
Definition s_two : dstate := tstep t0 (CpuUp 1 0x80000 0) s_running.
Definition t1 : Z := fresh ({[t0]} : gset Z).
Definition s_seen : dstate := tsteps t1 [Nothing; Nothing; Nothing] s_two.
Definition s_left : dstate :=
  tsteps t0 [Nothing; Nothing; Nothing; Nothing; Nothing] (stop_vm_by_id 1 false s_seen).2.
Definition s_late : dstate := tsteps t1 [Nothing; Nothing] s_left.

Lemma late_vcpu_keeps_running_witness :
  ∃ s1 s2, vcpu_step t1 (exit_with Nothing) s_late = (Ok (), s1) ∧
           vcpu_step t1 (exit_with Nothing) s1 = (Ok (), s2) ∧
           tasks s2 !! t1 = Some (mkTask "VM[1]-VCpu[1]" None 100 1 PRun false) ∧
           heap s2 = heap s_late.
Proof.
  apply (late_vcpu_keeps_running s_late t1
           (mkTask "VM[1]-VCpu[1]" None 100 1 PCheckSuspend false) (set_vm_status Stopped vm1));
    vm_compute; reflexivity.
Defined.

(** The VM is started again while its second vCPU still runs: the new counter does not
    count it, and stands at one with two tasks in the loop. *)
Definition s_again : dstate := (start_vm_by_id 1 s_late).2.
Definition t2 : Z := fresh ({[t0; t1]} : gset Z).
Definition s_twice : dstate := tsteps t2 [Nothing; Nothing; Nothing; Nothing] s_again.

Lemma restart_miscounts :
  base_after_start 1 s_late {[1 := 0]} = {[1 := 1]} ∧
  running_halting_vcpu_count <$> queue s_twice !! 1 = Some 1 ∧ size (loop_tasks s_twice 1) = 2%nat.
Proof. split_and!; vm_compute; reflexivity. Qed.

Lemma refused_commands_change_nothing_witness :
  ∃ o, start_vm_by_id 1 s_stopping = (Ok (), with_out o s_stopping).
Proof.
  assert (Hl : vms s_stopping !! 1 = Some 100) by (vm_compute; reflexivity).
  assert (Hv : heap s_stopping !! 100 = Some (set_vm_status Stopping vm1))
    by (vm_compute; reflexivity).
  destruct (refused_commands_change_nothing s_stopping 1 false) as [H _].
  destruct (H 100 (set_vm_status Stopping vm1) "VM is stopping, wait for it to fully stop" Hl Hv) as [Hs _].
  exact (Hs eq_refl).
Defined.
End VmExamples.
