(* ===== verification/Console.v ===== *)
(** * The line editor of the shell
      ([kernel/src/shell/mod.rs], [kernel/src/shell/command/history.rs])

    [console_step] is one round of the loop of [console_init] on one byte of
    input: the edit buffer with its cursor, the escape sequences of the arrow
    keys and the command history.  What a round does outside is a list of
    actions: text written, and a finished line to run. *)

From Stdlib Require Import Ascii String.
From S2P Require Import Prelude RustStr.

Definition MAX_LINE_LEN : nat := 256.

(** ** Command history *)
Record CommandHistory : Type := mkHistory {
  history : list string;
  current_index : nat;
  max_size : nat;
}.

Definition history_new (n : nat) : CommandHistory := mkHistory [] 0 n.

Definition add_command (cmd : string) (h : CommandHistory) : CommandHistory :=
  let l :=
    if negb (str_is_empty (trim cmd)) && negb (bool_decide (last (history h) = Some cmd)) then
      (if bool_decide (max_size h ≤ length (history h))%nat then tail (history h) else history h)
      ++ [cmd]
    else history h in
  mkHistory l (length l) (max_size h).

Definition previous (h : CommandHistory) : option string * CommandHistory :=
  match current_index h with
  | S i => (history h !! i, mkHistory (history h) i (max_size h))
  | O => (None, h)
  end.

Definition next (h : CommandHistory) : option string * CommandHistory :=
  if bool_decide (current_index h < length (history h))%nat then
    let i := S (current_index h) in
    let h' := mkHistory (history h) i (max_size h) in
    if bool_decide (i < length (history h))%nat then (history h !! i, h') else (None, h')
  else (None, h).

(** ** The terminal *)
Definition esc_code (s : string) : string := of_bytes [27] +:+ s.

(** [clear_line_and_redraw]. *)
Definition redraw (prompt content : string) (cursor_pos : nat) : string :=
  of_bytes [13] +:+ esc_code "[2K" +:+ prompt +:+ content +:+
  (if bool_decide (cursor_pos < String.length content)%nat
   then esc_code ("[" +:+ pretty (String.length content - cursor_pos)%nat +:+ "D") else "").

Inductive InputState : Type := Normal | Escape | EscapeSeq.

Inductive action : Type :=
| Write (text : string)
| Run (cmd_str line : string)
| Prompt.

(** The buffer is an array of [MAX_LINE_LEN] bytes. *)
Record console : Type := mkConsole {
  buf : list ascii;
  cursor : nat;
  line_len : nat;
  input_state : InputState;
  hist : CommandHistory;
}.

Definition zero : ascii := "000"%char.

Definition console_new : console :=
  mkConsole (replicate MAX_LINE_LEN zero) 0 0 Normal (history_new 100).

(** Array accesses; an index out of range panics. *)
Definition panics : Type := Empty_set.

Definition arr_get (l : list ascii) (i : nat) : outcome panics ascii := unwrap (l !! i).

Definition arr_set (l : list ascii) (i : nat) (a : ascii) : outcome panics (list ascii) :=
  if bool_decide (i < length l)%nat then Ok (<[i := a]> l) else Panic.

(** [buf[..n]] and [buf[..n].fill(0)]. *)
Definition slice_to (l : list ascii) (n : nat) : outcome panics (list ascii) :=
  if bool_decide (n ≤ length l)%nat then Ok (take n l) else Panic.

Definition fill_zero (l : list ascii) (n : nat) : outcome panics (list ascii) :=
  if bool_decide (n ≤ length l)%nat then Ok (replicate n zero ++ drop n l) else Panic.

(** [for i in from..from + n { buf[i - 1] = buf[i]; }]. *)
Fixpoint shift_left (l : list ascii) (from n : nat) : outcome panics (list ascii) :=
  match n with
  | O => Ok l
  | S n =>
      x ← arr_get l from;
      l ← (if bool_decide (from = 0)%nat then Panic else arr_set l (from - 1) x);
      shift_left l (S from) n
  end.

(** [for i in (from..from + n).rev() { buf[i + 1] = buf[i]; }]. *)
Fixpoint shift_right (l : list ascii) (from n : nat) : outcome panics (list ascii) :=
  match n with
  | O => Ok l
  | S n =>
      x ← arr_get l (from + n);
      l ← arr_set l (from + n + 1) x;
      shift_right l from n
  end.

(** [std::str::from_utf8(&buf[..n]).unwrap_or(..)]. *)
Definition text_of (l : list ascii) : string :=
  let s := string_of_list_ascii l in if is_utf8 s then s else "".

Section step.
Context (prompt : string).

Definition set_input_state (i : InputState) (c : console) : console :=
  mkConsole (buf c) (cursor c) (line_len c) i (hist c).

Definition enter (c : console) : outcome panics (console * list action) :=
  if bool_decide (0 < line_len c)%nat then
    line ← slice_to (buf c) (line_len c);
    let cmd_str := text_of line in
    let h := add_command cmd_str (hist c) in
    b ← fill_zero (buf c) (line_len c);
    Ok (mkConsole b 0 0 (input_state c) h,
        [Write (of_bytes [10]); Run cmd_str (string_of_list_ascii line); Prompt])
  else Ok (c, [Write (of_bytes [10]); Prompt]).

Definition backspace (c : console) : outcome panics (console * list action) :=
  if bool_decide (0 < cursor c)%nat then
    b ← shift_left (buf c) (cursor c) (line_len c - cursor c);
    let cur := (cursor c - 1)%nat in
    let len := (line_len c - 1)%nat in
    b ← (if bool_decide (len < length b)%nat then arr_set b len zero else Ok b);
    line ← slice_to b len;
    Ok (mkConsole b cur len (input_state c) (hist c), [Write (redraw prompt (text_of line) cur)])
  else Ok (c, []).

Definition insert_char (a : ascii) (c : console) : outcome panics (console * list action) :=
  if bool_decide (line_len c < MAX_LINE_LEN - 1)%nat then
    b ← shift_right (buf c) (cursor c) (line_len c - cursor c);
    b ← arr_set b (cursor c) a;
    let cur := S (cursor c) in
    let len := S (line_len c) in
    line ← slice_to b len;
    Ok (mkConsole b cur len (input_state c) (hist c), [Write (redraw prompt (text_of line) cur)])
  else Ok (c, []).

Definition normal (ch : ascii) (c : console) : outcome panics (console * list action) :=
  let b := byte_of ch in
  if bool_decide (b = 13) || bool_decide (b = 10) then enter c
  else if bool_decide (b = 8) || bool_decide (b = 127) then backspace c
  else if bool_decide (b = 27) then Ok (set_input_state Escape c, [])
  else if bool_decide (0 ≤ b ≤ 31) then Ok (c, [])
  else insert_char ch c.

(** A history entry replaces the line. *)
Definition recall (cmd : string) (h : CommandHistory) (c : console)
  : outcome panics (console * list action) :=
  b ← fill_zero (buf c) (line_len c);
  let bytes := list_ascii_of_string cmd in
  let copy_len := Nat.min (length bytes) (MAX_LINE_LEN - 1) in
  src ← slice_to bytes copy_len;
  b ← (if bool_decide (copy_len ≤ length b)%nat then Ok (src ++ drop copy_len b) else Panic);
  Ok (mkConsole b copy_len copy_len Normal h, [Write (redraw prompt cmd copy_len)]).

Definition escape_seq (ch : ascii) (c : console) : outcome panics (console * list action) :=
  if bool_decide (ch = "A"%char) then
    let '(cmd, h) := previous (hist c) in
    match cmd with
    | Some cmd => recall cmd h c
    | None => Ok (mkConsole (buf c) (cursor c) (line_len c) Normal h, [])
    end
  else if bool_decide (ch = "B"%char) then
    let '(cmd, h) := next (hist c) in
    match cmd with
    | Some cmd => recall cmd h c
    | None =>
        b ← fill_zero (buf c) (line_len c);
        Ok (mkConsole b 0 0 Normal h, [Write (redraw prompt "" 0)])
    end
  else if bool_decide (ch = "C"%char) then
    if bool_decide (cursor c < line_len c)%nat then
      Ok (mkConsole (buf c) (S (cursor c)) (line_len c) Normal (hist c), [Write (esc_code "[C")])
    else Ok (set_input_state Normal c, [])
  else if bool_decide (ch = "D"%char) then
    if bool_decide (0 < cursor c)%nat then
      Ok (mkConsole (buf c) (cursor c - 1) (line_len c) Normal (hist c), [Write (esc_code "[D")])
    else Ok (set_input_state Normal c, [])
  else Ok (set_input_state Normal c, []).

(** One byte of input. *)
Definition console_step (c : console) (ch : ascii) : outcome panics (console * list action) :=
  match input_state c with
  | Normal => normal ch c
  | Escape => Ok (set_input_state (if bool_decide (ch = "["%char) then EscapeSeq else Normal) c, [])
  | EscapeSeq => escape_seq ch c
  end.
End step.

(** ** The editor as the user sees it

    The line is the text left and right of the cursor. *)
Record editor : Type := mkEditor {
  left_text : list ascii;
  right_text : list ascii;
  mode : InputState;
  ehist : CommandHistory;
}.

Section spec.
Context (prompt : string).

Definition draw (l r : list ascii) : action :=
  Write (redraw prompt (text_of (l ++ r)) (length l)).

Definition recall_spec (cmd : string) (h : CommandHistory) : editor * list action :=
  let l := take (MAX_LINE_LEN - 1) (list_ascii_of_string cmd) in
  (mkEditor l [] Normal h, [Write (redraw prompt cmd (length l))]).

Definition edit_normal (e : editor) (ch : ascii) : editor * list action :=
  let b := byte_of ch in
  let '(mkEditor l r m h) := e in
  if bool_decide (b = 13) || bool_decide (b = 10) then
    match l ++ r with
    | [] => (e, [Write (of_bytes [10]); Prompt])
    | line =>
        (mkEditor [] [] m (add_command (text_of line) h),
         [Write (of_bytes [10]); Run (text_of line) (string_of_list_ascii line); Prompt])
    end
  else if bool_decide (b = 8) || bool_decide (b = 127) then
    match l with
    | [] => (e, [])
    | _ => (mkEditor (removelast l) r m h, [draw (removelast l) r])
    end
  else if bool_decide (b = 27) then (mkEditor l r Escape h, [])
  else if bool_decide (0 ≤ b ≤ 31) then (e, [])
  else if bool_decide (length l + length r < MAX_LINE_LEN - 1)%nat then
    (mkEditor (l ++ [ch]) r m h, [draw (l ++ [ch]) r])
  else (e, []).

Definition edit_escape_seq (e : editor) (ch : ascii) : editor * list action :=
  let '(mkEditor l r m h) := e in
  if bool_decide (ch = "A"%char) then
    match previous h with
    | (Some cmd, h') => recall_spec cmd h'
    | (None, h') => (mkEditor l r Normal h', [])
    end
  else if bool_decide (ch = "B"%char) then
    match next h with
    | (Some cmd, h') => recall_spec cmd h'
    | (None, h') => (mkEditor [] [] Normal h', [Write (redraw prompt "" 0)])
    end
  else if bool_decide (ch = "C"%char) then
    match r with
    | a :: r => (mkEditor (l ++ [a]) r Normal h, [Write (esc_code "[C")])
    | [] => (mkEditor l r Normal h, [])
    end
  else if bool_decide (ch = "D"%char) then
    match last l with
    | Some a => (mkEditor (removelast l) (a :: r) Normal h, [Write (esc_code "[D")])
    | None => (mkEditor l r Normal h, [])
    end
  else (mkEditor l r Normal h, []).

Definition edit_step (e : editor) (ch : ascii) : editor * list action :=
  match mode e with
  | Normal => edit_normal e ch
  | Escape =>
      (mkEditor (left_text e) (right_text e)
         (if bool_decide (ch = "["%char) then EscapeSeq else Normal) (ehist e), [])
  | EscapeSeq => edit_escape_seq e ch
  end.
End spec.

(** ** The buffer implements the editor *)

Record console_ok (c : console) : Prop := {
  ok_buf : length (buf c) = MAX_LINE_LEN;
  ok_cursor : (cursor c ≤ line_len c)%nat;
  ok_len : (line_len c ≤ MAX_LINE_LEN - 1)%nat;
  ok_zero i : (line_len c ≤ i < MAX_LINE_LEN)%nat → buf c !! i = Some zero;
  ok_index : (current_index (hist c) ≤ length (history (hist c)))%nat;
  ok_hist : (length (history (hist c)) ≤ max_size (hist c))%nat;
  ok_max : (0 < max_size (hist c))%nat;
}.

Definition abs (c : console) : editor :=
  mkEditor (take (cursor c) (buf c)) (take (line_len c - cursor c) (drop (cursor c) (buf c)))
    (input_state c) (hist c).

Lemma take_ext {A} n (l k : list A) :
  (∀ i, (i < n)%nat → l !! i = k !! i) → take n l = take n k.
Proof.
  intros H. apply list_eq. intros i. destruct (decide (i < n)%nat).
  - rewrite !lookup_take_lt by done. auto.
  - by rewrite !lookup_take_ge by lia.
Qed.

Lemma abs_line c : console_ok c → left_text (abs c) ++ right_text (abs c) = take (line_len c) (buf c).
Proof.
  intros []. simpl. rewrite take_take_drop. f_equal. lia.
Qed.

Lemma arr_set_ok l i a : (i < length l)%nat → arr_set l i a = Ok (<[i := a]> l).
Proof. intros. unfold arr_set. by rewrite bool_decide_true. Qed.

Lemma slice_to_ok l n : (n ≤ length l)%nat → slice_to l n = Ok (take n l).
Proof. intros. unfold slice_to. by rewrite bool_decide_true. Qed.

(** What the shifting loops leave, index by index. *)
Lemma shift_left_spec l from n :
  (0 < from)%nat → (from + n ≤ length l)%nat →
  ∃ l', shift_left l from n = Ok l' ∧ length l' = length l ∧
        ∀ i, l' !! i = if decide (from - 1 ≤ i < from - 1 + n)%nat then l !! S i else l !! i.
Proof.
  revert l from. induction n as [|n IH]; intros l from Hf Hl; simpl.
  { exists l. split_and!; try done. intros i. rewrite decide_False by lia. done. }
  destruct (lookup_lt_is_Some_2 l from) as [x Hx]; [lia|]. unfold arr_get. rewrite Hx. simpl.
  rewrite bool_decide_false by lia. rewrite arr_set_ok by lia. simpl.
  destruct (IH (<[(from - 1)%nat := x]> l) (S from)) as (l' & He & Hlen & Hi);
    [lia|rewrite length_insert; lia|].
  exists l'. rewrite length_insert in Hlen. split_and!; try done.
  intros i. rewrite Hi. destruct (decide (i = from - 1)%nat) as [->|Hne].
  - rewrite decide_False, decide_True by lia. rewrite list_lookup_insert_eq by lia.
    by replace (S (from - 1)) with from by lia.
  - repeat case_decide; try lia; by rewrite list_lookup_insert_ne by lia.
Qed.

Lemma shift_right_spec l from n :
  (from + n < length l)%nat →
  ∃ l', shift_right l from n = Ok l' ∧ length l' = length l ∧
        ∀ i, l' !! i = if decide (from < i ≤ from + n)%nat then l !! (i - 1)%nat else l !! i.
Proof.
  revert l. induction n as [|n IH]; intros l Hl; simpl.
  { exists l. split_and!; try done. intros i. rewrite decide_False by lia. done. }
  destruct (lookup_lt_is_Some_2 l (from + n)) as [x Hx]; [lia|]. unfold arr_get. rewrite Hx. simpl.
  rewrite arr_set_ok by lia. simpl.
  destruct (IH (<[(from + n + 1)%nat := x]> l)) as (l' & He & Hlen & Hi);
    [rewrite length_insert; lia|].
  exists l'. rewrite length_insert in Hlen. split_and!; try done.
  intros i. rewrite Hi. destruct (decide (i = from + n + 1)%nat) as [->|Hne].
  - rewrite decide_False, decide_True by lia. rewrite list_lookup_insert_eq by lia.
    by replace (from + n + 1 - 1)%nat with (from + n)%nat by lia.
  - repeat case_decide; try lia; by rewrite list_lookup_insert_ne by lia.
Qed.

Section refinement.
Context (prompt : string).

(** The outcome [r] of a round is that of the editor. *)
Definition implements (r : outcome panics (console * list action)) (x : editor * list action)
  : Prop := ∃ c acts, r = Ok (c, acts) ∧ console_ok c ∧ x = (abs c, acts).

Lemma insert_char_refines c ch :
  console_ok c → (line_len c < MAX_LINE_LEN - 1)%nat →
  implements (insert_char prompt ch c)
    (let l := left_text (abs c) ++ [ch] in
     (mkEditor l (right_text (abs c)) (input_state c) (hist c), [draw prompt l (right_text (abs c))])).
Proof.
  intros Hok Hlt. pose proof Hok as [Hb Hc Hl Hz Hi Hh Hm]. unfold insert_char.
  rewrite bool_decide_true by done.
  destruct (shift_right_spec (buf c) (cursor c) (line_len c - cursor c)) as (b & -> & Hlen & Hb');
    [lia|]. orun. rewrite arr_set_ok by lia. orun.
  set (b' := <[cursor c := ch]> b).
  assert (Hb2 : ∀ i, b' !! i = if decide (i = cursor c) then Some ch
                               else if decide (cursor c < i ≤ line_len c)%nat
                                    then buf c !! (i - 1)%nat else buf c !! i).
  { intros i. unfold b'. case_decide as Hd; [subst; by rewrite list_lookup_insert_eq by lia|].
    rewrite list_lookup_insert_ne by done. rewrite Hb'.
    repeat case_decide; try lia; done. }
  assert (Hlen' : length b' = MAX_LINE_LEN) by (unfold b'; rewrite length_insert; lia).
  rewrite slice_to_ok by lia. orun.
  set (c' := mkConsole b' (S (cursor c)) (S (line_len c)) (input_state c) (hist c)).
  assert (Hok' : console_ok c').
  { split; unfold c'; cbn [buf cursor line_len hist]; try done; try lia.
    intros i Hr. rewrite Hb2.
    rewrite decide_False, decide_False by lia. apply Hz. lia. }
  assert (Hleft : left_text (abs c') = left_text (abs c) ++ [ch]).
  { simpl. rewrite (take_S_r b' (cursor c) ch) by (rewrite Hb2; by rewrite decide_True).
    f_equal. apply take_ext. intros i Hr. rewrite Hb2. rewrite !decide_False by lia. done. }
  assert (Hright : right_text (abs c') = right_text (abs c)).
  { change (take (line_len c - cursor c) (drop (S (cursor c)) b') =
            take (line_len c - cursor c) (drop (cursor c) (buf c))).
    apply take_ext. intros i Hr.
    rewrite !lookup_drop, Hb2. rewrite decide_False, decide_True by lia. f_equal. lia. }
  eexists c', _. split; [done|]. split; [done|].
  unfold draw. rewrite <-Hleft, <-Hright, (abs_line _ Hok').
  f_equal. do 3 f_equal. simpl. rewrite length_take. lia.
Qed.

Lemma removelast_take {A} n (l : list A) :
  (n < length l)%nat → removelast (take (S n) l) = take n l.
Proof.
  intros Hn. destruct (lookup_lt_is_Some_2 l n Hn) as [x Hx].
  rewrite (take_S_r l n x Hx). apply removelast_last.
Qed.

Lemma backspace_refines c :
  console_ok c → (0 < cursor c)%nat →
  implements (backspace prompt c)
    (let l := removelast (left_text (abs c)) in
     (mkEditor l (right_text (abs c)) (input_state c) (hist c), [draw prompt l (right_text (abs c))])).
Proof.
  intros Hok Hlt. pose proof Hok as [Hb Hc Hl Hz Hi Hh Hm]. unfold backspace.
  rewrite bool_decide_true by done.
  destruct (shift_left_spec (buf c) (cursor c) (line_len c - cursor c)) as (b & -> & Hlen & Hb');
    [lia..|]. orun. rewrite bool_decide_true by (unfold MAX_LINE_LEN in *; lia).
  rewrite arr_set_ok by (unfold MAX_LINE_LEN in *; lia). orun.
  set (b' := <[(line_len c - 1)%nat := zero]> b).
  assert (Hb2 : ∀ i, b' !! i = if decide (i = line_len c - 1)%nat then Some zero
                               else if decide (cursor c - 1 ≤ i < line_len c - 1)%nat
                                    then buf c !! S i else buf c !! i).
  { intros i. unfold b'. case_decide as Hd.
    - subst i. rewrite list_lookup_insert_eq; [done|unfold MAX_LINE_LEN in *; lia].
    - rewrite list_lookup_insert_ne by done. rewrite Hb'. repeat case_decide; try lia; done. }
  assert (Hlen' : length b' = MAX_LINE_LEN) by (unfold b'; rewrite length_insert; lia).
  rewrite slice_to_ok by lia. orun.
  set (c' := mkConsole b' (cursor c - 1) (line_len c - 1) (input_state c) (hist c)).
  assert (Hok' : console_ok c').
  { split; unfold c'; cbn [buf cursor line_len hist]; try done; try lia.
    intros i Hr. rewrite Hb2.
    case_decide; [done|]. rewrite decide_False by lia. apply Hz. lia. }
  assert (Hleft : left_text (abs c') = removelast (left_text (abs c))).
  { simpl. destruct (cursor c) as [|k] eqn:Hk; [lia|]. simpl.
    rewrite removelast_take by (unfold MAX_LINE_LEN in *; lia). rewrite Nat.sub_0_r.
    apply take_ext. intros i Hr. rewrite Hb2. rewrite !decide_False by lia. done. }
  assert (Hright : right_text (abs c') = right_text (abs c)).
  { simpl. replace (line_len c - 1 - (cursor c - 1))%nat with (line_len c - cursor c)%nat by lia.
    apply take_ext. intros i Hr.
    rewrite !lookup_drop, Hb2. rewrite decide_False, decide_True by lia. f_equal. lia. }
  eexists c', _. split; [done|]. split; [done|].
  unfold draw. rewrite <-Hleft, <-Hright, (abs_line _ Hok').
  f_equal. do 3 f_equal. simpl. rewrite length_take. lia.
Qed.

Lemma fill_zero_ok l n : (n ≤ length l)%nat → fill_zero l n = Ok (replicate n zero ++ drop n l).
Proof. intros. unfold fill_zero. by rewrite bool_decide_true. Qed.

Lemma fill_zero_all c i :
  console_ok c → (i < MAX_LINE_LEN)%nat →
  (replicate (line_len c) zero ++ drop (line_len c) (buf c)) !! i = Some zero.
Proof.
  intros [Hb Hc Hl Hz Hi Hh Hm] Hlt. destruct (decide (i < line_len c)%nat).
  - rewrite lookup_app_l by (rewrite length_replicate; lia). by apply lookup_replicate_2.
  - rewrite lookup_app_r by (rewrite length_replicate; lia).
    rewrite length_replicate, lookup_drop. apply Hz. lia.
Qed.

Lemma fill_zero_length c :
  console_ok c → length (replicate (line_len c) zero ++ drop (line_len c) (buf c)) = MAX_LINE_LEN.
Proof.
  intros [Hb Hc Hl Hz Hi Hh Hm]. rewrite length_app, length_replicate, length_drop.
  unfold MAX_LINE_LEN in *. lia.
Qed.

Lemma add_command_ok cmd h :
  (length (history h) ≤ max_size h)%nat → (0 < max_size h)%nat →
  (current_index (add_command cmd h) ≤ length (history (add_command cmd h)))%nat ∧
  (length (history (add_command cmd h)) ≤ max_size (add_command cmd h))%nat ∧
  max_size (add_command cmd h) = max_size h.
Proof.
  intros Hl Hm. unfold add_command. simpl. split; [done|]. split; [|done].
  destruct (_ && _); [|done]. rewrite length_app. simpl.
  case_bool_decide; [|lia]. destruct (history h); simpl in *; lia.
Qed.

(** An empty line with a history. *)
Lemma reset_ok c h m :
  console_ok c → (current_index h ≤ length (history h))%nat →
  (length (history h) ≤ max_size h)%nat → (0 < max_size h)%nat →
  console_ok (mkConsole (replicate (line_len c) zero ++ drop (line_len c) (buf c)) 0 0 m h).
Proof.
  intros Hok ???. split; cbn [buf cursor line_len hist]; try done; [by apply fill_zero_length|lia|].
  intros i Hi. apply fill_zero_all; [done|lia].
Qed.

Lemma recall_refines cmd h c :
  console_ok c → (current_index h ≤ length (history h))%nat →
  (length (history h) ≤ max_size h)%nat → (0 < max_size h)%nat →
  implements (recall prompt cmd h c) (recall_spec prompt cmd h).
Proof.
  intros Hok ???. pose proof Hok as [Hb Hc Hl Hz Hi Hh Hm]. unfold recall.
  rewrite fill_zero_ok by (unfold MAX_LINE_LEN in *; lia). orun.
  set (bytes := list_ascii_of_string cmd).
  set (n := Nat.min (length bytes) (MAX_LINE_LEN - 1)).
  rewrite slice_to_ok by lia. orun. pose proof (fill_zero_length c Hok) as Hfl.
  rewrite bool_decide_true by lia. orun.
  set (z := replicate _ _ ++ _) in *.
  assert (Hn : length (take n bytes) = n) by (rewrite length_take; lia).
  set (c' := mkConsole (take n bytes ++ drop n z) n n Normal h).
  assert (Hok' : console_ok c').
  { split; unfold c'; cbn [buf cursor line_len hist]; try done; try lia.
    - rewrite length_app, length_drop, Hn, Hfl. unfold MAX_LINE_LEN in *. lia.
    - intros i Hr. rewrite lookup_app_r by lia. rewrite Hn, lookup_drop.
      apply fill_zero_all; [done|lia]. }
  assert (Hl' : take (MAX_LINE_LEN - 1) bytes = take n bytes).
  { unfold n. destruct (decide (length bytes ≤ MAX_LINE_LEN - 1)%nat).
    - by rewrite !take_ge by lia.
    - by rewrite Nat.min_r by lia. }
  assert (Habs : abs c' = mkEditor (take n bytes) [] Normal h).
  { unfold abs, c'. cbn [buf cursor line_len hist input_state].
    rewrite Nat.sub_diag. rewrite take_app_le, take_take, Nat.min_id by lia. done. }
  eexists c', _. split; [done|]. split; [done|]. unfold recall_spec. cbv zeta.
  fold bytes. by rewrite Hl', Habs, Hn.
Qed.

Lemma abs_lengths c :
  console_ok c → length (left_text (abs c)) = cursor c ∧
  length (right_text (abs c)) = (line_len c - cursor c)%nat.
Proof.
  intros [Hb Hc Hl Hz Hi Hh Hm]. simpl. rewrite !length_take, length_drop.
  unfold MAX_LINE_LEN in *. lia.
Qed.

Lemma same_refines c acts : console_ok c → implements (Ok (c, acts)) (abs c, acts).
Proof. intros Hok. by exists c, acts. Qed.

Lemma mode_ok c m : console_ok c → console_ok (set_input_state m c).
Proof. intros []. by split. Qed.

Lemma enter_refines c :
  console_ok c →
  implements (enter c)
    (match left_text (abs c) ++ right_text (abs c) with
     | [] => (abs c, [Write (of_bytes [10]); Prompt])
     | line =>
         (mkEditor [] [] (input_state c) (add_command (text_of line) (hist c)),
          [Write (of_bytes [10]); Run (text_of line) (string_of_list_ascii line); Prompt])
     end).
Proof.
  intros Hok. pose proof Hok as [Hb Hc Hl Hz Hi Hh Hm]. rewrite (abs_line c Hok). unfold enter.
  case_bool_decide as Hlt.
  - rewrite slice_to_ok, fill_zero_ok by (unfold MAX_LINE_LEN in *; lia). orun.
    destruct (take (line_len c) (buf c)) as [|a line] eqn:Ht.
    { apply (f_equal length) in Ht. rewrite length_take in Ht. simpl in Ht.
      unfold MAX_LINE_LEN in *. lia. }
    destruct (add_command_ok (text_of (a :: line)) (hist c) Hh Hm) as (H1 & H2 & H3).
    eexists _, _. split; [done|]. split; [apply reset_ok; [done..|]; lia|]. done.
  - assert (line_len c = 0%nat) as -> by lia. rewrite take_0. by apply same_refines.
Qed.

Lemma previous_ok h :
  (current_index h ≤ length (history h))%nat →
  (current_index (previous h).2 ≤ length (history h))%nat ∧
  history (previous h).2 = history h ∧ max_size (previous h).2 = max_size h.
Proof. unfold previous. destruct (current_index h) eqn:E; simpl; rewrite ?E; intros; split_and!; done || lia. Qed.

Lemma next_ok h :
  (current_index h ≤ length (history h))%nat →
  (current_index (next h).2 ≤ length (history h))%nat ∧
  history (next h).2 = history h ∧ max_size (next h).2 = max_size h.
Proof. unfold next. intros. repeat case_bool_decide; simpl; split_and!; done || lia. Qed.

(** Moving the cursor over one character. *)
Lemma move_right c :
  console_ok c → (cursor c < line_len c)%nat →
  ∃ a r, right_text (abs c) = a :: r ∧
    abs (mkConsole (buf c) (S (cursor c)) (line_len c) Normal (hist c))
    = mkEditor (left_text (abs c) ++ [a]) r Normal (hist c).
Proof.
  intros [Hb Hc Hl Hz Hi Hh Hm] Hlt.
  destruct (lookup_lt_is_Some_2 (buf c) (cursor c)) as [a Ha]; [unfold MAX_LINE_LEN in *; lia|].
  exists a, (take (line_len c - S (cursor c)) (drop (S (cursor c)) (buf c))).
  unfold abs. cbn [buf cursor line_len hist left_text right_text].
  rewrite (drop_S _ _ _ Ha), (take_S_r _ _ _ Ha).
  replace (line_len c - cursor c)%nat with (S (line_len c - S (cursor c))) by lia. done.
Qed.

Lemma move_left c k :
  console_ok c → cursor c = S k →
  ∃ a, last (left_text (abs c)) = Some a ∧
    abs (mkConsole (buf c) (cursor c - 1) (line_len c) Normal (hist c))
    = mkEditor (removelast (left_text (abs c))) (a :: right_text (abs c)) Normal (hist c).
Proof.
  intros [Hb Hc Hl Hz Hi Hh Hm] Hk.
  destruct (lookup_lt_is_Some_2 (buf c) k) as [a Ha]; [unfold MAX_LINE_LEN in *; lia|].
  exists a. unfold abs. cbn [buf cursor line_len hist left_text right_text].
  rewrite Hk, (take_S_r _ _ _ Ha), last_snoc, removelast_last. split; [done|].
  replace (S k - 1)%nat with k by lia. f_equal.
  rewrite (drop_S _ _ _ Ha). by replace (line_len c - k)%nat with (S (line_len c - S k)) by lia.
Qed.

Lemma normal_refines c ch :
  console_ok c → input_state c = Normal → implements (normal prompt ch c) (edit_normal prompt (abs c) ch).
Proof.
  intros Hok Hm. pose proof (abs_lengths c Hok) as [Hll Hrl].
  pose proof (ok_cursor _ Hok) as Hc. unfold normal, edit_normal.
  assert (He : abs c = mkEditor (left_text (abs c)) (right_text (abs c)) (input_state c) (hist c))
    by done.
  rewrite He. cbv zeta. destruct (_ || _); [by apply enter_refines|].
  destruct (_ || _).
  { destruct (decide (0 < cursor c)%nat) as [Hlt|Hlt].
    - destruct (left_text (abs c)) eqn:E; [simpl in Hll; lia|]. rewrite <-E.
      by apply backspace_refines.
    - destruct (left_text (abs c)) eqn:E; [|simpl in Hll; lia].
      unfold backspace. rewrite bool_decide_false by done. rewrite <-E. by apply same_refines. }
  case_bool_decide.
  { eexists (set_input_state Escape c), []. split; [done|]. by split; [apply mode_ok|]. }
  case_bool_decide; [by apply same_refines|]. rewrite Hll, Hrl.
  replace (cursor c + (line_len c - cursor c))%nat with (line_len c) by lia.
  case_bool_decide; [by apply insert_char_refines|].
  unfold insert_char. rewrite bool_decide_false by done. by apply same_refines.
Qed.

Lemma escape_seq_refines c ch :
  console_ok c → implements (escape_seq prompt ch c) (edit_escape_seq prompt (abs c) ch).
Proof.
  intros Hok. pose proof Hok as [Hb Hc Hl Hz Hi Hh Hm].
  pose proof (abs_lengths c Hok) as [Hll Hrl]. unfold escape_seq, edit_escape_seq.
  assert (He : abs c = mkEditor (left_text (abs c)) (right_text (abs c)) (input_state c) (hist c))
    by done.
  rewrite He.
  assert (Hstay : implements (Ok (set_input_state Normal c, []))
                    (mkEditor (left_text (abs c)) (right_text (abs c)) Normal (hist c), [])).
  { exists (set_input_state Normal c), []. by split_and!; [|apply mode_ok|]. }
  case_bool_decide.
  { pose proof (previous_ok (hist c) Hi) as (H1 & H2 & H3).
    destruct (previous (hist c)) as [[cmd|] h]; simpl in *.
    - apply recall_refines; [done|rewrite ?H2, ?H3; lia..].
    - eexists (mkConsole _ _ _ Normal h), []. split_and!; [done| |done].
      split; simpl; rewrite ?H2, ?H3; done || lia. }
  case_bool_decide.
  { pose proof (next_ok (hist c) Hi) as (H1 & H2 & H3).
    destruct (next (hist c)) as [[cmd|] h]; simpl in *.
    - apply recall_refines; [done|rewrite ?H2, ?H3; lia..].
    - rewrite fill_zero_ok by (unfold MAX_LINE_LEN in *; lia). orun.
      eexists _, _. split; [done|]. split; [apply reset_ok; [done|rewrite ?H2, ?H3; lia..]|done]. }
  case_bool_decide.
  { case_bool_decide as Hlt.
    - destruct (move_right c Hok Hlt) as (a & r & -> & Habs).
      eexists _, _. split_and!; [done| |by rewrite Habs]. split; simpl; done || lia.
    - destruct (right_text (abs c)); [done|simpl in Hrl; lia]. }
  case_bool_decide; [|done].
  case_bool_decide as Hlt.
  - destruct (cursor c) as [|k] eqn:Hk; [lia|]. rewrite <-Hk.
    destruct (move_left c k Hok Hk) as (a & -> & Habs).
    eexists _, _. split_and!; [done| |by rewrite Habs]. split; simpl; done || lia.
  - destruct (left_text (abs c)); [done|simpl in Hll; lia].
Qed.

Lemma step_refines c ch :
  console_ok c → implements (console_step prompt c ch) (edit_step prompt (abs c) ch).
Proof.
  intros Hok. unfold console_step, edit_step. change (mode (abs c)) with (input_state c).
  destruct (input_state c) eqn:Hm.
  - by apply normal_refines.
  - eexists (set_input_state _ c), []. by split_and!; [|apply mode_ok|].
  - by apply escape_seq_refines.
Qed.

Lemma console_new_ok : console_ok console_new.
Proof.
  split; cbn [buf cursor line_len hist console_new]; try (simpl; lia).
  - apply length_replicate.
  - intros i Hi. apply lookup_replicate_2. lia.
Qed.

(** The loop over the bytes of the input, and the editor on the same bytes. *)
Fixpoint console_run (c : console) (input : list ascii) : outcome panics (console * list action) :=
  match input with
  | [] => Ok (c, [])
  | ch :: input =>
      '(c, acts) ← console_step prompt c ch;
      '(c, acts') ← console_run c input;
      Ok (c, acts ++ acts')
  end.

Fixpoint edit_run (e : editor) (input : list ascii) : editor * list action :=
  match input with
  | [] => (e, [])
  | ch :: input =>
      let '(e, acts) := edit_step prompt e ch in
      let '(e, acts') := edit_run e input in
      (e, acts ++ acts')
  end.

Lemma run_refines input c :
  console_ok c → implements (console_run c input) (edit_run (abs c) input).
Proof.
  revert c. induction input as [|ch input IH]; intros c Hok; simpl; [by apply same_refines|].
  destruct (step_refines c ch Hok) as (c1 & acts1 & -> & Hok1 & ->). orun.
  destruct (IH c1 Hok1) as (c2 & acts2 & -> & Hok2 & ->). by eexists c2, _.
Qed.

(** C24: the edit buffer implements the line editor. Whatever bytes are typed, from the
    start of the shell on, no round panics (no index of the buffer or of the
    history is out of range), and the line left and right of the cursor, the
    input mode, the history, and everything that is written to the terminal and
    run as a command are those of the editor. *)
Theorem console_refines_editor input :
  ∃ c acts, console_run console_new input = Ok (c, acts) ∧ console_ok c ∧
            edit_run (mkEditor [] [] Normal (history_new 100)) input = (abs c, acts).
Proof. exact (run_refines input console_new console_new_ok). Qed.
End refinement.
