(* ===== verification/Disk.v ===== *)
(** * Block devices as byte streams ([modules/axfs/src/dev.rs])

    [Disk] is a cursor over a block device, and [Partition] a window of a disk
    with a cursor of its own.  A [Disk] holds its device behind an [Arc], so the
    clones of a disk (one in each mounted partition) share one device: in the
    model a [Disk] is the cursor alone, and the device is the state its
    operations thread.  Buffers are lists of bytes; an operation that fills a
    buffer returns the new contents when it succeeds. *)

From Stdlib Require Import Strings.Byte.
From S2P Require Import Prelude.

(** ** Bytes and slices *)
Definition u8 : Type := Byte.byte.

#[global] Instance u8_eq_dec : EqDecision u8 := Byte.byte_eq_dec.

Definition u8_val (b : u8) : Z := Z.of_N (Byte.to_N b).

(** [n as u8] *)
Definition u8_of (n : Z) : u8 :=
  match Byte.of_N (Z.to_N (n mod 256)) with Some b => b | None => x00 end.

Lemma u8_val_range b : 0 ≤ u8_val b < 256.
Proof. unfold u8_val. pose proof (Byte.to_N_bounded b). lia. Qed.

Lemma u8_val_of n : u8_val (u8_of n) = n mod 256.
Proof.
  unfold u8_val, u8_of. pose proof (Z.mod_pos_bound n 256).
  destruct (Byte.of_N _) eqn:E.
  - apply Byte.to_of_N in E. rewrite E. lia.
  - apply Byte.of_N_None_iff in E. lia.
Qed.

Definition len {A} (l : list A) : Z := Z.of_nat (length l).

(** [sub lo n l]: the [n] elements of [l] from [lo] on. *)
Definition sub {A} (lo n : Z) (l : list A) : list A := take (Z.to_nat n) (drop (Z.to_nat lo) l).

(** [splice lo new l]: [l] with the elements from [lo] on overwritten by [new]. *)
Definition splice {A} (lo : Z) (new l : list A) : list A :=
  take (Z.to_nat lo) l ++ new ++ drop (Z.to_nat lo + length new) l.

(** [&l[lo..hi]] *)
Definition slice {E A} (lo hi : Z) (l : list A) : outcome E (list A) :=
  if bool_decide (0 ≤ lo ≤ hi ∧ hi ≤ len l) then Ok (sub lo (hi - lo) l) else Panic.

(** [l[lo..hi].copy_from_slice(src)]: both ranges must have the same length. *)
Definition copy_from_slice {E A} (lo hi : Z) (src l : list A) : outcome E (list A) :=
  if bool_decide ((0 ≤ lo ≤ hi ∧ hi ≤ len l) ∧ len src = hi - lo) then Ok (splice lo src l)
  else Panic.

(** ** The block device

    [AxBlockDevice] belongs to the driver crates.  Its documentation promises
    that a successful read fills the buffer with the addressed block and leaves
    the medium alone, that a successful write replaces the addressed block, and
    that a failing operation is an error value: a failed read changes nothing,
    a failed write at most the block it addresses. *)
Class BlockDevice (D DevError : Type) : Type := {
  block_size : D → Z;
  num_blocks : D → Z;
  read_block : Z → list u8 → st D DevError (list u8);
  write_block : Z → list u8 → st D DevError ();
}.

Definition same_geometry {D DevError} `{!BlockDevice D DevError} (d d' : D) : Prop :=
  block_size d' = block_size d ∧ num_blocks d' = num_blocks d.

Class BlockDeviceOk (D DevError : Type) `{!BlockDevice D DevError} : Type := {
  dev_bytes : D → list u8;
  num_blocks_nonneg d : 0 ≤ num_blocks d;
  dev_bytes_len d : len (dev_bytes d) = num_blocks d * block_size d;
  dev_bytes_fit d : in_usize (len (dev_bytes d));
  read_block_spec id buf d :
    len buf = block_size d →
    match read_block id buf d with
    | (Ok data, d') =>
        0 ≤ id < num_blocks d ∧ data = sub (id * block_size d) (block_size d) (dev_bytes d) ∧
        dev_bytes d' = dev_bytes d ∧ same_geometry d d'
    | (Err _, d') => dev_bytes d' = dev_bytes d ∧ same_geometry d d'
    | (Panic, _) => False
    end;
  write_block_spec id data d :
    len data = block_size d →
    match write_block id data d with
    | (Ok _, d') =>
        0 ≤ id < num_blocks d ∧ dev_bytes d' = splice (id * block_size d) data (dev_bytes d) ∧
        same_geometry d d'
    | (Err _, d') =>
        same_geometry d d' ∧
        (dev_bytes d' = dev_bytes d ∨
         0 ≤ id < num_blocks d ∧
         ∃ junk, len junk = block_size d ∧
           dev_bytes d' = splice (id * block_size d) junk (dev_bytes d))
    | (Panic, _) => False
    end;
}.

(** A device that serves every block it has, and nothing else. *)
Class BlockDeviceReliable (D DevError : Type)
    `{!BlockDevice D DevError, !BlockDeviceOk D DevError} : Type := {
  read_block_served id buf d :
    len buf = block_size d → 0 ≤ id < num_blocks d → is_ok (read_block id buf d).1 = true;
  write_block_served id data d :
    len data = block_size d → 0 ≤ id < num_blocks d → is_ok (write_block id data d).1 = true;
}.

(** ** [Disk] *)
Definition BLOCK_SIZE : Z := 512.

Record Disk : Type := mkDisk {
  block_id : Z;
  offset : Z;
}.

Section disk.
Context `{OverflowChecks} {D DevError : Type} `{!BlockDevice D DevError}.

(** Code that uses a disk works on the cursor and the device. *)
Definition with_dev {K E A} (m : st D E A) : st (K * D) E A := λ '(k, d),
  let '(r, d') := m d in (r, (k, d')).

Definition get_disk {K E} : st (K * D) E K := gets fst.
Definition set_disk {K E} (k : K) : st (K * D) E () := modify (λ '(_, d), (k, d)).

(** [Disk::new] asserts the block size. *)
Definition disk_new {E} (d : D) : outcome E (Disk * D) :=
  if bool_decide (BLOCK_SIZE = block_size d) then Ok (mkDisk 0 0, d) else Panic.

Definition disk_size {E} : st (Disk * D) E Z :=
  d ← gets snd; lift (usize_mul (num_blocks d) BLOCK_SIZE).

Definition disk_position {E} (k : Disk) : outcome E Z :=
  base ← usize_mul (block_id k) BLOCK_SIZE;
  usize_add base (offset k).

Definition disk_set_position (pos : Z) : Disk :=
  mkDisk (pos / BLOCK_SIZE) (pos mod BLOCK_SIZE).

(** [self.block_id += 1] *)
Definition next_block {E} : st (Disk * D) E () :=
  k ← get_disk;
  id ← lift (usize_add (block_id k) 1);
  set_disk (mkDisk id (offset k)).

(** The end of the partial-block branches: move the cursor by [count]. *)
Definition advance {E} (count : Z) : st (Disk * D) E () :=
  k ← get_disk;
  off ← lift (usize_add (offset k) count);
  set_disk (mkDisk (block_id k) off);;
  if BLOCK_SIZE <=? off then
    next_block;;
    k ← get_disk;
    off ← lift (usize_sub (offset k) BLOCK_SIZE);
    set_disk (mkDisk (block_id k) off)
  else mret tt.

(** Returns the number of bytes read and the buffer. *)
Definition disk_read_one (buf : list u8) : st (Disk * D) DevError (Z * list u8) :=
  k ← get_disk;
  if (offset k =? 0) && (BLOCK_SIZE <=? len buf) then
    block ← lift (slice 0 BLOCK_SIZE buf);
    block ← with_dev (read_block (block_id k) block);
    buf ← lift (copy_from_slice 0 BLOCK_SIZE block buf);
    next_block;;
    mret (BLOCK_SIZE, buf)
  else
    let data := replicate (Z.to_nat BLOCK_SIZE) x00 in
    let start := offset k in
    room ← lift (usize_sub BLOCK_SIZE (offset k));
    let count := len buf `min` room in
    data ← with_dev (read_block (block_id k) data);
    stop ← lift (usize_add start count);
    chunk ← lift (slice start stop data);
    buf ← lift (copy_from_slice 0 count chunk buf);
    advance count;;
    mret (count, buf).

Definition disk_write_one (buf : list u8) : st (Disk * D) DevError Z :=
  k ← get_disk;
  if (offset k =? 0) && (BLOCK_SIZE <=? len buf) then
    block ← lift (slice 0 BLOCK_SIZE buf);
    with_dev (write_block (block_id k) block);;
    next_block;;
    mret BLOCK_SIZE
  else
    let data := replicate (Z.to_nat BLOCK_SIZE) x00 in
    let start := offset k in
    room ← lift (usize_sub BLOCK_SIZE (offset k));
    let count := len buf `min` room in
    data ← with_dev (read_block (block_id k) data);
    stop ← lift (usize_add start count);
    chunk ← lift (slice 0 count buf);
    data ← lift (copy_from_slice start stop chunk data);
    with_dev (write_block (block_id k) data);;
    advance count;;
    mret count.

(** ** [Partition] *)
Record Partition : Type := mkPartition {
  p_disk : Disk;
  start_lba : Z;
  end_lba : Z;
  p_position : Z;
}.

Definition partition_new (k : Disk) (start_lba end_lba : Z) : Partition :=
  mkPartition k start_lba end_lba 0.

Definition partition_size {E} (p : Partition) : outcome E Z :=
  n ← usize_sub (end_lba p) (start_lba p);
  n ← usize_add n 1;
  usize_mul n BLOCK_SIZE.

Definition partition_position (p : Partition) : Z := p_position p.

Definition partition_set_position {E} (pos : Z) (p : Partition) : outcome E Partition :=
  sz ← partition_size p;
  mret (mkPartition (p_disk p) (start_lba p) (end_lba p) (pos `min` sz)).

(** Runs a disk operation on the disk of a partition. *)
Definition on_disk {E A} (m : st (Disk * D) E A) : st (Partition * D) E A := λ '(p, d),
  let '(r, (k, d')) := m (p_disk p, d) in
  (r, (mkPartition k (start_lba p) (end_lba p) (p_position p), d')).

(** [self.position += n] *)
Definition move_position {E} (n : Z) : st (Partition * D) E () :=
  p ← get_disk;
  pos ← lift (usize_add (p_position p) n);
  set_disk (mkPartition (p_disk p) (start_lba p) (end_lba p) pos).

Definition partition_read_one (buf : list u8) : st (Partition * D) DevError (Z * list u8) :=
  p ← get_disk;
  sz ← lift (partition_size p);
  if sz <=? p_position p then mret (0, buf)
  else
    sz ← lift (partition_size p);
    remaining ← lift (usize_sub sz (p_position p));
    let to_read := len buf `min` remaining in
    window ← lift (slice 0 to_read buf);
    base ← lift (usize_mul (start_lba p) BLOCK_SIZE);
    abs_pos ← lift (usize_add base (p_position p));
    on_disk (set_disk (disk_set_position abs_pos));;
    '(read_len, window) ← on_disk (disk_read_one window);
    buf ← lift (copy_from_slice 0 to_read window buf);
    move_position read_len;;
    mret (read_len, buf).

Definition partition_write_one (buf : list u8) : st (Partition * D) DevError Z :=
  p ← get_disk;
  sz ← lift (partition_size p);
  if sz <=? p_position p then mret 0
  else
    sz ← lift (partition_size p);
    remaining ← lift (usize_sub sz (p_position p));
    let to_write := len buf `min` remaining in
    window ← lift (slice 0 to_write buf);
    base ← lift (usize_mul (start_lba p) BLOCK_SIZE);
    abs_pos ← lift (usize_add base (p_position p));
    on_disk (set_disk (disk_set_position abs_pos));;
    write_len ← on_disk (disk_write_one window);
    move_position write_len;;
    mret write_len.
End disk.

(** ** Slices *)
Section slices.
Context {A : Type}.
Implicit Types l new : list A.

Lemma len_nonneg l : 0 ≤ len l.
Proof. unfold len. lia. Qed.

Lemma len_app l1 l2 : len (l1 ++ l2) = len l1 + len l2.
Proof. unfold len. rewrite length_app. lia. Qed.

Lemma len_replicate n (x : A) : 0 ≤ n → len (replicate (Z.to_nat n) x) = n.
Proof. unfold len. rewrite length_replicate. lia. Qed.

Lemma sub_len lo n l : 0 ≤ lo → 0 ≤ n → lo + n ≤ len l → len (sub lo n l) = n.
Proof. unfold len, sub. rewrite length_take, length_drop. lia. Qed.

Lemma sub_all l : sub 0 (len l) l = l.
Proof. unfold sub, len. rewrite Nat2Z.id. simpl. by rewrite firstn_all. Qed.

Lemma sub_sub a n lo m l :
  0 ≤ a → 0 ≤ n → 0 ≤ lo → a + n ≤ m → sub a n (sub lo m l) = sub (lo + a) n l.
Proof.
  intros. unfold sub. rewrite <-take_drop_commute || rewrite skipn_firstn_comm.
  rewrite take_take, drop_drop. f_equal; [lia|]. f_equal. lia.
Qed.

Lemma sub_app_r l1 l2 n : sub (len l1) n (l1 ++ l2) = sub 0 n l2.
Proof. unfold sub, len. by rewrite Nat2Z.id, drop_app_length. Qed.

Lemma sub_split lo m n l :
  0 ≤ lo → 0 ≤ m → 0 ≤ n → sub lo (m + n) l = sub lo m l ++ sub (lo + m) n l.
Proof.
  intros. unfold sub. rewrite !Z2Nat.inj_add by lia.
  rewrite <-drop_drop. symmetry. apply take_take_drop.
Qed.

Lemma splice_len lo new l :
  0 ≤ lo → lo + len new ≤ len l → len (splice lo new l) = len l.
Proof.
  unfold len, splice. rewrite !length_app, length_take, length_drop. lia.
Qed.

Lemma splice_all new l : len new = len l → splice 0 new l = new.
Proof.
  unfold splice, len. intros. simpl. rewrite drop_ge by lia. by rewrite app_nil_r.
Qed.

Lemma splice_nil lo l : splice lo [] l = l.
Proof. unfold splice. simpl. rewrite Nat.add_0_r. apply take_drop. Qed.

Lemma splice_0 new l : splice 0 new l = new ++ drop (length new) l.
Proof. done. Qed.

Lemma lookup_splice lo new l i :
  0 ≤ lo → lo + len new ≤ len l →
  splice lo new l !! i =
    if bool_decide (lo ≤ Z.of_nat i < lo + len new) then new !! (i - Z.to_nat lo)%nat else l !! i.
Proof.
  unfold len, splice. intros. case_bool_decide.
  - rewrite lookup_app_r by (rewrite length_take; lia).
    rewrite length_take, lookup_app_l by lia. f_equal. lia.
  - destruct (decide (Z.of_nat i < lo)).
    + rewrite lookup_app_l by (rewrite length_take; lia). by rewrite lookup_take_lt by lia.
    + rewrite !lookup_app_r by (rewrite ?length_take; lia).
      rewrite length_take, lookup_drop. f_equal. lia.
Qed.

Lemma lookup_sub lo n l i :
  0 ≤ lo → sub lo n l !! i = if bool_decide (Z.of_nat i < n) then l !! (Z.to_nat lo + i)%nat else None.
Proof.
  intros. unfold sub. case_bool_decide.
  - rewrite lookup_take_lt by lia. apply lookup_drop.
  - apply lookup_take_ge. lia.
Qed.

(** Overwriting a part of a block and storing the block back overwrites that
    part of the whole. *)
Lemma splice_sub lo m off new l :
  0 ≤ lo → 0 ≤ off → off + len new ≤ m → lo + m ≤ len l →
  splice lo (splice off new (sub lo m l)) l = splice (lo + off) new l.
Proof.
  intros. pose proof (len_nonneg new).
  assert (Hm : len (sub lo m l) = m) by (apply sub_len; lia).
  assert (Hs : len (splice off new (sub lo m l)) = m) by (rewrite splice_len; lia).
  apply list_eq. intros i. rewrite !lookup_splice by lia. rewrite Hs, lookup_sub by lia.
  repeat case_bool_decide; try lia; try done; f_equal; lia.
Qed.

(** Overwriting inside a window is seen in the window. *)
Lemma sub_splice lo m off new l :
  0 ≤ lo → 0 ≤ off → off + len new ≤ m → lo + m ≤ len l →
  sub lo m (splice (lo + off) new l) = splice off new (sub lo m l).
Proof.
  intros. pose proof (len_nonneg new).
  assert (Hm : len (sub lo m l) = m) by (apply sub_len; lia).
  apply list_eq. intros i. rewrite lookup_sub, !lookup_splice, lookup_sub by lia.
  repeat case_bool_decide; try lia; try done; f_equal; lia.
Qed.

Lemma slice_ok {E} lo hi l :
  0 ≤ lo ≤ hi → hi ≤ len l → slice (E:=E) lo hi l = Ok (sub lo (hi - lo) l).
Proof. intros. unfold slice. by rewrite bool_decide_true. Qed.

Lemma copy_from_slice_ok {E} lo hi new l :
  0 ≤ lo ≤ hi → hi ≤ len l → len new = hi - lo →
  copy_from_slice (E:=E) lo hi new l = Ok (splice lo new l).
Proof. intros. unfold copy_from_slice. by rewrite bool_decide_true. Qed.
End slices.

(** ** A disk is a byte stream

    The cursor of a disk is a position in the flat sequence of the bytes of the
    device.  [read_one] and [write_one] move at most to the end of the block the
    position is in. *)
Definition cursor (k : Disk) : Z := block_id k * BLOCK_SIZE + offset k.

(** The number of bytes that one call transfers. *)
Definition chunk (pos n : Z) : Z := n `min` (BLOCK_SIZE - pos mod BLOCK_SIZE).

Definition disk_wf (k : Disk) : Prop := 0 ≤ offset k < BLOCK_SIZE.

Lemma disk_set_position_wf pos : disk_wf (disk_set_position pos).
Proof. apply Z.mod_pos_bound. done. Qed.

Lemma cursor_set_position pos : cursor (disk_set_position pos) = pos.
Proof. unfold cursor, BLOCK_SIZE; simpl. unfold BLOCK_SIZE. pose proof (Z.div_mod pos 512). lia. Qed.

Lemma cursor_mod k : disk_wf k → cursor k mod BLOCK_SIZE = offset k.
Proof.
  unfold disk_wf, cursor, BLOCK_SIZE. intros ?.
  rewrite Z.add_comm, Z.mod_add by lia. apply Z.mod_small. lia.
Qed.

Lemma cursor_div k : disk_wf k → cursor k / BLOCK_SIZE = block_id k.
Proof.
  unfold disk_wf, cursor, BLOCK_SIZE. intros ?.
  rewrite Z.div_add_l by lia. rewrite Z.div_small; lia.
Qed.

(** A well-formed cursor is determined by its position. *)
Lemma set_position_cursor k : disk_wf k → disk_set_position (cursor k) = k.
Proof.
  intros Hk. unfold disk_set_position. rewrite cursor_mod, cursor_div by done. by destruct k.
Qed.

Lemma cursor_block k : offset k = 0 → cursor k = block_id k * BLOCK_SIZE.
Proof. unfold cursor. lia. Qed.

Lemma set_position_eq k pos : disk_wf k → pos = cursor k → disk_set_position pos = k.
Proof. intros ? ->. by apply set_position_cursor. Qed.

Lemma chunk_range pos n : 0 ≤ n → 0 ≤ chunk pos n ≤ n.
Proof.
  intros. unfold chunk, BLOCK_SIZE. pose proof (Z.mod_pos_bound pos 512). lia.
Qed.

Lemma chunk_pos pos n : 0 < n → 0 < chunk pos n.
Proof. intros. unfold chunk, BLOCK_SIZE. pose proof (Z.mod_pos_bound pos 512). lia. Qed.

Section disk_specs.
Context `{OverflowChecks} {D DevError : Type}.
Context `{!BlockDevice D DevError, !BlockDeviceOk D DevError}.

(** The device [d'] shows the bytes [bs] and has the geometry of [d]. *)
Definition shows (bs : list u8) (d d' : D) : Prop := dev_bytes d' = bs ∧ same_geometry d d'.

Lemma shows_refl d : shows (dev_bytes d) d d.
Proof. by repeat split. Qed.

Lemma block_in_image k d :
  block_size d = BLOCK_SIZE → block_id k < num_blocks d →
  block_id k * BLOCK_SIZE + BLOCK_SIZE ≤ len (dev_bytes d) ∧ len (dev_bytes d) ≤ usize_max.
Proof.
  intros Hb Hk. pose proof (dev_bytes_fit d) as [_ ?]. rewrite dev_bytes_len, Hb in *.
  unfold BLOCK_SIZE in *. nia.
Qed.

Lemma next_block_run {E} k d :
  disk_wf k → block_size d = BLOCK_SIZE → 0 ≤ block_id k < num_blocks d →
  next_block (E:=E) (k, d) = (Ok (), (mkDisk (block_id k + 1) (offset k), d)).
Proof.
  intros ? Hb [? Hk]. destruct (block_in_image k d Hb Hk).
  unfold next_block, get_disk, set_disk, usize_add. st_run. simpl.
  rewrite checked_ok; [done|]. unfold in_usize, usize_max, BLOCK_SIZE in *. lia.
Qed.

Lemma advance_run {E} count k d :
  disk_wf k → block_size d = BLOCK_SIZE → 0 ≤ block_id k < num_blocks d →
  0 ≤ count ≤ BLOCK_SIZE - offset k →
  advance (E:=E) count (k, d) = (Ok (), (disk_set_position (cursor k + count), d)).
Proof.
  intros ? Hb [? Hn] Hc. unfold disk_wf in *. destruct (block_in_image k d Hb Hn).
  assert (in_usize (offset k + count) ∧ in_usize (block_id k + 1)) as [??]
    by (unfold in_usize, usize_max, BLOCK_SIZE in *; lia).
  unfold advance, next_block, get_disk, set_disk, usize_add, usize_sub. st_run. simpl.
  rewrite checked_ok by done.
  destruct (Z.leb_spec BLOCK_SIZE (offset k + count)); simpl.
  - rewrite checked_ok by done. simpl.
    rewrite checked_ok by (unfold in_usize, usize_max, BLOCK_SIZE in *; lia).
    erewrite set_position_eq; [done|..]; unfold disk_wf, cursor, BLOCK_SIZE in *; simpl; lia.
  - erewrite set_position_eq; [done|..]; unfold disk_wf, cursor, BLOCK_SIZE in *; simpl; lia.
Qed.
(** The device failed an access to block [id]. *)
Definition refused (id : Z) (d : D) : Prop :=
  ∃ w d0, len w = block_size d0 ∧ same_geometry d d0 ∧
    (is_ok (read_block id w d0).1 = false ∨ is_ok (write_block id w d0).1 = false).

Lemma read_block_run {K} id buf (k : K) d :
  len buf = BLOCK_SIZE → block_size d = BLOCK_SIZE →
  (∃ d', with_dev (read_block id buf) (k, d) =
           (Ok (sub (id * BLOCK_SIZE) BLOCK_SIZE (dev_bytes d)), (k, d')) ∧
         0 ≤ id < num_blocks d ∧ shows (dev_bytes d) d d') ∨
  (∃ e d', with_dev (read_block id buf) (k, d) = (Err e, (k, d')) ∧
           refused id d ∧ shows (dev_bytes d) d d').
Proof.
  intros Hl Hb. pose proof (read_block_spec id buf d) as Hs. rewrite Hl, Hb in Hs.
  specialize (Hs eq_refl). unfold with_dev.
  destruct (read_block id buf d) as [[data|e|] d'] eqn:Er; [| |done].
  - destruct Hs as (? & -> & ? & ?). left. by exists d'.
  - right. exists e, d'. split_and!; [done| |by destruct Hs].
    exists buf, d. rewrite Er, Hl, Hb. split_and!; [done|done|by left].
Qed.

Lemma write_block_run {K} id data (k : K) d :
  len data = BLOCK_SIZE → block_size d = BLOCK_SIZE →
  (∃ d', with_dev (write_block id data) (k, d) = (Ok (), (k, d')) ∧
         0 ≤ id < num_blocks d ∧ shows (splice (id * BLOCK_SIZE) data (dev_bytes d)) d d') ∨
  (∃ e d', with_dev (write_block id data) (k, d) = (Err e, (k, d')) ∧ refused id d ∧
     (shows (dev_bytes d) d d' ∨
      0 ≤ id < num_blocks d ∧
      ∃ junk, len junk = BLOCK_SIZE ∧ shows (splice (id * BLOCK_SIZE) junk (dev_bytes d)) d d')).
Proof.
  intros Hl Hb. pose proof (write_block_spec id data d) as Hs. rewrite Hl, Hb in Hs.
  specialize (Hs eq_refl). unfold with_dev, shows.
  destruct (write_block id data d) as [[[]|e|] d'] eqn:Er; [| |done].
  - destruct Hs as (? & ? & ?). left. by exists d'.
  - right. exists e, d'. destruct Hs as [Hg Hs]. split_and!; [done| |].
    + exists data, d. rewrite Er, Hl, Hb. split_and!; [done|done|by right].
    + destruct Hs as [?|[? (junk & ? & ?)]]; [by left|right; eauto].
Qed.

(** One read transfers a chunk of the stream and moves the cursor past it, or
    fails with the device and leaves the cursor where it was. *)
Lemma disk_read_one_run buf k d :
  disk_wf k → block_size d = BLOCK_SIZE →
  let n := chunk (cursor k) (len buf) in
  (∃ d', disk_read_one buf (k, d) =
           (Ok (n, splice 0 (sub (cursor k) n (dev_bytes d)) buf),
            (disk_set_position (cursor k + n), d')) ∧
         0 ≤ block_id k < num_blocks d ∧ shows (dev_bytes d) d d') ∨
  (∃ e d', disk_read_one buf (k, d) = (Err e, (k, d')) ∧
           refused (block_id k) d ∧ shows (dev_bytes d) d d').
Proof.
  intros Hk Hb n. pose proof Hk as Hoff. unfold disk_wf in Hoff. pose proof (len_nonneg buf).
  assert (n = len buf `min` (BLOCK_SIZE - offset k)) as Hn
    by (unfold n, chunk; by rewrite cursor_mod).
  unfold disk_read_one, get_disk. st_run. cbn [fst].
  destruct ((offset k =? 0) && (BLOCK_SIZE <=? len buf)) eqn:Hc.
  - apply andb_true_iff in Hc as [Hz%Z.eqb_eq Hl%Z.leb_le].
    rewrite slice_ok by (unfold BLOCK_SIZE in *; lia).
    destruct (read_block_run (block_id k) (sub 0 (BLOCK_SIZE - 0) buf) k d)
      as [(d' & -> & ? & Hd)|(e & d' & -> & ? & Hd)]; [rewrite sub_len; lia|done|left|right; eauto].
    destruct (block_in_image k d); [done|lia|]. rewrite <-cursor_block by done.
    rewrite copy_from_slice_ok by (rewrite ?sub_len; unfold cursor, BLOCK_SIZE in *; lia).
    rewrite next_block_run by (destruct Hd as [_ [??]]; first [done|congruence|lia]).
    assert (n = BLOCK_SIZE) as -> by lia. exists d'. split_and!; [|lia|lia|done].
    erewrite set_position_eq; [done|..]; unfold disk_wf, cursor, BLOCK_SIZE in *; simpl; lia.
  - unfold usize_sub, usize_add.
    rewrite checked_ok by (unfold in_usize, usize_max, BLOCK_SIZE in *; lia). rewrite <-Hn.
    destruct (read_block_run (block_id k) (replicate (Z.to_nat BLOCK_SIZE) x00) k d)
      as [(d' & -> & ? & Hd)|(e & d' & -> & ? & Hd)];
      [by rewrite len_replicate|done|left|right; eauto].
    destruct (block_in_image k d); [done|lia|].
    rewrite checked_ok by (unfold in_usize, usize_max, BLOCK_SIZE in *; lia).
    rewrite slice_ok by (rewrite ?sub_len; unfold BLOCK_SIZE in *; lia).
    rewrite sub_sub by (unfold BLOCK_SIZE in *; lia).
    replace (offset k + n - offset k) with n by lia.
    change (block_id k * BLOCK_SIZE + offset k) with (cursor k).
    rewrite copy_from_slice_ok by (rewrite ?sub_len; unfold cursor, BLOCK_SIZE in *; lia).
    rewrite advance_run by (destruct Hd as [_ [??]]; first [done|congruence|lia]).
    exists d'. split_and!; [done|lia|lia|done].
Qed.
(** A write that fails may have damaged the block that the cursor is in. *)
Definition damaged (pos : Z) (d d' : D) : Prop :=
  shows (dev_bytes d) d d' ∨
  pos / BLOCK_SIZE < num_blocks d ∧
  ∃ junk, len junk = BLOCK_SIZE ∧
    shows (splice (pos / BLOCK_SIZE * BLOCK_SIZE) junk (dev_bytes d)) d d'.

Lemma shows_trans bs bs' d1 d2 d3 : shows bs d1 d2 → shows bs' d2 d3 → shows bs' d1 d3.
Proof. intros [? [??]] [? [??]]. split; [done|split; congruence]. Qed.

Lemma disk_write_one_run buf k d :
  disk_wf k → block_size d = BLOCK_SIZE →
  let n := chunk (cursor k) (len buf) in
  (∃ d', disk_write_one buf (k, d) = (Ok n, (disk_set_position (cursor k + n), d')) ∧
         0 ≤ block_id k < num_blocks d ∧ shows (splice (cursor k) (sub 0 n buf) (dev_bytes d)) d d') ∨
  (∃ e d', disk_write_one buf (k, d) = (Err e, (k, d')) ∧
           refused (block_id k) d ∧ damaged (cursor k) d d').
Proof.
  intros Hk Hb n. pose proof Hk as Hoff. unfold disk_wf in Hoff. pose proof (len_nonneg buf).
  assert (n = len buf `min` (BLOCK_SIZE - offset k)) as Hn
    by (unfold n, chunk; by rewrite cursor_mod).
  unfold disk_write_one, get_disk, damaged. rewrite cursor_div by done. st_run. cbn [fst].
  destruct ((offset k =? 0) && (BLOCK_SIZE <=? len buf)) eqn:Hc.
  - apply andb_true_iff in Hc as [Hz%Z.eqb_eq Hl%Z.leb_le].
    rewrite slice_ok by (unfold BLOCK_SIZE in *; lia). rewrite Z.sub_0_r.
    destruct (write_block_run (block_id k) (sub 0 BLOCK_SIZE buf) k d)
      as [(d' & -> & ? & Hd)|(e & d' & -> & ? & Hd)];
      [rewrite sub_len; unfold BLOCK_SIZE in *; lia|done|left|right; naive_solver].
    rewrite next_block_run by (destruct Hd as [_ [??]]; first [done|congruence|lia]).
    assert (n = BLOCK_SIZE) as -> by lia. exists d'. rewrite cursor_block by done.
    split_and!; [|lia|lia|done].
    erewrite set_position_eq; [done|..]; unfold disk_wf, cursor, BLOCK_SIZE in *; simpl; lia.
  - unfold usize_sub, usize_add.
    rewrite checked_ok by (unfold in_usize, usize_max, BLOCK_SIZE in *; lia). rewrite <-Hn.
    destruct (read_block_run (block_id k) (replicate (Z.to_nat BLOCK_SIZE) x00) k d)
      as [(d1 & -> & ? & Hd)|(e & d1 & -> & ? & Hd)];
      [by rewrite len_replicate|done| |right; eauto 10].
    destruct (block_in_image k d); [done|lia|]. pose proof Hd as [Hbs [Hs Hnb]].
    rewrite checked_ok by (unfold in_usize, usize_max, BLOCK_SIZE in *; lia).
    rewrite slice_ok by lia. rewrite Z.sub_0_r.
    assert (Hln : len (sub 0 n buf) = n) by (apply sub_len; lia).
    assert (Hlb : len (sub (block_id k * BLOCK_SIZE) BLOCK_SIZE (dev_bytes d)) = BLOCK_SIZE)
      by (apply sub_len; unfold BLOCK_SIZE in *; lia).
    rewrite copy_from_slice_ok by lia.
    destruct (write_block_run (block_id k)
        (splice (offset k) (sub 0 n buf) (sub (block_id k * BLOCK_SIZE) BLOCK_SIZE (dev_bytes d)))
        k d1) as [(d' & -> & ? & Hd')|(e & d' & -> & Hr & Hd')];
      [rewrite splice_len; lia|congruence| |].
    + left. rewrite Hbs, splice_sub in Hd' by (unfold BLOCK_SIZE in *; lia).
      rewrite advance_run by (destruct Hd' as [_ [??]]; first [done|congruence|lia]).
      exists d'. split_and!; [done|lia|lia|by eapply shows_trans].
    + right. exists e, d'. split_and!; [done| |].
      * destruct Hr as (w & d0 & ? & [??] & ?). exists w, d0. split_and!; [done|split; congruence|done].
      * rewrite Hbs in Hd'. destruct Hd' as [?|[? (junk & ? & ?)]].
        -- left. by eapply shows_trans.
        -- right. split; [lia|]. exists junk. split; [done|by eapply shows_trans].
Qed.

Lemma reliable_refused `{!BlockDeviceReliable D DevError} id d :
  0 ≤ id → refused id d → num_blocks d ≤ id.
Proof.
  intros Hid (w & d0 & Hl & [_ Hn] & Hr). rewrite <-Hn.
  destruct (decide (num_blocks d0 ≤ id)); [done|].
  destruct Hr as [Hr|Hr]; [rewrite read_block_served in Hr|rewrite write_block_served in Hr];
    done || lia.
Qed.
(** The same, for a cursor placed at a position. *)
Lemma disk_read_at buf pos d :
  block_size d = BLOCK_SIZE →
  let n := chunk pos (len buf) in
  (∃ d', disk_read_one buf (disk_set_position pos, d) =
           (Ok (n, splice 0 (sub pos n (dev_bytes d)) buf), (disk_set_position (pos + n), d')) ∧
         0 ≤ pos / BLOCK_SIZE < num_blocks d ∧ shows (dev_bytes d) d d') ∨
  (∃ e d', disk_read_one buf (disk_set_position pos, d) = (Err e, (disk_set_position pos, d')) ∧
           refused (pos / BLOCK_SIZE) d ∧ shows (dev_bytes d) d d').
Proof.
  intros Hb. pose proof (disk_read_one_run buf (disk_set_position pos) d) as Hr.
  rewrite cursor_set_position in Hr. by apply Hr; [apply disk_set_position_wf|].
Qed.

Lemma disk_write_at buf pos d :
  block_size d = BLOCK_SIZE →
  let n := chunk pos (len buf) in
  (∃ d', disk_write_one buf (disk_set_position pos, d) =
           (Ok n, (disk_set_position (pos + n), d')) ∧
         0 ≤ pos / BLOCK_SIZE < num_blocks d ∧ shows (splice pos (sub 0 n buf) (dev_bytes d)) d d') ∨
  (∃ e d', disk_write_one buf (disk_set_position pos, d) = (Err e, (disk_set_position pos, d')) ∧
           refused (pos / BLOCK_SIZE) d ∧ damaged pos d d').
Proof.
  intros Hb. pose proof (disk_write_one_run buf (disk_set_position pos) d) as Hr.
  rewrite cursor_set_position in Hr. by apply Hr; [apply disk_set_position_wf|].
Qed.
End disk_specs.

(** ** Partitions

    The window of the device that a partition covers, in bytes. *)
Definition part_base (p : Partition) : Z := start_lba p * BLOCK_SIZE.
Definition part_size (p : Partition) : Z := (end_lba p - start_lba p + 1) * BLOCK_SIZE.

(** The bounds are in order and fit the integers, and the position is inside. *)
Definition part_wf (p : Partition) : Prop :=
  0 ≤ start_lba p ≤ end_lba p ∧ (end_lba p + 1) * BLOCK_SIZE ≤ usize_max ∧
  0 ≤ p_position p ≤ part_size p.

(** The number of bytes that one access to a partition transfers. *)
Definition part_chunk (p : Partition) (n : Z) : Z :=
  chunk (p_position p) (n `min` (part_size p - p_position p)).

(** The partition after an access of [n] bytes. *)
Definition part_moved (n : Z) (p : Partition) : Partition :=
  mkPartition (disk_set_position (part_base p + p_position p + n)) (start_lba p) (end_lba p)
    (p_position p + n).

(** The partition [p'] is [p], except for the cursor of its disk. *)
Definition same_window (p p' : Partition) : Prop :=
  start_lba p' = start_lba p ∧ end_lba p' = end_lba p ∧ p_position p' = p_position p.

Lemma part_chunk_range p n :
  part_wf p → 0 ≤ n → 0 ≤ part_chunk p n ≤ n `min` (part_size p - p_position p).
Proof. intros (? & ? & ?) ?. apply chunk_range. lia. Qed.

Lemma part_moved_wf p n : part_wf p → 0 ≤ n → part_wf (part_moved (part_chunk p n) p).
Proof.
  intros Hp Hn. pose proof (part_chunk_range p n Hp Hn). destruct Hp as (? & ? & ?).
  unfold part_wf, part_size in *; simpl. lia.
Qed.

Lemma chunk_shift k pos n : chunk (k * BLOCK_SIZE + pos) n = chunk pos n.
Proof. unfold chunk. by rewrite Z.add_comm, Z.mod_add. Qed.

Section partition_specs.
Context `{OverflowChecks} {D DevError : Type}.
Context `{!BlockDevice D DevError, !BlockDeviceOk D DevError}.

Lemma partition_size_run {E} p : part_wf p → partition_size (E:=E) p = Ok (part_size p).
Proof.
  intros (? & ? & ?). unfold partition_size, usize_sub, usize_add, usize_mul, part_size in *.
  unfold BLOCK_SIZE in *.
  rewrite checked_ok by (unfold in_usize; lia). orun.
  rewrite checked_ok by (unfold in_usize; lia). orun.
  apply checked_ok. unfold in_usize. lia.
Qed.

Lemma partition_set_position_run {E} pos p :
  part_wf p →
  partition_set_position (E:=E) pos p =
    Ok (mkPartition (p_disk p) (start_lba p) (end_lba p) (pos `min` part_size p)).
Proof. intros. unfold partition_set_position. by rewrite partition_size_run. Qed.

Lemma part_abs_wf p :
  part_wf p → p_position p < part_size p →
  in_usize (part_base p) ∧ in_usize (part_base p + p_position p) ∧
  in_usize (part_size p - p_position p).
Proof. intros (? & ? & ?) ?. unfold part_base, part_size, in_usize, BLOCK_SIZE in *. lia. Qed.

Lemma move_position_run {E} n p k (d : D) :
  part_wf p → 0 ≤ n → p_position p + n ≤ part_size p →
  move_position (E:=E) n (mkPartition k (start_lba p) (end_lba p) (p_position p), d) =
    (Ok (), (mkPartition k (start_lba p) (end_lba p) (p_position p + n), d)).
Proof.
  intros (? & ? & ?) ? ?. unfold move_position, get_disk, set_disk, usize_add. st_run. simpl.
  rewrite checked_ok; [done|]. unfold in_usize, part_size, BLOCK_SIZE in *. lia.
Qed.

Lemma part_chunk_abs p n :
  chunk (part_base p + p_position p) (n `min` (part_size p - p_position p)) = part_chunk p n.
Proof. apply chunk_shift. Qed.

(** A read inside the partition. *)
Lemma partition_read_one_run buf p d :
  part_wf p → block_size d = BLOCK_SIZE →
  let n := part_chunk p (len buf) in
  let abs := part_base p + p_position p in
  (∃ p' d', partition_read_one buf (p, d) =
           (Ok (n, splice 0 (sub abs n (dev_bytes d)) buf), (p', d')) ∧
         same_window (part_moved n p) p' ∧ shows (dev_bytes d) d d' ∧
         (n = 0 ∨ abs / BLOCK_SIZE < num_blocks d)) ∨
  (∃ e p' d', partition_read_one buf (p, d) = (Err e, (p', d')) ∧ same_window p p' ∧
           refused (abs / BLOCK_SIZE) d ∧ p_position p < part_size p ∧ shows (dev_bytes d) d d').
Proof.
  intros Hp Hb n abs. pose proof (len_nonneg buf) as Hl.
  pose proof (part_chunk_range p (len buf) Hp Hl) as Hn. fold n in Hn.
  unfold partition_read_one, get_disk, set_disk. st_run. cbn [fst].
  rewrite partition_size_run by done. destruct (Z.leb_spec (part_size p) (p_position p)).
  { left. exists p, d. assert (n = 0) as -> by lia. split_and!; [done|..].
    - unfold same_window, part_moved; simpl. lia.
    - apply shows_refl.
    - by left. }
  destruct (part_abs_wf p) as (? & Ha & ?); [done..|]. unfold usize_sub, usize_mul, usize_add.
  fold (part_base p). rewrite checked_ok by done. rewrite slice_ok by lia. rewrite Z.sub_0_r.
  rewrite !checked_ok by done. unfold on_disk. cbn [p_disk start_lba end_lba p_position].
  fold abs in Ha |- *. destruct Ha as [Ha _].
  set (m := len buf `min` (part_size p - p_position p)) in *.
  assert (Hm : len (sub 0 m buf) = m) by (apply sub_len; lia).
  destruct (disk_read_at (sub 0 m buf) abs d Hb)
    as [(d' & -> & ? & Hd)|(e & d' & -> & ? & Hd)]; [left|right; exists e].
  - assert (Hc : chunk abs m = n) by apply part_chunk_abs. rewrite Hm, Hc. cbn [p_disk start_lba end_lba p_position].
    assert (len (sub abs n (dev_bytes d)) ≤ n) by (unfold len, sub; rewrite length_take; lia).
    rewrite copy_from_slice_ok by (rewrite ?splice_len, ?Hm; lia).
    rewrite move_position_run by (done || lia). eexists _, d'.
    split_and!; [|done..|right; lia]. by rewrite splice_sub by lia.
  - by eexists _, d'.
Qed.

Lemma partition_write_one_run buf p d :
  part_wf p → block_size d = BLOCK_SIZE →
  let n := part_chunk p (len buf) in
  let abs := part_base p + p_position p in
  (∃ p' d', partition_write_one buf (p, d) = (Ok n, (p', d')) ∧
         same_window (part_moved n p) p' ∧
         shows (splice abs (sub 0 n buf) (dev_bytes d)) d d' ∧
         (n = 0 ∨ abs / BLOCK_SIZE < num_blocks d)) ∨
  (∃ e p' d', partition_write_one buf (p, d) = (Err e, (p', d')) ∧ same_window p p' ∧
           refused (abs / BLOCK_SIZE) d ∧ p_position p < part_size p ∧ damaged abs d d').
Proof.
  intros Hp Hb n abs. pose proof (len_nonneg buf) as Hl.
  pose proof (part_chunk_range p (len buf) Hp Hl) as Hn. fold n in Hn.
  unfold partition_write_one, get_disk, set_disk. st_run. cbn [fst].
  rewrite partition_size_run by done. destruct (Z.leb_spec (part_size p) (p_position p)).
  { left. exists p, d. assert (n = 0) as -> by lia. split_and!; [done|..].
    - unfold same_window, part_moved; simpl. lia.
    - change (sub 0 0 buf) with (@nil u8). rewrite splice_nil. apply shows_refl.
    - by left. }
  destruct (part_abs_wf p) as (? & Ha & ?); [done..|]. unfold usize_sub, usize_mul, usize_add.
  fold (part_base p). rewrite checked_ok by done. rewrite slice_ok by lia. rewrite Z.sub_0_r.
  rewrite !checked_ok by done. unfold on_disk. cbn [p_disk start_lba end_lba p_position].
  fold abs in Ha |- *. destruct Ha as [Ha _].
  set (m := len buf `min` (part_size p - p_position p)) in *.
  assert (Hm : len (sub 0 m buf) = m) by (apply sub_len; lia).
  destruct (disk_write_at (sub 0 m buf) abs d Hb)
    as [(d' & -> & ? & Hd)|(e & d' & -> & ? & Hd)]; [left|right; exists e].
  - assert (Hc : chunk abs m = n) by apply part_chunk_abs. rewrite Hm, Hc in *.
    cbn [p_disk start_lba end_lba p_position].
    rewrite move_position_run by (done || lia). eexists _, d'. rewrite sub_sub in Hd by lia.
    split_and!; [done|done|done|right; lia].
  - by eexists _, d'.
Qed.

(** Accesses to a partition, in sequence: a caller may go on after an error. *)
Inductive part_op : Type :=
| PSeek (pos : Z)
| PRead (buf : list u8)
| PWrite (buf : list u8).

Definition part_do (o : part_op) : st (Partition * D) DevError (Z * list u8) :=
  match o with
  | PSeek pos =>
      p ← get_disk; p' ← lift (partition_set_position pos p); set_disk p';; mret (0, [])
  | PRead buf => partition_read_one buf
  | PWrite buf => n ← partition_write_one buf; mret (n, [])
  end.

Fixpoint part_run (ops : list part_op) (s : Partition * D) :
    list (outcome DevError (Z * list u8)) * (Partition * D) :=
  match ops with
  | [] => ([], s)
  | o :: ops =>
      let '(r, s) := part_do o s in
      let '(rs, s) := part_run ops s in (r :: rs, s)
  end.

Definition op_ok (o : part_op) : Prop :=
  match o with PSeek pos => in_usize pos | _ => True end.

(** The byte at [i] of the device is not in the window of [p]. *)
Definition outside (p : Partition) (i : nat) : Prop :=
  Z.of_nat i < part_base p ∨ part_base p + part_size p ≤ Z.of_nat i.

Definition same_bounds (p p' : Partition) : Prop :=
  start_lba p' = start_lba p ∧ end_lba p' = end_lba p.

(** [d'] differs from [d] at most inside the window of [p]. *)
Definition confined (p : Partition) (d d' : D) : Prop :=
  same_geometry d d' ∧ ∀ i, outside p i → dev_bytes d' !! i = dev_bytes d !! i.

Lemma shows_confined p d d' : shows (dev_bytes d) d d' → confined p d d'.
Proof. intros [Hb Hg]. split; [done|]. intros i _. by rewrite Hb. Qed.

Lemma same_window_wf p p' : same_window p p' → part_wf p → part_wf p'.
Proof. intros (E1 & E2 & E3). unfold part_wf, part_size. by rewrite E1, E2, E3. Qed.

Lemma confined_splice p d d' lo new :
  shows (splice lo new (dev_bytes d)) d d' →
  part_base p ≤ lo → lo + len new ≤ part_base p + part_size p → 0 ≤ part_base p →
  lo + len new ≤ len (dev_bytes d) → confined p d d'.
Proof.
  intros [Hb Hg] ????. split; [done|]. intros i Hi. pose proof (len_nonneg new).
  rewrite Hb, lookup_splice by lia. rewrite bool_decide_false; [done|].
  unfold outside in Hi. lia.
Qed.

(** The block that a position of the partition is in belongs to the partition
    and to the device. *)
Lemma part_block p d :
  part_wf p → block_size d = BLOCK_SIZE → p_position p < part_size p →
  let abs := part_base p + p_position p in
  let lo := abs / BLOCK_SIZE * BLOCK_SIZE in
  abs / BLOCK_SIZE < num_blocks d →
  0 ≤ part_base p ≤ lo ∧ lo ≤ abs ∧ abs mod BLOCK_SIZE = abs - lo ∧
  lo + BLOCK_SIZE ≤ part_base p + part_size p ∧ lo + BLOCK_SIZE ≤ len (dev_bytes d).
Proof.
  intros (? & ? & ?) Hb ? abs lo Hn. rewrite dev_bytes_len, Hb.
  pose proof (Z.div_mod abs BLOCK_SIZE). pose proof (Z.mod_pos_bound abs BLOCK_SIZE).
  unfold lo, abs, part_base, part_size, BLOCK_SIZE in *. lia.
Qed.
Lemma part_do_confined o p d :
  part_wf p → block_size d = BLOCK_SIZE → op_ok o →
  let '(r, (p', d')) := part_do o (p, d) in
  r ≠ Panic ∧ part_wf p' ∧ same_bounds p p' ∧ confined p d d'.
Proof.
  intros Hp Hb Ho. destruct o as [pos|buf|buf]; unfold part_do.
  - unfold get_disk, set_disk. st_run. cbn [fst]. rewrite partition_set_position_run by done.
    split_and!; [done| |done|apply shows_confined, shows_refl].
    destruct Hp as (? & ? & ?), Ho. unfold part_wf, part_size in *; simpl. lia.
  - destruct (partition_read_one_run buf p d Hp Hb)
      as [(p' & d' & -> & Hw & Hd & _)|(e & p' & d' & -> & Hw & _ & _ & Hd)];
      (split_and!; [done| | |by apply shows_confined]).
    + eapply same_window_wf, part_moved_wf; eauto using len_nonneg.
    + by destruct Hw as (? & ? & _).
    + by eapply same_window_wf.
    + by destruct Hw as (? & ? & _).
  - st_run. pose proof (part_chunk_range p (len buf) Hp (len_nonneg buf)) as Hc.
    destruct (partition_write_one_run buf p d Hp Hb)
      as [(p' & d' & -> & Hw & Hd & Hn)|(e & p' & d' & -> & Hw & Hr & Hs & Hd)]; split_and!; try done.
    + eapply same_window_wf, part_moved_wf; eauto using len_nonneg.
    + by destruct Hw as (? & ? & _).
    + destruct (decide (part_chunk p (len buf) = 0)) as [Hz|Hz].
      { rewrite Hz in Hd. change (sub 0 0 buf) with (@nil u8) in Hd.
        rewrite splice_nil in Hd. by apply shows_confined. }
      destruct Hn as [?|Hn]; [lia|]. destruct (part_block p d) as (? & ? & Hm & ?); [done|done|lia|done|].
      assert (part_chunk p (len buf) ≤ BLOCK_SIZE - p_position p mod BLOCK_SIZE)
        by (unfold part_chunk, chunk; lia).
      assert ((part_base p + p_position p) mod BLOCK_SIZE = p_position p mod BLOCK_SIZE)
        by (unfold part_base; by rewrite Z.add_comm, Z.mod_add).
      eapply confined_splice; [done|..]; rewrite ?sub_len; lia.
    + by eapply same_window_wf.
    + by destruct Hw as (? & ? & _).
    + destruct Hd as [Hd|(Hn & junk & Hj & Hd)]; [by apply shows_confined|].
      destruct (part_block p d) as (? & ? & Hm & ?); [done..|].
      eapply confined_splice; [done|..]; lia.
Qed.

(** C5: Whatever the driver does, and whatever the caller does after an error,
    accesses through a partition stay inside it: no sequence of seeks, reads and
    writes panics or changes a byte of the device before the first or after the
    last block of the partition.  A write that fails may damage only a block of
    the partition itself. *)
Theorem partition_confined p d ops :
  part_wf p → block_size d = BLOCK_SIZE → Forall op_ok ops →
  let '(rs, (p', d')) := part_run ops (p, d) in
  Forall (λ r, r ≠ Panic) rs ∧ part_wf p' ∧ same_bounds p p' ∧
  ∀ i, outside p i → dev_bytes d' !! i = dev_bytes d !! i.
Proof.
  intros Hp Hb Hops. revert p d Hp Hb. induction Hops as [|o ops Ho _ IH]; intros p d Hp Hb; simpl.
  { by split_and!; [constructor| |done|]. }
  pose proof (part_do_confined o p d Hp Hb Ho) as Hs.
  destruct (part_do o (p, d)) as [r [p1 d1]]. destruct Hs as (Hr & Hp1 & Hb1 & [Hg Hc]).
  specialize (IH p1 d1 Hp1). destruct (part_run ops (p1, d1)) as [rs [p2 d2]].
  destruct IH as (Hrs & Hp2 & Hb2 & Hc2); [by destruct Hg as [-> _]|].
  split_and!; [by constructor|done|destruct Hb1, Hb2; split; congruence|].
  intros i Hi. rewrite Hc2, Hc; [done..|].
  unfold outside, part_base, part_size. destruct Hb1 as [-> ->]. done.
Qed.
End partition_specs.

(** ** A partition is a file

    The specification: a sequence of bytes of fixed size with a position, where
    one access transfers at most the rest of a block. *)
Record file : Type := mkFile {
  f_bytes : list u8;
  f_pos : Z;
}.

Definition file_chunk (f : file) (n : Z) : Z :=
  chunk (f_pos f) (n `min` (len (f_bytes f) - f_pos f)).

Definition file_do (o : part_op) (f : file) : (Z * list u8) * file :=
  match o with
  | PSeek pos => ((0, []), mkFile (f_bytes f) (pos `min` len (f_bytes f)))
  | PRead buf =>
      let n := file_chunk f (len buf) in
      ((n, splice 0 (sub (f_pos f) n (f_bytes f)) buf), mkFile (f_bytes f) (f_pos f + n))
  | PWrite buf =>
      let n := file_chunk f (len buf) in
      ((n, []), mkFile (splice (f_pos f) (sub 0 n buf) (f_bytes f)) (f_pos f + n))
  end.

Fixpoint file_run (ops : list part_op) (f : file) : list (Z * list u8) * file :=
  match ops with
  | [] => ([], f)
  | o :: ops =>
      let '(r, f) := file_do o f in
      let '(rs, f) := file_run ops f in (r :: rs, f)
  end.

Section partition_file.
Context `{OverflowChecks} {D DevError : Type}.
Context `{!BlockDevice D DevError, !BlockDeviceOk D DevError, !BlockDeviceReliable D DevError}.

Definition part_file (p : Partition) (d : D) : file :=
  mkFile (sub (part_base p) (part_size p) (dev_bytes d)) (p_position p).

(** The partition lies on the device. *)
Definition on_device (p : Partition) (d : D) : Prop :=
  part_wf p ∧ block_size d = BLOCK_SIZE ∧ end_lba p < num_blocks d.

Lemma on_device_window p d :
  on_device p d → 0 ≤ part_base p ∧ 0 ≤ part_size p ∧ part_base p + part_size p ≤ len (dev_bytes d).
Proof.
  intros ((? & ? & ?) & Hb & ?). rewrite dev_bytes_len, Hb.
  unfold part_base, part_size, BLOCK_SIZE in *. lia.
Qed.

Lemma part_file_len p d : on_device p d → len (f_bytes (part_file p d)) = part_size p.
Proof. intros Hp. destruct (on_device_window p d Hp) as (? & ? & ?). by apply sub_len. Qed.

Lemma on_device_block p d :
  on_device p d → p_position p < part_size p →
  0 ≤ (part_base p + p_position p) / BLOCK_SIZE < num_blocks d.
Proof.
  intros ((? & ? & ?) & ? & ?) ?. unfold part_base, part_size, BLOCK_SIZE in *.
  split; [apply Z.div_pos; lia|]. apply Z.div_lt_upper_bound; lia.
Qed.

Lemma part_not_refused p d :
  on_device p d → p_position p < part_size p →
  ¬ refused ((part_base p + p_position p) / BLOCK_SIZE) d.
Proof.
  intros Hp Hs Hr. destruct (on_device_block p d Hp Hs).
  pose proof (reliable_refused _ d ltac:(done) Hr). lia.
Qed.

(** What a step keeps of [on_device]. *)
Lemma on_device_step p p' d d' bs :
  on_device p d → part_wf p' → same_bounds p p' → shows bs d d' → on_device p' d'.
Proof.
  intros (_ & ? & ?) ? [_ E] [_ [E1 E2]]. split_and!; [done|congruence|].
  rewrite E, E2. done.
Qed.

Lemma part_file_moved p p' d d' n bs :
  same_window (part_moved n p) p' → shows bs d d' →
  part_file p' d' = mkFile (sub (part_base p) (part_size p) bs) (p_position p + n).
Proof.
  intros (E1 & E2 & E3) [Eb _]. unfold part_file, part_base, part_size.
  by rewrite E1, E2, E3, Eb.
Qed.

Lemma part_do_refines o p d :
  on_device p d → op_ok o →
  ∃ p' d', part_do o (p, d) = (Ok (file_do o (part_file p d)).1, (p', d')) ∧
    part_file p' d' = (file_do o (part_file p d)).2 ∧ on_device p' d'.
Proof.
  intros Hp Ho. pose proof Hp as (Hwf & Hb & He). pose proof (part_file_len p d Hp) as Hlen.
  pose proof (part_do_confined o p d Hwf Hb Ho) as Hs.
  destruct (on_device_window p d Hp) as (? & ? & ?). pose proof Hwf as (_ & _ & ?).
  assert (Hch : ∀ n, file_chunk (part_file p d) n = part_chunk p n)
    by (intros n; unfold file_chunk, part_chunk; by rewrite Hlen).
  destruct o as [pos|buf|buf]; unfold part_do in *; unfold file_do.
  - unfold get_disk, set_disk in *. st_run. cbn [fst] in *.
    rewrite partition_set_position_run in * by done. destruct Hs as (_ & ? & ? & _).
    eexists _, d. rewrite Hlen. split_and!; [done|done|].
    by eapply on_device_step; [..|apply shows_refl].
  - rewrite Hch. pose proof (part_chunk_range p (len buf) Hwf (len_nonneg buf)).
    destruct (partition_read_one_run buf p d Hwf Hb)
      as [(p' & d' & Hrun & Hw & Hd & _)|(e & p' & d' & _ & _ & Hr & Hlt & _)];
      [|by destruct (part_not_refused p d)].
    rewrite Hrun in *. destruct Hs as (_ & ? & ? & _). exists p', d'. cbn [fst snd part_file f_bytes f_pos].
    rewrite sub_sub by lia. split_and!; [done|by eapply part_file_moved|by eapply on_device_step].
  - rewrite Hch. pose proof (part_chunk_range p (len buf) Hwf (len_nonneg buf)). st_run.
    destruct (partition_write_one_run buf p d Hwf Hb)
      as [(p' & d' & Hrun & Hw & Hd & _)|(e & p' & d' & _ & _ & Hr & Hlt & _)];
      [|by destruct (part_not_refused p d)].
    rewrite Hrun in *. destruct Hs as (_ & ? & ? & _). exists p', d'. cbn [fst snd part_file f_bytes f_pos].
    split_and!; [done| |by eapply on_device_step].
    erewrite part_file_moved by done. by rewrite sub_splice by (rewrite ?sub_len; lia).
Qed.

(** On a device that serves its blocks, a partition that lies on the device
    behaves as a file of its size: any sequence of seeks, reads and writes
    returns what the file returns (counts and buffers, no error and no panic)
    and leaves the window of the device with the bytes of the file.  A read at
    the end returns 0, and reads give back what was written. *)
Theorem partition_is_file p d ops :
  on_device p d → Forall op_ok ops →
  ∃ p' d', part_run ops (p, d) = (Ok <$> (file_run ops (part_file p d)).1, (p', d')) ∧
    part_file p' d' = (file_run ops (part_file p d)).2.
Proof.
  intros Hp Hops. revert p d Hp. induction Hops as [|o ops Ho _ IH]; intros p d Hp; simpl.
  { by exists p, d. }
  destruct (part_do_refines o p d Hp Ho) as (p1 & d1 & -> & Hf & Hp1).
  destruct (IH p1 d1 Hp1) as (p2 & d2 & -> & Hf2). rewrite Hf in *.
  destruct (file_do o (part_file p d)) as [r f1]. simpl in *.
  destruct (file_run ops f1) as [rs f2]. by exists p2, d2.
Qed.
End partition_file.

(** ** A memory disk

    A device that meets the laws: its medium is a list of bytes, of which the
    whole blocks count.  Block numbers out of range are errors. *)
Module RamDisk.
Inductive rd_error : Type := RdInvalid.

Definition rd_blocks (m : list u8) : Z := (len m / BLOCK_SIZE) `min` (usize_max / BLOCK_SIZE).

Definition rd_valid (id : Z) (m : list u8) : bool := (0 <=? id) && (id <? rd_blocks m).

#[export] Instance rd_device : BlockDevice (list u8) rd_error := {|
  block_size _ := BLOCK_SIZE;
  num_blocks := rd_blocks;
  read_block id _ m :=
    if rd_valid id m then (Ok (sub (id * BLOCK_SIZE) BLOCK_SIZE m), m) else (Err RdInvalid, m);
  write_block id data m :=
    if rd_valid id m then (Ok (), splice (id * BLOCK_SIZE) data m) else (Err RdInvalid, m);
|}.

Lemma rd_blocks_range m : 0 ≤ rd_blocks m ∧ rd_blocks m * BLOCK_SIZE ≤ len m `min` usize_max.
Proof.
  unfold rd_blocks, BLOCK_SIZE. pose proof (len_nonneg m). unfold usize_max.
  pose proof (Z.mul_div_le (len m) 512). pose proof (Z.div_pos (len m) 512).
  change ((2 ^ 64 - 1) / 512) with 36028797018963967. lia.
Qed.

Lemma rd_valid_true id m : rd_valid id m = true ↔ 0 ≤ id < rd_blocks m.
Proof. unfold rd_valid. rewrite andb_true_iff, Z.leb_le, Z.ltb_lt. done. Qed.

Lemma sub_0_splice n lo new (l : list u8) :
  0 ≤ lo → lo + len new ≤ n → n ≤ len l → sub 0 n (splice lo new l) = splice lo new (sub 0 n l).
Proof. intros. rewrite <-(sub_splice 0) by lia. done. Qed.

#[export] Program Instance rd_device_ok : BlockDeviceOk (list u8) rd_error := {|
  dev_bytes m := sub 0 (rd_blocks m * BLOCK_SIZE) m;
|}.
Next Obligation. intros m. apply rd_blocks_range. Qed.
Next Obligation.
  intros m. cbn. pose proof (rd_blocks_range m). apply sub_len; unfold BLOCK_SIZE in *; lia.
Qed.
Next Obligation.
  intros m. pose proof (rd_blocks_range m). unfold in_usize.
  rewrite sub_len; unfold BLOCK_SIZE in *; lia.
Qed.
Next Obligation.
  intros id buf m _. simpl. pose proof (rd_blocks_range m).
  destruct (rd_valid id m) eqn:Hv; [|done]. apply rd_valid_true in Hv.
  split_and!; [lia|lia| |done|done].
  rewrite sub_sub; [done|..]; unfold BLOCK_SIZE in *; nia.
Qed.
Next Obligation.
  intros id data m Hl. simpl in *. pose proof (rd_blocks_range m).
  destruct (rd_valid id m) eqn:Hv; [|by split; [|left]]. apply rd_valid_true in Hv.
  assert (Hb : rd_blocks (splice (id * BLOCK_SIZE) data m) = rd_blocks m)
    by (unfold rd_blocks; rewrite splice_len; [done|..]; unfold BLOCK_SIZE in *; lia).
  split_and!; [lia|lia| |done]. rewrite Hb.
  apply sub_0_splice; unfold BLOCK_SIZE in *; nia.
Qed.

#[export] Instance rd_device_reliable : BlockDeviceReliable (list u8) rd_error.
Proof.
  split; intros id data m _ Hv; simpl in *; by rewrite (proj2 (rd_valid_true id m) Hv).
Qed.
End RamDisk.

Module DiskExamples.
Import RamDisk.

#[local] Instance checks : OverflowChecks := true.

(** Four blocks; the partition is the middle two. *)
Definition medium : list u8 := replicate (Z.to_nat 2048) x2e.
Definition middle : Partition := partition_new (mkDisk 0 0) 1 2.
Definition script : list part_op :=
  [PSeek 1000; PWrite [x61; x62; x63]; PSeek 5000; PRead [x00]; PSeek 1001; PRead [x00; x00]].

Lemma middle_wf : part_wf middle.
Proof. vm_compute. intuition congruence. Qed.

Lemma script_ok : Forall op_ok script.
Proof. unfold script. repeat constructor; vm_compute; congruence. Qed.

Lemma partition_confined_witness :
  let '(rs, (p', d')) := part_run script (middle, medium) in
  Forall (λ r, r ≠ Panic) rs ∧ part_wf p' ∧ same_bounds middle p' ∧
  ∀ i, outside middle i → dev_bytes d' !! i = dev_bytes medium !! i.
Proof. exact (partition_confined middle medium script middle_wf eq_refl script_ok). Defined.

Lemma partition_is_file_witness :
  on_device middle medium ∧
  ∃ p' d', part_run script (middle, medium) =
    (Ok <$> [(0, []); (3, []); (0, []); (0, [x00]); (0, []); (2, [x62; x63])], (p', d')) ∧
    part_file p' d' = (file_run script (part_file middle medium)).2.
Proof.
  assert (Hd : on_device middle medium)
    by (split_and!; [exact middle_wf|done|vm_compute; reflexivity]).
  split; [exact Hd|].
  destruct (partition_is_file middle medium script Hd script_ok) as (p' & d' & Hr & Hf).
  exists p', d'. split; [|exact Hf]. rewrite Hr. vm_compute. reflexivity.
Defined.
End DiskExamples.
