(* ===== verification/Gpt.v ===== *)
(** * Partition tables ([modules/axfs/src/partition.rs])

    The scanner reads the GPT header and the partition entries through the
    cursor of a [Disk], finds out which file system each partition holds by
    looking at its first sectors, and falls back to one partition for the whole
    disk.  The log messages are left out. *)

From Stdlib Require Import Ascii Strings.Byte.
From S2P Require Import Prelude RustStr Disk.

(** ** Library operations *)

(** [uN::from_le_bytes]. *)
Fixpoint from_le_bytes (l : list u8) : Z :=
  match l with [] => 0 | b :: l => u8_val b + 256 * from_le_bytes l end.

(** The digits of [{:x}] and [{:X}], and [{:02x}] and [{:02X}] of a byte. *)
Definition hex_digit (upper : bool) (n : Z) : ascii :=
  ascii_of_byte (if n <? 10 then 48 + n else (if upper then 55 else 87) + n).

Definition hex2 (upper : bool) (b : u8) : string :=
  String (hex_digit upper (u8_val b / 16)) (String (hex_digit upper (u8_val b mod 16)) "").

(** The UTF-8 encoding of a code point. *)
Definition encode_utf8 (c : Z) : list Z :=
  if c <? 0x80 then [c]
  else if c <? 0x800 then [0xC0 + c / 64; 0x80 + c mod 64]
  else if c <? 0x10000 then [0xE0 + c / 4096; 0x80 + c / 64 mod 64; 0x80 + c mod 64]
  else [0xF0 + c / 262144; 0x80 + c / 4096 mod 64; 0x80 + c / 64 mod 64; 0x80 + c mod 64].

Definition is_high (u : Z) : bool := (0xD800 <=? u) && (u <? 0xDC00).
Definition is_low (u : Z) : bool := (0xDC00 <=? u) && (u <? 0xE000).

(** The code points of a sequence of UTF-16 units; an unpaired surrogate becomes
    U+FFFD. *)
Fixpoint decode_utf16 (l : list Z) : list Z :=
  match l with
  | [] => []
  | u :: l' =>
      if is_high u then
        match l' with
        | v :: l'' =>
            if is_low v then (0x10000 + (u - 0xD800) * 0x400 + (v - 0xDC00)) :: decode_utf16 l''
            else 0xFFFD :: decode_utf16 l'
        | [] => [0xFFFD]
        end
      else if is_low u then 0xFFFD :: decode_utf16 l'
      else u :: decode_utf16 l'
  end.

(** [String::from_utf16_lossy]. *)
Definition from_utf16_lossy (l : list Z) : string := of_bytes (decode_utf16 l ≫= encode_utf8).

(** ** Data *)
Inductive FilesystemType : Type := Fat | Ext4 | Unknown.

#[global] Instance FilesystemType_eq_dec : EqDecision FilesystemType.
Proof. solve_decision. Defined.

Record PartitionInfo : Type := mkPartitionInfo {
  pi_index : Z;
  pi_name : string;
  partition_type_guid : list u8;
  unique_partition_guid : list u8;
  filesystem_uuid : option string;
  pi_starting_lba : Z;
  pi_ending_lba : Z;
  size_bytes : Z;
  filesystem_type : option FilesystemType;
}.

(** The fields of the header that the scanner uses. *)
Record GptHeader : Type := mkGptHeader {
  partition_entry_lba : list u8;
  number_of_partition_entries : list u8;
  size_of_partition_entry : list u8;
}.

Record GptPartitionEntry : Type := mkGptPartitionEntry {
  e_type_guid : list u8;
  e_unique_guid : list u8;
  e_starting_lba : list u8;
  e_ending_lba : list u8;
  e_attributes : list u8;
  e_name : list Z;
}.

Definition zeros (n : Z) : list u8 := replicate (Z.to_nat n) x00.

(** The bytes "EFI PART", "FAT" and "FAT32". *)
Definition GPT_SIGNATURE : list u8 := [x45; x46; x49; x20; x50; x41; x52; x54].
Definition FAT_SIGNATURE : list u8 := [x46; x41; x54].
Definition FAT32_SIGNATURE : list u8 := [x46; x41; x54; x33; x32].

(** ** Reading *)
Section scanner.
Context `{OverflowChecks} {D DevError : Type} `{!BlockDevice D DevError}.

Definition set_position {E} (pos : Z) : st (Disk * D) E () := set_disk (disk_set_position pos).

Definition position {E} : st (Disk * D) E Z := k ← get_disk; lift (disk_position k).

(** The loop of [read_exact]; the result is the buffer.  A pass that does not
    end the loop reads at least one byte, so the length of the buffer is enough
    fuel. *)
Fixpoint read_exact_loop (fuel : nat) (buf : list u8) : st (Disk * D) () (list u8) :=
  match buf, fuel with
  | [], _ => mret []
  | _, O => panic
  | _, S fuel => λ s,
      match disk_read_one buf s with
      | (Ok (n, buf), s) =>
          if n =? 0 then (Ok buf, s)
          else
            (rest ← lift (slice n (len buf) buf);
             rest ← read_exact_loop fuel rest;
             mret (sub 0 n buf ++ rest)) s
      | (Err _, s) => (Err (), s)
      | (Panic, s) => (Panic, s)
      end
  end.

Definition read_exact (buf : list u8) : st (Disk * D) () (list u8) :=
  read_exact_loop (length buf) buf.

(** The loops of [read_ext4_uuid] and [read_fat32_uuid], which count the bytes
    read so far. *)
Fixpoint read_counted (fuel : nat) (size total_read : Z) (data : list u8) :
    st (Disk * D) () (list u8) :=
  if total_read <? size then
    match fuel with
    | O => panic
    | S fuel =>
        window ← lift (slice total_read (len data) data);
        '(n, window) ← (λ s, match disk_read_one window s with
                             | (Ok r, s) => (Ok r, s)
                             | (Err _, s) => (Err (), s)
                             | (Panic, s) => (Panic, s)
                             end);
        let data := splice total_read window data in
        if n =? 0 then mret data
        else
          total_read ← lift (usize_add total_read n);
          read_counted fuel size total_read data
    end
  else mret data.

(** ** File systems *)
Definition is_fat_filesystem (boot_sector : list u8) : bool :=
  if (0x36 + 3 <=? len boot_sector) && bool_decide (sub 0x36 3 boot_sector = FAT_SIGNATURE)
  then true
  else (0x52 + 5 <=? len boot_sector) && bool_decide (sub 0x52 5 boot_sector = FAT32_SIGNATURE).

Definition is_ext4_filesystem {E} (start_lba : Z) : st (Disk * D) E bool :=
  base ← lift (usize_mul start_lba 512);
  superblock_offset ← lift (usize_add base 1024);
  let superblock := zeros 2048 in
  pos ← position;
  set_position superblock_offset;;
  r ← attempt (read_exact superblock);
  let result :=
    match r with
    | None => false
    | Some superblock =>
        if 58 <=? len superblock then from_le_bytes (sub 56 2 superblock) =? 0xEF53 else false
    end in
  set_position pos;;
  mret result.

Definition detect_filesystem_type {E} (start_lba : Z) : st (Disk * D) E (option FilesystemType) :=
  let boot_sector := zeros 512 in
  original_position ← position;
  start ← lift (usize_mul start_lba 512);
  set_position start;;
  r ← attempt (read_exact boot_sector);
  match r with
  | None => set_position original_position;; mret None
  | Some boot_sector =>
      set_position original_position;;
      if is_fat_filesystem boot_sector then mret (Some Fat)
      else
        ext4 ← is_ext4_filesystem start_lba;
        mret (if (ext4 : bool) then Some Ext4 else None)
  end.

(** The text of the ext4 UUID (8-4-4-4-12) and of the FAT volume id. *)
Definition format_ext4_uuid (u : list u8) : string :=
  let hex lo n := str_concat (hex2 false <$> sub lo n u) in
  str_join "-" [hex 0 4; hex 4 2; hex 6 2; hex 8 2; hex 10 6].

Definition format_volume_id (v : list u8) : string :=
  str_concat (hex2 false <$> reverse v).

Definition read_ext4_uuid {E} (starting_lba : Z) : st (Disk * D) E (option string) :=
  base ← lift (usize_mul starting_lba 512);
  superblock_offset ← lift (usize_add base 1024);
  set_position superblock_offset;;
  r ← attempt (read_counted 1024 1024 0 (zeros 1024));
  match r with
  | None => mret None
  | Some superblock_data =>
      if 120 <=? len superblock_data then
        uuid_bytes ← lift (slice 104 120 superblock_data);
        mret (Some (format_ext4_uuid uuid_bytes))
      else mret None
  end.

Definition read_fat32_uuid {E} (starting_lba : Z) : st (Disk * D) E (option string) :=
  boot_sector_offset ← lift (usize_mul starting_lba 512);
  set_position boot_sector_offset;;
  r ← attempt (read_counted 512 512 0 (zeros 512));
  match r with
  | None => mret None
  | Some boot_sector =>
      if 71 <=? len boot_sector then
        volume_id_bytes ← lift (slice 67 71 boot_sector);
        mret (Some (format_volume_id volume_id_bytes))
      else mret None
  end.

Definition read_filesystem_uuid_simple {E} (starting_lba : Z) (fs : FilesystemType) :
    st (Disk * D) E (option string) :=
  match fs with
  | Ext4 => read_ext4_uuid starting_lba
  | Fat => read_fat32_uuid starting_lba
  | Unknown => mret None
  end.

(** ** The partition table *)
Definition parse_header {E} (header_data : list u8) : outcome E GptHeader :=
  entry_lba ← slice 72 80 header_data;
  number ← slice 80 84 header_data;
  size ← slice 84 88 header_data;
  mret (mkGptHeader entry_lba number size).

(** The 36 units of the name; a unit that is not in the entry stays 0. *)
Definition parse_name (entry_data : list u8) : list Z :=
  (λ j, let offset := 56 + j * 2 in
        if offset + 1 <? len entry_data then from_le_bytes (sub offset 2 entry_data) else 0)
  <$> seqZ 0 36.

Definition parse_entry {E} (entry_data : list u8) : outcome E GptPartitionEntry :=
  type_guid ← slice 0 16 entry_data;
  unique_guid ← slice 16 32 entry_data;
  starting_lba ← slice 32 40 entry_data;
  ending_lba ← slice 40 48 entry_data;
  attributes ← slice 48 56 entry_data;
  mret (mkGptPartitionEntry type_guid unique_guid starting_lba ending_lba attributes
          (parse_name entry_data)).

(** The units before the first 0. *)
Fixpoint name_units (l : list Z) : list Z :=
  match l with
  | [] => []
  | u :: l => if u =? 0 then [] else u :: name_units l
  end.

(** One pass of the loop over the entries; [None] is [continue]. *)
Definition gpt_entry {E} (entry_offset size i : Z) : st (Disk * D) E (option PartitionInfo) :=
  current_entry_offset ← lift (usize_add entry_offset (i * size));
  set_position current_entry_offset;;
  r ← attempt (read_exact (zeros size));
  match r with
  | None => mret None
  | Some entry_data =>
      if 128 <=? size then
        entry ← lift (parse_entry entry_data);
        if forallb (λ b, u8_val b =? 0) (e_type_guid entry) then mret None
        else
          let starting_lba := from_le_bytes (e_starting_lba entry) in
          let ending_lba := from_le_bytes (e_ending_lba entry) in
          n ← lift (usize_sub ending_lba starting_lba);
          n ← lift (usize_add n 1);
          bytes ← lift (usize_mul n 512);
          let name := from_utf16_lossy (name_units (e_name entry)) in
          if str_is_empty name then mret None
          else
            fs_type ← detect_filesystem_type starting_lba;
            uuid ← (match fs_type with
                    | Some fs => read_filesystem_uuid_simple starting_lba fs
                    | None => mret None
                    end);
            mret (Some (mkPartitionInfo i name (e_type_guid entry) (e_unique_guid entry) uuid
                          starting_lba ending_lba bytes fs_type))
      else mret None
  end.

(** [for i in ids], collecting the partitions. *)
Fixpoint gpt_entries {E} (entry_offset size : Z) (ids : list Z) :
    st (Disk * D) E (list PartitionInfo) :=
  match ids with
  | [] => mret []
  | i :: ids =>
      p ← gpt_entry entry_offset size i;
      ps ← gpt_entries entry_offset size ids;
      mret (option_list p ++ ps)
  end.

Definition parse_gpt_partitions : st (Disk * D) AxError (list PartitionInfo) :=
  set_position 512;;
  r ← attempt (read_exact (zeros 512));
  match r with
  | None => throw InvalidData
  | Some header_data =>
      signature ← lift (slice 0 8 header_data);
      if bool_decide (signature ≠ GPT_SIGNATURE) then throw InvalidData
      else
        header ← lift (parse_header header_data);
        let number := from_le_bytes (number_of_partition_entries header) in
        let size := from_le_bytes (size_of_partition_entry header) in
        partition_entry_offset ← lift (usize_mul (from_le_bytes (partition_entry_lba header)) 512);
        set_position partition_entry_offset;;
        gpt_entries partition_entry_offset size (seqZ 0 number)
  end.

Definition scan_gpt_partitions : st (Disk * D) AxError (list PartitionInfo) :=
  size ← disk_size;
  if size =? 0 then mret []
  else
    r ← attempt (E' := AxError) parse_gpt_partitions;
    match r with
    | Some ((_ :: _) as partitions) => mret partitions
    | _ =>
        filesystem_type ← detect_filesystem_type 0;
        mret [mkPartitionInfo 0 "disk" (zeros 16) (zeros 16) None 0 (size / 512) size
                filesystem_type]
    end.
End scanner.

(** ** Scanning does not write

    [ro d]: the cursor is well formed, and the device shows what [d] shows. *)
Section read_only.
Context `{OverflowChecks} {D DevError : Type}.
Context `{!BlockDevice D DevError, !BlockDeviceOk D DevError}.

Definition ro (d : D) (s : Disk * D) : Prop :=
  disk_wf s.1 ∧ block_size s.2 = BLOCK_SIZE ∧ shows (dev_bytes d) d s.2.

Implicit Types d : D.

Lemma ro_set_position {E} d pos : pres (E:=E) (ro d) (set_position pos).
Proof. intros [k d'] (_ & ? & ?). split_and!; [apply disk_set_position_wf|done..]. Qed.

Lemma ro_position {E} d : pres (E:=E) (ro d) position.
Proof. by intros s. Qed.

Lemma ro_read_one d buf : pres (ro d) (disk_read_one buf).
Proof.
  intros [k d'] (Hk & Hb & Hd).
  destruct (disk_read_one_run buf k d' Hk Hb) as [(d2 & -> & _ & Hs)|(e & d2 & -> & _ & Hs)];
    unfold ro; simpl in *; (split_and!; [|by destruct Hs as [_ [-> _]]|]).
  - apply disk_set_position_wf.
  - destruct Hd as [Hd ?]. rewrite <-Hd in *. by eapply shows_trans; [split|].
  - done.
  - destruct Hd as [Hd ?]. rewrite <-Hd in *. by eapply shows_trans; [split|].
Qed.
End read_only.

#[export] Hint Resolve ro_set_position ro_position ro_read_one : pres.

Section read_only_scan.
Context `{OverflowChecks} {D DevError : Type}.
Context `{!BlockDevice D DevError, !BlockDeviceOk D DevError}.
Implicit Types d : D.

Lemma ro_read_exact d buf : pres (ro d) (read_exact buf).
Proof.
  unfold read_exact. generalize (length buf). intros fuel. revert buf.
  induction fuel as [|fuel IH]; intros [|b buf] s Hs; [done..|]. cbn [read_exact_loop].
  pose proof (ro_read_one d (b :: buf) s Hs) as Hr.
  destruct (disk_read_one (b :: buf) s) as [[[n buf']|e|] s']; [|done..].
  case_match; [done|]. revert Hr. simpl. generalize s'. clear -IH. fold (pres (ro d) (
    rest ← lift (slice n (len buf') buf'); rest ← read_exact_loop fuel rest;
    mret (sub 0 n buf' ++ rest))). pres_tac.
Qed.

Lemma ro_read_counted d fuel size total data : pres (ro d) (read_counted fuel size total data).
Proof.
  revert total data. induction fuel as [|fuel IH]; intros total data; cbn [read_counted];
    (case_match; [|pres_tac]); [pres_tac|]. apply pres_bind; [pres_tac|]. intros w. apply pres_bind.
  - intros s Hs. pose proof (ro_read_one d w s Hs) as Hr.
    by destruct (disk_read_one w s) as [[] ?].
  - intros [n w']. case_match; [pres_tac|]. apply pres_bind; [pres_tac|]. intros ?. apply IH.
Qed.
End read_only_scan.

#[export] Hint Resolve ro_read_exact ro_read_counted : pres.

Section scan_safe.
Context `{OverflowChecks} {D DevError : Type}.
Context `{!BlockDevice D DevError, !BlockDeviceOk D DevError}.

Lemma ro_detect {E} (d : D) lba : pres (E:=E) (ro d) (detect_filesystem_type lba).
Proof. unfold detect_filesystem_type, is_ext4_filesystem. pres_tac. Qed.

Lemma ro_uuid {E} (d : D) lba fs : pres (E:=E) (ro d) (read_filesystem_uuid_simple lba fs).
Proof. unfold read_filesystem_uuid_simple, read_ext4_uuid, read_fat32_uuid. pres_tac. Qed.

#[local] Hint Resolve ro_detect ro_uuid : pres.

Lemma ro_entries {E} (d : D) off size ids : pres (E:=E) (ro d) (gpt_entries off size ids).
Proof.
  induction ids as [|i ids IH]; cbn [gpt_entries]; [pres_tac|]. apply pres_bind; [|intros ?; pres_tac].
  unfold gpt_entry. pres_tac.
Qed.

#[local] Hint Resolve ro_entries : pres.

Lemma ro_scan (d : D) : pres (ro d) scan_gpt_partitions.
Proof. unfold scan_gpt_partitions, parse_gpt_partitions, disk_size. pres_tac. Qed.
End scan_safe.

(** ** Scanning reads the image

    What reading [n] bytes at [pos] of an image of the disk gives: a device that
    serves its blocks fails exactly when the range leaves the disk. *)
Definition img_read (pos n : Z) (img : list u8) : option (list u8) :=
  if n =? 0 then Some [] else if pos + n <=? len img then Some (sub pos n img) else None.

Lemma img_read_step pos m n img :
  0 ≤ pos → 0 < m ≤ n → pos + m ≤ len img →
  img_read pos n img = (λ rest, sub pos m img ++ rest) <$> img_read (pos + m) (n - m) img.
Proof.
  intros. unfold img_read. rewrite (proj2 (Z.eqb_neq n 0)) by lia.
  destruct (Z.eqb_spec (n - m) 0).
  - rewrite (proj2 (Z.leb_le _ _)) by lia. simpl. rewrite app_nil_r. do 2 f_equal. lia.
  - destruct (Z.leb_spec (pos + n) (len img)).
    + rewrite (proj2 (Z.leb_le _ _)) by lia. simpl. f_equal.
      rewrite <-sub_split by lia. f_equal. lia.
    + by rewrite (proj2 (Z.leb_gt _ _)) by lia.
Qed.

Lemma drop_sub {A} n (l : list A) : 0 ≤ n ≤ len l → drop (Z.to_nat n) l = sub n (len l - n) l.
Proof. intros. unfold sub. rewrite take_ge; [done|]. unfold len in *. rewrite length_drop. lia. Qed.

(** The file system at block [lba] of an image, and its identifier. *)
Definition fs_at (img : list u8) (lba : Z) : option FilesystemType :=
  boot ← img_read (lba * 512) 512 img;
  if is_fat_filesystem boot then Some Fat
  else
    super ← img_read (lba * 512 + 1024) 2048 img;
    if from_le_bytes (sub 56 2 super) =? 0xEF53 then Some Ext4 else None.

Definition uuid_at (img : list u8) (lba : Z) (fs : FilesystemType) : option string :=
  match fs with
  | Fat => boot ← img_read (lba * 512) 512 img; Some (format_volume_id (sub 67 4 boot))
  | Ext4 => super ← img_read (lba * 512 + 1024) 1024 img; Some (format_ext4_uuid (sub 104 16 super))
  | Unknown => None
  end.

Lemma img_read_len pos n img b : 0 ≤ pos → 0 ≤ n → img_read pos n img = Some b → len b = n.
Proof.
  unfold img_read. intros ? ?. destruct (Z.eqb_spec n 0); [by intros [= <-]; subst|].
  destruct (Z.leb_spec (pos + n) (len img)); [|done]. intros [= <-]. by apply sub_len.
Qed.

Lemma sub_app_l {A} n (l1 l2 : list A) : len l1 = n → sub 0 n (l1 ++ l2) = l1.
Proof.
  intros <-. unfold sub, len. change (Z.to_nat 0) with 0%nat. rewrite drop_0.
  by rewrite Nat2Z.id, take_app_length.
Qed.

Lemma slice_app_r {E A} n (l1 l2 : list A) :
  len l1 = n → slice (E:=E) n (len (l1 ++ l2)) (l1 ++ l2) = Ok l2.
Proof.
  intros <-. pose proof (len_nonneg l1). pose proof (len_nonneg l2).
  rewrite slice_ok by (rewrite ?len_app; lia). rewrite sub_app_r, len_app.
  replace (len l1 + len l2 - len l1) with (len l2) by lia. by rewrite sub_all.
Qed.

Section image.
Context `{OverflowChecks} {D DevError : Type}.
Context `{!BlockDevice D DevError, !BlockDeviceOk D DevError, !BlockDeviceReliable D DevError}.

(** [reads m d r]: from any position of the cursor, the code [m] computes [r] on
    a device that shows what [d] shows, and leaves what the device shows alone. *)
Definition reads {E A} (m : st (Disk * D) E A) (d : D) (r : outcome E A) : Prop :=
  ∀ pos d1, in_usize pos → shows (dev_bytes d) d d1 →
  ∃ pos' d2, m (disk_set_position pos, d1) = (r, (disk_set_position pos', d2)) ∧
    in_usize pos' ∧ shows (dev_bytes d) d d2.

Implicit Types d : D.

Lemma reads_lift {E A} d (r : outcome E A) : reads (lift r) d r.
Proof. intros pos d1 ? ?. by exists pos, d1. Qed.

Lemma reads_ret {E A} d (a : A) : reads (E:=E) (mret a) d (Ok a).
Proof. apply reads_lift. Qed.

Lemma reads_throw {E A} d (e : E) : reads (A:=A) (throw e) d (Err e).
Proof. apply reads_lift. Qed.

Lemma reads_bind {E A B} d (m : st (Disk * D) E A) (k : A → st (Disk * D) E B) a r :
  reads m d (Ok a) → reads (k a) d r → reads (m ≫= k) d r.
Proof.
  intros Hm Hk pos d1 Hp Hd. destruct (Hm pos d1 Hp Hd) as (pos2 & d2 & Hr & Hp2 & Hd2).
  destruct (Hk pos2 d2 Hp2 Hd2) as (pos3 & d3 & Hr3 & ? & ?). exists pos3, d3.
  unfold mbind, st_bind. by rewrite Hr.
Qed.

Lemma reads_lift_bind {E A B} d (x : outcome E A) (k : A → st (Disk * D) E B) a r :
  x = Ok a → reads (k a) d r → reads (lift x ≫= k) d r.
Proof. intros ->. apply reads_bind, reads_lift. Qed.

Lemma reads_set_position {E} d pos : in_usize pos → reads (E:=E) (set_position pos) d (Ok ()).
Proof. intros ? p d1 ? ?. by exists pos, d1. Qed.

Lemma reads_position_bind {E A} d (k : Z → st (Disk * D) E A) r :
  (∀ pos, in_usize pos → reads (k pos) d r) → reads (position ≫= k) d r.
Proof.
  intros Hk pos d1 Hp Hd. destruct (Hk pos Hp pos d1 Hp Hd) as (pos2 & d2 & Hr & ?).
  exists pos2, d2. unfold position, get_disk, disk_position, usize_mul, usize_add. st_run. simpl.
  assert (0 ≤ pos / BLOCK_SIZE * BLOCK_SIZE ≤ pos).
  { destruct Hp. pose proof (Z.div_pos pos 512). pose proof (Z.mul_div_le pos 512).
    unfold BLOCK_SIZE. lia. }
  rewrite checked_ok by (unfold in_usize in *; lia). orun.
  pose proof (cursor_set_position pos) as Hc. unfold cursor in Hc; simpl in Hc.
  rewrite Hc, checked_ok by done. done.
Qed.

Lemma reads_attempt {E E' A} d (m : st (Disk * D) E A) (o : option A) (e : E) :
  reads m d (match o with Some a => Ok a | None => Err e end) →
  reads (E:=E') (attempt m) d (Ok o).
Proof.
  intros Hm pos d1 Hp Hd. destruct (Hm pos d1 Hp Hd) as (pos2 & d2 & Hr & ?).
  exists pos2, d2. unfold attempt. rewrite Hr. by destruct o.
Qed.
(** One read of a device that serves its blocks. *)
Lemma read_step buf pos d :
  0 ≤ pos → block_size d = BLOCK_SIZE → 0 < len buf →
  let n := chunk pos (len buf) in
  (pos + n ≤ len (dev_bytes d) ∧ 0 < n ≤ len buf ∧ ∃ d',
     disk_read_one buf (disk_set_position pos, d) =
       (Ok (n, splice 0 (sub pos n (dev_bytes d)) buf), (disk_set_position (pos + n), d')) ∧
     shows (dev_bytes d) d d') ∨
  (len (dev_bytes d) ≤ pos ∧ ∃ e d',
     disk_read_one buf (disk_set_position pos, d) = (Err e, (disk_set_position pos, d')) ∧
     shows (dev_bytes d) d d').
Proof.
  intros Hp Hb Hl n. pose proof (chunk_range pos (len buf)). pose proof (chunk_pos pos (len buf) Hl).
  pose proof (Z.div_mod pos BLOCK_SIZE). pose proof (Z.mod_pos_bound pos BLOCK_SIZE).
  assert (n ≤ BLOCK_SIZE - pos mod BLOCK_SIZE) by (unfold n, chunk; lia).
  rewrite (dev_bytes_len d), Hb.
  destruct (disk_read_at buf pos d Hb) as [(d' & Hr & ? & ?)|(e & d' & Hr & Hf & ?)]; [left|right].
  - split_and!; [unfold BLOCK_SIZE in *; nia|lia|lia|]. by exists d'.
  - split; [|by exists e, d'].
    apply reliable_refused in Hf; [|apply Z.div_pos; unfold BLOCK_SIZE; lia].
    unfold BLOCK_SIZE in *. lia.
Qed.

Lemma img_read_past pos n img : len img ≤ pos → 0 < n → img_read pos n img = None.
Proof.
  intros. unfold img_read. rewrite (proj2 (Z.eqb_neq n 0)) by lia.
  by rewrite (proj2 (Z.leb_gt _ _)) by lia.
Qed.

(** The buffer after a step is the part read followed by the rest. *)
Lemma splice_front n img pos (buf : list u8) :
  0 ≤ pos → 0 ≤ n ≤ len buf → pos + n ≤ len img →
  splice 0 (sub pos n img) buf = sub pos n img ++ drop (Z.to_nat n) buf.
Proof.
  intros. rewrite splice_0. do 2 f_equal.
  pose proof (sub_len pos n img). unfold len in *. lia.
Qed.

Definition img_result (o : option (list u8)) : outcome () (list u8) :=
  match o with Some b => Ok b | None => Err () end.

(** [read_exact] reads all of the buffer or fails. *)
Lemma read_exact_run fuel buf pos d :
  (length buf ≤ fuel)%nat → in_usize pos → block_size d = BLOCK_SIZE →
  ∃ pos' d', read_exact_loop fuel buf (disk_set_position pos, d) =
      (img_result (img_read pos (len buf) (dev_bytes d)), (disk_set_position pos', d')) ∧
    in_usize pos' ∧ shows (dev_bytes d) d d'.
Proof.
  revert buf pos d. induction fuel as [|fuel IH]; intros [|b buf] pos d Hf Hp Hb; simpl in Hf; try lia;
    try (exists pos, d; split_and!; [done..|apply shows_refl]).
  cbn [read_exact_loop]. set (w := b :: buf) in *. assert (Hw : 0 < len w) by (unfold w, len; simpl; lia).
  destruct (read_step w pos d) as [(Hi & Hn & d1 & -> & Hd)|(Hi & e & d1 & -> & Hd)]; [apply Hp|done..| |].
  - set (n := chunk pos (len w)) in *. rewrite (proj2 (Z.eqb_neq n 0)) by lia. destruct Hp as [Hp _].
    rewrite splice_front by lia. set (c := sub pos n (dev_bytes d)).
    assert (Hc : len c = n) by (apply sub_len; lia).
    assert (Hr : len (drop (Z.to_nat n) w) = len w - n) by (unfold len in *; rewrite length_drop; lia).
    st_run. rewrite slice_app_r by done. pose proof (dev_bytes_fit d) as [_ Hfit].
    destruct (IH (drop (Z.to_nat n) w) (pos + n) d1) as (pos2 & d2 & -> & Hp2 & Hd2).
    { rewrite length_drop. unfold w, len in *; simpl in *. lia. }
    { unfold in_usize. lia. }
    { destruct Hd as [_ [-> _]]. done. }
    pose proof Hd as [Hbs _]. rewrite Hbs, Hr in *. rewrite (img_read_step pos n (len w)) by lia.
    exists pos2, d2. split_and!; [|done|by eapply shows_trans].
    destruct (img_read (pos + n) (len w - n) (dev_bytes d)); [|done].
    cbn [img_result fmap option_fmap option_map]. by rewrite sub_app_l.
  - exists pos, d1. by rewrite img_read_past.
Qed.
(** The counting loops read the same. *)
Lemma read_counted_run fuel size total data pos d :
  len data = size → 0 ≤ total ≤ size → size - total ≤ Z.of_nat fuel → size ≤ usize_max →
  in_usize pos → block_size d = BLOCK_SIZE →
  ∃ pos' d', read_counted fuel size total data (disk_set_position pos, d) =
      (img_result ((λ b, sub 0 total data ++ b) <$> img_read pos (size - total) (dev_bytes d)),
       (disk_set_position pos', d')) ∧
    in_usize pos' ∧ shows (dev_bytes d) d d'.
Proof.
  revert total data pos d. induction fuel as [|fuel IH]; intros total data pos d Hl Ht Hf Hu Hp Hb;
    cbn [read_counted]; destruct (Z.ltb_spec total size); try lia.
  1,3: exists pos, d; replace total with size by lia; rewrite Z.sub_diag, <-Hl; simpl;
    rewrite sub_all, app_nil_r; split_and!; [done..|apply shows_refl].
  st_run. rewrite slice_ok by lia. set (w := sub total (len data - total) data).
  assert (Hw : len w = size - total) by (unfold w; rewrite sub_len; lia).
  destruct (read_step w pos d) as [(Hi & Hn & d1 & -> & Hd)|(Hi & e & d1 & -> & Hd)];
    [apply Hp|done|lia| |].
  - set (n := chunk pos (len w)) in *. rewrite (proj2 (Z.eqb_neq n 0)) by lia. destruct Hp as [Hp _].
    unfold usize_add. rewrite checked_ok by (unfold in_usize; lia).
    set (c := sub pos n (dev_bytes d)). assert (Hc : len c = n) by (apply sub_len; lia).
    assert (He : splice total (splice 0 c w) data = splice total c data).
    { unfold w. rewrite splice_sub by lia. f_equal. lia. }
    rewrite He. pose proof (dev_bytes_fit d) as [_ Hfit].
    destruct (IH (total + n) (splice total c data) (pos + n) d1) as (pos2 & d2 & -> & Hp2 & Hd2);
      [rewrite splice_len; lia|lia..|unfold in_usize; lia|by destruct Hd as [_ [-> _]]|].
    pose proof Hd as [Hbs _]. rewrite Hbs in *.
    exists pos2, d2. split_and!; [|done|by eapply shows_trans]. do 2 f_equal.
    rewrite (img_read_step pos n (size - total)) by lia.
    replace (size - (total + n)) with (size - total - n) by lia.
    destruct (img_read (pos + n) (size - total - n) (dev_bytes d)); [|done]. simpl. f_equal.
    rewrite app_assoc. f_equal. rewrite sub_split by lia. rewrite Z.add_0_l. f_equal.
    + apply list_eq. intros i. rewrite !lookup_sub, lookup_splice by lia.
      repeat case_bool_decide; try lia; done.
    + replace (sub total n (splice total c data)) with (sub total n (splice (total + 0) c data))
        by (do 2 f_equal; lia).
      rewrite sub_splice by lia. apply splice_all.
      transitivity n; [exact Hc|symmetry; apply sub_len; lia].
  - exists pos, d1. by rewrite img_read_past by lia.
Qed.

Section scan_image.
Context (d : D) (Hd : block_size d = BLOCK_SIZE).

Lemma shows_block_size d1 : shows (dev_bytes d) d d1 → block_size d1 = BLOCK_SIZE.
Proof. intros [_ [-> _]]. done. Qed.

Lemma reads_at {E A} pos buf n (k : option (list u8) → st (Disk * D) E A) r :
  in_usize pos → len buf = n → reads (k (img_read pos n (dev_bytes d))) d r →
  reads (set_position pos;; o ← attempt (read_exact buf); k o) d r.
Proof.
  intros Hp <- Hk p0 d1 _ Hd1.
  destruct (read_exact_run (length buf) buf pos d1) as (p2 & d2 & Hr & Hp2 & Hd2);
    [done..|by apply shows_block_size|]. pose proof Hd1 as [Hbs _]. rewrite Hbs in *.
  destruct (Hk p2 d2) as (p3 & d3 & Hk3 & ?); [done|by eapply shows_trans|].
  exists p3, d3. unfold mbind, st_bind, set_position, set_disk, modify, attempt, read_exact.
  rewrite Hr. by destruct (img_read _ _ _).
Qed.

Lemma reads_counted_at {E A} pos n (k : option (list u8) → st (Disk * D) E A) r :
  in_usize pos → in_usize n → reads (k (img_read pos n (dev_bytes d))) d r →
  reads (set_position pos;; o ← attempt (read_counted (Z.to_nat n) n 0 (zeros n)); k o) d r.
Proof.
  intros Hp [? ?] Hk p0 d1 _ Hd1.
  destruct (read_counted_run (Z.to_nat n) n 0 (zeros n) pos d1) as (p2 & d2 & Hr & Hp2 & Hd2);
    [by apply len_replicate|lia|lia|done|done|by apply shows_block_size|].
  pose proof Hd1 as [Hbs _]. rewrite Hbs, Z.sub_0_r in *.
  destruct (Hk p2 d2) as (p3 & d3 & Hk3 & ?); [done|by eapply shows_trans|].
  exists p3, d3. unfold mbind, st_bind, set_position, set_disk, modify, attempt.
  rewrite Hr. by destruct (img_read _ _ _).
Qed.
(** The partition that starts at [lba] begins at an offset that fits. *)
Definition lba_fits (lba : Z) : Prop := 0 ≤ lba ∧ lba * 512 + 1024 ≤ usize_max.

Lemma is_ext4_reads {E} lba :
  lba_fits lba →
  reads (E:=E) (is_ext4_filesystem lba) d
    (Ok (match img_read (lba * 512 + 1024) 2048 (dev_bytes d) with
         | Some super => from_le_bytes (sub 56 2 super) =? 0xEF53
         | None => false
         end)).
Proof.
  intros [? ?]. unfold is_ext4_filesystem, usize_mul, usize_add.
  eapply reads_lift_bind; [apply checked_ok; unfold in_usize; lia|].
  eapply reads_lift_bind; [apply checked_ok; unfold in_usize; lia|].
  apply reads_position_bind. intros pos Hp. apply (reads_at _ _ 2048); [unfold in_usize; lia|done|].
  eapply reads_bind; [by apply reads_set_position|].
  destruct (img_read _ _ _) as [super|] eqn:Hs; [|apply reads_ret].
  apply img_read_len in Hs; [|lia..]. rewrite Hs. apply reads_ret.
Qed.

Lemma detect_reads {E} lba :
  lba_fits lba → reads (E:=E) (detect_filesystem_type lba) d (Ok (fs_at (dev_bytes d) lba)).
Proof.
  intros Hl. pose proof Hl as [? ?]. unfold detect_filesystem_type, usize_mul, fs_at.
  apply reads_position_bind. intros pos Hp.
  eapply reads_lift_bind; [apply checked_ok; unfold in_usize; lia|].
  apply (reads_at _ _ 512); [unfold in_usize; lia|done|].
  destruct (img_read (lba * 512) 512 _) as [boot|];
    (eapply reads_bind; [by apply reads_set_position|]); [|apply reads_ret]. simpl.
  destruct (is_fat_filesystem boot); [apply reads_ret|].
  eapply reads_bind; [by apply is_ext4_reads|].
  destruct (img_read _ _ _); simpl; [|apply reads_ret]. destruct (_ =? _); apply reads_ret.
Qed.

Lemma uuid_reads {E} lba fs :
  lba_fits lba →
  reads (E:=E) (read_filesystem_uuid_simple lba fs) d (Ok (uuid_at (dev_bytes d) lba fs)).
Proof.
  intros [? ?]. unfold read_filesystem_uuid_simple, uuid_at, usize_mul, usize_add.
  destruct fs; [| |apply reads_ret].
  - unfold read_fat32_uuid, usize_mul.
    eapply reads_lift_bind; [apply checked_ok; unfold in_usize; lia|].
    apply (reads_counted_at _ 512); [unfold in_usize; lia|by vm_compute|].
    destruct (img_read _ _ _) as [b|] eqn:Hs; [|apply reads_ret].
    apply img_read_len in Hs; [|lia..]. rewrite Hs. cbn [Z.leb Z.compare Pos.compare Pos.compare_cont].
    eapply reads_lift_bind; [apply slice_ok; lia|apply reads_ret].
  - unfold read_ext4_uuid, usize_mul, usize_add.
    eapply reads_lift_bind; [apply checked_ok; unfold in_usize; lia|].
    eapply reads_lift_bind; [apply checked_ok; unfold in_usize; lia|].
    apply (reads_counted_at _ 1024); [unfold in_usize; lia|by vm_compute|].
    destruct (img_read _ _ _) as [b|] eqn:Hs; [|apply reads_ret].
    apply img_read_len in Hs; [|lia..]. rewrite Hs. cbn [Z.leb Z.compare Pos.compare Pos.compare_cont].
    eapply reads_lift_bind; [apply slice_ok; lia|apply reads_ret].
Qed.
End scan_image.
End image.

(** ** Formatted disks

    How a partitioning tool lays out a table: the little-endian encoding of the
    integers, and the 128 bytes of an entry. *)
Fixpoint to_le_bytes (n : nat) (v : Z) : list u8 :=
  match n with O => [] | S n => u8_of v :: to_le_bytes n (v / 256) end.

Record gpt_part : Type := mkGptPart {
  g_type : list u8;
  g_unique : list u8;
  g_first : Z;
  g_last : Z;
  g_attributes : list u8;
  g_name : list Z;
}.

Definition padded_name (p : gpt_part) : list Z :=
  g_name p ++ replicate (36 - length (g_name p)) 0.

Definition encode_entry (p : gpt_part) : list u8 :=
  g_type p ++ g_unique p ++ to_le_bytes 8 (g_first p) ++ to_le_bytes 8 (g_last p) ++
  g_attributes p ++ (padded_name p ≫= to_le_bytes 2).

Definition unused (p : gpt_part) : bool := forallb (λ b, u8_val b =? 0) (g_type p).

(** The fields have their widths. *)
Definition gpt_fields_ok (p : gpt_part) : Prop :=
  len (g_type p) = 16 ∧ len (g_unique p) = 16 ∧ len (g_attributes p) = 8 ∧
  0 ≤ g_first p < 2 ^ 64 ∧ 0 ≤ g_last p < 2 ^ 64 ∧
  (length (g_name p) ≤ 36)%nat ∧ Forall (λ u, 0 < u < 65536) (g_name p).

(** A partition in use has its bounds in order and inside the range of byte
    offsets. *)
Definition gpt_bounds_ok (p : gpt_part) : Prop :=
  unused p = false → g_first p ≤ g_last p ∧ (g_last p + 3) * 512 ≤ usize_max.

Lemma from_le_bytes_range l : 0 ≤ from_le_bytes l < 256 ^ len l.
Proof.
  induction l as [|b l IH]; [done|]. cbn [from_le_bytes]. pose proof (u8_val_range b).
  replace (len (b :: l)) with (Z.succ (len l)) by (unfold len; simpl; lia).
  rewrite Z.pow_succ_r by apply len_nonneg. lia.
Qed.

Lemma from_to_le_bytes n v : 0 ≤ v < 256 ^ Z.of_nat n → from_le_bytes (to_le_bytes n v) = v.
Proof.
  revert v. induction n as [|n IH]; intros v Hv; [simpl in *; lia|].
  cbn [to_le_bytes from_le_bytes]. rewrite Nat2Z.inj_succ, Z.pow_succ_r in Hv by lia.
  pose proof (Z.div_mod v 256). rewrite u8_val_of, IH; [lia|].
  split; [apply Z.div_pos; lia|apply Z.div_lt_upper_bound; lia].
Qed.

Lemma to_le_bytes_len n v : len (to_le_bytes n v) = Z.of_nat n.
Proof.
  revert v. induction n as [|n IH]; intros v; [done|]. cbn [to_le_bytes].
  specialize (IH (v / 256)). unfold len in *. simpl length. lia.
Qed.

Lemma sub_app_skip {A} k lo n (l1 l2 : list A) :
  len l1 = k → k ≤ lo → sub lo n (l1 ++ l2) = sub (lo - k) n l2.
Proof.
  intros <- ?. unfold sub, len in *. rewrite drop_app_ge by lia. do 2 f_equal. lia.
Qed.

Lemma units_sub us j u :
  us !! j = Some u → sub (Z.of_nat j * 2) 2 (us ≫= to_le_bytes 2) = to_le_bytes 2 u.
Proof.
  revert j. induction us as [|u' us IH]; intros [|j] Hu; try done; rewrite bind_cons.
  - injection Hu as ->. change (Z.of_nat 0 * 2) with 0. by apply sub_app_l.
  - rewrite (sub_app_skip 2) by (done || lia).
    replace (Z.of_nat (S j) * 2 - 2) with (Z.of_nat j * 2) by lia. by apply IH.
Qed.

Lemma padded_name_length p : (length (g_name p) ≤ 36)%nat → length (padded_name p) = 36%nat.
Proof. intros. unfold padded_name. rewrite length_app, length_replicate. lia. Qed.

Lemma padded_name_range p j u : gpt_fields_ok p → padded_name p !! j = Some u → 0 ≤ u < 65536.
Proof.
  intros (_ & _ & _ & _ & _ & _ & Hn) Hu. apply lookup_app_Some in Hu as [Hu|[_ Hu]].
  - rewrite Forall_lookup in Hn. specialize (Hn _ _ Hu). simpl in Hn. lia.
  - apply lookup_replicate in Hu as [-> _]. lia.
Qed.

Lemma units_len us : len (us ≫= to_le_bytes 2) = 2 * len us.
Proof.
  induction us as [|u us IH]; [done|]. rewrite bind_cons, len_app, to_le_bytes_len, IH.
  unfold len. rewrite length_cons. lia.
Qed.

Lemma name_units_padded us n : Forall (λ u, 0 < u < 65536) us → name_units (us ++ replicate n 0) = us.
Proof.
  induction 1 as [|u us Hu _ IH]; simpl; [by destruct n|].
  rewrite (proj2 (Z.eqb_neq u 0)) by lia. by rewrite IH.
Qed.

Lemma encode_entry_len p : gpt_fields_ok p → len (encode_entry p) = 128.
Proof.
  intros (Ht & Hu & Ha & _ & _ & Hn & _). unfold encode_entry.
  rewrite !len_app, !to_le_bytes_len, units_len, Ht, Hu, Ha. unfold len.
  by rewrite padded_name_length.
Qed.

(** Finds a field of a record by the lengths of the fields before it. *)
Ltac sub_field :=
  unfold encode_entry;
  repeat (erewrite sub_app_skip; [|eassumption|lia]);
  match goal with |- sub ?lo _ _ = _ => replace lo with 0 by lia end;
  apply sub_app_l; lia.

(** Parsing an entry gives back what was laid out, whatever follows in the
    entry. *)
Lemma parse_encode_entry {E} p data :
  gpt_fields_ok p → sub 0 128 data = encode_entry p →
  parse_entry (E:=E) data =
    Ok (mkGptPartitionEntry (g_type p) (g_unique p) (to_le_bytes 8 (g_first p))
          (to_le_bytes 8 (g_last p)) (g_attributes p) (padded_name p)).
Proof.
  intros Hp Hs. pose proof (encode_entry_len p Hp) as Hl.
  assert (Hd : 128 ≤ len data).
  { rewrite <-Hs in Hl. unfold sub, len in *. rewrite length_take, length_drop in Hl. lia. }
  assert (Hsub : ∀ lo n, 0 ≤ lo → 0 ≤ n → lo + n ≤ 128 → sub lo n data = sub lo n (encode_entry p)).
  { intros. rewrite <-Hs, sub_sub by lia. done. }
  pose proof Hp as (Ht & Hu & Ha & Hf & Hla & Hn & _).
  pose proof (to_le_bytes_len 8 (g_first p)). pose proof (to_le_bytes_len 8 (g_last p)).
  unfold parse_entry. rewrite !slice_ok by lia. orun. rewrite !Hsub by lia.
  assert (sub 0 (16 - 0) (encode_entry p) = g_type p) as -> by sub_field.
  assert (sub 16 (32 - 16) (encode_entry p) = g_unique p) as -> by sub_field.
  assert (sub 32 (40 - 32) (encode_entry p) = to_le_bytes 8 (g_first p)) as -> by sub_field.
  assert (sub 40 (48 - 40) (encode_entry p) = to_le_bytes 8 (g_last p)) as -> by sub_field.
  assert (sub 48 (56 - 48) (encode_entry p) = g_attributes p) as -> by sub_field.
  do 2 f_equal. apply list_eq. intros j. unfold parse_name. rewrite list_lookup_fmap.
  destruct (decide (j < 36)%nat) as [Hj|Hj].
  - rewrite lookup_seqZ_lt by lia. cbn [fmap option_fmap option_map].
    destruct (Z.ltb_spec (56 + (0 + Z.of_nat j) * 2 + 1) (len data)); [|lia].
    rewrite Hsub by lia. unfold encode_entry.
    do 5 (erewrite sub_app_skip; [|eassumption|lia]).
    destruct (lookup_lt_is_Some_2 (padded_name p) j) as [u Hju]; [by rewrite padded_name_length|].
    match goal with |- context [sub ?lo 2 _] => replace lo with (Z.of_nat j * 2) by lia end.
    rewrite (units_sub _ _ u) by done. rewrite Hju, from_to_le_bytes; [done|].
    change (256 ^ Z.of_nat 2) with 65536. by eapply padded_name_range.
  - rewrite lookup_seqZ_ge by lia. simpl. symmetry. apply lookup_ge_None_2.
    rewrite padded_name_length; lia.
Qed.

(** What the scanner reports for entry [i]: nothing for an entry that is not in
    use or has no name. *)
Definition describe (img : list u8) (i : Z) (p : gpt_part) : option PartitionInfo :=
  if unused p || is_empty (g_name p) then None
  else
    let fs := fs_at img (g_first p) in
    Some (mkPartitionInfo i (from_utf16_lossy (g_name p)) (g_type p) (g_unique p)
            (fs ≫= uuid_at img (g_first p)) (g_first p) (g_last p)
            ((g_last p - g_first p + 1) * 512) fs).

(** The partitions of a table whose entries start with number [i]. *)
Fixpoint describe_all (img : list u8) (i : Z) (ps : list gpt_part) : list PartitionInfo :=
  match ps with
  | [] => []
  | p :: ps => option_list (describe img i p) ++ describe_all img (i + 1) ps
  end.

(** Entry [i] of the table at byte [off]. *)
Definition entry_at (img : list u8) (off size i : Z) (p : gpt_part) : Prop :=
  gpt_fields_ok p ∧ gpt_bounds_ok p ∧
  off + (i + 1) * size ≤ len img ∧ sub (off + i * size) 128 img = encode_entry p.

(** The header announces [n] entries of [size] bytes from block [lba] on. *)
Definition gpt_header (img : list u8) (lba size n : Z) : Prop :=
  1024 ≤ len img ∧ sub 512 8 img = GPT_SIGNATURE ∧
  from_le_bytes (sub (512 + 72) 8 img) = lba ∧
  from_le_bytes (sub (512 + 80) 4 img) = n ∧
  from_le_bytes (sub (512 + 84) 4 img) = size ∧ 128 ≤ size ∧ lba * 512 ≤ len img.

(** The image carries a table with the entries [ps]. *)
Definition gpt_formatted (img : list u8) (lba size : Z) (ps : list gpt_part) : Prop :=
  gpt_header img lba size (len ps) ∧
  ∀ i p, ps !! i = Some p → entry_at img (lba * 512) size (Z.of_nat i) p.

Lemma encode_utf8_nonempty c : encode_utf8 c ≠ [].
Proof. unfold encode_utf8. by repeat case_match. Qed.

Lemma from_utf16_lossy_empty l : str_is_empty (from_utf16_lossy l) = is_empty l.
Proof.
  destruct l as [|u l]; [done|]. unfold from_utf16_lossy.
  assert (∃ c cs, decode_utf16 (u :: l) = c :: cs) as (c & cs & ->).
  { cbn [decode_utf16]. repeat case_match; eauto. }
  rewrite bind_cons. pose proof (encode_utf8_nonempty c). by destruct (encode_utf8 c).
Qed.

Section formatted.
Context `{OverflowChecks} {D DevError : Type}.
Context `{!BlockDevice D DevError, !BlockDeviceOk D DevError, !BlockDeviceReliable D DevError}.
Context (d : D) (Hd : block_size d = BLOCK_SIZE).

Lemma entry_reads {E} off size i p :
  0 ≤ off → 0 ≤ i → 128 ≤ size → entry_at (dev_bytes d) off size i p →
  reads (E:=E) (gpt_entry off size i) d (Ok (describe (dev_bytes d) i p)).
Proof.
  intros Ho Hi Hs (Hp & Hb & Hin & He). pose proof (dev_bytes_fit d) as [_ Hfit].
  unfold gpt_entry, usize_add, usize_sub, usize_mul.
  eapply reads_lift_bind; [apply checked_ok; unfold in_usize; nia|].
  apply (reads_at d Hd _ _ size); [unfold in_usize; nia|apply len_replicate; lia|].
  unfold img_read. rewrite (proj2 (Z.eqb_neq size 0)) by lia.
  rewrite (proj2 (Z.leb_le _ _)) by nia. rewrite (proj2 (Z.leb_le 128 size)) by lia.
  eapply reads_lift_bind.
  { apply (parse_encode_entry p); [done|]. rewrite sub_sub by nia. by rewrite Z.add_0_r. }
  cbn [e_type_guid e_unique_guid e_starting_lba e_ending_lba e_name].
  unfold describe. fold (unused p). destruct (unused p) eqn:Hu; [apply reads_ret|].
  destruct Hp as (_ & _ & _ & Hf & Hl & _ & Hn). destruct (Hb Hu) as [Hfl Hbound].
  rewrite !from_to_le_bytes by (change (256 ^ Z.of_nat 8) with (2 ^ 64); lia).
  eapply reads_lift_bind; [apply checked_ok; unfold in_usize; lia|].
  eapply reads_lift_bind; [apply checked_ok; unfold in_usize; lia|].
  eapply reads_lift_bind; [apply checked_ok; unfold in_usize; lia|].
  unfold padded_name. rewrite name_units_padded by done. rewrite from_utf16_lossy_empty.
  destruct (is_empty (g_name p)); [apply reads_ret|]. simpl.
  assert (lba_fits (g_first p)) by (unfold lba_fits; lia).
  eapply reads_bind; [by apply detect_reads|].
  destruct (fs_at (dev_bytes d) (g_first p)) as [fs|].
  - eapply reads_bind; [by apply uuid_reads|]. apply reads_ret.
  - eapply reads_bind; apply reads_ret.
Qed.

Lemma entries_reads {E} off size i ps :
  0 ≤ off → 0 ≤ i → 128 ≤ size →
  (∀ j p, ps !! j = Some p → entry_at (dev_bytes d) off size (i + Z.of_nat j) p) →
  reads (E:=E) (gpt_entries off size (seqZ i (len ps))) d (Ok (describe_all (dev_bytes d) i ps)).
Proof.
  intros Ho Hi Hs. revert i Hi. induction ps as [|p ps IH]; intros i Hi He; [apply reads_ret|].
  replace (len (p :: ps)) with (Z.succ (len ps)) by (unfold len; simpl; lia).
  rewrite seqZ_cons by (pose proof (len_nonneg ps); lia). rewrite Z.pred_succ.
  cbn [gpt_entries describe_all].
  eapply reads_bind.
  { apply (entry_reads _ _ _ p); [done..|]. specialize (He 0%nat p eq_refl).
    by rewrite Z.add_0_r in He. }
  eapply reads_bind; [|apply reads_ret]. rewrite <-Z.add_1_r. apply IH; [lia|].
  intros j q Hq. specialize (He (S j) q Hq). by replace (i + 1 + Z.of_nat j) with (i + Z.of_nat (S j)) by lia.
Qed.

(** The whole disk as one partition. *)
Definition whole_disk (img : list u8) : PartitionInfo :=
  mkPartitionInfo 0 "disk" (zeros 16) (zeros 16) None 0 (len img / 512) (len img) (fs_at img 0).

Lemma header_reads lba size n r :
  gpt_header (dev_bytes d) lba size n →
  (0 ≤ lba → reads (gpt_entries (lba * 512) size (seqZ 0 n)) d r) →
  reads parse_gpt_partitions d r.
Proof.
  intros (Hl & Hsig & Hlba & Hnum & Hsize & Hs & Hoff) He. pose proof (dev_bytes_fit d) as [_ Hfit].
  unfold parse_gpt_partitions, usize_mul.
  apply (reads_at d Hd _ _ 512); [by vm_compute|done|]. unfold img_read.
  rewrite (proj2 (Z.eqb_neq 512 0)) by done. rewrite (proj2 (Z.leb_le _ _)) by lia.
  set (h := sub 512 512 (dev_bytes d)).
  assert (Hh : len h = 512) by (apply sub_len; lia).
  assert (Hsub : ∀ lo n, 0 ≤ lo → 0 ≤ n → lo + n ≤ 512 → sub lo n h = sub (512 + lo) n (dev_bytes d))
    by (intros; unfold h; by rewrite sub_sub by lia).
  eapply reads_lift_bind; [apply slice_ok; lia|]. rewrite Hsub by lia.
  change (512 + 0) with 512. change (8 - 0) with 8. rewrite Hsig.
  rewrite bool_decide_false by (intros Hne; by apply Hne).
  eapply reads_lift_bind.
  { unfold parse_header. rewrite !slice_ok by lia. orun. by rewrite !Hsub by lia. }
  cbn [partition_entry_lba number_of_partition_entries size_of_partition_entry].
  change (80 - 72) with 8. change (84 - 80) with 4. change (88 - 84) with 4.
  rewrite Hlba, Hnum, Hsize.
  assert (0 ≤ lba) by (rewrite <-Hlba; apply from_le_bytes_range).
  assert (in_usize (lba * 512)) by (unfold in_usize; lia).
  eapply reads_lift_bind; [by apply checked_ok|].
  eapply reads_bind; [by apply reads_set_position|]. by apply He.
Qed.

Lemma parse_reads lba size ps :
  gpt_formatted (dev_bytes d) lba size ps →
  reads parse_gpt_partitions d (Ok (describe_all (dev_bytes d) 0 ps)).
Proof.
  intros [Hh He]. pose proof Hh as (_ & _ & _ & _ & _ & Hs & _).
  apply (header_reads lba size (len ps)); [done|]. intros Hlba. apply entries_reads; [lia..|].
  intros j p Hj. by apply He.
Qed.
Lemma disk_size_reads {E} : reads (E:=E) disk_size d (Ok (len (dev_bytes d))).
Proof.
  intros pos d1 Hp Hd1. exists pos, d1. split_and!; [|done..].
  unfold disk_size, usize_mul. st_run. simpl. destruct Hd1 as [Hb [Hs Hn]].
  rewrite Hn, <-Hd, <-dev_bytes_len, checked_ok; [done|apply dev_bytes_fit].
Qed.

Lemma scan_reads r :
  dev_bytes d ≠ [] →
  reads (attempt (E':=AxError) parse_gpt_partitions) d (Ok r) →
  reads scan_gpt_partitions d
    (Ok (match r with Some (p :: ps) => p :: ps | _ => [whole_disk (dev_bytes d)] end)).
Proof.
  intros Hne Hr. unfold scan_gpt_partitions. eapply reads_bind; [apply disk_size_reads|].
  destruct (Z.eqb_spec (len (dev_bytes d)) 0) as [Hz|_].
  { destruct (dev_bytes d); [done|]. unfold len in Hz. simpl in Hz. lia. }
  eapply reads_bind; [done|]. destruct r as [[|p ps]|]; [|apply reads_ret|];
    (eapply reads_bind; [by apply detect_reads; [|vm_compute]|apply reads_ret]).
Qed.

(** C25: Scanning a disk that carries a GPT finds what the partitioning tool put
    there: the entries in use, in order, with their numbers, names, identifiers,
    bounds and sizes, and with the file system that is in their first sectors.
    Entries without a name are left out; when nothing is left, the whole disk is
    the one partition.  The bytes of the disk are as before. *)
Theorem scan_finds_partitions pos lba size ps :
  in_usize pos → gpt_formatted (dev_bytes d) lba size ps →
  ∃ pos' d', scan_gpt_partitions (disk_set_position pos, d) =
      (Ok (match describe_all (dev_bytes d) 0 ps with
           | [] => [whole_disk (dev_bytes d)]
           | l => l
           end), (disk_set_position pos', d')) ∧
    dev_bytes d' = dev_bytes d.
Proof.
  intros Hp Hg. assert (Hne : dev_bytes d ≠ []).
  { destruct Hg as [[Hl _] _]. intros Hn. by rewrite Hn in Hl. }
  pose proof (parse_reads lba size ps Hg) as Hr.
  destruct (scan_reads (Some (describe_all (dev_bytes d) 0 ps)) Hne) with pos d
    as (pos' & d' & Hs & _ & [Hb _]); [by apply (reads_attempt _ _ (Some _) InvalidData)|done|apply shows_refl|].
  exists pos', d'. split; [|done]. rewrite Hs. by destruct (describe_all _ _ _).
Qed.

Lemma parse_unsigned :
  sub 512 8 (dev_bytes d) ≠ GPT_SIGNATURE → reads parse_gpt_partitions d (Err InvalidData).
Proof.
  intros Hsig. unfold parse_gpt_partitions. apply (reads_at d Hd _ _ 512); [by vm_compute|done|].
  unfold img_read. rewrite (proj2 (Z.eqb_neq 512 0)) by done.
  destruct (Z.leb_spec (512 + 512) (len (dev_bytes d))); [|apply reads_throw].
  eapply reads_lift_bind; [apply slice_ok; rewrite ?sub_len; lia|]. rewrite sub_sub by lia.
  change (512 + 0) with 512. change (8 - 0) with 8. rewrite bool_decide_true by done.
  apply reads_throw.
Qed.

(** A disk without a GPT is reported as one partition that ends one block
    past the disk ([ending_lba] is inclusive everywhere else): the partition
    made from it is 512 bytes longer than the disk, and a read at the end of the
    disk is passed to the device and fails instead of returning 0. *)
Theorem whole_disk_partition_overruns pos k buf :
  in_usize pos → dev_bytes d ≠ [] → sub 512 8 (dev_bytes d) ≠ GPT_SIGNATURE →
  len (dev_bytes d) + 512 ≤ usize_max → buf ≠ [] →
  ∃ pos' d' info, scan_gpt_partitions (disk_set_position pos, d) =
      (Ok [info], (disk_set_position pos', d')) ∧
    let p := partition_new k (pi_starting_lba info) (pi_ending_lba info) in
    partition_size (E:=DevError) p = Ok (len (dev_bytes d) + 512) ∧
    ∃ p' e s, partition_set_position (E:=DevError) (len (dev_bytes d)) p = Ok p' ∧
      partition_read_one buf (p', d') = (Err e, s).
Proof.
  intros Hp Hne Hsig Hfit Hbuf.
  destruct (scan_reads None Hne) with pos d as (pos' & d' & Hs & _ & Hsh);
    [by apply (reads_attempt _ _ None InvalidData), parse_unsigned|done|apply shows_refl|].
  exists pos', d', (whole_disk (dev_bytes d)). split; [done|]. pose proof Hsh as [Hb [Hs' Hn]].
  set (p := partition_new _ _ _). pose proof (dev_bytes_len d) as Hlen. rewrite Hd in Hlen.
  assert (He : end_lba p = num_blocks d).
  { simpl. rewrite Hlen. apply Z.div_mul. done. }
  pose proof (num_blocks_nonneg d) as Hnn.
  assert (Hsz : part_size p = len (dev_bytes d) + 512).
  { unfold part_size. rewrite He, Hlen. simpl. unfold BLOCK_SIZE. lia. }
  assert (Hwf : part_wf p).
  { unfold part_wf. rewrite Hsz, He. simpl. unfold BLOCK_SIZE in *. lia. }
  split; [by rewrite partition_size_run, Hsz|].
  rewrite partition_set_position_run by done. rewrite Hsz, Z.min_l by lia.
  set (p' := mkPartition _ _ _ _).
  assert (Hwf' : part_wf p') by (unfold part_wf, part_size in *; simpl in *; lia).
  exists p'.
  assert (Hc : 0 < part_chunk p' (len buf)).
  { apply chunk_pos. destruct buf; [done|]. unfold len, part_size in *; simpl in *. lia. }
  destruct (partition_read_one_run buf p' d') as [(p2 & d2 & _ & _ & _ & [?|Hr])|(e & p2 & d2 & Hr & _)];
    [done|by rewrite Hs'|lia| |by eauto].
  exfalso. revert Hr. unfold part_base; simpl. rewrite Hn, Hlen, Z.add_0_l, Z.div_mul by done. lia.
Qed.
End formatted.

(** ** Names are text *)
Definition is_scalar (c : Z) : Prop := 0 ≤ c < 0xD800 ∨ 0xE000 ≤ c < 0x110000.

Lemma byte_of_ascii n : 0 ≤ n < 256 → byte_of (ascii_of_byte n) = n.
Proof.
  intros. unfold byte_of, ascii_of_byte. rewrite N_ascii_embedding by lia. lia.
Qed.

Lemma in_range_byte lo hi n :
  0 ≤ n < 256 → lo ≤ n ≤ hi → in_range lo hi (ascii_of_byte n) = true.
Proof. intros. unfold in_range. rewrite byte_of_ascii by done. by apply bool_decide_eq_true. Qed.

Lemma not_in_range_byte n : 128 ≤ n < 256 → in_range 0 127 (ascii_of_byte n) = false.
Proof. intros. unfold in_range. rewrite byte_of_ascii by lia. apply bool_decide_eq_false. lia. Qed.

Lemma utf8_one b rest :
  0 ≤ b < 128 → utf8_from None (String (ascii_of_byte b) rest) = utf8_from None rest.
Proof. intros. cbn [utf8_from]. by rewrite in_range_byte by lia. Qed.

Lemma utf8_next b lo hi n rest :
  0 ≤ b < 256 → lo ≤ b ≤ hi →
  utf8_from (Some (lo, hi, n)) (String (ascii_of_byte b) rest) =
    utf8_from (match n with O => None | S n => Some (0x80, 0xBF, n) end) rest.
Proof. intros. cbn [utf8_from]. by rewrite in_range_byte. Qed.

(** The start of a longer character, by the value of the lead byte. *)
Lemma utf8_lead b rest :
  0xC2 ≤ b ≤ 0xF4 →
  ∃ lo hi n, utf8_from None (String (ascii_of_byte b) rest) = utf8_from (Some (lo, hi, n)) rest ∧
    lo = (if b =? 0xE0 then 0xA0 else if b =? 0xF0 then 0x90 else 0x80) ∧
    hi = (if b =? 0xED then 0x9F else if b =? 0xF4 then 0x8F else 0xBF) ∧
    n = (if (b <? 0xE0)%Z then 0 else if (b <? 0xF0)%Z then 1 else 2)%nat.
Proof.
  intros Hb. cbn [utf8_from]. rewrite not_in_range_byte by lia. unfold lead.
  rewrite byte_of_ascii by lia.
  destruct (Z.eqb_spec b 0xE0), (Z.eqb_spec b 0xF0), (Z.eqb_spec b 0xED), (Z.eqb_spec b 0xF4),
    (Z.ltb_spec b 0xE0), (Z.ltb_spec b 0xF0); try lia;
    repeat case_bool_decide; try lia; do 3 eexists; split_and!; reflexivity.
Qed.

Lemma encode_utf8_valid c : is_scalar c → is_utf8 (of_bytes (encode_utf8 c)) = true.
Proof.
  unfold is_scalar, is_utf8, encode_utf8. intros Hc.
  destruct (Z.ltb_spec c 0x80); [by cbn [of_bytes]; rewrite utf8_one by lia|].
  assert (0 ≤ c mod 64 < 64) by (apply Z.mod_pos_bound; lia).
  assert (0 ≤ c / 64 mod 64 < 64) by (apply Z.mod_pos_bound; lia).
  assert (0 ≤ c / 4096 mod 64 < 64) by (apply Z.mod_pos_bound; lia).
  destruct (Z.ltb_spec c 0x800); [|destruct (Z.ltb_spec c 0x10000)]; cbn [of_bytes].
  - edestruct (utf8_lead (0xC0 + c / 64)) as (lo & hi & n & -> & -> & -> & ->);
      [Z.to_euclidean_division_equations; lia|].
    assert (c / 64 < 32) by (Z.to_euclidean_division_equations; lia).
    destruct (Z.eqb_spec (0xC0 + c / 64) 0xE0), (Z.eqb_spec (0xC0 + c / 64) 0xF0),
      (Z.eqb_spec (0xC0 + c / 64) 0xED), (Z.eqb_spec (0xC0 + c / 64) 0xF4),
      (Z.ltb_spec (0xC0 + c / 64) 0xE0); try lia.
    by rewrite utf8_next by lia.
  - edestruct (utf8_lead (0xE0 + c / 4096)) as (lo & hi & n & -> & -> & -> & ->);
      [Z.to_euclidean_division_equations; lia|].
    assert (c / 4096 < 16) by (Z.to_euclidean_division_equations; lia).
    destruct (Z.ltb_spec (0xE0 + c / 4096) 0xE0), (Z.ltb_spec (0xE0 + c / 4096) 0xF0);
      [Z.to_euclidean_division_equations; lia..| |lia].
    rewrite utf8_next by
      (destruct (Z.eqb_spec (0xE0 + c / 4096) 0xE0), (Z.eqb_spec (0xE0 + c / 4096) 0xF0),
         (Z.eqb_spec (0xE0 + c / 4096) 0xED), (Z.eqb_spec (0xE0 + c / 4096) 0xF4);
       Z.to_euclidean_division_equations; lia).
    by rewrite utf8_next by lia.
  - edestruct (utf8_lead (0xF0 + c / 262144)) as (lo & hi & n & -> & -> & -> & ->);
      [Z.to_euclidean_division_equations; lia|].
    destruct (Z.ltb_spec (0xF0 + c / 262144) 0xE0), (Z.ltb_spec (0xF0 + c / 262144) 0xF0);
      [Z.to_euclidean_division_equations; lia..|].
    rewrite utf8_next by
      (destruct (Z.eqb_spec (0xF0 + c / 262144) 0xE0), (Z.eqb_spec (0xF0 + c / 262144) 0xF0),
         (Z.eqb_spec (0xF0 + c / 262144) 0xED), (Z.eqb_spec (0xF0 + c / 262144) 0xF4);
       Z.to_euclidean_division_equations; lia).
    by rewrite !utf8_next by lia.
Qed.

Definition is_unit (u : Z) : Prop := 0 ≤ u < 0x10000.

Lemma decode_utf16_scalar l : Forall is_unit l → Forall is_scalar (decode_utf16 l).
Proof.
  remember (length l) as n eqn:Hn. revert l Hn.
  induction (lt_wf n) as [n _ IH]. intros l -> Hl.
  destruct Hl as [|u l Hu Hl]; [constructor|]. cbn [decode_utf16].
  assert (Hrep : is_scalar 0xFFFD) by (unfold is_scalar; lia).
  assert (IHl : Forall is_scalar (decode_utf16 l)) by (eapply IH; [|done|done]; simpl; lia).
  unfold is_high, is_low, is_unit, is_scalar in *.
  destruct (Z.leb_spec 0xD800 u), (Z.ltb_spec u 0xDC00); cbn [andb].
  - destruct Hl as [|v l Hv Hl]; [by repeat constructor|].
    destruct (Z.leb_spec 0xDC00 v), (Z.ltb_spec v 0xE000); cbn [andb];
      (constructor; [lia|]); try done. eapply IH; [|done|done]. simpl. lia.
  - destruct (Z.leb_spec 0xDC00 u), (Z.ltb_spec u 0xE000); cbn [andb]; constructor; done || lia.
  - destruct (Z.leb_spec 0xDC00 u), (Z.ltb_spec u 0xE000); cbn [andb]; constructor; done || lia.
  - lia.
Qed.

Lemma of_bytes_app l k : of_bytes (l ++ k) = of_bytes l +:+ of_bytes k.
Proof. induction l as [|b l IH]; [done|]. cbn [of_bytes app]. by rewrite IH. Qed.

Lemma from_utf16_lossy_utf8 l : Forall is_unit l → is_utf8 (from_utf16_lossy l) = true.
Proof.
  intros Hl%decode_utf16_scalar. unfold from_utf16_lossy.
  induction Hl as [|c cs Hc _ IH]; [done|]. rewrite bind_cons, of_bytes_app.
  apply is_utf8_app; [by apply encode_utf8_valid|done].
Qed.

Lemma parse_name_units data : Forall is_unit (parse_name data).
Proof.
  unfold parse_name. apply Forall_fmap, Forall_forall. intros j _. simpl.
  case_match; [|unfold is_unit; lia]. unfold is_unit.
  pose proof (from_le_bytes_range (sub (56 + j * 2) 2 data)) as Hr.
  assert (256 ^ len (sub (56 + j * 2) 2 data) ≤ 256 ^ 2); [|lia].
  apply Z.pow_le_mono_r; [lia|]. unfold len, sub. rewrite length_take. lia.
Qed.

Lemma name_units_incl l : Forall is_unit l → Forall is_unit (name_units l).
Proof. induction 1 as [|u l Hu _ IH]; simpl; [done|]. case_match; by constructor. Qed.

(** The names that the scanner reports are valid UTF-8, as a [String] is. *)
Definition name_utf8 (p : PartitionInfo) : Prop := is_utf8 (pi_name p) = true.

Section names.
Context `{OverflowChecks} {D DevError : Type} `{!BlockDevice D DevError}.

Lemma entry_name_utf8 {E} off size i :
  returns (S:=Disk * D) (E:=E) (λ o, ∀ p, o = Some p → name_utf8 p) (gpt_entry off size i).
Proof.
  unfold gpt_entry. do 2 (apply returns_bind_any; intros ?). apply returns_bind_any. intros [data|];
    [|by apply returns_ret]. case_match; [|by apply returns_ret].
  apply (returns_bind _ (λ e, Forall is_unit (e_name e))).
  { apply returns_lift. intros e He. unfold parse_entry in He.
    repeat (apply outcome_bind_ok in He as (? & ? & He)). unfold mret, outcome_ret in He.
    simplify_eq/=. apply parse_name_units. }
  intros e He. case_match; [by apply returns_ret|].
  do 3 (apply returns_bind_any; intros ?). case_match; [by apply returns_ret|].
  do 2 (apply returns_bind_any; intros ?). apply returns_ret. intros p [= <-].
  by apply from_utf16_lossy_utf8, name_units_incl.
Qed.

Lemma entries_name_utf8 {E} off size ids :
  returns (S:=Disk * D) (E:=E) (Forall name_utf8) (gpt_entries off size ids).
Proof.
  induction ids as [|i ids IH]; cbn [gpt_entries]; [by apply returns_ret|].
  eapply returns_bind; [apply entry_name_utf8|]. intros o Ho.
  eapply returns_bind; [exact IH|]. intros ps Hps. apply returns_ret.
  apply Forall_app. split; [|done]. destruct o; simpl; [|constructor].
  apply Forall_singleton. by apply Ho.
Qed.

Lemma scan_name_utf8 : returns (S:=Disk * D) (Forall name_utf8) scan_gpt_partitions.
Proof.
  unfold scan_gpt_partitions. apply returns_bind_any. intros sz.
  case_match; [by apply returns_ret|].
  apply (returns_bind _ (λ o, ∀ ps, o = Some ps → Forall name_utf8 ps)).
  { apply returns_attempt. unfold parse_gpt_partitions.
    do 2 (apply returns_bind_any; intros ?). case_match; [|apply returns_throw].
    apply returns_bind_any. intros sig. case_match; [apply returns_throw|].
    do 3 (apply returns_bind_any; intros ?). apply entries_name_utf8. }
  intros o Ho. repeat case_match; try (by apply returns_ret, Ho);
    apply returns_bind_any; intros ?; apply returns_ret; by apply Forall_singleton.
Qed.
End names.

Section scan_properties.
Context `{OverflowChecks} {D DevError : Type}.
Context `{!BlockDevice D DevError, !BlockDeviceOk D DevError}.

(** Looking for partitions and file systems does not change the disk, on
    whatever bytes it finds and whichever reads fail; also when the scan panics
    on a malformed table. *)
Theorem scan_never_writes k (d : D) :
  disk_wf k → block_size d = BLOCK_SIZE →
  let '(_, (k', d')) := scan_gpt_partitions (k, d) in
  disk_wf k' ∧ dev_bytes d' = dev_bytes d ∧ num_blocks d' = num_blocks d.
Proof.
  intros Hk Hb. pose proof (ro_scan d (k, d)) as Hr.
  destruct (scan_gpt_partitions (k, d)) as [r [k' d']].
  destruct Hr as (? & _ & [? [_ ?]]); [by split_and!; [..|apply shows_refl]|done].
Qed.
End scan_properties.

Section malformed.
Context {D DevError : Type}.
Context `{!BlockDevice D DevError, !BlockDeviceOk D DevError, !BlockDeviceReliable D DevError}.
Context (d : D) (Hd : block_size d = BLOCK_SIZE).

#[local] Instance debug_build : OverflowChecks := true.

(** Code that panics on the image. *)
Lemma reads_bind_panic {E A B} (m : st (Disk * D) E A) (k : A → st (Disk * D) E B) :
  reads m d Panic → reads (m ≫= k) d Panic.
Proof.
  intros Hm pos d1 Hp Hd1. destruct (Hm pos d1 Hp Hd1) as (pos2 & d2 & Hr & ?).
  exists pos2, d2. unfold mbind, st_bind. by rewrite Hr.
Qed.

Lemma inverted_entry_reads {E} off size p :
  0 ≤ off → 128 ≤ size → off + size ≤ len (dev_bytes d) → gpt_fields_ok p → unused p = false →
  g_last p < g_first p → sub off 128 (dev_bytes d) = encode_entry p →
  reads (E:=E) (gpt_entry off size 0) d Panic.
Proof.
  intros Ho Hs Hin Hp Hu Hlt He. pose proof (dev_bytes_fit d) as [_ Hfit].
  unfold gpt_entry, usize_add, usize_sub at 1. change (0 * size) with 0. rewrite Z.add_0_r.
  eapply reads_lift_bind; [apply checked_ok; unfold in_usize; lia|].
  apply (reads_at d Hd _ _ size); [unfold in_usize; lia|apply len_replicate; lia|].
  unfold img_read. rewrite (proj2 (Z.eqb_neq size 0)) by lia.
  rewrite (proj2 (Z.leb_le _ _)) by lia. rewrite (proj2 (Z.leb_le 128 size)) by lia.
  eapply reads_lift_bind.
  { apply (parse_encode_entry p); [done|]. rewrite sub_sub by lia. by rewrite Z.add_0_r. }
  cbn [e_type_guid e_unique_guid e_starting_lba e_ending_lba e_name].
  fold (unused p). rewrite Hu. destruct Hp as (_ & _ & _ & Hf & Hl & _ & Hn).
  rewrite !from_to_le_bytes by (change (256 ^ Z.of_nat 8) with (2 ^ 64); lia).
  apply reads_bind_panic. unfold checked. rewrite bool_decide_false by lia. apply reads_lift.
Qed.

(** In a build with overflow checks, a disk whose first table entry has its
    last block before its first one stops the hypervisor at boot: the size of
    the partition underflows and the scan panics instead of reporting an error. *)
Theorem inverted_entry_panics pos lba size n p :
  in_usize pos → gpt_header (dev_bytes d) lba size n → 1 ≤ n →
  lba * 512 + size ≤ len (dev_bytes d) → gpt_fields_ok p → unused p = false →
  g_last p < g_first p → sub (lba * 512) 128 (dev_bytes d) = encode_entry p →
  (scan_gpt_partitions (disk_set_position pos, d)).1 = Panic.
Proof.
  intros Hpos Hh Hn Hin Hp Hu Hlt He.
  assert (Hpan : reads parse_gpt_partitions d Panic).
  { pose proof Hh as (_ & _ & _ & _ & _ & Hs & _). eapply header_reads; [done..|]. intros Hlba.
    rewrite seqZ_cons by lia. cbn [gpt_entries]. apply reads_bind_panic.
    by apply (inverted_entry_reads _ _ p); [lia|..]. }
  destruct (disk_size_reads d Hd (E:=AxError) pos d Hpos (shows_refl d)) as (p1 & d1 & H1 & Hp1 & Hd1).
  destruct (Hpan p1 d1 Hp1 Hd1) as (p2 & d2 & H2 & _).
  unfold scan_gpt_partitions, attempt. st_run. rewrite H1.
  destruct Hh as [Hl _]. rewrite (proj2 (Z.eqb_neq _ 0)) by lia. by rewrite H2.
Qed.
End malformed.

(** ** A disk of nine blocks

    Two entries of 128 bytes in block 2: a FAT partition in blocks 3 to 4 with
    the name "boot", and an entry that is not in use. *)
Module GptExamples.
Import RamDisk.

Lemma rd_block_size (m : list u8) : block_size m = BLOCK_SIZE.
Proof. done. Qed.

Definition boot_part : gpt_part :=
  mkGptPart (replicate 16 x28) (replicate 16 xc1) 3 4 (zeros 8) [98; 111; 111; 116].
Definition free_part : gpt_part := mkGptPart (zeros 16) (zeros 16) 0 0 (zeros 8) [].

Definition header_block (n : Z) : list u8 :=
  GPT_SIGNATURE ++ zeros 64 ++ to_le_bytes 8 2 ++ to_le_bytes 4 n ++ to_le_bytes 4 128 ++ zeros 424.

Definition gpt_disk : list u8 :=
  zeros 512 ++ header_block 2 ++ encode_entry boot_part ++ encode_entry free_part ++ zeros 256 ++
  (zeros 0x36 ++ FAT_SIGNATURE ++ zeros 10 ++ [x78; x56; x34; x12] ++ zeros 441) ++ zeros 2560.

Definition boot_info : PartitionInfo :=
  mkPartitionInfo 0 "boot" (replicate 16 x28) (replicate 16 xc1) (Some "12345678") 3 4 1024 (Some Fat).

Lemma boot_fields : gpt_fields_ok boot_part.
Proof.
  split_and!; try (vm_compute; congruence); [vm_compute; lia|].
  repeat constructor; vm_compute; congruence.
Qed.

Lemma gpt_disk_formatted : gpt_formatted (dev_bytes gpt_disk) 2 128 [boot_part; free_part].
Proof.
  split; [split_and!; vm_compute; congruence|].
  intros [|[|i]] p Hp; simplify_eq/=; (split_and!; [|unfold gpt_bounds_ok|vm_compute; congruence..]).
  - apply boot_fields.
  - intros _. vm_compute. split; congruence.
  - split_and!; try (vm_compute; congruence); [vm_compute; lia|constructor].
  - vm_compute. congruence.
Qed.

Lemma scan_finds_partitions_witness :
  ∃ pos' d', scan_gpt_partitions (H:=true) (disk_set_position 0, gpt_disk) =
               (Ok [boot_info], (disk_set_position pos', d')) ∧
             dev_bytes d' = dev_bytes gpt_disk.
Proof.
  destruct (scan_finds_partitions (H:=true) (DevError:=rd_error) gpt_disk (rd_block_size _) 0 2 128 [boot_part; free_part])
    as (pos' & d' & Hs & Hd); [vm_compute; split; congruence|exact gpt_disk_formatted|].
  exists pos', d'. split; [|exact Hd]. rewrite Hs. vm_compute. reflexivity.
Defined.

Lemma scan_never_writes_witness :
  let '(_, (k', d')) := scan_gpt_partitions (H:=true) (mkDisk 0 0, gpt_disk) in
  disk_wf k' ∧ dev_bytes d' = dev_bytes gpt_disk ∧ num_blocks d' = num_blocks gpt_disk.
Proof.
  apply (scan_never_writes (H:=true) (DevError:=rd_error) (mkDisk 0 0) gpt_disk);
    [vm_compute; split; congruence|reflexivity].
Defined.

Definition blank_disk : list u8 := zeros 2048.

Lemma whole_disk_partition_overruns_witness :
  ∃ pos' d' info, scan_gpt_partitions (H:=true) (disk_set_position 0, blank_disk) =
      (Ok [info], (disk_set_position pos', d')) ∧
    let p := partition_new (mkDisk 0 0) (pi_starting_lba info) (pi_ending_lba info) in
    partition_size (H:=true) (E:=rd_error) p = Ok 2560 ∧
    ∃ p' e s, partition_set_position (H:=true) (E:=rd_error) 2048 p = Ok p' ∧
      partition_read_one (H:=true) [x00] (p', d') = (Err e, s).
Proof.
  replace 2560 with (len (dev_bytes blank_disk) + 512) by (vm_compute; reflexivity).
  replace 2048 with (len (dev_bytes blank_disk)) by (vm_compute; reflexivity).
  apply (whole_disk_partition_overruns (H:=true) (DevError:=rd_error) blank_disk (rd_block_size _)
           0 (mkDisk 0 0) [x00]); vm_compute; try split; congruence.
Defined.

Definition inverted_part : gpt_part :=
  mkGptPart (replicate 16 x28) (replicate 16 xc1) 5 3 (zeros 8) [98].
Definition inverted_disk : list u8 :=
  zeros 512 ++ header_block 1 ++ encode_entry inverted_part ++ zeros 384.

Lemma inverted_entry_panics_witness :
  (scan_gpt_partitions (H:=true) (disk_set_position 0, inverted_disk)).1 = Panic.
Proof.
  apply (inverted_entry_panics (DevError:=rd_error) inverted_disk (rd_block_size _) 0 2 128 1 inverted_part);
    [vm_compute; split; congruence|split_and!; vm_compute; congruence|lia|vm_compute; congruence|
     |reflexivity|reflexivity|vm_compute; reflexivity].
  split_and!; try (vm_compute; congruence); [vm_compute; lia|].
  repeat constructor; vm_compute; congruence.
Defined.
End GptExamples.
