(* ===== verification/RootSpec.v ===== *)
(** * Choosing the root partition ([modules/axfs/src/lib.rs])

    The boot arguments name the root file system by device path, PARTUUID, UUID
    or PARTLABEL; [find_root_partition] looks the name up among the partitions
    that the scan found. *)

From Stdlib Require Import Ascii Strings.Byte.
From S2P Require Import Prelude RustStr Disk Gpt.

(** ** Library operations *)

(** Case conversion of a string is defined by the Unicode tables of the
    compiler.  On ASCII text it is the conversion of the 26 letters; what it is
    on other text is a parameter. *)
Class UnicodeCase : Type := {
  unicode_upper : string → string;
  unicode_lower : string → string;
}.

Fixpoint is_ascii (s : string) : bool :=
  match s with "" => true | String a s => (byte_of a <? 128) && is_ascii s end.

Definition upper_ascii (a : ascii) : ascii :=
  if (97 <=? byte_of a) && (byte_of a <=? 122) then ascii_of_byte (byte_of a - 32) else a.

Definition lower_ascii (a : ascii) : ascii :=
  if (65 <=? byte_of a) && (byte_of a <=? 90) then ascii_of_byte (byte_of a + 32) else a.

Fixpoint str_map (f : ascii → ascii) (s : string) : string :=
  match s with "" => "" | String a s => String (f a) (str_map f s) end.

Definition to_uppercase `{UnicodeCase} (s : string) : string :=
  if is_ascii s then str_map upper_ascii s else unicode_upper s.

Definition to_lowercase `{UnicodeCase} (s : string) : string :=
  if is_ascii s then str_map lower_ascii s else unicode_lower s.

(** ** The specification of the root *)
Record RootSpec : Type := mkRootSpec {
  partition_index : option Z;
  partuuid : option string;
  uuid : option string;
  partlabel : option string;
}.

Definition default_spec : RootSpec := mkRootSpec None None None None.

Definition parse_device_path (path prefix : string) : RootSpec :=
  match strip_prefix prefix path with
  | Some part_num =>
      match parse_usize part_num with
      | Some num =>
          if 0 <? num then mkRootSpec (Some (num - 1)) None None None else default_spec
      | None => default_spec
      end
  | None => default_spec
  end.

Definition parse_mmcblk_path (path : string) : outcome AxError RootSpec :=
  match strip_prefix "/dev/mmcblk" path with
  | Some remaining =>
      match split_at_char "p"%char remaining with
      | Some (before, _) =>
          part_str ← slice_from (S (String.length before)) remaining;
          match parse_usize part_str with
          | Some num =>
              if 0 <? num then mret (mkRootSpec (Some (num - 1)) None None None)
              else mret default_spec
          | None => mret default_spec
          end
      | None => mret default_spec
      end
  | None => mret default_spec
  end.

Definition strip_or_empty (p s : string) : string := default "" (strip_prefix p s).

Definition parse_root_spec `{UnicodeCase} (bootargs : option string) : outcome AxError RootSpec :=
  match bootargs with
  | None => mret default_spec
  | Some bootargs =>
      match List.find (starts_with "root=") (split_whitespace bootargs) with
      | None => mret default_spec
      | Some root_arg =>
          let v := strip_or_empty "root=" root_arg in
          if starts_with "/dev/sda" v then mret (parse_device_path v "/dev/sda")
          else if starts_with "/dev/mmcblk" v then parse_mmcblk_path v
          else if starts_with "PARTUUID=" v then
            mret (mkRootSpec None (Some (to_uppercase (strip_or_empty "PARTUUID=" v))) None None)
          else if starts_with "UUID=" v then
            mret (mkRootSpec None None (Some (to_uppercase (strip_or_empty "UUID=" v))) None)
          else if starts_with "PARTLABEL=" v then
            mret (mkRootSpec None None None (Some (strip_or_empty "PARTLABEL=" v)))
          else mret default_spec
      end
  end.

(** A GUID in the format of PARTUUID: the first three fields are little-endian,
    the rest is not. *)
Definition guid_hex (upper : bool) (guid : list u8) (js : list nat) : string :=
  str_concat ((λ j, hex2 upper (default x00 (guid !! j))) <$> js).

Definition format_guid (upper : bool) (guid : list u8) : string :=
  str_join "-" (guid_hex upper guid <$>
    [[3; 2; 1; 0]; [5; 4]; [7; 6]; [8; 9]; [10; 11; 12; 13; 14; 15]]%nat).

Definition format_guid_as_partuuid (guid : list u8) : string := format_guid true guid.

(** Whether the body of the loop returns for a partition. *)
Definition root_match `{UnicodeCase} (spec : RootSpec) (p : PartitionInfo) : bool :=
  match filesystem_type p with
  | None => false
  | Some _ =>
      match partuuid spec with
      | Some u => str_contains u (format_guid_as_partuuid (unique_partition_guid p))
      | None => false
      end ||
      match uuid spec, filesystem_uuid p with
      | Some u, Some v => bool_decide (to_uppercase v = u)
      | _, _ => false
      end ||
      match partlabel spec with
      | Some l => bool_decide (pi_name p = l)
      | None => false
      end
  end.

Fixpoint root_search `{UnicodeCase} (spec : RootSpec) (i : Z) (ps : list PartitionInfo) : option Z :=
  match ps with
  | [] => None
  | p :: ps => if root_match spec p then Some i else root_search spec (i + 1) ps
  end.

Definition find_root_partition `{UnicodeCase} (ps : list PartitionInfo) (spec : RootSpec) : option Z :=
  match partition_index spec with
  | Some index => if index <? len ps then Some index else None
  | None => root_search spec 0 ps
  end.

(** ** The text of a GUID *)
#[local] Arguments String.append !_ _ : simpl nomatch.

Lemma str_map_app f s t : str_map f (s +:+ t) = str_map f s +:+ str_map f t.
Proof. induction s as [|a s IH]; simpl; [done|]. by rewrite IH. Qed.

Lemma is_ascii_app s t : is_ascii (s +:+ t) = is_ascii s && is_ascii t.
Proof. induction s as [|a s IH]; simpl; [done|]. by rewrite IH, andb_assoc. Qed.

Lemma hex2_upper up b : str_map upper_ascii (hex2 up b) = hex2 true b.
Proof. by destruct up, b. Qed.

Lemma hex2_ascii up b : is_ascii (hex2 up b) = true.
Proof. by destruct up, b. Qed.

Definition unhex (a : ascii) : Z := if byte_of a <? 58 then byte_of a - 48 else byte_of a - 55.

Lemma unhex_digits b :
  unhex (hex_digit true (u8_val b / 16)) * 16 + unhex (hex_digit true (u8_val b mod 16)) = u8_val b.
Proof. by destruct b. Qed.

Lemma u8_val_inj b c : u8_val b = u8_val c → b = c.
Proof.
  unfold u8_val. intros Hv%N2Z.inj. pose proof (Byte.of_to_N b) as Hb.
  rewrite Hv, Byte.of_to_N in Hb. congruence.
Qed.

Lemma hex_digits_inj b c :
  hex_digit true (u8_val b / 16) = hex_digit true (u8_val c / 16) →
  hex_digit true (u8_val b mod 16) = hex_digit true (u8_val c mod 16) → b = c.
Proof.
  intros H1 H2. apply u8_val_inj. rewrite <-(unhex_digits b), <-(unhex_digits c). congruence.
Qed.

Lemma guid_hex_upper up g js : str_map upper_ascii (guid_hex up g js) = guid_hex true g js.
Proof.
  unfold guid_hex. induction js as [|j js IH]; [done|]. rewrite !fmap_cons. cbn [str_concat].
  by rewrite str_map_app, hex2_upper, IH.
Qed.

Lemma guid_hex_ascii up g js : is_ascii (guid_hex up g js) = true.
Proof.
  unfold guid_hex. induction js as [|j js IH]; [done|]. rewrite fmap_cons. cbn [str_concat].
  by rewrite is_ascii_app, hex2_ascii.
Qed.

(** Either spelling of a PARTUUID becomes the one that is compared. *)
Lemma format_guid_upper `{UnicodeCase} up g : to_uppercase (format_guid up g) = format_guid true g.
Proof.
  unfold to_uppercase, format_guid. cbn [fmap list_fmap str_join].
  rewrite !is_ascii_app, !guid_hex_ascii. change (is_ascii "-") with true. cbn [andb].
  rewrite !str_map_app, !guid_hex_upper. done.
Qed.

(** Two GUIDs with the same text are the same. *)
Lemma format_guid_inj g g' :
  length g = 16%nat → length g' = 16%nat → format_guid true g = format_guid true g' → g = g'.
Proof.
  intros Hg Hg'. do 16 (destruct g as [|? g]; [done|]). destruct g; [|done].
  do 16 (destruct g' as [|? g']; [done|]). destruct g'; [|done].
  unfold format_guid, guid_hex, hex2. simpl. intros [=]. clear Hg Hg'.
  repeat f_equal; by apply hex_digits_inj.
Qed.

Lemma format_guid_length up g : String.length (format_guid up g) = 36%nat.
Proof. done. Qed.

Lemma strip_or_empty_app p s : strip_or_empty p (p +:+ s) = s.
Proof. unfold strip_or_empty. by rewrite strip_prefix_app. Qed.

Lemma str_contains_refl s : str_contains s s = true.
Proof. destruct s; cbn [str_contains]; by rewrite starts_with_refl. Qed.

Lemma str_contains_length p s : str_contains p s = true → (String.length p ≤ String.length s)%nat.
Proof.
  induction s as [|a s IH]; cbn [str_contains]; rewrite orb_true_iff;
    (intros [[t Ht]%starts_with_app|Hc]; [rewrite Ht, string_app_length; lia|]); [done|].
  specialize (IH Hc). simpl. lia.
Qed.

(** A text that contains another of the same length is that text. *)
Lemma str_contains_same_length p s :
  String.length p = String.length s → str_contains p s = true → p = s.
Proof.
  destruct s as [|a s]; cbn [str_contains]; intros Hl; rewrite orb_true_iff;
    (intros [[t Ht]%starts_with_app|Hc]; [|]); try done.
  - destruct p; [done|]. done.
  - rewrite Ht, string_app_length in Hl. destruct t; [|simpl in Hl; lia].
    by rewrite string_app_nil_r in Ht.
  - apply str_contains_length in Hc. simpl in Hl. lia.
Qed.

Section choice.
Context `{UnicodeCase}.

Lemma root_search_some spec i ps j p :
  ps !! j = Some p → root_match spec p = true →
  (∀ j' q, (j' < j)%nat → ps !! j' = Some q → root_match spec q = false) →
  root_search spec i ps = Some (i + Z.of_nat j).
Proof.
  revert i j. induction ps as [|q ps IH]; intros i [|j] Hj Hm Hf; simplify_eq/=.
  - rewrite Hm. f_equal. lia.
  - rewrite (Hf 0%nat q) by (done || lia). rewrite (IH (i + 1) j); [f_equal; lia|done..|].
    intros j' q' Hlt Hq. apply (Hf (S j') q'); [lia|done].
Qed.

(** The boot argument [root=PARTUUID=...] with the identifier of a partition,
    in capital or small letters, selects that partition, when it has a file
    system and the partitions have different identifiers. *)
Theorem partuuid_selects_partition bootargs ps i p up :
  ps !! i = Some p → is_Some (filesystem_type p) →
  Forall (λ q, length (unique_partition_guid q) = 16%nat) ps →
  NoDup (unique_partition_guid <$> ps) →
  List.find (starts_with "root=") (split_whitespace bootargs) =
    Some ("root=PARTUUID=" +:+ format_guid up (unique_partition_guid p)) →
  (spec ← parse_root_spec (Some bootargs); mret (find_root_partition ps spec)) =
    Ok (Some (Z.of_nat i)).
Proof.
  intros Hi [fs Hfs] Hlen Hnd Hf. unfold parse_root_spec. rewrite Hf.
  set (g := unique_partition_guid p) in *.
  change ("root=PARTUUID=" +:+ format_guid up g) with ("root=" +:+ ("PARTUUID=" +:+ format_guid up g)).
  rewrite strip_or_empty_app.
  replace (starts_with "/dev/sda" _) with false by done.
  replace (starts_with "/dev/mmcblk" _) with false by done.
  replace (starts_with "PARTUUID=" _) with true by (symmetry; apply starts_with_app; eauto).
  rewrite strip_or_empty_app, format_guid_upper.
  orun. unfold find_root_partition; cbn [partition_index]. f_equal.
  rewrite (root_search_some _ _ _ i p Hi); [done| |].
  - unfold root_match. rewrite Hfs. cbn [partuuid]. unfold format_guid_as_partuuid.
    by rewrite str_contains_refl.
  - intros j q Hlt Hq. unfold root_match. destruct (filesystem_type q); [|done].
    cbn [partuuid uuid partlabel]. rewrite !orb_false_r. apply not_true_is_false. intros Hc.
    apply str_contains_same_length in Hc; [|by rewrite !format_guid_length].
    rewrite Forall_lookup in Hlen. apply format_guid_inj in Hc; [|by eapply Hlen..].
    assert (i = j); [|lia]. eapply NoDup_lookup; [exact Hnd|..]; rewrite list_lookup_fmap.
    + by rewrite Hi.
    + rewrite Hq. simpl. by rewrite <-Hc.
Qed.
Lemma parse_number_range s n :
  parse_usize s = Some n → 0 < n → in_usize (n - 1).
Proof. intros Hn%parse_usize_range ?. unfold in_usize in *. lia. Qed.

(** Any boot arguments give a specification: the parser does not panic (the
    text after the [p] of [mmcblk] starts at a character boundary), and a
    partition number becomes an index without underflow. *)
Theorem parse_root_spec_total bootargs :
  is_utf8 bootargs = true →
  ∃ spec, parse_root_spec (Some bootargs) = Ok spec ∧
          ∀ i, partition_index spec = Some i → in_usize i.
Proof.
  intros Ht%is_utf8_text%split_whitespace_text. unfold parse_root_spec.
  destruct (List.find _ _) as [arg|] eqn:Hf; [|by exists default_spec].
  apply List.find_some in Hf as [Hin Hroot]. rewrite List.Forall_forall in Ht.
  specialize (Ht _ Hin). apply starts_with_app in Hroot as [v ->].
  rewrite strip_or_empty_app. apply text_strip_ascii in Ht; [|by repeat constructor].
  case_match; [|case_match eqn:Hm; [|repeat case_match; eexists; (split; [done|done])]].
  - eexists. split; [done|]. unfold parse_device_path.
    repeat case_match; try done. intros i [= <-]. eapply parse_number_range; [done|].
    by apply Z.ltb_lt.
  - unfold parse_mmcblk_path. apply starts_with_app in Hm as [w ->].
    rewrite strip_prefix_app. apply text_strip_ascii in Ht; [|by repeat constructor].
    destruct (split_at_char _ w) as [[q r]|] eqn:Hq; [|by exists default_spec].
    apply split_at_char_Some in Hq as [-> [r' ->]].
    apply text_split_before in Ht; [|done]. apply text_tail in Ht; [|done].
    replace (q +:+ String "p" r') with ((q +:+ "p") +:+ r') by apply string_app_assoc.
    replace (S (String.length q)) with (String.length (q +:+ "p"))
      by (rewrite string_app_length; simpl; lia).
    rewrite slice_from_app by done. orun.
    destruct (parse_usize r') as [n|] eqn:Hn; [|by exists default_spec].
    destruct (Z.ltb_spec 0 n); [|by exists default_spec]. eexists. split; [done|].
    intros i [= <-]. by eapply parse_number_range.
Qed.

(** A device path [/dev/sdaN] selects the N-th partition that the scan
    reported, not the partition of entry N of the table: the number that the
    scan recorded for a partition is not consulted, and the two differ when
    unused or unnamed entries come before it. *)
Theorem device_number_is_list_position bootargs ps s n i p :
  List.find (starts_with "root=") (split_whitespace bootargs) =
    Some ("root=/dev/sda" +:+ s) →
  parse_usize s = Some n → 0 < n →
  ps !! i = Some p → pi_index p = n - 1 → Z.of_nat i ≠ n - 1 →
  (spec ← parse_root_spec (Some bootargs); mret (find_root_partition ps spec)) =
    Ok (if n - 1 <? len ps then Some (n - 1) else None) ∧
  (if n - 1 <? len ps then Some (n - 1) else None) ≠ Some (Z.of_nat i).
Proof.
  intros Hf Hn Hpos Hi Hidx Hne. split; [|case_match; congruence].
  unfold parse_root_spec. rewrite Hf.
  change ("root=/dev/sda" +:+ s) with ("root=" +:+ ("/dev/sda" +:+ s)).
  rewrite strip_or_empty_app.
  replace (starts_with "/dev/sda" _) with true by (symmetry; apply starts_with_app; eauto).
  unfold parse_device_path. rewrite strip_prefix_app, Hn. by rewrite (proj2 (Z.ltb_lt 0 n)).
Qed.
End choice.

Module RootExamples.
#[local] Instance ascii_only : UnicodeCase := {| unicode_upper s := s; unicode_lower s := s |}.

Definition info (i : Z) (g : u8) : PartitionInfo :=
  mkPartitionInfo i "data" (replicate 16 x28) (replicate 16 g) None 3 4 1024 (Some Ext4).
Definition infos : list PartitionInfo := [info 0 xaa; info 2 xbc].

Definition args : string :=
  "console=ttyS0 root=PARTUUID=bcbcbcbc-bcbc-bcbc-bcbc-bcbcbcbcbcbc rw".

Lemma partuuid_selects_partition_witness :
  (spec ← parse_root_spec (Some args); mret (find_root_partition infos spec)) = Ok (Some 1).
Proof.
  apply (partuuid_selects_partition args infos 1 (info 2 xbc) false); try reflexivity.
  - by exists Ext4.
  - by repeat constructor.
  - apply (bool_decide_unpack _). vm_compute. exact I.
Defined.

Lemma parse_root_spec_total_witness :
  ∃ spec, parse_root_spec (Some "root=/dev/mmcblk0p2") = Ok spec ∧
          ∀ i, partition_index spec = Some i → in_usize i.
Proof. apply (parse_root_spec_total "root=/dev/mmcblk0p2"). reflexivity. Defined.

Lemma device_number_is_list_position_witness :
  (spec ← parse_root_spec (Some "root=/dev/sda3"); mret (find_root_partition infos spec)) = Ok None ∧
  None ≠ Some 1.
Proof.
  apply (device_number_is_list_position "root=/dev/sda3" infos "3" 3 1 (info 2 xbc));
    vm_compute; congruence.
Defined.
End RootExamples.
