(* ===== verification/Vfs.v ===== *)
(** * The virtual file system interface

    [axfs_vfs] is another crate: [VfsOps] (file systems) and [VfsNodeOps] (files
    and directories) are traits that the drivers implement and that
    [modules/axfs] calls.  Their operations are parameters: they work on a world
    that holds the contents of all file systems.  A file system is a handle of
    type [F], a node a handle of type [N]. *)

From Stdlib Require Import Ascii Strings.Byte.
From S2P Require Import Prelude RustStr Disk.

Inductive VfsNodeType : Type := Fifo | CharDevice | Dir | BlockDev | File | SymLink | Socket.

#[global] Instance VfsNodeType_eq_dec : EqDecision VfsNodeType.
Proof. solve_decision. Defined.

(** [VfsNodePerm] is a set of the permission bits of Unix. *)
Definition owner_readable (perm : Z) : bool := Z.testbit perm 8.
Definition owner_writable (perm : Z) : bool := Z.testbit perm 7.
Definition owner_executable (perm : Z) : bool := Z.testbit perm 6.

Record VfsNodeAttr : Type := mkAttr {
  a_perm : Z;
  a_type : VfsNodeType;
  a_size : Z;
  a_blocks : Z;
}.

Definition attr_is_dir (a : VfsNodeAttr) : bool := bool_decide (a_type a = Dir).
Definition attr_is_file (a : VfsNodeAttr) : bool := bool_decide (a_type a = File).

Record VfsDirEntry : Type := mkDirEntry {
  d_type : VfsNodeType;
  d_name : string;
}.

Class Vfs (W F N : Type) : Type := {
  fs_root_dir : F → N;
  fs_mount : F → string → N → st W AxError ();
  fs_umount : F → st W AxError ();
  node_open : N → st W AxError ();
  node_release : N → st W AxError ();
  node_get_attr : N → st W AxError VfsNodeAttr;
  node_lookup : N → string → st W AxError N;
  node_create : N → string → VfsNodeType → st W AxError ();
  node_remove : N → string → st W AxError ();
  node_rename : N → string → string → st W AxError ();
  node_read_dir : N → Z → list VfsDirEntry → st W AxError (Z * list VfsDirEntry);
  node_read_at : N → Z → list u8 → st W AxError (Z * list u8);
  node_write_at : N → Z → list u8 → st W AxError Z;
  node_truncate : N → Z → st W AxError ();
  node_fsync : N → st W AxError ();

  (** [VfsDirEntry::new], which may shorten a long name. *)
  dirent_new : string → VfsNodeType → VfsDirEntry;
  dirent_default : VfsDirEntry;
  (** The methods of [VfsNodeOps] that a directory gets from the trait or from
      [impl_vfs_dir_default!] when it does not define them. *)
  default_open : st W AxError ();
  default_release : st W AxError ();
  default_rename : string → string → st W AxError ();
  dir_read_at : Z → list u8 → st W AxError (Z * list u8);
  dir_write_at : Z → list u8 → st W AxError Z;
  dir_truncate : Z → st W AxError ();
  dir_fsync : st W AxError ();

  (** [axfs_vfs::path::canonicalize]. *)
  canonicalize : string → string;
  (** [RamFileSystem::new] of [axfs_ramfs]. *)
  ramfs_new : W → F * W;
}.

(** What the documentation of the crate says of a directory that does not define
    [rename]: the call fails with [Unsupported] and does nothing. *)
Class VfsDefaults (W F N : Type) `{!Vfs W F N} : Prop := {
  default_rename_unsupported old new w : default_rename old new w = (Err Unsupported, w);
}.

(** A directory that keeps a listing: as long as the world satisfies [I], each call
    of [read_dir] copies the entries from [start_idx] on into the buffer, as far
    as it goes, and returns how many it copied. *)
Definition page (start_idx : Z) (entries dirents : list VfsDirEntry) : Z * list VfsDirEntry :=
  let n := ((len entries - start_idx) `max` 0) `min` len dirents in
  (n, splice 0 (sub start_idx n entries) dirents).

Definition serves {W} (read_dir : Z → list VfsDirEntry → st W AxError (Z * list VfsDirEntry))
    (I : W → Prop) (entries : list VfsDirEntry) : Prop :=
  ∀ start_idx dirents w, 0 ≤ start_idx → I w →
    ∃ w', read_dir start_idx dirents w = (Ok (page start_idx entries dirents), w') ∧ I w'.

(** A page, as code that walks along the listing fills it. *)
Lemma page_eq start entries dirents :
  0 ≤ start →
  let rest := drop (Z.to_nat start) entries in
  page start entries dirents =
    (len rest `min` len dirents, take (length dirents) rest ++ drop (length rest) dirents).
Proof.
  intros Hs rest. unfold page.
  assert (Hn : ((len entries - start) `max` 0) `min` len dirents = len rest `min` len dirents)
    by (unfold rest, len; rewrite length_drop; lia).
  rewrite Hn. f_equal. rewrite splice_0. unfold sub. fold rest. rewrite length_take. f_equal.
  - destruct (decide (length dirents ≤ length rest)%nat).
    + f_equal. unfold len. lia.
    + rewrite !take_ge; unfold len; lia || done.
  - destruct (decide (length dirents ≤ length rest)%nat).
    + rewrite !drop_ge; unfold len; lia || done.
    + f_equal. unfold len. lia.
Qed.

(** ** A small implementation

    File systems with flat tables from paths to nodes, for concrete runs.  A
    handle is the number of the file system and the path inside it. *)
Module TinyFs.
Record tiny : Type := mkTiny {
  next_fs : Z;
  nodes : gmap (Z * string) (VfsNodeType * list u8);
  disk_image : list u8;
}.

Definition upd_nodes (f : gmap (Z * string) (VfsNodeType * list u8) →
    gmap (Z * string) (VfsNodeType * list u8)) (w : tiny) : tiny :=
  mkTiny (next_fs w) (f (nodes w)) (disk_image w).

Definition join (base path : string) : string :=
  let p := trim_matches "/"%char path in
  let p := default p (strip_prefix "./" p) in
  if str_is_empty p || bool_decide (p = ".") then base
  else if str_is_empty base then p else base +:+ "/" +:+ p.

Definition found (n : Z * string) (w : tiny) : option (VfsNodeType * list u8) :=
  if str_is_empty n.2 then Some (Dir, []) else nodes w !! n.

Definition with_node {A} (n : Z * string) (k : VfsNodeType * list u8 → st tiny AxError A) :
    st tiny AxError A := λ w,
  match found n w with Some x => k x w | None => (Err NotFound, w) end.

Definition overwrite (off : Z) (new old : list u8) : list u8 :=
  let padded := old ++ replicate (Z.to_nat (off + len new - len old)) x00 in
  splice off new padded.

(** The names of the nodes at the top of file system [f]. *)
Definition top_names (f : Z) (w : tiny) : list (string * VfsNodeType) :=
  btree_iter (foldr (λ '((g, p), (ty, _)) m,
      if bool_decide (g = f) && bool_decide (split_at_char "/"%char p = None) then <[p := ty]> m else m)
    (∅ : gmap string VfsNodeType) (map_to_list (nodes w))).

#[export] Instance tiny_vfs : Vfs tiny Z (Z * string) := {|
  fs_root_dir f := (f, "");
  fs_mount _ _ _ := mret tt;
  fs_umount _ := mret tt;
  node_open _ := mret tt;
  node_release _ := mret tt;
  node_get_attr n := with_node n (λ x, mret (mkAttr 493 x.1 (len x.2) 1));
  node_lookup n path := let m := (n.1, join n.2 path) in with_node m (λ _, mret m);
  node_create n path ty := λ w,
    let m := (n.1, join n.2 path) in
    match found m w with
    | Some _ => (Ok (), w)
    | None => (Ok (), upd_nodes <[m := (ty, [])]> w)
    end;
  node_remove n path :=
    let m := (n.1, join n.2 path) in with_node m (λ _, modify (upd_nodes (delete m)));
  node_rename n old new :=
    let a := (n.1, join n.2 old) in
    let b := (n.1, join n.2 new) in
    with_node a (λ x, modify (upd_nodes (λ t, <[b := x]> (delete a t))));
  node_read_dir n start buf := λ w,
    let shown := drop (Z.to_nat start) (top_names n.1 w) in
    (Ok (len shown `min` len buf,
         ((λ x, mkDirEntry x.2 x.1) <$> take (length buf) shown) ++ drop (length shown) buf), w);
  node_read_at n off buf := with_node n (λ x,
    let k := ((len x.2 - off) `max` 0) `min` len buf in
    mret (k, splice 0 (sub off k x.2) buf));
  node_write_at n off buf := with_node n (λ x,
    modify (upd_nodes <[n := (x.1, overwrite off buf x.2)]>);; mret (len buf));
  node_truncate n size := with_node n (λ x,
    modify (upd_nodes <[n := (x.1, take (Z.to_nat size) x.2)]>));
  node_fsync _ := mret tt;
  dirent_new name ty := mkDirEntry ty name;
  dirent_default := mkDirEntry File "";
  default_open := mret tt;
  default_release := mret tt;
  default_rename _ _ := throw Unsupported;
  dir_read_at _ _ := throw IsADirectory;
  dir_write_at _ _ := throw IsADirectory;
  dir_truncate _ := throw IsADirectory;
  dir_fsync := throw IsADirectory;
  canonicalize p := "/" +:+ trim_matches "/"%char p;
  ramfs_new w := (next_fs w, mkTiny (next_fs w + 1) (nodes w) (disk_image w));
|}.

#[export] Instance tiny_defaults : VfsDefaults tiny Z (Z * string).
Proof. by split. Qed.
End TinyFs.
