(* ===== verification/BaseCmd.v ===== *)
(** * The file and system commands of the shell ([kernel/src/shell/command/base.rs])

    The handlers of [ls], [cat], [echo], [mkdir], [rm], [cd], [pwd], [uname],
    [exit], [log], [touch], [cp] and [mv], and the tree of these commands.  The
    file system the handlers reach through [std::fs] is the class [StdFs]; the
    contents of a file are a [string], a sequence of bytes.  Loops and recursion
    that depend on the file system carry fuel; running out of it is an error of
    its own, [OutOfFuel], which no Rust code returns. *)

From Stdlib Require Import Ascii.
From S2P Require Import Prelude RustStr Command VmCommands Vfs.

(** [std::fs::Metadata] and [std::fs::DirEntry]. *)
Record Metadata : Type := mkMetadata {
  md_len : Z;
  md_type : VfsNodeType;
  md_mode : Z;
}.

Record StdEntry : Type := mkStdEntry {
  file_name : string;
  file_type : VfsNodeType;
}.

Definition type_is_dir (ty : VfsNodeType) : bool := bool_decide (ty = Dir).
Definition md_is_dir (m : Metadata) : bool := type_is_dir (md_type m).

(** [std::fs] and [std::env] over a file system of type [S], with open files of
    type [F] and directory iterators of type [D].  A read returns the bytes it
    puts at the front of the buffer, whose length is the argument. *)
Class StdFs (S F D : Type) : Type := {
  fs_metadata : string → st S AxError Metadata;
  fs_read_dir : string → st S AxError D;
  dir_next : D → S → option (outcome AxError StdEntry) * D * S;
  file_open : string → st S AxError F;
  file_create : string → st S AxError F;
  file_read : F → Z → st S AxError (string * F);
  file_write_all : F → string → st S AxError F;
  fs_create_dir : string → st S AxError ();
  fs_create_dir_all : string → st S AxError ();
  fs_remove_dir : string → st S AxError ();
  fs_remove_file : string → st S AxError ();
  fs_rename : string → string → st S AxError ();
  env_current_dir : st S AxError string;
  env_set_current_dir : string → st S AxError ();
}.

(** The [Display] of an error, and the variables of the build. *)
Class ErrorText : Type := error_text : AxError → string.
Class BuildEnv : Type := option_env : string → option string.

(** [log::LevelFilter] with its [Debug]. *)
Inductive LevelFilter : Type := LOff | LError | LWarn | LInfo | LDebug | LTrace.

Definition level_debug (l : LevelFilter) : string :=
  match l with
  | LOff => "Off" | LError => "Error" | LWarn => "Warn"
  | LInfo => "Info" | LDebug => "Debug" | LTrace => "Trace"
  end.

(** The file system, what has been written to the console, and the log level. *)
Record shell (S : Type) : Type := mkShell {
  sh_fs : S;
  sh_out : string;
  sh_level : LevelFilter;
}.
Arguments mkShell {S}.
Arguments sh_fs {S}.
Arguments sh_out {S}.
Arguments sh_level {S}.

(** Errors of [io::Result], and why a handler does not return: the process exits. *)
Inductive io_error : Type := IoError (e : AxError) | OutOfFuel.
Inductive stop : Type := Exit (code : Z) | NoFuel.

(** ** Text *)

Definition file_type_to_char (ty : VfsNodeType) : string :=
  match ty with
  | CharDevice => "c"
  | BlockDev => "b"
  | Socket => "s"
  | Fifo => "p"
  | SymLink => "l"
  | Dir => "d"
  | File => "-"
  end.

(** [set!(bit, rwx)] *)
Definition set_perm (mode bit : Z) (rwx : string) (perm : list string) : list string :=
  if bool_decide (Z.land mode (Z.shiftl 1 bit) ≠ 0)
  then <[Z.to_nat (8 - bit) := rwx]> perm else perm.

Definition file_perm_to_rwx (mode : Z) : list string :=
  let perm := replicate 9 "-" in
  let perm := set_perm mode 0 "x" (set_perm mode 1 "w" (set_perm mode 2 "r" perm)) in
  let perm := set_perm mode 3 "x" (set_perm mode 4 "w" (set_perm mode 5 "r" perm)) in
  set_perm mode 6 "x" (set_perm mode 7 "w" (set_perm mode 8 "r" perm)).

(** [split_whitespace] of this file: the first word and the trimmed rest. *)
Fixpoint break_ws (l : list string) : list string * list string :=
  match l with
  | [] => ([], [])
  | c :: l' =>
      if is_whitespace c then ([], l) else let '(w, r) := break_ws l' in (c :: w, r)
  end.

Definition split_first_word (s : string) : string * string :=
  let '(first, rest) := break_ws (chars (trim s)) in
  (str_concat first, trim (str_concat rest)).

(** [s.rfind(c)] for a one-byte character: the text before and after it. *)
Fixpoint rsplit_at_char (c : ascii) (s : string) : option (string * string) :=
  match s with
  | "" => None
  | String a s' =>
      match rsplit_at_char c s' with
      | Some (p, r) => Some (String a p, r)
      | None => if bool_decide (a = c) then Some ("", s') else None
      end
  end.

(** [format!("{:>w$}", s)] *)
Definition pad_left (w : nat) (s : string) : string := spaces (w - length (chars s)) +:+ s.

(** [s.parse::<i32>()] *)
Fixpoint digits_value (acc : Z) (s : string) : option Z :=
  match s with
  | "" => Some acc
  | String a s => d ← digit a; digits_value (acc * 10 + d) s
  end.

Definition in_i32 (n : Z) : option Z :=
  if bool_decide (- 2 ^ 31 ≤ n < 2 ^ 31) then Some n else None.

Definition parse_i32 (s : string) : option Z :=
  match s with
  | "" => None
  | String a s' =>
      if bool_decide (a = "-"%char) then
        if str_is_empty s' then None else n ← digits_value 0 s'; in_i32 (- n)
      else if bool_decide (a = "+"%char) then
        if str_is_empty s' then None else n ← digits_value 0 s'; in_i32 n
      else n ← digits_value 0 s; in_i32 n
  end.

(** ** Handlers *)
Section base.
Context {S F D : Type} `{!StdFs S F D} `{!ErrorText} `{!BuildEnv}.

Abbreviation M := (st (shell S) stop).
Abbreviation io := (st (shell S) io_error).

(** A call of [std::fs] inside code that returns [io::Result]. *)
Definition fs {A} (m : st S AxError A) : io A := λ s,
  let '(r, fs') := m (sh_fs s) in
  (match r with Ok a => Ok a | Err e => Err (IoError e) | Panic => Panic end,
   mkShell fs' (sh_out s) (sh_level s)).

(** [Iterator::next] of a directory. *)
Definition next {E} (d : D) : st (shell S) E (option (outcome AxError StdEntry) * D) := λ s,
  let '(item, d', fs') := dir_next d (sh_fs s) in
  (Ok (item, d'), mkShell fs' (sh_out s) (sh_level s)).

(** The result of [io::Result] code as a value. *)
Definition result {A} (m : io A) : M (AxError + A) := λ s,
  match m s with
  | (Ok a, s') => (Ok (inr a), s')
  | (Err (IoError e), s') => (Ok (inl e), s')
  | (Err OutOfFuel, s') => (Err NoFuel, s')
  | (Panic, s') => (Panic, s')
  end.

(** [m.unwrap()] *)
Definition unwrapped {A} (m : io A) : M A :=
  r ← result m;
  match r with inr a => mret a | inl _ => panic end.

Definition print {E} (t : string) : st (shell S) E () :=
  modify (λ s, mkShell (sh_fs s) (sh_out s +:+ t) (sh_level s)).
Definition println {E} (t : string) : st (shell S) E () := print (t +:+ newline).

Definition print_err2 (cmd msg : string) : M () := println (cmd +:+ ": " +:+ msg).
Definition print_err {E} (cmd arg : string) (e : AxError) : st (shell S) E () :=
  println (cmd +:+ ": " +:+ arg +:+ ": " +:+ error_text e).

(** [if let Err(e) = m { print_err!(cmd, arg, e) }] *)
Definition report {A} (cmd arg : string) (m : io A) : M () :=
  r ← result m;
  match r with inr _ => mret () | inl e => print_err cmd arg e end.

Fixpoint each {E A} (f : A → st (shell S) E ()) (l : list A) : st (shell S) E () :=
  match l with [] => mret () | x :: l => f x;; each f l end.

(** *** [ls] *)

Definition show_entry_info (path entry : string) (show_long : bool) : io () :=
  if show_long then
    metadata ← fs (fs_metadata path);
    println (file_type_to_char (md_type metadata) +:+
             str_concat (file_perm_to_rwx (md_mode metadata)) +:+ " " +:+
             pad_left 8 (pretty (md_len metadata)) +:+ " " +:+ entry)
  else println entry.

(** [.filter_map(|e| e.ok()).map(|e| e.file_name()).filter(..).collect()] *)
Fixpoint entry_names (fuel : nat) (show_all : bool) (d : D) : io (list string) :=
  match fuel with
  | O => throw OutOfFuel
  | Datatypes.S fuel =>
      '(item, d) ← next d;
      match item with
      | None => mret []
      | Some Panic => panic
      | Some (Err _) => entry_names fuel show_all d
      | Some (Ok e) =>
          names ← entry_names fuel show_all d;
          mret (if show_all || negb (starts_with "." (file_name e))
                then file_name e :: names else names)
      end
  end.

(** An error of one entry is printed and the listing goes on. *)
Definition list_entry (name : string) (show_long : bool) (entry : string) : io () :=
  let path := name +:+ "/" +:+ entry in λ s,
  match show_entry_info path entry show_long s with
  | (Err (IoError e), s') => print_err "ls" path e s'
  | r => r
  end.

Definition list_one (fuel : nat) (name : string) (print_name show_long show_all : bool) : io () :=
  md ← fs (fs_metadata name);
  if negb (md_is_dir md) then show_entry_info name name show_long else
  (if print_name then println (name +:+ ":") else mret ());;
  d ← fs (fs_read_dir name);
  entries ← entry_names fuel show_all d;
  each (list_entry name show_long) (merge_sort (λ a b, str_leb a b) entries).

Definition ls_target (fuel : nat) (print_name show_long show_all : bool) (t : nat * string) : M () :=
  (if bool_decide (0 < t.1)%nat then println "" else mret ());;
  report "ls" t.2 (list_one fuel t.2 print_name show_long show_all).

Definition do_ls (fuel : nat) (cmd : ParsedCommand) : M () :=
  let args := positional_args cmd in
  let show_long := flag_set cmd "long" in
  let show_all := flag_set cmd "all" in
  _ ← unwrapped (fs env_current_dir);
  let targets := if is_empty args then ["."] else args in
  each (ls_target fuel (bool_decide (1 < length targets)%nat) show_long show_all)
    (imap pair targets).

(** *** [cat] *)

Fixpoint cat_loop (fuel : nat) (file : F) : io () :=
  match fuel with
  | O => throw OutOfFuel
  | Datatypes.S fuel =>
      '(buf, file) ← fs (file_read file 1024);
      if negb (str_is_empty buf) then print buf;; cat_loop fuel file else mret ()
  end.

Definition cat_one (fuel : nat) (fname : string) : io () :=
  file ← fs (file_open fname);
  cat_loop fuel file.

Definition do_cat (fuel : nat) (cmd : ParsedCommand) : M () :=
  let args := positional_args cmd in
  if is_empty args then print_err2 "cat" "no file specified" else
  each (λ fname, report "cat" fname (cat_one fuel fname)) args.

(** *** [echo] *)

Fixpoint write_list (file : F) (l : list string) : io F :=
  match l with
  | [] => mret file
  | text :: l => file ← fs (file_write_all file text); write_list file l
  end.

Definition echo_file (fname : string) (text_list : list string) : io () :=
  file ← fs (file_create fname);
  _ ← write_list file text_list;
  mret ().

Definition do_echo (cmd : ParsedCommand) : M () :=
  let no_newline := flag_set cmd "no-newline" in
  let args_str := str_join " " (positional_args cmd) in
  match rsplit_at_char ">"%char args_str with
  | Some (before, after) =>
      let text_before := trim before in
      let '(fname, text_after) := split_first_word after in
      if str_is_empty fname then print_err2 "echo" "no file specified" else
      report "echo" fname (echo_file fname
        [text_before; if negb (str_is_empty text_after) then " " else ""; text_after;
         if negb no_newline then newline else ""])
  | None => if no_newline then print args_str else println args_str
  end.

(** *** [mkdir] *)

Definition mkdir_one (path : string) (create_parents : bool) : io () :=
  if create_parents then fs (fs_create_dir_all path) else fs (fs_create_dir path).

Definition do_mkdir (cmd : ParsedCommand) : M () :=
  let args := positional_args cmd in
  if is_empty args then print_err2 "mkdir" "missing operand" else
  each (λ path, report "mkdir" ("cannot create directory '" +:+ path +:+ "'")
                  (mkdir_one path (flag_set cmd "parents"))) args.

(** *** [rm]

    The recursion into a directory and the loop over its entries share the fuel. *)

Inductive walk_step : Type :=
| Enter (path : string)
| Next (d : D) (path : string).

Fixpoint remove_walk (fuel : nat) (w : walk_step) : io () :=
  match fuel with
  | O => throw OutOfFuel
  | Datatypes.S fuel =>
      match w with
      | Enter path =>
          entries ← fs (fs_read_dir path);
          remove_walk fuel (Next entries path)
      | Next entries path =>
          '(item, entries) ← next entries;
          match item with
          | None => fs (fs_remove_dir path)
          | Some r =>
              entry ← fs (lift r);
              let entry_path := path +:+ "/" +:+ file_name entry in
              (if type_is_dir (file_type entry) then remove_walk fuel (Enter entry_path)
               else fs (fs_remove_file entry_path));;
              remove_walk fuel (Next entries path)
          end
      end
  end.

Definition remove_dir_recursive (fuel : nat) (path : string) : io () :=
  remove_walk fuel (Enter path).

Definition rm_one (fuel : nat) (path : string) (rm_dir recursive force : bool) : io () := λ s,
  match fs (fs_metadata path) s with
  | (Err e, s') => if force then (Ok (), s') else (Err e, s')
  | (Panic, s') => (Panic, s')
  | (Ok metadata, s') =>
      (if md_is_dir metadata then
         if recursive then remove_dir_recursive fuel path
         else if rm_dir then fs (fs_remove_dir path)
         else throw (IoError Unsupported)
       else fs (fs_remove_file path)) s'
  end.

Definition rm_path (fuel : nat) (rm_dir recursive force : bool) (path : string) : M () :=
  r ← result (rm_one fuel path rm_dir recursive force);
  match r with
  | inl e => if negb force then print_err "rm" ("cannot remove '" +:+ path +:+ "'") e else mret ()
  | inr _ => mret ()
  end.

Definition do_rm (fuel : nat) (cmd : ParsedCommand) : M () :=
  let args := positional_args cmd in
  if is_empty args then print_err2 "rm" "missing operand" else
  each (rm_path fuel (flag_set cmd "dir") (flag_set cmd "recursive") (flag_set cmd "force")) args.

(** *** [cd] and [pwd] *)

Definition do_cd (cmd : ParsedCommand) : M () :=
  match positional_args cmd with
  | [] => report "cd" "/" (fs (env_set_current_dir "/"))
  | [target] => report "cd" target (fs (env_set_current_dir target))
  | _ => print_err2 "cd" "too many arguments"
  end.

Definition do_pwd (cmd : ParsedCommand) : M () :=
  pwd ← unwrapped (fs env_current_dir);
  println pwd.

(** *** [uname], [exit] and [log] *)

Definition do_uname (cmd : ParsedCommand) : M () :=
  let arch := default "" (option_env "AX_ARCH") in
  let platform := default "" (option_env "AX_PLATFORM") in
  let smp := match option_env "AX_SMP" with
             | None => ""
             | Some n => if bool_decide (n = "1") then "" else " SMP"
             end in
  let version := default "0.1.0" (option_env "CARGO_PKG_VERSION") in
  let all := "ArceOS " +:+ version +:+ smp +:+ " " +:+ arch +:+ " " +:+ platform in
  if flag_set cmd "all" then println all
  else if flag_set cmd "kernel-name" then println "ArceOS"
  else if flag_set cmd "machine" then println arch
  else println all.

Definition do_exit (cmd : ParsedCommand) : M () :=
  let exit_code := match positional_args cmd with
                   | [] => 0
                   | a :: _ => default 0 (parse_i32 a)
                   end in
  println "Bye~";;
  throw (Exit exit_code).

Definition level_of (a : string) : option LevelFilter :=
  if bool_decide (a ∈ ["on"; "enable"]) then Some LInfo
  else if bool_decide (a ∈ ["off"; "disable"]) then Some LOff
  else if bool_decide (a = "error") then Some LError
  else if bool_decide (a = "warn") then Some LWarn
  else if bool_decide (a = "info") then Some LInfo
  else if bool_decide (a = "debug") then Some LDebug
  else if bool_decide (a = "trace") then Some LTrace
  else None.

Definition set_max_level (l : LevelFilter) : M () :=
  modify (λ s, mkShell (sh_fs s) (sh_out s) l).

Definition do_log (cmd : ParsedCommand) : M () :=
  match positional_args cmd with
  | [] => l ← gets sh_level; println ("Current log level: " +:+ level_debug l)
  | a :: _ =>
      match level_of a with
      | Some l =>
          set_max_level l;;
          l ← gets sh_level;
          println ("Log level set to: " +:+ level_debug l)
      | None =>
          println ("Unknown log level: " +:+ a);;
          println "Available levels: off, error, warn, info, debug, trace"
      end
  end.

(** *** [cp] *)

Fixpoint copy_loop (fuel : nat) (src_file dst_file : F) : io () :=
  match fuel with
  | O => throw OutOfFuel
  | Datatypes.S fuel =>
      '(buffer, src_file) ← fs (file_read src_file 4096);
      if str_is_empty buffer then mret () else
      dst_file ← fs (file_write_all dst_file buffer);
      copy_loop fuel src_file dst_file
  end.

Definition copy_file (fuel : nat) (src dst : string) : io () :=
  src_file ← fs (file_open src);
  dst_file ← fs (file_create dst);
  copy_loop fuel src_file dst_file.

Inductive copy_step : Type :=
| CopyEnter (src dst : string)
| CopyNext (d : D) (src dst : string).

Fixpoint copy_walk (fuel : nat) (w : copy_step) : io () :=
  match fuel with
  | O => throw OutOfFuel
  | Datatypes.S fuel =>
      match w with
      | CopyEnter src dst =>
          fs (fs_create_dir dst);;
          entries ← fs (fs_read_dir src);
          copy_walk fuel (CopyNext entries src dst)
      | CopyNext entries src dst =>
          '(item, entries) ← next entries;
          match item with
          | None => mret ()
          | Some r =>
              entry ← fs (lift r);
              let src_path := src +:+ "/" +:+ file_name entry in
              let dst_path := dst +:+ "/" +:+ file_name entry in
              (if type_is_dir (file_type entry) then copy_walk fuel (CopyEnter src_path dst_path)
               else copy_file fuel src_path dst_path);;
              copy_walk fuel (CopyNext entries src dst)
          end
      end
  end.

Definition copy_dir_recursive (fuel : nat) (src dst : string) : io () :=
  copy_walk fuel (CopyEnter src dst).

Definition do_cp (fuel : nat) (cmd : ParsedCommand) : M () :=
  match positional_args cmd with
  | source :: dest :: _ =>
      md ← result (fs (fs_metadata source));
      match md with
      | inl e => print_err "cp" ("cannot access '" +:+ source +:+ "'") e
      | inr src_metadata =>
          report "cp" ("cannot copy '" +:+ source +:+ "' to '" +:+ dest +:+ "'")
            (if md_is_dir src_metadata then
               if flag_set cmd "recursive" then copy_dir_recursive fuel source dest
               else throw (IoError Unsupported)
             else copy_file fuel source dest)
      end
  | _ => print_err2 "cp" "missing operand"
  end.

(** *** [mv] *)

(** What [move_file_or_dir] does when the rename fails. *)
Definition copy_and_remove (fuel : nat) (source dest : string) : io () :=
  src_meta ← fs (fs_metadata source);
  if md_is_dir src_meta then
    copy_dir_recursive fuel source dest;;
    remove_dir_recursive fuel source
  else
    copy_file fuel source dest;;
    fs (fs_remove_file source).

Definition move_file_or_dir (fuel : nat) (source dest : string) : io () := λ s,
  match fs (fs_rename source dest) s with
  | (Err (IoError _), s') => copy_and_remove fuel source dest s'
  | r => r
  end.

(** The first entry that [file_dir.next()] gives, behind [dest] and a slash. *)
Definition first_entry (dir dest : string) : M (option string) :=
  file_dir ← unwrapped (fs (fs_read_dir dir));
  '(item, _) ← next file_dir;
  match item with
  | None => mret None
  | Some r => dir_name ← unwrapped (fs (lift r)); mret (Some (dest +:+ "/" +:+ file_name dir_name))
  end.

Definition move_to (fuel : nat) (source dest_path : string) : M () :=
  report "mv" ("cannot move '" +:+ source +:+ "' to '" +:+ dest_path +:+ "'")
    (move_file_or_dir fuel source dest_path).

Definition invalid_source (source : string) : M () :=
  print_err2 "mv" ("invalid source path '" +:+ source +:+ "'").

Fixpoint move_each (fuel : nat) (dest : string) (sources : list string) : M () :=
  match sources with
  | [] => mret ()
  | source :: sources =>
      source_name ← first_entry source dest;
      match source_name with
      | None => invalid_source source
      | Some source_name =>
          move_to fuel source (dest +:+ "/" +:+ source_name);;
          move_each fuel dest sources
      end
  end.

Definition do_mv (fuel : nat) (cmd : ParsedCommand) : M () :=
  let args := positional_args cmd in
  match args with
  | [] | [_] => print_err2 "mv" "missing operand"
  | [source; dest] =>
      dest_meta ← result (fs (fs_metadata dest));
      match dest_meta with
      | inr m =>
          if md_is_dir m then
            source_name ← first_entry dest dest;
            match source_name with
            | None => invalid_source source
            | Some source_name => move_to fuel source (dest +:+ "/" +:+ source_name)
            end
          else move_to fuel source dest
      | inl _ => move_to fuel source dest
      end
  | _ =>
      let dest := default "" (last args) in
      let sources := take (length args - 1) args in
      dest_meta ← result (fs (fs_metadata dest));
      match dest_meta with
      | inr m =>
          if md_is_dir m then move_each fuel dest sources
          else print_err2 "mv" ("target '" +:+ dest +:+ "' is not a directory")
      | inl e => print_err "mv" ("cannot access '" +:+ dest +:+ "'") e
      end
  end.

(** *** [touch] *)

Definition do_touch (cmd : ParsedCommand) : M () :=
  let args := positional_args cmd in
  if is_empty args then print_err2 "touch" "missing operand" else
  each (λ filename, report "touch" filename (fs (file_create filename))) args.

(** ** The tree *)

Abbreviation handlers := (ParsedCommand → M ()).

Definition flag_of (name desc short : string) : FlagDef :=
  flag_with_long name (flag_with_short short (flag_new name desc)).

(** The flags of a command in the order they are added. *)
Definition command (desc usage : string) (h : handlers) (fl : list FlagDef) : CommandNode handlers :=
  fold_left (λ n f, with_flag f n) fl (with_usage usage (with_handler h (node_new desc))).

(** [build_base_cmd] of a build with the feature [fs]. *)
Definition base_commands (fuel : nat) : list (string * CommandNode handlers) :=
  [("ls", command "List directory contents" "ls [OPTIONS] [DIRECTORY...]" (do_ls fuel)
      [flag_of "long" "Use long listing format" "l"; flag_of "all" "Show hidden files" "a"]);
   ("cat", command "Display file contents" "cat <FILE1> [FILE2...]" (do_cat fuel) []);
   ("echo", command "Display text" "echo [OPTIONS] [TEXT...]" do_echo
      [flag_of "no-newline" "Do not output trailing newline" "n"]);
   ("mkdir", command "Create directories" "mkdir [OPTIONS] <DIRECTORY1> [DIRECTORY2...]" do_mkdir
      [flag_of "parents" "Create parent directories as needed" "p"]);
   ("rm", command "Remove files and directories" "rm [OPTIONS] <FILE1> [FILE2...]" (do_rm fuel)
      [flag_of "dir" "Remove empty directories" "d";
       flag_of "recursive" "Remove directories recursively" "r";
       flag_of "force" "Force removal, ignore nonexistent files" "f"]);
   ("cd", command "Change directory" "cd [DIRECTORY]" do_cd []);
   ("pwd", command "Print working directory" "pwd [OPTIONS]" do_pwd
      [flag_of "logical" "Use logical path" "L"]);
   ("uname", command "System information" "uname [OPTIONS]" do_uname
      [flag_of "all" "Show all information" "a"; flag_of "kernel-name" "Show kernel name" "s";
       flag_of "machine" "Show machine architecture" "m"]);
   ("exit", command "Exit the shell" "exit [EXIT_CODE]" do_exit []);
   ("log", command "Change log level" "log [LEVEL]" do_log []);
   ("touch", command "Create empty files" "touch <FILE1> [FILE2...]" do_touch []);
   ("cp", command "Copy files" "cp [OPTIONS] <SOURCE> <DEST>" (do_cp fuel)
      [flag_of "recursive" "Copy directories recursively" "r"]);
   ("mv", command "Move/rename files"
      "mv <SOURCE> <DEST> | mv <SOURCE1> [SOURCE2...] <DIRECTORY>" (do_mv fuel) [])].

Definition build_base_cmd (fuel : nat) (tree : list (string * CommandNode handlers))
  : list (string * CommandNode handlers) :=
  fold_left (λ t '(name, node), assoc_insert name node t) (base_commands fuel) tree.
End base.
