(* ===== verification/BaseFiles.v ===== *)
(** * What the file commands do to files

    [StdFiles] states what [std::fs] documents about regular files: which file a
    path names, what a file holds, and what opening, creating, reading, writing
    and removing change.  Against it: a copy is exact, a move that
    has to copy never loses the contents, and text written by [echo] is printed by [cat]. *)

From Stdlib Require Import Ascii.
From S2P Require Import Prelude RustStr Command VmCommands Vfs BaseCmd.

(** The regular file a path names, by number, and its bytes; [healthy]: from this
    state on the device neither fails nor fills up; [can_create]: the path names a
    regular file that may be written, or a free name in a directory. *)
Class FilesView (S F : Type) : Type := {
  inode_of : S → string → option Z;
  bytes_of : S → Z → string;
  healthy : S → Prop;
  can_create : S → string → Prop;
  is_directory : S → string → Prop;
  file_ino : F → Z;
  file_pos : F → nat;
}.

Section view.
Context {S F : Type} `{!FilesView S F}.

(** Nothing about files has changed. *)
Record same_files (s s' : S) : Prop := mkSame {
  same_inode : ∀ p, inode_of s' p = inode_of s p;
  same_bytes : ∀ i, bytes_of s' i = bytes_of s i;
  same_healthy : healthy s → healthy s';
  same_create : ∀ p, can_create s p → can_create s' p;
}.

(** The text [t] has been appended to the file [i]. *)
Record appended (i : Z) (t : string) (s s' : S) : Prop := mkAppended {
  app_inode : ∀ p, inode_of s' p = inode_of s p;
  app_bytes : bytes_of s' i = bytes_of s i +:+ t;
  app_others : ∀ j, j ≠ i → bytes_of s' j = bytes_of s j;
  app_healthy : healthy s → healthy s';
}.

(** [create] has made [p] the name of the empty file [i]. *)
Record created (p : string) (i : Z) (s s' : S) : Prop := mkCreated {
  cr_names : inode_of s' p = Some i;
  cr_empty : bytes_of s' i = "";
  cr_others : ∀ j, j ≠ i → bytes_of s' j = bytes_of s j;
  cr_paths : ∀ q j, inode_of s q = Some j → inode_of s' q = Some j;
  cr_fresh : inode_of s p = None → ∀ q, inode_of s q ≠ Some i;
  cr_healthy : healthy s → healthy s';
}.
End view.

Class StdFiles (S F D : Type) `{!StdFs S F D} `{!FilesView S F} : Prop := {
  open_law s p i : inode_of s p = Some i →
    match file_open p s with
    | (Ok f, s') => file_ino f = i ∧ file_pos f = 0%nat ∧ same_files s s'
    | (Err _, s') => ¬ healthy s ∧ same_files s s'
    | (Panic, _) => False
    end;
  create_law s p :
    match file_create p s with
    | (Ok f, s') => file_pos f = 0%nat ∧ created p (file_ino f) s s'
    | (Err _, s') => ¬ (healthy s ∧ can_create s p) ∧ same_files s s'
    | (Panic, _) => False
    end;
  read_law s f n pre post :
    bytes_of s (file_ino f) = pre +:+ post → String.length pre = file_pos f → 0 < n →
    match file_read f n s with
    | (Ok (got, f'), s') =>
        same_files s s' ∧ file_ino f' = file_ino f ∧
        file_pos f' = (file_pos f + String.length got)%nat ∧ Z.of_nat (String.length got) ≤ n ∧
        (∃ rest, post = got +:+ rest) ∧ (got = "" → post = "")
    | (Err _, s') => ¬ healthy s ∧ same_files s s'
    | (Panic, _) => False
    end;
  write_law s f t : String.length (bytes_of s (file_ino f)) = file_pos f →
    match file_write_all f t s with
    | (Ok f', s') =>
        appended (file_ino f) t s s' ∧ file_ino f' = file_ino f ∧
        file_pos f' = (file_pos f + String.length t)%nat
    | (Err _, s') => ¬ healthy s ∧ ∃ u rest, t = u +:+ rest ∧ appended (file_ino f) u s s'
    | (Panic, _) => False
    end;
  metadata_law s p i : inode_of s p = Some i →
    match fs_metadata p s with
    | (Ok m, s') => md_is_dir m = false ∧ same_files s s'
    | (Err _, s') => ¬ healthy s ∧ same_files s s'
    | (Panic, _) => False
    end;
  metadata_dir_law s p : is_directory s p →
    match fs_metadata p s with
    | (Ok m, s') => md_is_dir m = true ∧ same_files s s'
    | (Err _, s') => ¬ healthy s ∧ same_files s s'
    | (Panic, _) => False
    end;
  read_dir_law s p i : inode_of s p = Some i →
    match fs_read_dir p s with (Err _, s') => same_files s s' | _ => False end;
  remove_law s p i : inode_of s p = Some i →
    match fs_remove_file p s with
    | (Ok _, s') => ∀ q j, j ≠ i → inode_of s q = Some j →
        inode_of s' q = Some j ∧ bytes_of s' j = bytes_of s j
    | (Err _, s') => same_files s s'
    | (Panic, _) => False
    end;
}.

(** ** Words of a redirection *)

Lemma rsplit_app c p s :
  rsplit_at_char c s = None → rsplit_at_char c (p +:+ String c s) = Some (p, s).
Proof.
  intros Hs. induction p as [|a p IH].
  - change ("" +:+ String c s) with (String c s). cbn. by rewrite Hs, bool_decide_true.
  - change (String a p +:+ String c s) with (String a (p +:+ String c s)). cbn. by rewrite IH.
Qed.

Lemma drop_while_snoc {A} (p : A → bool) l w :
  p w = true →
  drop_while p (reverse (drop_while p (l ++ [w]))) = drop_while p (reverse (drop_while p l)).
Proof.
  intros Hw. induction l as [|a l IH]; simpl; [by rewrite Hw|]. destruct (p a); [done|].
  change (a :: l ++ [w]) with ((a :: l) ++ [w]). rewrite reverse_snoc. simpl. by rewrite Hw.
Qed.

Lemma chars_from_space cur s : chars_from cur (s +:+ " ") = chars_from cur s ++ [" "].
Proof.
  revert cur. induction s as [|a s IH]; intros cur; [done|].
  change (String a s +:+ " ") with (String a (s +:+ " ")). cbn [chars_from].
  destruct (is_cont a); [done|]. by rewrite IH, (assoc_L (++)).
Qed.

Lemma trim_space s : trim (s +:+ " ") = trim s.
Proof. unfold trim, chars. rewrite chars_from_space. by rewrite drop_while_snoc. Qed.

Lemma drop_while_none {A} (p : A → bool) l : Forall (λ x, p x = false) l → drop_while p l = l.
Proof. destruct 1 as [|x l Hx]; simpl; [done|]. by rewrite Hx. Qed.

Lemma break_ws_none l : Forall (λ c, is_whitespace c = false) l → break_ws l = (l, []).
Proof. induction 1 as [|c l Hc _ IH]; simpl; [done|]. by rewrite Hc, IH. Qed.

(** A file name is one word. *)
Definition one_word (f : string) : Prop :=
  text f ∧ f ≠ "" ∧ Forall (λ c, is_whitespace c = false) (chars f).

Lemma split_first_word_one f : one_word f → split_first_word (" " +:+ f) = (f, "").
Proof.
  intros (Hf & Hne & Hw). unfold split_first_word, trim at 1.
  assert (Hc : chars (" " +:+ f) = " " :: chars f).
  { rewrite <- (chars_concat f) at 1. change (" " +:+ str_concat (chars f)) with (str_concat (" " :: chars f)).
    apply good_chars. constructor; [done|]. by apply text_chars. }
  rewrite Hc. cbn [drop_while]. change (is_whitespace " ") with true. cbn iota.
  rewrite (drop_while_none _ (chars f)) by done.
  rewrite drop_while_none by by apply Forall_reverse.
  rewrite reverse_involutive, chars_concat, break_ws_none by done. by rewrite chars_concat.
Qed.

Lemma join_redirect words f :
  words ≠ [] →
  str_join " " (words ++ [">"; f]) = (str_join " " words +:+ " ") +:+ String ">" (" " +:+ f).
Proof.
  induction words as [|w words IH]; [done|]. intros _. destruct words as [|w' words].
  - cbn [app str_join]. by rewrite string_app_assoc.
  - change (str_join " " ((w :: w' :: words) ++ [">"; f]))
      with (w +:+ " " +:+ str_join " " ((w' :: words) ++ [">"; f])).
    rewrite IH by done. change (str_join " " (w :: w' :: words))
      with (w +:+ " " +:+ str_join " " (w' :: words)). by rewrite !string_app_assoc.
Qed.

Section files.
Context {S F D : Type} `{!StdFs S F D} `{!FilesView S F} `{!StdFiles S F D}.
Context `{!ErrorText}.
Implicit Types (s : shell S).

Lemma same_files_refl (s : S) : same_files s s.
Proof. by split. Qed.

Lemma same_files_trans (s s1 s2 : S) : same_files s s1 → same_files s1 s2 → same_files s s2.
Proof.
  intros [Hi Hb Hh Hc] [Hi' Hb' Hh' Hc']. split; [| |by auto|by auto]; intros x.
  - by rewrite Hi'.
  - by rewrite Hb'.
Qed.

Lemma appended_after_same (s s1 s2 : S) i t :
  same_files s s1 → appended i t s1 s2 → appended i t s s2.
Proof.
  intros [Hi Hb Hh _] [Hi' Hb' Ho' Hh']. split; [| | |by auto].
  - intros p. by rewrite Hi'.
  - by rewrite Hb', Hb.
  - intros j Hj. by rewrite Ho'.
Qed.

Lemma appended_trans (s s1 s2 : S) i t u :
  appended i t s s1 → appended i u s1 s2 → appended i (t +:+ u) s s2.
Proof.
  intros [Hi Hb Ho Hh] [Hi' Hb' Ho' Hh']. split; [| | |by auto].
  - intros p. by rewrite Hi'.
  - by rewrite Hb', Hb, string_app_assoc.
  - intros j Hj. by rewrite Ho', Ho.
Qed.

Lemma appended_nothing (s s1 : S) i : same_files s s1 → appended i "" s s1.
Proof. intros [Hi Hb Hh _]. split; [done| |by intros|done]. by rewrite Hb, string_app_nil_r. Qed.

(** ** Copying *)

(** The loop appends the rest of the source to the destination; an error leaves a
    part of it there. *)
Lemma copy_loop_spec fuel f g s pre post :
  file_ino f ≠ file_ino g →
  bytes_of (sh_fs s) (file_ino f) = pre +:+ post → String.length pre = file_pos f →
  String.length (bytes_of (sh_fs s) (file_ino g)) = file_pos g →
  (String.length post < fuel)%nat →
  match copy_loop fuel f g s with
  | (Ok _, s') => appended (file_ino g) post (sh_fs s) (sh_fs s') ∧ sh_out s' = sh_out s
  | (Err (IoError _), s') => ¬ healthy (sh_fs s) ∧
      ∃ u, appended (file_ino g) u (sh_fs s) (sh_fs s')
  | _ => False
  end.
Proof.
  revert f g s pre post. induction fuel as [|fuel IH]; intros f g s pre post Hne Hb Hp Hg Hlt; [lia|].
  simpl. unfold mbind at 1, st_bind at 1, fs at 1.
  pose proof (read_law (sh_fs s) f 4096 pre post Hb Hp ltac:(lia)) as Hr.
  destruct (file_read f 4096 (sh_fs s)) as [[[got f']|e|] s1]; [|simpl|done].
  2: { destruct Hr as [Hh Hr]. split; [done|]. exists "". by apply appended_nothing. }
  destruct Hr as (Hsame & Hino & Hpos & _ & (rest & ->) & Hend).
  destruct (str_is_empty got) eqn:Eg.
  { destruct got; [|done]. rewrite Hend by done. split; [|done]. by apply appended_nothing. }
  unfold mbind, st_bind, fs; simpl.
  pose proof (write_law s1 g got) as Hw. rewrite (same_bytes _ _ Hsame) in Hw. specialize (Hw Hg).
  destruct (file_write_all g got s1) as [[g'|e|] s2]; [|simpl|done].
  2: { destruct Hw as (Hh & u & r & _ & Hu). split; [intros ?; by apply Hh, Hsame|].
       exists u. by eapply appended_after_same. }
  destruct Hw as (Ha & Hino2 & Hpos2). assert (Ha' := appended_after_same _ _ _ _ _ Hsame Ha).
  assert (Hgot : (0 < String.length got)%nat) by (destruct got; simpl; [done|lia]).
  rewrite string_app_length in Hlt.
  specialize (IH f' g' (mkShell s2 (sh_out s) (sh_level s)) (pre +:+ got) rest).
  rewrite Hino, Hino2 in IH. simpl in IH.
  rewrite (app_others _ _ _ _ Ha'), (app_bytes _ _ _ _ Ha'), !string_app_length, Hpos, Hpos2 in IH by done.
  rewrite Hb, string_app_assoc in IH.
  specialize (IH Hne eq_refl ltac:(lia) ltac:(lia) ltac:(lia)).
  destruct (copy_loop _ _ _ _) as [[[]|[e|]|] s']; [| |done..].
  - destruct IH as [IH Ho]. split; [|done]. by eapply appended_trans.
  - destruct IH as (Hh & u & IH). split; [intros ?; by apply Hh, Ha'|].
    exists (got +:+ u). by eapply appended_trans.
Qed.

(** What a copy from the file [i] to the path [dst] leaves behind. *)
Definition copy_result (i : Z) (dst : string) (data : string) (s s' : S) : Prop :=
  ∃ j, j ≠ i ∧ inode_of s' dst = Some j ∧ bytes_of s' j = data ∧
    (∀ k, k ≠ j → bytes_of s' k = bytes_of s k) ∧
    (∀ q k, inode_of s q = Some k → inode_of s' q = Some k).

Lemma copy_file_spec fuel src dst s i :
  inode_of (sh_fs s) src = Some i → inode_of (sh_fs s) dst ≠ Some i →
  (String.length (bytes_of (sh_fs s) i) < fuel)%nat →
  match copy_file fuel src dst s with
  | (Ok _, s') =>
      copy_result i dst (bytes_of (sh_fs s) i) (sh_fs s) (sh_fs s') ∧ sh_out s' = sh_out s
  | (Err (IoError _), s') => ¬ (healthy (sh_fs s) ∧ can_create (sh_fs s) dst) ∧
      inode_of (sh_fs s') src = Some i ∧ bytes_of (sh_fs s') i = bytes_of (sh_fs s) i
  | _ => False
  end.
Proof.
  intros Hsrc Hdst Hlt. unfold copy_file, mbind, st_bind, fs at 1.
  pose proof (open_law (sh_fs s) src i Hsrc) as Ho.
  destruct (file_open src (sh_fs s)) as [[f|e|] s1]; [|simpl|done].
  2: { destruct Ho as (Hh & [Hi Hb _ _]). rewrite Hi, Hb. split_and!; [tauto|done..]. }
  destruct Ho as (Hf & Hf0 & Hsame). unfold fs at 1; simpl.
  pose proof (create_law s1 dst) as Hc.
  destruct (file_create dst s1) as [[g|e|] s2]; [|simpl|done].
  2: { destruct Hc as (Hn & Hs2). destruct (same_files_trans _ _ _ Hsame Hs2) as [Hi Hb _ _].
       rewrite Hi, Hb. split_and!; [|done..]. intros [??]. apply Hn. by split; apply Hsame. }
  destruct Hc as (Hg0 & [Hn Hz Hot Hpa Hfr Hhe]).
  assert (Hij : i ≠ file_ino g).
  { intros ->. destruct (inode_of s1 dst) as [k|] eqn:Ek.
    - apply Hpa in Ek as Ek'. rewrite Hn in Ek'. injection Ek' as <-. by rewrite (same_inode _ _ Hsame) in Ek.
    - apply (Hfr eq_refl src). by rewrite (same_inode _ _ Hsame). }
  pose proof (copy_loop_spec fuel f g (mkShell s2 (sh_out s) (sh_level s)) "" (bytes_of (sh_fs s) i)) as Hl.
  rewrite Hf in Hl. simpl in Hl.
  rewrite Hot, (same_bytes _ _ Hsame), Hz, Hf0, Hg0 in Hl by done.
  specialize (Hl Hij eq_refl eq_refl eq_refl Hlt). simpl.
  destruct (copy_loop _ _ _ _) as [[[]|[e|]|] s']; [| |done..].
  - destruct Hl as ([Hi' Hb' Ho' _] & Hout). split; [|done].
    exists (file_ino g). rewrite Hi', Hb', Hz. split_and!; [done..| |].
    + intros k Hk. by rewrite Ho', Hot, (same_bytes _ _ Hsame).
    + intros q k Hq. rewrite Hi'. apply Hpa. by rewrite (same_inode _ _ Hsame).
  - destruct Hl as (Hh & u & [Hi' Hb' Ho' _]). split_and!.
    + intros [Hhs _]. by apply Hh, Hhe, Hsame.
    + rewrite Hi'. apply Hpa. by rewrite (same_inode _ _ Hsame).
    + by rewrite Ho', Hot, (same_bytes _ _ Hsame).
Qed.

(** The error of [io::Result] code that a handler does not see. *)
Lemma report_ok {A} cmd arg (m : st (shell S) io_error A) s a s' :
  m s = (Ok a, s') → report cmd arg m s = (Ok (), s').
Proof. intros Hm. unfold report, result, mbind, st_bind. by rewrite Hm. Qed.

Lemma metadata_run s p i :
  inode_of (sh_fs s) p = Some i → healthy (sh_fs s) →
  ∃ m s1, result (fs (fs_metadata p)) s = (Ok (inr m), s1) ∧ md_is_dir m = false ∧
    same_files (sh_fs s) (sh_fs s1) ∧ sh_out s1 = sh_out s.
Proof.
  intros Hp Hh. unfold result, fs. pose proof (metadata_law (sh_fs s) p i Hp) as Hm.
  destruct (fs_metadata p (sh_fs s)) as [[m|e|] s1]; [|tauto|done].
  destruct Hm as [Hd Hs]. by exists m, (mkShell s1 (sh_out s) (sh_level s)).
Qed.

(** [cp src dst] of files is [copy_file] from an equivalent state. *)
Lemma cp_of_file fuel cmd src dst rest s i :
  positional_args cmd = src :: dst :: rest →
  inode_of (sh_fs s) src = Some i → healthy (sh_fs s) →
  ∃ s1, same_files (sh_fs s) (sh_fs s1) ∧ sh_out s1 = sh_out s ∧
    do_cp fuel cmd s =
    report "cp" ("cannot copy '" +:+ src +:+ "' to '" +:+ dst +:+ "'") (copy_file fuel src dst) s1.
Proof.
  intros Hargs Hsrc Hh. destruct (metadata_run s src i Hsrc Hh) as (m & s1 & Hm & Hd & Hs & Ho).
  exists s1. split_and!; [done..|]. unfold do_cp. rewrite Hargs, (bind_run _ _ _ _ _ Hm).
  cbn beta iota. by rewrite Hd.
Qed.

(** C34: [cp src dst] copies: for two paths that name different files, or a free
    destination, on a device that works, the command prints nothing and leaves
    the contents of the source, of any length, in the destination; every other
    file, the source included, and every other path is as before. *)
Theorem cp_copies fuel cmd src dst s i :
  positional_args cmd = [src; dst] →
  inode_of (sh_fs s) src = Some i → inode_of (sh_fs s) dst ≠ Some i →
  healthy (sh_fs s) → can_create (sh_fs s) dst →
  (String.length (bytes_of (sh_fs s) i) < fuel)%nat →
  ∃ s', do_cp fuel cmd s = (Ok (), s') ∧ sh_out s' = sh_out s ∧
    copy_result i dst (bytes_of (sh_fs s) i) (sh_fs s) (sh_fs s').
Proof.
  intros Hargs Hsrc Hdst Hh Hc Hlt.
  destruct (cp_of_file fuel cmd src dst [] s i Hargs Hsrc Hh) as (s1 & [Hi Hb Hh1 Hc1] & Ho & ->).
  pose proof (copy_file_spec fuel src dst s1 i) as Hcp. rewrite !Hi, !Hb in Hcp.
  specialize (Hcp Hsrc Hdst Hlt).
  destruct (copy_file fuel src dst s1) as [[[]|[e|]|] s'] eqn:E; [|destruct Hcp as [[] _]; auto|done..].
  destruct Hcp as ((j & Hj & Hn & Hd & Hot & Hpa) & Hout).
  exists s'. split_and!; [by eapply report_ok|by rewrite Hout|]. exists j. split_and!; [done..| |].
  - intros k Hk. by rewrite Hot.
  - intros q k Hq. apply Hpa. by rewrite Hi.
Qed.

(** [cp] of a file onto itself, under the same or another path, empties the
    file without a message: the destination is truncated before the first read. *)
Theorem cp_onto_itself_empties fuel cmd src dst s i :
  positional_args cmd = [src; dst] →
  inode_of (sh_fs s) src = Some i → inode_of (sh_fs s) dst = Some i →
  healthy (sh_fs s) → can_create (sh_fs s) dst → (0 < fuel)%nat →
  ∃ s', do_cp fuel cmd s = (Ok (), s') ∧ sh_out s' = sh_out s ∧
    inode_of (sh_fs s') src = Some i ∧ bytes_of (sh_fs s') i = "".
Proof.
  intros Hargs Hsrc Hdst Hh Hc Hlt. destruct fuel as [|fuel]; [lia|].
  destruct (cp_of_file (Datatypes.S fuel) cmd src dst [] s i Hargs Hsrc Hh)
    as (s1 & [Hi Hb Hh1 Hc1] & Ho & ->).
  unfold report, result, copy_file, mbind, st_bind, fs at 1.
  pose proof (open_law (sh_fs s1) src i) as Hop. rewrite Hi in Hop. specialize (Hop Hsrc).
  destruct (file_open src (sh_fs s1)) as [[f|e|] s2]; [|tauto|done].
  destruct Hop as (Hf & Hf0 & [Hi2 Hb2 Hh2 Hc2]). unfold fs at 1; simpl.
  pose proof (create_law s2 dst) as Hcr.
  destruct (file_create dst s2) as [[g|e|] s3]; [|destruct Hcr as [[] _]; auto|done].
  destruct Hcr as (_ & [Hn Hz _ Hpa _ Hh3]).
  assert (Hg : file_ino g = i).
  { specialize (Hpa dst i). rewrite Hi2, Hi in Hpa. specialize (Hpa Hdst). congruence. }
  rewrite Hg in *. unfold mbind, st_bind, fs; simpl.
  pose proof (read_law s3 f 4096 "" "") as Hr. rewrite Hf, Hz in Hr.
  specialize (Hr eq_refl (eq_sym Hf0) ltac:(lia)).
  destruct (file_read f 4096 s3) as [[[got f']|e|] s4]; [|exfalso; apply Hr; auto|done].
  destruct Hr as ([Hi4 Hb4 _ _] & _ & _ & _ & (rest & Hnil) & _).
  destruct got; [|done]. simpl. eexists. split_and!; [done|done| |by rewrite Hb4].
  simpl. rewrite Hi4. apply Hpa. by rewrite Hi2, Hi.
Qed.

(** ** Moving *)


(** Moving several files into a directory brings the hypervisor down: for every
    source the handler opens the source as a directory and unwraps the result, so
    that a regular file in the first place makes it panic with nothing moved. *)
Theorem mv_several_files_panics fuel cmd a b rest dest s i :
  positional_args cmd = (a :: b :: rest) ++ [dest] →
  inode_of (sh_fs s) a = Some i → is_directory (sh_fs s) dest → healthy (sh_fs s) →
  ∃ s', do_mv fuel cmd s = (Panic, s') ∧ same_files (sh_fs s) (sh_fs s') ∧ sh_out s' = sh_out s.
Proof.
  intros Hargs Ha Hd Hh.
  assert (Hmv : do_mv fuel cmd s = (
    dest_meta ← result (fs (fs_metadata dest));
    match dest_meta with
    | inr m => if md_is_dir m then move_each fuel dest (a :: b :: rest)
               else print_err2 "mv" ("target '" +:+ dest +:+ "' is not a directory")
    | inl e => print_err "mv" ("cannot access '" +:+ dest +:+ "'") e
    end) s).
  { unfold do_mv. rewrite Hargs, last_snoc. replace (take _ _) with (a :: b :: rest); [by destruct rest|].
    rewrite length_app, Nat.add_sub. by rewrite take_app_length. }
  rewrite Hmv. unfold mbind, st_bind, result, fs.
  pose proof (metadata_dir_law (sh_fs s) dest Hd) as Hm.
  destruct (fs_metadata dest (sh_fs s)) as [[m|e|] s1]; [|tauto|done].
  destruct Hm as [-> Hs1]. cbn [move_each]. unfold first_entry, unwrapped, result, mbind, st_bind, fs.
  cbn [sh_fs]. pose proof (read_dir_law s1 a i) as Hr.
  rewrite (same_inode _ _ Hs1) in Hr. specialize (Hr Ha).
  destruct (fs_read_dir a s1) as [[d|e|] s2]; [done| |done].
  eexists. split_and!; [done|by eapply same_files_trans|done].
Qed.

(** ** Printing *)

Lemma cat_loop_spec fuel f s pre post :
  bytes_of (sh_fs s) (file_ino f) = pre +:+ post → String.length pre = file_pos f →
  healthy (sh_fs s) → (String.length post < fuel)%nat →
  ∃ s', cat_loop fuel f s = (Ok (), s') ∧ same_files (sh_fs s) (sh_fs s') ∧
    sh_out s' = sh_out s +:+ post.
Proof.
  revert f s pre post. induction fuel as [|fuel IH]; intros f s pre post Hb Hp Hh Hlt; [lia|].
  simpl. unfold mbind at 1, st_bind at 1, fs at 1.
  pose proof (read_law (sh_fs s) f 1024 pre post Hb Hp ltac:(lia)) as Hr.
  destruct (file_read f 1024 (sh_fs s)) as [[[got f']|e|] s1]; [|tauto|done].
  destruct Hr as (Hsame & Hino & Hpos & _ & (rest & ->) & Hend).
  destruct (str_is_empty got) eqn:Eg; simpl.
  { destruct got; [|done]. rewrite Hend, string_app_nil_r by done. by eexists. }
  assert (Hgot : (0 < String.length got)%nat) by (destruct got; simpl; [done|lia]).
  rewrite string_app_length in Hlt. unfold mbind, st_bind; simpl.
  destruct (IH f' (mkShell s1 (sh_out s +:+ got) (sh_level s)) (pre +:+ got) rest)
    as (s' & -> & Hs' & Ho'); simpl.
  - rewrite Hino, (same_bytes _ _ Hsame), Hb. by rewrite string_app_assoc.
  - rewrite string_app_length, Hpos. lia.
  - by apply Hsame.
  - lia.
  - exists s'. split_and!; [done|by eapply same_files_trans|]. rewrite Ho'. cbn [sh_out].
    by rewrite string_app_assoc.
Qed.

Lemma cat_spec fuel cmd fname s i :
  positional_args cmd = [fname] → inode_of (sh_fs s) fname = Some i → healthy (sh_fs s) →
  (String.length (bytes_of (sh_fs s) i) < fuel)%nat →
  ∃ s', do_cat fuel cmd s = (Ok (), s') ∧ same_files (sh_fs s) (sh_fs s') ∧
    sh_out s' = sh_out s +:+ bytes_of (sh_fs s) i.
Proof.
  intros Hargs Hf Hh Hlt. unfold do_cat. rewrite Hargs. simpl.
  pose proof (open_law (sh_fs s) fname i Hf) as Ho.
  destruct (file_open fname (sh_fs s)) as [[f|e|] s1] eqn:Eo; [|tauto|done].
  destruct Ho as (Hino & Hpos & Hsame).
  destruct (cat_loop_spec fuel f (mkShell s1 (sh_out s) (sh_level s)) "" (bytes_of (sh_fs s) i))
    as (s' & Hl & Hs' & Ho'); simpl.
  - by rewrite Hino, (same_bytes _ _ Hsame).
  - done.
  - by apply Hsame.
  - done.
  - exists s'. split_and!; [|by eapply same_files_trans|done].
    unfold mbind at 1, st_bind at 1.
    rewrite (report_ok "cat" fname (cat_one fuel fname) s () s'); [done|].
    unfold cat_one, mbind, st_bind, fs. by rewrite Eo.
Qed.

(** ** Redirection *)

Lemma write_list_spec l f s :
  String.length (bytes_of (sh_fs s) (file_ino f)) = file_pos f → healthy (sh_fs s) →
  ∃ f' s', write_list f l s = (Ok f', s') ∧ sh_out s' = sh_out s ∧
    appended (file_ino f) (str_concat l) (sh_fs s) (sh_fs s').
Proof.
  revert f s. induction l as [|t l IH]; intros f s Hp Hh.
  { exists f, s. split_and!; [done..|]. by apply appended_nothing, same_files_refl. }
  simpl. unfold mbind, st_bind, fs.
  pose proof (write_law (sh_fs s) f t Hp) as Hw.
  destruct (file_write_all f t (sh_fs s)) as [[f1|e|] s1]; [|tauto|done].
  destruct Hw as (Ha & Hino & Hpos).
  destruct (IH f1 (mkShell s1 (sh_out s) (sh_level s))) as (f' & s' & -> & Ho & Ha'); simpl.
  - rewrite Hino, (app_bytes _ _ _ _ Ha), string_app_length. lia.
  - by apply Ha.
  - exists f', s'. split_and!; [done..|]. rewrite Hino in Ha'. by eapply appended_trans.
Qed.

Lemma echo_file_spec fname l s :
  healthy (sh_fs s) → can_create (sh_fs s) fname →
  ∃ i s', echo_file fname l s = (Ok (), s') ∧ sh_out s' = sh_out s ∧ healthy (sh_fs s') ∧
    inode_of (sh_fs s') fname = Some i ∧ bytes_of (sh_fs s') i = str_concat l ∧
    (∀ j, j ≠ i → bytes_of (sh_fs s') j = bytes_of (sh_fs s) j).
Proof.
  intros Hh Hc. unfold echo_file, mbind, st_bind, fs.
  pose proof (create_law (sh_fs s) fname) as Hcr.
  destruct (file_create fname (sh_fs s)) as [[f|e|] s1]; [|tauto|done].
  destruct Hcr as (Hp & [Hn Hz Ho _ _ Hh1]).
  destruct (write_list_spec l f (mkShell s1 (sh_out s) (sh_level s))) as (f' & s' & -> & Hout & Ha).
  - simpl. by rewrite Hz, Hp.
  - by apply Hh1.
  - destruct Ha as [Hi' Hb' Ho' Hh']. simpl in *. exists (file_ino f), s'. split_and!; [done|done|auto| | |].
    + by rewrite Hi'.
    + by rewrite Hb', Hz.
    + intros j Hj. by rewrite Ho', Ho.
Qed.

(** What [echo] writes, [cat] prints: [echo words > f] followed by [cat f]
    appends to the console the words, joined by spaces and trimmed, and a newline;
    the first command prints nothing, and no other file changes. *)
Theorem echo_cat_roundtrip fuel cmd cat words f s :
  positional_args cmd = words ++ [">"; f] → words ≠ [] → flag_set cmd "no-newline" = false →
  positional_args cat = [f] → one_word f → rsplit_at_char ">" f = None →
  healthy (sh_fs s) → can_create (sh_fs s) f →
  (String.length (trim (str_join " " words) +:+ newline) < fuel)%nat →
  ∃ i s1 s2, do_echo cmd s = (Ok (), s1) ∧ sh_out s1 = sh_out s ∧
    do_cat fuel cat s1 = (Ok (), s2) ∧
    sh_out s2 = sh_out s +:+ trim (str_join " " words) +:+ newline ∧
    inode_of (sh_fs s2) f = Some i ∧
    (∀ j, j ≠ i → bytes_of (sh_fs s2) j = bytes_of (sh_fs s) j).
Proof.
  intros Hargs Hne Hnl Hcat Hf Hgt Hh Hc Hlt.
  destruct (echo_file_spec f [trim (str_join " " words); ""; ""; newline] s Hh Hc)
    as (i & s1 & He & Ho & Hh1 & Hi & Hb & Hot).
  replace (str_concat _) with (trim (str_join " " words) +:+ newline) in Hb by done.
  destruct (cat_spec fuel cat f s1 i Hcat Hi Hh1) as (s2 & Hcat2 & [Hi2 Hb2 _ _] & Ho2).
  { by rewrite Hb. }
  exists i, s1, s2. split_and!; [|done|done| | |].
  - unfold do_echo. rewrite Hargs, join_redirect, Hnl by done.
    rewrite rsplit_app.
    2: { change (" " +:+ f) with (String " " f). cbn. by rewrite Hgt. }
    rewrite trim_space, split_first_word_one by done.
    destruct f as [|a f]; [by destruct Hf as (_ & ? & _)|]. cbn [str_is_empty negb].
    by eapply report_ok.
  - by rewrite Ho2, Hb, Ho.
  - by rewrite Hi2.
  - intros j Hj. by rewrite Hb2, Hot.
Qed.
End files.

(** ** Files in memory *)
Module MemFiles.

Fixpoint str_take (n : nat) (s : string) : string :=
  match n, s with Datatypes.S n, String a s => String a (str_take n s) | _, _ => "" end.

Fixpoint str_drop (n : nat) (s : string) : string :=
  match n, s with Datatypes.S n, String _ s => str_drop n s | _, _ => s end.

Lemma str_take_drop n s : str_take n s +:+ str_drop n s = s.
Proof.
  revert s. induction n as [|n IH]; intros [|a s]; try done. cbn [str_take str_drop].
  change (String a (str_take n s) +:+ str_drop n s) with (String a (str_take n s +:+ str_drop n s)).
  by rewrite IH.
Qed.

Lemma str_take_length n s : (String.length (str_take n s) ≤ n)%nat.
Proof. revert s. induction n as [|n IH]; intros [|a s]; simpl; try lia. specialize (IH s). lia. Qed.

Lemma str_drop_app p s : str_drop (String.length p) (p +:+ s) = s.
Proof. induction p as [|a p IH]; [by destruct s|done]. Qed.

Lemma str_take_all s : str_take (String.length s) s = s.
Proof. induction s as [|a s IH]; simpl; [done|]. by rewrite IH. Qed.

Record mem : Type := mkMem { names : gmap string Z; data : gmap Z string; dirs : list string }.

Definition bytes (s : mem) (i : Z) : string := default "" (data s !! i).

Definition fresh_ino (s : mem) : Z := fresh (map_img (SA := gset Z) (names s)).

Definition mem_ino (p : string) : st mem AxError Z :=
  s ← get; lift (ok_or (names s !! p) NotFound).

Definition mem_create (p : string) : st mem AxError (Z * nat) :=
  s ← get;
  let i := default (fresh_ino s) (names s !! p) in
  put (mkMem (<[p := i]> (names s)) (<[i := ""]> (data s)) (dirs s));;
  mret (i, 0%nat).

Definition mem_write (f : Z * nat) (t : string) : st mem AxError (Z * nat) :=
  s ← get;
  let old := bytes s f.1 in
  put (mkMem (names s) (<[f.1 := str_take f.2 old +:+ t +:+ str_drop (f.2 + String.length t) old]> (data s))
         (dirs s));;
  mret (f.1, (f.2 + String.length t)%nat).

#[export] Instance mem_fs : StdFs mem (Z * nat) () := {|
  fs_metadata p :=
    s ← get;
    match names s !! p with
    | Some i => mret (mkMetadata (Z.of_nat (String.length (bytes s i))) File 420)
    | None => if bool_decide (p ∈ dirs s) then mret (mkMetadata 0 Dir 493) else throw NotFound
    end;
  fs_read_dir _ := throw NotADirectory;
  dir_next d s := (None, d, s);
  file_open p := i ← mem_ino p; mret (i, 0%nat);
  file_create := mem_create;
  file_read f n :=
    s ← get; let got := str_take (Z.to_nat n) (str_drop f.2 (bytes s f.1)) in
    mret (got, (f.1, (f.2 + String.length got)%nat));
  file_write_all := mem_write;
  fs_create_dir _ := throw Unsupported;
  fs_create_dir_all _ := throw Unsupported;
  fs_remove_dir _ := throw NotFound;
  fs_remove_file p := _ ← mem_ino p; modify (λ s, mkMem (delete p (names s)) (data s) (dirs s));
  fs_rename p q :=
    if String.prefix "/mnt/" q then throw Unsupported
    else i ← mem_ino p; modify (λ s, mkMem (<[q := i]> (delete p (names s))) (data s) (dirs s));
  env_current_dir := mret "/";
  env_set_current_dir _ := throw NotFound;
|}.

#[export] Instance mem_view : FilesView mem (Z * nat) := {|
  inode_of s p := names s !! p;
  bytes_of := bytes;
  healthy _ := True;
  can_create _ _ := True;
  is_directory s p := names s !! p = None ∧ p ∈ dirs s;
  file_ino := fst;
  file_pos := snd;
|}.

Lemma mem_ino_run s p i : names s !! p = Some i → mem_ino p s = (Ok i, s).
Proof. intros Hp. unfold mem_ino. st_run. by rewrite Hp. Qed.

Lemma mem_create_law s p :
  match mem_create p s with
  | (Ok f, s') => file_pos f = 0%nat ∧ created p (file_ino f) s s'
  | (Err _, s') => ¬ (healthy s ∧ can_create s p) ∧ same_files s s'
  | (Panic, _) => False
  end.
Proof.
  unfold mem_create. st_run. set (i := default _ _). simpl. split; [done|]. split; simpl.
  - by rewrite lookup_insert_eq.
  - unfold bytes. simpl. by rewrite lookup_insert_eq.
  - intros j Hj. unfold bytes. simpl. by rewrite lookup_insert_ne.
  - intros q j Hq. destruct (decide (q = p)) as [->|Hne].
    + rewrite lookup_insert_eq. subst i. by rewrite Hq.
    + by rewrite lookup_insert_ne.
  - intros Hp q Hq. subst i. rewrite Hp in Hq. simpl in Hq.
    apply (is_fresh (map_img (SA := gset Z) (names s))). by eapply elem_of_map_img_2.
  - done.
Qed.

Lemma mem_write_law s f t :
  String.length (bytes_of s (file_ino f)) = file_pos f →
  match mem_write f t s with
  | (Ok f', s') => appended (file_ino f) t s s' ∧ file_ino f' = file_ino f ∧
      file_pos f' = (file_pos f + String.length t)%nat
  | _ => False
  end.
Proof.
  destruct f as [i pos]. simpl. intros <-. unfold mem_write. st_run. simpl.
  split_and!; [|done..]. split; simpl; [done| | |done].
  - unfold bytes at 1. simpl. rewrite lookup_insert_eq. simpl. rewrite str_take_all.
    f_equal. rewrite <- (string_app_nil_r (bytes s i)) at 2.
    assert (Hd : ∀ b n, str_drop (String.length b + n) b = "").
    { intros b n. induction b as [|a b IH]; [by destruct n|done]. }
    by rewrite string_app_nil_r, Hd, string_app_nil_r.
  - intros j Hj. unfold bytes. simpl. by rewrite lookup_insert_ne.
Qed.

#[export] Instance mem_files : StdFiles mem (Z * nat) ().
Proof.
  split; simpl.
  - intros s p i Hp. unfold mbind, st_bind. rewrite (mem_ino_run _ _ _ Hp). simpl.
    split_and!; [done..|apply same_files_refl].
  - apply mem_create_law.
  - intros s [i pos] n pre post Hb Hp Hn. st_run. simpl in *. rewrite Hb, <- Hp, str_drop_app.
    split_and!; [apply same_files_refl|done|done| | |].
    + pose proof (str_take_length (Z.to_nat n) post). lia.
    + eexists. symmetry. apply str_take_drop.
    + destruct post; [done|]. destruct (Z.to_nat n) eqn:En; [lia|done].
  - intros s f t Hp. exact (mem_write_law s f t Hp).
  - intros s p i Hp. st_run. rewrite Hp. split; [done|apply same_files_refl].
  - intros s p [Hp Hd]. st_run. rewrite Hp, bool_decide_true by done.
    split; [done|apply same_files_refl].
  - intros s p i _. apply same_files_refl.
  - intros s p i Hp. unfold mbind, st_bind. rewrite (mem_ino_run _ _ _ Hp). simpl.
    intros q j Hj Hq. split; [|done]. rewrite lookup_delete_ne; [done|congruence].
Qed.

(** A file [a], two paths to a second file, and a directory [d]. *)
Definition disk : mem :=
  mkMem {[ "a" := 1; "b" := 2; "./b" := 2 ]} {[ 1 := "some text"; 2 := "more" ]} ["d"].
Definition sh0 : shell mem := mkShell disk "$ " LInfo.
Definition args (l : list string) : ParsedCommand := mkParsed [] ∅ ∅ l.

#[export] Instance no_text : ErrorText := λ _, "error".

Lemma cp_copies_witness :
  ∃ s', do_cp 10 (args ["a"; "b"]) sh0 = (Ok (), s') ∧ sh_out s' = "$ " ∧
    copy_result 1 "b" (bytes_of disk 1) disk (sh_fs s').
Proof. apply (cp_copies 10 (args ["a"; "b"]) "a" "b" sh0 1); try done; vm_compute; lia. Defined.

Lemma cp_onto_itself_empties_witness :
  ∃ s', do_cp 1 (args ["b"; "./b"]) sh0 = (Ok (), s') ∧ sh_out s' = "$ " ∧
    inode_of (sh_fs s') "b" = Some 2 ∧ bytes_of (sh_fs s') 2 = "".
Proof. apply (cp_onto_itself_empties 1 (args ["b"; "./b"]) "b" "./b" sh0 2); try done; lia. Defined.


Lemma mv_several_files_panics_witness :
  ∃ s', do_mv 10 (args ["a"; "b"; "d"]) sh0 = (Panic, s') ∧ same_files disk (sh_fs s') ∧
    sh_out s' = "$ ".
Proof.
  apply (mv_several_files_panics 10 (args ["a"; "b"; "d"]) "a" "b" [] "d" sh0 1); try done.
  by split; [|left].
Defined.

Lemma new_is_one_word : one_word "new".
Proof.
  split_and!; [by apply is_utf8_text; vm_compute|done|].
  repeat constructor.
Qed.

Lemma echo_cat_roundtrip_witness :
  ∃ i s1 s2, do_echo (args ["hello"; "world"; ">"; "new"]) sh0 = (Ok (), s1) ∧
    sh_out s1 = "$ " ∧ do_cat 20 (args ["new"]) s1 = (Ok (), s2) ∧
    sh_out s2 = "$ " +:+ trim "hello world" +:+ newline ∧
    inode_of (sh_fs s2) "new" = Some i ∧
    (∀ j, j ≠ i → bytes_of (sh_fs s2) j = bytes_of disk j).
Proof.
  apply (echo_cat_roundtrip 20 (args ["hello"; "world"; ">"; "new"]) (args ["new"])
           ["hello"; "world"] "new" sh0); try done; [apply new_is_one_word|vm_compute; lia].
Defined.
End MemFiles.
