(* ===== verification/RootFs.v ===== *)
(** * The root directory ([modules/axfs/src/root.rs])

    One root file system with a list of mount points, the current directory, and
    the operations on paths.  The state is the world of the file systems, the
    globals [ROOT_DIR] and [CURRENT_DIR] (which are set once at boot: using them
    earlier panics) and [CURRENT_DIR_PATH].  Also here: [mounts.rs], which fills
    the virtual file systems, [create_filesystem_for_partition] of
    [partition.rs], and [init_filesystems] of [lib.rs].  Log messages are left
    out. *)

From Stdlib Require Import Ascii Strings.Byte.
From S2P Require Import Prelude RustStr Disk Gpt RootSpec Vfs.

Section root.
Context `{UnicodeCase} {W F N : Type} `{!Vfs W F N}.

(** ** Data *)
Record MountPoint : Type := mkMountPoint {
  mp_path : string;
  mp_fs : F;
}.

Record RootDirectory : Type := mkRootDirectory {
  main_fs : F;
  mounts : list MountPoint;
}.

(** A reference to a node is the root directory or a node of a file system. *)
Inductive VfsNodeRef : Type :=
| RootNode
| FsNode (n : N).

Record root_st : Type := mkRootSt {
  world : W;
  ROOT_DIR : option RootDirectory;
  CURRENT_DIR : option VfsNodeRef;
  CURRENT_DIR_PATH : string;
}.

Abbreviation io := (st root_st AxError).

Definition in_world {A} (m : st W AxError A) : io A := λ s,
  let '(r, w) := m (world s) in
  (r, mkRootSt w (ROOT_DIR s) (CURRENT_DIR s) (CURRENT_DIR_PATH s)).

(** [ROOT_DIR] and [CURRENT_DIR] as values: a [LazyInit] that is not initialised
    panics. *)
Definition the_root : io RootDirectory := s ← get; lift (unwrap (ROOT_DIR s)).
Definition the_current_dir : io VfsNodeRef := s ← get; lift (unwrap (CURRENT_DIR s)).

Definition set_current (r : VfsNodeRef) : io () :=
  modify (λ s, mkRootSt (world s) (ROOT_DIR s) (Some r) (CURRENT_DIR_PATH s)).
Definition set_current_path (p : string) : io () :=
  modify (λ s, mkRootSt (world s) (ROOT_DIR s) (CURRENT_DIR s) p).

(** ** [RootDirectory] *)
Definition rd_new (fs : F) : RootDirectory := mkRootDirectory fs [].

Definition has_mount (path : string) (rd : RootDirectory) : bool :=
  existsb (λ mp, bool_decide (mp_path mp = path)) (mounts rd).

Definition rd_mount (path : string) (fs : F) : st (RootDirectory * W) AxError () :=
  let in_w {A} (m : st W AxError A) : st (RootDirectory * W) AxError A :=
    λ '(rd, w), let '(r, w) := m w in (r, (rd, w)) in
  rd ← gets fst;
  if bool_decide (path = "/") then throw InvalidInput
  else if negb (starts_with "/" path) then throw InvalidInput
  else if has_mount path rd then throw InvalidInput
  else
    in_w (node_create (fs_root_dir (main_fs rd)) path Dir);;
    n ← in_w (node_lookup (fs_root_dir (main_fs rd)) path);
    in_w (fs_mount fs path n);;
    modify (λ '(rd, w), (mkRootDirectory (main_fs rd) (mounts rd ++ [mkMountPoint path fs]), w)).

(** Dropping a mount point unmounts its file system and ignores the result. *)
Definition drop_mount (mp : MountPoint) (w : W) : W := (fs_umount (mp_fs mp) w).2.

Definition rd_umount (path : string) (s : RootDirectory * W) : RootDirectory * W :=
  let '(rd, w) := s in
  let gone := List.filter (λ mp, bool_decide (mp_path mp = path)) (mounts rd) in
  let kept := List.filter (λ mp, negb (bool_decide (mp_path mp = path))) (mounts rd) in
  (mkRootDirectory (main_fs rd) kept, foldl (λ w mp, drop_mount mp w) w gone).

Definition rd_contains (rd : RootDirectory) (path : string) : bool := has_mount path rd.

Definition normalize_path (path : string) : string :=
  let path := trim_matches "/"%char path in
  default path (strip_prefix "./" path).

(** The loop of [find_best_mount]: the best mount so far and its length. *)
Fixpoint best_mount_loop (path : string) (mps : list MountPoint)
    (best : option F) (max_len : nat) : outcome AxError (option F * nat) :=
  match mps with
  | [] => Ok (best, max_len)
  | mp :: mps =>
      mount_path ← slice_from 1 (mp_path mp);
      let l := (String.length (mp_path mp) - 1)%nat in
      if starts_with mount_path path && (max_len <? l)%nat
      then best_mount_loop path mps (Some (mp_fs mp)) l
      else best_mount_loop path mps best max_len
  end.

Definition find_best_mount (rd : RootDirectory) (path : string) :
    outcome AxError (option (F * string)) :=
  '(best, max_len) ← best_mount_loop path (mounts rd) None 0;
  match best with
  | Some fs => rest ← slice_from max_len path; mret (Some (fs, rest))
  | None => mret None
  end.

Definition lookup_mounted_fs {A} (rd : RootDirectory) (path : string)
    (f : F → string → st W AxError A) : st W AxError A :=
  let normalized_path := normalize_path path in
  best ← lift (find_best_mount rd normalized_path);
  match best with
  | Some (fs, rest_path) => f fs rest_path
  | None => f (main_fs rd) normalized_path
  end.

Definition rd_get_attr (rd : RootDirectory) : st W AxError VfsNodeAttr :=
  node_get_attr (fs_root_dir (main_fs rd)).

Definition rd_lookup (rd : RootDirectory) (path : string) : st W AxError N :=
  lookup_mounted_fs rd path (λ fs rest, node_lookup (fs_root_dir fs) rest).

Definition rd_create (rd : RootDirectory) (path : string) (ty : VfsNodeType) : st W AxError () :=
  lookup_mounted_fs rd path (λ fs rest,
    if str_is_empty rest then mret tt else node_create (fs_root_dir fs) rest ty).

Definition rd_remove (rd : RootDirectory) (path : string) : st W AxError () :=
  lookup_mounted_fs rd path (λ fs rest,
    if str_is_empty rest then throw PermissionDenied else node_remove (fs_root_dir fs) rest).

(** The entries of [read_dir] before they are sorted and made unique. *)
Definition main_entries (count : Z) (dirents : list VfsDirEntry) :
    outcome AxError (list (string * VfsNodeType)) :=
  used ← slice 0 count dirents;
  mret (used ≫= λ e,
    if is_utf8 (d_name e) && negb (str_is_empty (d_name e)) then [(d_name e, d_type e)] else []).

(** Writes the entries from [start_idx] on into the buffer. *)
Fixpoint fill_dirents (entries : list (string * VfsNodeType)) (dirents : list VfsDirEntry) :
    list VfsDirEntry :=
  match entries, dirents with
  | (name, ty) :: entries, _ :: dirents => dirent_new name ty :: fill_dirents entries dirents
  | _, _ => dirents
  end.

Definition rd_read_dir (rd : RootDirectory) (start_idx : Z) (dirents : list VfsDirEntry) :
    st W AxError (Z * list VfsDirEntry) :=
  mount_entries ← lift (foldr (λ mp r,
      name ← slice_from 1 (mp_path mp); es ← r; mret ((name, Dir) :: es)) (mret []) (mounts rd));
  '(main_count, main_dirents) ←
    node_read_dir (fs_root_dir (main_fs rd)) 0 (replicate 64 dirent_default);
  more ← lift (main_entries main_count main_dirents);
  let unique := foldl (λ m e, <[e.1 := e.2]> m) (∅ : gmap string VfsNodeType)
                  (mount_entries ++ more) in
  let shown := drop (Z.to_nat start_idx) (btree_iter unique) in
  mret (len shown `min` len dirents, fill_dirents shown dirents).

(** ** Nodes, whichever they are *)
Definition nref_get_attr (r : VfsNodeRef) : io VfsNodeAttr :=
  match r with
  | RootNode => rd ← the_root; in_world (rd_get_attr rd)
  | FsNode n => in_world (node_get_attr n)
  end.

Definition nref_lookup (r : VfsNodeRef) (path : string) : io VfsNodeRef :=
  n ← (match r with
       | RootNode => rd ← the_root; in_world (rd_lookup rd path)
       | FsNode n => in_world (node_lookup n path)
       end);
  mret (FsNode n).

Definition nref_create (r : VfsNodeRef) (path : string) (ty : VfsNodeType) : io () :=
  match r with
  | RootNode => rd ← the_root; in_world (rd_create rd path ty)
  | FsNode n => in_world (node_create n path ty)
  end.

Definition nref_remove (r : VfsNodeRef) (path : string) : io () :=
  match r with
  | RootNode => rd ← the_root; in_world (rd_remove rd path)
  | FsNode n => in_world (node_remove n path)
  end.

(** [RootDirectory] does not define [rename]. *)
Definition nref_rename (r : VfsNodeRef) (old new : string) : io () :=
  match r with
  | RootNode => in_world (default_rename old new)
  | FsNode n => in_world (node_rename n old new)
  end.

Definition nref_read_dir (r : VfsNodeRef) (start_idx : Z) (dirents : list VfsDirEntry) :
    io (Z * list VfsDirEntry) :=
  match r with
  | RootNode => rd ← the_root; in_world (rd_read_dir rd start_idx dirents)
  | FsNode n => in_world (node_read_dir n start_idx dirents)
  end.

(** ** Operations on paths *)
Definition parent_node_of (dir : option VfsNodeRef) (path : string) : io VfsNodeRef :=
  if starts_with "/" path then the_root;; mret RootNode
  else match dir with
       | Some d => mret d
       | None => the_current_dir
       end.

Definition absolute_path (path : string) : io string :=
  if starts_with "/" path then mret (canonicalize path)
  else s ← get; mret (canonicalize (CURRENT_DIR_PATH s +:+ path)).

Definition lookup (dir : option VfsNodeRef) (path : string) : io VfsNodeRef :=
  if str_is_empty path then throw NotFound
  else
    parent ← parent_node_of dir path;
    node ← nref_lookup parent path;
    if ends_with "/" path then
      attr ← nref_get_attr node;
      if negb (attr_is_dir attr) then throw NotADirectory else mret node
    else mret node.

Definition create_file (dir : option VfsNodeRef) (path : string) : io VfsNodeRef :=
  if str_is_empty path then throw NotFound
  else if ends_with "/" path then throw NotADirectory
  else
    parent ← parent_node_of dir path;
    nref_create parent path File;;
    nref_lookup parent path.

(** [match m { Ok(a) => .., Err(e) => .. }]. *)
Definition on_result {S E A B} (m : st S E A) (k : E + A → st S E B) : st S E B := λ s,
  match m s with
  | (Ok a, s) => k (inr a) s
  | (Err e, s) => k (inl e) s
  | (Panic, s) => (Panic, s)
  end.

Definition create_dir (dir : option VfsNodeRef) (path : string) : io () :=
  on_result (lookup dir path) (λ r,
    match r with
    | inr _ => throw AlreadyExists
    | inl NotFound => parent ← parent_node_of dir path; nref_create parent path Dir
    | inl e => throw e
    end).

Definition remove_file (dir : option VfsNodeRef) (path : string) : io () :=
  node ← lookup dir path;
  attr ← nref_get_attr node;
  if attr_is_dir attr then throw IsADirectory
  else if negb (owner_writable (a_perm attr)) then throw PermissionDenied
  else parent ← parent_node_of dir path; nref_remove parent path.

Definition remove_dir (dir : option VfsNodeRef) (path : string) : io () :=
  if str_is_empty path then throw NotFound
  else
    let path_check := trim_matches "/"%char path in
    if str_is_empty path_check then throw DirectoryNotEmpty
    else if bool_decide (path_check = ".") || bool_decide (path_check = "..")
         || ends_with "/." path_check || ends_with "/.." path_check
    then throw InvalidInput
    else
      abs ← absolute_path path;
      rd ← the_root;
      if rd_contains rd abs then throw PermissionDenied
      else
        node ← lookup dir path;
        attr ← nref_get_attr node;
        if negb (attr_is_dir attr) then throw NotADirectory
        else if negb (owner_writable (a_perm attr)) then throw PermissionDenied
        else parent ← parent_node_of dir path; nref_remove parent path.

Definition current_dir : io string := s ← get; mret (CURRENT_DIR_PATH s).

Definition set_current_dir (path : string) : io () :=
  abs ← absolute_path path;
  let abs_path := if negb (ends_with "/" abs) then abs +:+ "/" else abs in
  if bool_decide (abs_path = "/") then
    the_root;;
    set_current RootNode;;
    set_current_path "/"
  else
    node ← lookup None abs_path;
    attr ← nref_get_attr node;
    if negb (attr_is_dir attr) then throw NotADirectory
    else if negb (owner_executable (a_perm attr)) then throw PermissionDenied
    else
      set_current node;;
      set_current_path abs_path.

Definition rename (old new : string) : io () :=
  parent ← parent_node_of None new;
  found ← attempt (nref_lookup parent new);
  (match found with Some _ => remove_file None new | None => mret tt end);;
  parent ← parent_node_of None old;
  nref_rename parent old new.
End root.

(** ** Finding the mount point of a path *)
Section mount_lookup.
Context {W F N : Type} `{!Vfs W F N}.
Implicit Types rd : RootDirectory (F:=F).

(** The path of a mount point without its first [/]. *)
Definition mount_tail (mp : MountPoint (F:=F)) : string :=
  match mp_path mp with "" => "" | String _ t => t end.

Definition mount_ok (mp : MountPoint (F:=F)) : Prop :=
  (∃ t, mp_path mp = String "/" t) ∧ mp_path mp ≠ "/" ∧ is_utf8 (mp_path mp) = true.

(** The mount points have different absolute paths, and none is the root. *)
Definition rd_wf rd : Prop := Forall mount_ok (mounts rd) ∧ NoDup (mp_path <$> mounts rd).

Lemma mount_ok_tail mp :
  mount_ok mp →
  mp_path mp = String "/" (mount_tail mp) ∧ is_utf8 (mount_tail mp) = true ∧
  (0 < String.length (mount_tail mp))%nat ∧
  slice_from (E:=AxError) 1 (mp_path mp) = Ok (mount_tail mp) ∧
  String.length (mp_path mp) = S (String.length (mount_tail mp)).
Proof.
  intros ([t Ht] & Hr & Hu). unfold mount_tail. rewrite Ht in *.
  split_and!; [done|done| |by apply (text_slice_1 "/"%char t); [apply is_utf8_text|]|done].
  destruct t; [done|]. simpl. lia.
Qed.

(** What the loop maintains: [best] is a longest match of those seen so far. *)
Definition best_of (path : string) (seen : list (MountPoint (F:=F))) (best : option F) (l : nat) : Prop :=
  match best with
  | None => l = 0%nat
  | Some fs => ∃ mp, mp ∈ seen ∧ mp_fs mp = fs ∧ String.length (mount_tail mp) = l ∧
                     starts_with (mount_tail mp) path = true
  end ∧
  ∀ mp, mp ∈ seen → starts_with (mount_tail mp) path = true → (String.length (mount_tail mp) ≤ l)%nat.

Lemma best_mount_loop_spec path mps seen best l :
  Forall mount_ok mps → best_of path seen best l →
  ∃ best' l', best_mount_loop path mps best l = Ok (best', l') ∧ best_of path (seen ++ mps) best' l'.
Proof.
  intros Hok. revert seen best l. induction Hok as [|mp mps Hmp _ IH]; intros seen best l Hb.
  { exists best, l. by rewrite app_nil_r. }
  destruct (mount_ok_tail mp Hmp) as (_ & _ & Hpos & Hs & Hlen).
  cbn [best_mount_loop]. rewrite Hs. orun. rewrite Hlen, Nat.sub_succ, Nat.sub_0_r.
  rewrite cons_middle, app_assoc. destruct Hb as [Hb Hmax].
  destruct (starts_with (mount_tail mp) path && (l <? String.length (mount_tail mp))%nat) eqn:Hc.
  - apply andb_true_iff in Hc as [Hst Hlt%Nat.ltb_lt]. apply IH. split.
    + exists mp. by split_and!; [set_solver|..].
    + intros mp' [Hin|Heq%list_elem_of_singleton]%elem_of_app Hp; [|by subst].
      specialize (Hmax mp' Hin Hp). lia.
  - apply IH. split.
    + destruct best as [fs|]; [|done]. destruct Hb as (mp' & ? & ?).
      exists mp'. split; [set_solver|done].
    + intros mp' [Hin|Heq%list_elem_of_singleton]%elem_of_app Hp; [by apply Hmax|]. subst.
      rewrite Hp in Hc. apply Nat.ltb_ge in Hc. done.
Qed.

Lemma find_best_mount_spec rd path :
  rd_wf rd → is_utf8 path = true →
  match find_best_mount rd path with
  | Ok (Some (fs, rest)) =>
      ∃ mp, mp ∈ mounts rd ∧ mp_fs mp = fs ∧ path = mount_tail mp +:+ rest ∧
        ∀ mp', mp' ∈ mounts rd → starts_with (mount_tail mp') path = true →
          (String.length (mount_tail mp') ≤ String.length (mount_tail mp))%nat
  | Ok None => ∀ mp, mp ∈ mounts rd → starts_with (mount_tail mp) path = false
  | _ => False
  end.
Proof.
  intros [Hok _] Hu. unfold find_best_mount.
  destruct (best_mount_loop_spec path (mounts rd) [] None 0 Hok) as (best & l & -> & Hb & Hmax).
  { split; [done|]. set_solver. }
  orun. simpl in Hb, Hmax. destruct best as [fs|].
  - destruct Hb as (mp & Hin & Hfs & Hl & [rest Hp]%starts_with_app). subst l.
    rewrite Forall_forall in Hok. destruct (mount_ok_tail mp (Hok mp Hin)) as (_ & Hut & _).
    rewrite Hp in Hu. pose proof (is_utf8_app_inv _ _ Hu Hut) as Hr.
    rewrite Hp. rewrite slice_from_app by by apply is_utf8_text. orun.
    exists mp. rewrite <-Hp. by split_and!.
  - intros mp Hin. destruct (starts_with (mount_tail mp) path) eqn:Hst; [|done].
    specialize (Hmax mp Hin Hst). rewrite Forall_forall in Hok.
    destruct (mount_ok_tail mp (Hok mp Hin)) as (_ & _ & ? & _). lia.
Qed.
(** The mount point that serves a path is the longest one whose path is a
    prefix of it, the root file system when there is none; the rest of the path
    is what follows the prefix.  The slices are at character boundaries, so the
    search does not panic. *)
Theorem find_best_mount_longest rd path :
  rd_wf rd → is_utf8 path = true →
  match find_best_mount rd path with
  | Ok (Some (fs, rest)) =>
      ∃ mp, mp ∈ mounts rd ∧ mp_fs mp = fs ∧ path = mount_tail mp +:+ rest ∧
        ∀ mp', mp' ∈ mounts rd → starts_with (mount_tail mp') path = true →
          (String.length (mount_tail mp') ≤ String.length (mount_tail mp))%nat
  | Ok None => ∀ mp, mp ∈ mounts rd → starts_with (mount_tail mp) path = false
  | _ => False
  end.
Proof. apply find_best_mount_spec. Qed.

(** Mount points are matched as text, not by path components: with one file
    system mounted at [/m], a path of the root file system whose name merely
    begins with [m] is looked up in the mounted file system, under the rest of
    the name.  With [/boot] mounted, [/bootloader] is [loader] of that file
    system. *)
Theorem sibling_is_routed_into_mount rd mp path s :
  rd_wf rd → mounts rd = [mp] → normalize_path path = mount_tail mp +:+ s →
  is_utf8 (mount_tail mp +:+ s) = true →
  rd_lookup rd path = node_lookup (fs_root_dir (mp_fs mp)) s.
Proof.
  intros Hwf Hm Hn Hu. pose proof (find_best_mount_spec rd _ Hwf Hu) as Hb.
  unfold rd_lookup, lookup_mounted_fs. rewrite Hn. st_run.
  assert (Hst : starts_with (mount_tail mp) (mount_tail mp +:+ s) = true)
    by (apply starts_with_app; eauto).
  destruct (find_best_mount rd (mount_tail mp +:+ s)) as [[[fs rest]|]|e|]; try done.
  - destruct Hb as (mp' & Hin & <- & Heq & _). rewrite Hm in Hin.
    apply list_elem_of_singleton in Hin as ->. apply string_app_inj in Heq. by subst.
  - rewrite Hb in Hst; [done|]. rewrite Hm. set_solver.
Qed.

(** Removing and creating at a mount point. *)
Lemma mount_point_rest rd mp :
  rd_wf rd → mp ∈ mounts rd →
  ∃ fs, find_best_mount rd (mount_tail mp) = Ok (Some (fs, "")).
Proof.
  intros Hwf Hin. pose proof Hwf as [Hok _]. rewrite Forall_forall in Hok.
  destruct (mount_ok_tail mp (Hok mp Hin)) as (_ & Hu & _).
  pose proof (find_best_mount_spec rd _ Hwf Hu) as Hb.
  assert (Hst : starts_with (mount_tail mp) (mount_tail mp) = true) by apply starts_with_refl.
  destruct (find_best_mount rd (mount_tail mp)) as [[[fs rest]|]|e|]; try done.
  - destruct Hb as (mp' & _ & _ & Heq & Hmax). specialize (Hmax mp Hin Hst). exists fs.
    assert (rest = "") as ->; [|done]. apply (f_equal String.length) in Heq.
    rewrite string_app_length in Heq. destruct rest; [done|simpl in Heq; lia].
  - by rewrite Hb in Hst.
Qed.

(** A mount point cannot be removed, and creating it again is a success that
    does nothing: neither reaches a file system. *)
Theorem mount_point_is_protected rd mp path ty w :
  rd_wf rd → mp ∈ mounts rd → normalize_path path = mount_tail mp →
  rd_remove rd path w = (Err PermissionDenied, w) ∧ rd_create rd path ty w = (Ok (), w).
Proof.
  intros Hwf Hin Hn. destruct (mount_point_rest rd mp Hwf Hin) as [fs Hb].
  unfold rd_remove, rd_create, lookup_mounted_fs. rewrite Hn. st_run. by rewrite Hb.
Qed.
End mount_lookup.

(** ** The current directory *)
Section globals.
Context `{UnicodeCase} {W F N : Type} `{!Vfs W F N}.
Abbreviation root_st := (root_st (W:=W) (F:=F) (N:=N)).
Implicit Types s : root_st.

(** The globals, which only [set_current_dir] and the boot code change. *)
Definition globals s := (ROOT_DIR s, CURRENT_DIR s, CURRENT_DIR_PATH s).

Abbreviation same_globals := (keeps (λ _, True) globals).

Lemma in_world_globals {A} (m : st W AxError A) : same_globals (in_world m).
Proof. intros s _. unfold in_world. by destruct (m (world s)). Qed.

#[local] Hint Resolve in_world_globals : keeps.

Lemma nref_get_attr_globals r : same_globals (nref_get_attr r).
Proof. unfold nref_get_attr, the_root. keeps_tac. Qed.

Lemma nref_lookup_globals r path : same_globals (nref_lookup r path).
Proof. unfold nref_lookup, the_root. keeps_tac. Qed.

Lemma parent_node_of_globals dir path : same_globals (parent_node_of dir path).
Proof. unfold parent_node_of, the_root, the_current_dir. keeps_tac. Qed.

#[local] Hint Resolve nref_get_attr_globals nref_lookup_globals parent_node_of_globals : keeps.
Lemma lookup_globals dir path : same_globals (lookup dir path).
Proof. unfold lookup. keeps_tac. Qed.

#[local] Hint Resolve lookup_globals : keeps.

Lemma nref_remove_globals r path : same_globals (nref_remove r path).
Proof. unfold nref_remove, the_root. keeps_tac. Qed.

#[local] Hint Resolve nref_remove_globals : keeps.

Lemma remove_file_globals dir path : same_globals (remove_file dir path).
Proof. unfold remove_file. keeps_tac. Qed.

Lemma absolute_path_run path s :
  ∃ abs, absolute_path path s = (Ok abs, s).
Proof. unfold absolute_path. st_run. case_match; eauto. Qed.

(** Changing the directory moves the node and the path of the current
    directory together, or not at all.  After a success the path ends with [/],
    so that a relative path can be appended to it, and the node is what that path
    names; after an error both are as before, and so are they after a panic. *)
Theorem set_current_dir_consistent path s :
  let '(r, s') := set_current_dir path s in
  ROOT_DIR s' = ROOT_DIR s ∧
  match r with
  | Ok _ =>
      ends_with "/" (CURRENT_DIR_PATH s') = true ∧
      (CURRENT_DIR_PATH s' = "/" ∧ CURRENT_DIR s' = Some RootNode ∨
       ∃ node s1, lookup None (CURRENT_DIR_PATH s') s = (Ok node, s1) ∧
                  CURRENT_DIR s' = Some node)
  | _ => CURRENT_DIR s' = CURRENT_DIR s ∧ CURRENT_DIR_PATH s' = CURRENT_DIR_PATH s
  end.
Proof.
  unfold set_current_dir. destruct (absolute_path_run path s) as [abs Ha].
  unfold mbind at 1, st_bind at 1. rewrite Ha.
  set (p := if negb (ends_with "/" abs) then abs +:+ "/" else abs).
  assert (Hp : ends_with "/" p = true).
  { unfold p. destruct (ends_with "/" abs) eqn:He; [done|]. apply ends_with_app. }
  case_bool_decide as Hroot.
  - unfold the_root, set_current, set_current_path. st_run.
    destruct (ROOT_DIR s) eqn:Hr; simpl; rewrite ?Hr; auto.
  - pose proof (lookup_globals None p s I) as Hg. unfold mbind at 1, st_bind at 1.
    destruct (lookup None p s) as [[node|e|] s1] eqn:Hl; injection Hg as ? ? ?; [|done..].
    pose proof (nref_get_attr_globals node s1 I) as Hg2. unfold mbind at 1, st_bind at 1.
    destruct (nref_get_attr node s1) as [[attr|e|] s2]; injection Hg2 as ? ? ?;
      [|split_and!; congruence..].
    repeat case_match; unfold throw, set_current, set_current_path in *; st_run; simpl in *;
      simplify_eq/=; split_and!; try congruence.
    right. eauto.
Qed.

Lemma attempt_globals {E E' A} (m : st root_st E A) :
  same_globals m → keeps (E:=E') (λ _, True) globals (attempt m).
Proof. intros Hm t Ht. specialize (Hm t Ht). unfold attempt. by destruct (m t) as [[] ?]. Qed.

Lemma bind_not_ok {A B} (m : st root_st AxError A) (k : A → st root_st AxError B) s :
  (∀ a s', m s = (Ok a, s') → is_ok (k a s').1 = false) → is_ok ((m ≫= k) s).1 = false.
Proof. intros Hk. unfold mbind, st_bind. destruct (m s) as [[a|e|] s'] eqn:Hm; eauto. Qed.

(** The end of [rename], when the source is below the root directory. *)
Lemma rename_tail `{!VfsDefaults W F N} old new s :
  starts_with "/" old = true ∨ CURRENT_DIR s = Some RootNode →
  ∃ r, (parent ← parent_node_of None old; nref_rename parent old new) s = (r, s) ∧
       is_ok r = false ∧ (is_Some (ROOT_DIR s) → r = Err Unsupported).
Proof.
  assert (Hroot : nref_rename (N:=N) RootNode old new s = (Err Unsupported, s)).
  { unfold nref_rename, in_world. rewrite default_rename_unsupported. by destruct s. }
  unfold parent_node_of, the_root, the_current_dir. intros Ho. unfold mbind, st_bind.
  destruct (starts_with "/" old) eqn:Hs.
  - st_run. destruct (ROOT_DIR s) as [rd|]; cbn [unwrap]; [rewrite Hroot; by eauto|].
    eexists. split_and!; [done..|]. by intros [? ?].
  - destruct Ho as [?|Hc]; [done|]. st_run. rewrite Hc. cbn [unwrap]. rewrite Hroot. by eauto.
Qed.

(** [rename] cannot rename anything below the root directory: the root
    directory has no [rename] of its own, so a call whose source is an absolute
    path, or relative to [/], always fails.  It first removes the destination,
    though: when the destination is an existing file, it is gone and the source
    is where it was. *)
Theorem rename_loses_destination `{!VfsDefaults W F N} old new s :
  starts_with "/" old = true ∨ CURRENT_DIR s = Some RootNode →
  is_ok (rename old new s).1 = false ∧
  ∀ parent node s1 s2, parent_node_of None new s = (Ok parent, s) →
    nref_lookup parent new s = (Ok node, s1) → remove_file None new s1 = (Ok (), s2) →
    is_Some (ROOT_DIR s) → rename old new s = (Err Unsupported, s2).
Proof.
  intros Ho. split.
  - unfold rename. apply bind_not_ok. intros parent s1 Hp.
    apply (keeps_run _ _ _ _ _ _ (parent_node_of_globals _ _)) in Hp; [|done].
    apply bind_not_ok. intros found s2 Hf.
    apply (keeps_run _ _ _ _ _ _ (attempt_globals _ (nref_lookup_globals _ _))) in Hf; [|done].
    apply bind_not_ok. intros [] s3 Hr.
    assert (Hg : globals s3 = globals s2).
    { destruct found; [|by injection Hr as <-].
      by apply (keeps_run _ _ _ _ _ _ (remove_file_globals _ _)) in Hr. }
    destruct (rename_tail old new s3) as (r & -> & ? & _); [|done].
    rewrite Hf, Hp in Hg. injection Hg as _ Hc _. by rewrite Hc.
  - intros parent node s1 s2 Hp Hl Hr [rd Hrd].
    pose proof (keeps_run _ _ _ _ _ _ (nref_lookup_globals _ _) I Hl) as H1.
    pose proof (keeps_run _ _ _ _ _ _ (remove_file_globals _ _) I Hr) as H2.
    rewrite H1 in H2. injection H2 as Hr2 Hc2 _.
    unfold rename, attempt. unfold mbind at 1 2 3, st_bind at 1 2 3. rewrite Hp, Hl, Hr.
    destruct (rename_tail old new s2) as (r & -> & _ & Hu); [by rewrite Hc2|].
    rewrite Hu; [done|]. by rewrite Hr2, Hrd.
Qed.
End globals.

(** ** Concrete runs *)
Module RootFsExamples.
Import TinyFs.

Abbreviation state := (root_st (W:=tiny) (F:=Z) (N:=Z * string)).

(** File system 0 is the root, file system 1 is mounted at [/boot]. *)
Definition boot_mount : MountPoint (F:=Z) := mkMountPoint "/boot" 1.
Definition a_root : RootDirectory (F:=Z) := mkRootDirectory 0 [boot_mount].

Definition a_world : tiny :=
  mkTiny 2 {[ (0, "bootloader") := (File, [x61]); (0, "b") := (File, [x62]);
              (1, "kernel") := (File, []) ]} [].

Definition a_state : state := mkRootSt a_world (Some a_root) (Some RootNode) "/".

Lemma a_root_wf : rd_wf a_root.
Proof.
  split.
  - apply Forall_singleton. split_and!; [by exists "boot"|done|done].
  - apply (bool_decide_unpack _). vm_compute. exact I.
Qed.

Lemma find_best_mount_longest_witness :
  ∃ mp, mp ∈ mounts a_root ∧ mp_fs mp = 1 ∧ "boot/kernel" = mount_tail mp +:+ "/kernel" ∧
    ∀ mp', mp' ∈ mounts a_root → starts_with (mount_tail mp') "boot/kernel" = true →
      (String.length (mount_tail mp') ≤ String.length (mount_tail mp))%nat.
Proof. exact (find_best_mount_longest a_root "boot/kernel" a_root_wf eq_refl). Defined.

Lemma sibling_is_routed_into_mount_witness :
  rd_lookup a_root "/bootloader" a_world = (Err NotFound, a_world).
Proof.
  rewrite (sibling_is_routed_into_mount a_root boot_mount "/bootloader" "loader" a_root_wf);
    reflexivity.
Defined.

Lemma mount_point_is_protected_witness :
  rd_remove a_root "/boot" a_world = (Err PermissionDenied, a_world) ∧
  rd_create a_root "/boot" Dir a_world = (Ok (), a_world).
Proof.
  apply (mount_point_is_protected a_root boot_mount "/boot" Dir a_world a_root_wf);
    [apply list_elem_of_singleton; reflexivity|reflexivity].
Defined.

Lemma rename_loses_destination_witness :
  ∃ s2, rename "/bootload" "/b" a_state = (Err Unsupported, s2) ∧
        nodes (world s2) !! (0, "b") = None.
Proof.
  destruct (rename_loses_destination "/bootload" "/b" a_state (or_introl eq_refl)) as [_ Hr].
  eexists. split.
  - eapply Hr; [reflexivity|reflexivity|vm_compute; reflexivity|eexists; reflexivity].
  - vm_compute. reflexivity.
Defined.
End RootFsExamples.
