(* ===== verification/BootFs.v ===== *)
(** * Bringing up the file systems at boot

    [init_filesystems] and [initialize_with_partitions] of
    [modules/axfs/src/lib.rs], the [init_rootfs_*] functions of [root.rs], the
    contents of the virtual file systems of [mounts.rs],
    [create_filesystem_for_partition] of [partition.rs] and the
    [from_partition] functions of the two drivers. *)

From Stdlib Require Import Ascii Strings.Byte.
From S2P Require Import Prelude RustStr Disk Gpt RootSpec Vfs RootFs.

(** The parts of the drivers that belong to other crates: opening the file system
    on a partition ([fatfs::FileSystem::new], [rsext4]'s [fs_mount]).  They work
    on the world, which holds the block device. *)
Class FsDrivers (W F D : Type) : Type := {
  fatfs_new : Partition → st W AxError F;
  ext4_fs_mount : Partition → st W AxError F;
  w_dev : W → D;
  w_set_dev : D → W → W;
}.

Section boot.
Context `{OverflowChecks, UnicodeCase} {W F N D DevError : Type}.
Context `{!Vfs W F N, !BlockDevice D DevError, !FsDrivers W F D}.

Abbreviation io := (st (root_st (W:=W) (F:=F) (N:=N)) AxError).
Abbreviation RootDirectory := (RootDirectory (F:=F)).

(** [m.expect(..)]: an error is a panic. *)
Definition expecting {S E E' A} (m : st S E A) : st S E' A := λ s,
  let '(r, s) := m s in (expect r, s).

Definition fat_from_partition (p : Partition) : st W AxError F := expecting (fatfs_new p).
Definition ext4_from_partition (p : Partition) : st W AxError F := expecting (ext4_fs_mount p).

Definition create_filesystem_for_partition (disk : Disk) (p : PartitionInfo) : st W AxError F :=
  match filesystem_type p with
  | Some Fat => fat_from_partition (partition_new disk (pi_starting_lba p) (pi_ending_lba p))
  | Some Ext4 => ext4_from_partition (partition_new disk (pi_starting_lba p) (pi_ending_lba p))
  | Some Unknown | None => throw Unsupported
  end.

(** ** The root file system *)
Definition try_use_specified_partition (disk : Disk) (ps : list PartitionInfo) (index : Z) :
    st W AxError (option (F * Z)) :=
  if len ps <=? index then mret None
  else
    partition ← lift (unwrap (ps !! Z.to_nat index));
    match filesystem_type partition with
    | None => mret None
    | Some _ =>
        r ← attempt (create_filesystem_for_partition disk partition);
        mret ((λ fs, (fs, index)) <$> r)
    end.

Fixpoint first_supported_loop (disk : Disk) (i : Z) (ps : list PartitionInfo) :
    st W AxError (option (F * Z)) :=
  match ps with
  | [] => mret None
  | p :: ps =>
      match filesystem_type p with
      | None => first_supported_loop disk (i + 1) ps
      | Some _ =>
          r ← attempt (create_filesystem_for_partition disk p);
          match r with
          | Some fs => mret (Some (fs, i))
          | None => first_supported_loop disk (i + 1) ps
          end
      end
  end.

Definition find_first_supported_partition (disk : Disk) (ps : list PartitionInfo) :
    st W AxError (option (F * Z)) := first_supported_loop disk 0 ps.

Definition find_root_filesystem (disk : Disk) (ps : list PartitionInfo) (root : option Z) :
    st W AxError (option F * option Z) :=
  specified ← (match root with
               | Some index => try_use_specified_partition disk ps index
               | None => mret None
               end);
  match specified with
  | Some (fs, idx) => mret (Some fs, Some idx)
  | None =>
      first ← find_first_supported_partition disk ps;
      match first with
      | Some (fs, idx) => mret (Some fs, Some idx)
      | None => mret (None, None)
      end
  end.

(** ** Mounting the other partitions

    The state is the root directory under construction and the world. *)
Abbreviation mounting := (st (RootDirectory * W) AxError).

Definition on_world {A} (m : st W AxError A) : mounting A := λ '(rd, w),
  let '(r, w) := m w in (r, (rd, w)).

Definition mount_path_of (name : string) : string :=
  if str_contains "boot" (to_lowercase name) then "/boot" else "/" +:+ name.

Definition mount_single_partition (disk : Disk) (p : PartitionInfo) : mounting () :=
  r ← attempt (on_world (create_filesystem_for_partition disk p));
  match r with
  | None => mret tt
  | Some fs =>
      let mount_path := mount_path_of (pi_name p) in
      rd ← gets fst;
      made ← attempt (on_world (node_create (fs_root_dir (main_fs rd)) mount_path Dir));
      match made with
      | None => mret tt
      | Some _ => attempt (rd_mount mount_path fs);; mret tt
      end
  end.

Fixpoint mount_loop (disk : Disk) (root : option Z) (i : Z) (ps : list PartitionInfo) : mounting () :=
  match ps with
  | [] => mret tt
  | p :: ps =>
      (if bool_decide (Some i = root) then mret tt
       else match filesystem_type p with
            | Some _ => mount_single_partition disk p
            | None => mret tt
            end);;
      mount_loop disk root (i + 1) ps
  end.

Definition mount_additional_partitions (disk : Disk) (ps : list PartitionInfo) (root : option Z) :
    mounting () :=
  rd ← gets fst;
  attempt (on_world (node_create (fs_root_dir (main_fs rd)) "/boot" Dir));;
  mount_loop disk root 0 ps.

(** ** The virtual file systems *)
Definition write_text (n : N) (text : string) : st W AxError () :=
  node_write_at n 0 (String.list_byte_of_string text);; mret tt.

Definition newline : string := String "010"%char "".

Definition ramfs : st W AxError F := λ w, let '(fs, w) := ramfs_new w in (Ok fs, w).

Definition procfs : st W AxError F :=
  fs ← ramfs;
  let proc_root := fs_root_dir fs in
  node_create proc_root "sys" Dir;;
  node_create proc_root "sys/net" Dir;;
  node_create proc_root "sys/net/core" Dir;;
  node_create proc_root "sys/net/core/somaxconn" File;;
  file_somaxconn ← node_lookup proc_root "./sys/net/core/somaxconn";
  write_text file_somaxconn ("4096" +:+ newline);;
  node_create proc_root "sys/vm" Dir;;
  node_create proc_root "sys/vm/overcommit_memory" File;;
  file_over ← node_lookup proc_root "./sys/vm/overcommit_memory";
  write_text file_over ("0" +:+ newline);;
  node_create proc_root "self" Dir;;
  node_create proc_root "self/stat" File;;
  mret fs.

Definition sysfs : st W AxError F :=
  fs ← ramfs;
  let sys_root := fs_root_dir fs in
  node_create sys_root "kernel" Dir;;
  node_create sys_root "kernel/mm" Dir;;
  node_create sys_root "kernel/mm/transparent_hugepage" Dir;;
  node_create sys_root "kernel/mm/transparent_hugepage/enabled" File;;
  file_hp ← node_lookup sys_root "./kernel/mm/transparent_hugepage/enabled";
  write_text file_hp ("always [madvise] never" +:+ newline);;
  node_create sys_root "devices" Dir;;
  node_create sys_root "devices/system" Dir;;
  node_create sys_root "devices/system/clocksource" Dir;;
  node_create sys_root "devices/system/clocksource/clocksource0" Dir;;
  node_create sys_root "devices/system/clocksource/clocksource0/current_clocksource" File;;
  file_cc ← node_lookup sys_root "devices/system/clocksource/clocksource0/current_clocksource";
  write_text file_cc ("tsc" +:+ newline);;
  mret fs.

(** [LazyInit::init_once], which panics when it is called twice. *)
Definition init_globals (rd : RootDirectory) : io () := λ s,
  match ROOT_DIR s, CURRENT_DIR s with
  | None, None => (Ok (), mkRootSt (world s) (Some rd) (Some RootNode) "/")
  | _, _ => (Panic, s)
  end.

(** The mounts happen before the globals are set; a failure of either mount is a
    panic. *)
Definition mount_virtual_fs (rd : RootDirectory) : io () := λ s,
  let mount_both : mounting () :=
    proc ← expecting (on_world procfs);
    rd_mount "/proc" proc;;
    sys ← expecting (on_world sysfs);
    rd_mount "/sys" sys in
  let '(r, (rd, w)) := expecting (E' := AxError) mount_both (rd, world s) in
  let s := mkRootSt w (ROOT_DIR s) (CURRENT_DIR s) (CURRENT_DIR_PATH s) in
  match r with
  | Ok _ => init_globals rd s
  | Err e => (Err e, s)
  | Panic => (Panic, s)
  end.

Definition init_rootfs_with_ramfs : io () :=
  main_fs ← in_world ramfs;
  mount_virtual_fs (rd_new main_fs).

Definition init_rootfs_with_partitions (disk : Disk) (ps : list PartitionInfo) (root : option Z) :
    io bool :=
  '(fs, actual_root) ← in_world (find_root_filesystem disk ps root);
  fs ← (match fs with Some fs => mret fs | None => in_world ramfs end);
  rd ← (λ s,
    let '(r, (rd, w)) := mount_additional_partitions disk ps actual_root (rd_new fs, world s) in
    ((λ _, rd) <$> r, mkRootSt w (ROOT_DIR s) (CURRENT_DIR s) (CURRENT_DIR_PATH s)));
  mount_virtual_fs rd;;
  mret true.

(** ** [init_filesystems] *)
Definition initialize_with_partitions (disk : Disk) (ps : list PartitionInfo) (spec : RootSpec) : io () :=
  let root := find_root_partition ps spec in
  if existsb (λ p, match filesystem_type p with Some _ => true | None => false end) ps
  then init_rootfs_with_partitions disk ps root;; mret tt
  else mret tt.

(** Scanning uses the block device of the world. *)
Definition on_device_of {A} (k : Disk) (m : st (Disk * D) AxError A) : io (outcome AxError A * Disk) := λ s,
  let '(r, (k, d)) := m (k, w_dev (world s)) in
  (match r with Panic => Panic | _ => Ok (r, k) end,
   mkRootSt (w_set_dev d (world s)) (ROOT_DIR s) (CURRENT_DIR s) (CURRENT_DIR_PATH s)).

(** [have_device]: whether the driver layer found a block device. *)
Definition init_filesystems (have_device : bool) (bootargs : option string) : io () :=
  (if have_device then mret tt else panic);;
  s ← get;
  '(disk, _) ← lift (disk_new (w_dev (world s)));
  root_spec ← lift (parse_root_spec bootargs);
  '(r, disk) ← on_device_of disk scan_gpt_partitions;
  match r with
  | Ok [] => init_rootfs_with_ramfs
  | Ok ps => initialize_with_partitions disk ps root_spec
  | Err _ | Panic => mret tt
  end.
End boot.

(** ** The mount points after boot *)
Section boot_facts.
Context `{OverflowChecks, UnicodeCase} {W F N D DevError : Type}.
Context `{!Vfs W F N, !BlockDevice D DevError, !FsDrivers W F D}.
Implicit Types (rd : RootDirectory (F:=F)) (w : W).

Definition rd_ok (s : RootDirectory (F:=F) * W) : Prop := rd_wf s.1.

Lemma has_mount_false path rd : has_mount path rd = false → path ∉ mp_path <$> mounts rd.
Proof.
  unfold has_mount. intros Hf Hin. apply list_elem_of_fmap in Hin as (mp & -> & Hin).
  assert (existsb (λ mp', bool_decide (mp_path mp' = mp_path mp)) (mounts rd) = true) as Ht;
    [|by rewrite Ht in Hf].
  apply existsb_exists. exists mp. split; [by apply list_elem_of_In|]. by apply bool_decide_eq_true.
Qed.

Lemma rd_mount_wf path fs : is_utf8 path = true → pres rd_ok (rd_mount (W:=W) path fs).
Proof.
  intros Hu [rd w] [Hok Hnd]. unfold rd_mount, rd_ok. st_run. cbn [fst].
  case_bool_decide as Hroot; [by split|]. destruct (starts_with "/" path) eqn:Hs; [|by split].
  destruct (has_mount path rd) eqn:Hm; [by split|]. cbn [negb].
  destruct (node_create _ path Dir w) as [[[]|e|] w1]; [|by split..].
  destruct (node_lookup _ path w1) as [[n|e|] w2]; [|by split..].
  destruct (fs_mount fs path n w2) as [[[]|e|] w3]; [|by split..].
  simpl. unfold rd_wf; simpl. split.
  - apply Forall_app. split; [done|]. apply Forall_singleton. unfold mount_ok; simpl.
    apply starts_with_app in Hs as [t ->]. by split_and!; [exists t|..].
  - rewrite fmap_app. apply NoDup_app. split_and!; [done| |apply NoDup_singleton].
    intros x Hx Hy. apply list_elem_of_singleton in Hy as ->.
    by apply (has_mount_false _ _ Hm) in Hx.
Qed.

(** A successful mount is there afterwards. *)
Lemma rd_mount_has path fs rd w rd' w' :
  rd_mount path fs (rd, w) = (Ok (), (rd', w')) → mounts rd' = mounts rd ++ [mkMountPoint path fs].
Proof.
  unfold rd_mount. st_run. cbn [fst]. case_bool_decide; [done|].
  destruct (starts_with "/" path); [|done]. destruct (has_mount path rd); [done|]. cbn [negb].
  destruct (node_create _ path Dir w) as [[[]|e|] w1]; [|done..].
  destruct (node_lookup _ path w1) as [[n|e|] w2]; [|done..].
  destruct (fs_mount fs path n w2) as [[[]|e|] w3]; [|done..].
  by intros [= <- <-].
Qed.

Lemma has_mount_app path rd rd' l :
  mounts rd' = mounts rd ++ l → has_mount path rd = true → has_mount path rd' = true.
Proof. unfold has_mount. intros -> Hm. by rewrite existsb_app, Hm. Qed.

Lemma on_world_ok {A} (m : st W AxError A) : pres rd_ok (on_world m).
Proof. intros [rd w] Hs. unfold on_world. by destruct (m w). Qed.

#[local] Hint Resolve on_world_ok : pres.

Lemma mount_path_utf8 name : is_utf8 name = true → is_utf8 (mount_path_of name) = true.
Proof. intros. unfold mount_path_of. case_match; [done|]. by apply is_utf8_app. Qed.

Lemma mount_single_wf disk p : name_utf8 p → pres rd_ok (mount_single_partition (W:=W) disk p).
Proof.
  intros Hp.
  assert (∀ fs, pres rd_ok (rd_mount (W:=W) (mount_path_of (pi_name p)) fs))
    by (intros; by apply rd_mount_wf, mount_path_utf8).
  unfold mount_single_partition. pres_tac.
Qed.

Lemma mount_additional_wf disk ps root :
  Forall name_utf8 ps → pres rd_ok (mount_additional_partitions (W:=W) disk ps root).
Proof.
  intros Hps. unfold mount_additional_partitions. do 2 (apply pres_bind; [pres_tac|intros ?]).
  generalize 0. induction Hps as [|p ps Hp _ IH]; intros i; cbn [mount_loop]; [pres_tac|].
  apply pres_bind; [|intros ?; apply IH]. case_match; [pres_tac|].
  case_match; [by apply mount_single_wf|pres_tac].
Qed.

Lemma rd_new_wf fs : rd_wf (rd_new (F:=F) fs).
Proof. by split; constructor. Qed.

(** What the boot code establishes. *)
Definition booted (s : root_st (W:=W) (F:=F) (N:=N)) : Prop :=
  ∃ rd, ROOT_DIR s = Some rd ∧ rd_wf rd ∧ has_mount "/proc" rd = true ∧
        has_mount "/sys" rd = true ∧ CURRENT_DIR s = Some RootNode ∧ CURRENT_DIR_PATH s = "/".

Lemma expecting_ok {S E E' A} (m : st S E A) s a s' :
  expecting (E':=E') m s = (Ok a, s') → m s = (Ok a, s').
Proof. unfold expecting. destruct (m s) as [[] ?]; simpl; congruence. Qed.

Lemma expecting_not_err {S E E' A} (m : st S E A) s e s' :
  expecting (E':=E') m s ≠ (Err e, s').
Proof. unfold expecting. destruct (m s) as [[] ?]; simpl; congruence. Qed.

Lemma mount_both_ok rd w rd' w' :
  rd_wf rd →
  (proc ← expecting (E':=AxError) (on_world procfs); rd_mount "/proc" proc;;
   sys ← expecting (on_world sysfs); rd_mount "/sys" sys) (rd, w) = (Ok (), (rd', w')) →
  rd_wf rd' ∧ has_mount "/proc" rd' = true ∧ has_mount "/sys" rd' = true.
Proof.
  intros Hwf Hm. apply st_bind_ok in Hm as (proc & [rd1 w1] & H1 & Hm).
  apply expecting_ok in H1. pose proof (on_world_ok procfs (rd, w) Hwf) as Hwf1. rewrite H1 in Hwf1.
  apply st_bind_ok in Hm as ([] & [rd2 w2] & H2 & Hm).
  pose proof (rd_mount_wf "/proc" proc eq_refl (rd1, w1) Hwf1) as Hwf2. rewrite H2 in Hwf2.
  apply rd_mount_has in H2.
  apply st_bind_ok in Hm as (sys & [rd3 w3] & H3 & H4). apply expecting_ok in H3.
  pose proof (on_world_ok sysfs (rd2, w2) Hwf2) as Hwf3. rewrite H3 in Hwf3.
  assert (rd3 = rd2) as -> by (unfold on_world in H3; by destruct (sysfs w2); simplify_eq).
  pose proof (rd_mount_wf "/sys" sys eq_refl (rd2, w3) Hwf3) as Hwf4. rewrite H4 in Hwf4.
  apply rd_mount_has in H4.
  assert (has_mount "/proc" rd2 = true).
  { unfold has_mount. rewrite H2, existsb_app. simpl. by rewrite orb_true_r. }
  split_and!; [done|by eapply has_mount_app|]. unfold has_mount. rewrite H4, existsb_app. simpl.
  by rewrite orb_true_r.
Qed.

Lemma mount_virtual_fs_booted rd s s' :
  rd_wf rd → mount_virtual_fs (W:=W) (N:=N) rd s = (Ok (), s') → booted s'.
Proof.
  intros Hwf. unfold mount_virtual_fs.
  destruct (expecting (E':=AxError) _ (rd, world s)) as [r [rd' w']] eqn:Hm.
  destruct r as [[]|e|]; [|done..]. apply expecting_ok in Hm.
  apply mount_both_ok in Hm as (? & ? & ?); [|done]. unfold init_globals. simpl.
  repeat case_match; intros; simplify_eq. exists rd'. by split_and!.
Qed.
Lemma in_world_root {A} (m : st W AxError A) (s : root_st (W:=W) (F:=F) (N:=N)) r s' :
  in_world m s = (r, s') → ROOT_DIR s' = ROOT_DIR s.
Proof. unfold in_world. destruct (m (world s)). by intros [= <- <-]. Qed.

Lemma init_with_partitions_booted disk ps root s b s' :
  Forall name_utf8 ps →
  init_rootfs_with_partitions (W:=W) (N:=N) disk ps root s = (Ok b, s') → booted s'.
Proof.
  intros Hps Hi. unfold init_rootfs_with_partitions in Hi.
  apply st_bind_ok in Hi as ([fs actual] & s1 & _ & Hi).
  apply st_bind_ok in Hi as (fs' & s2 & _ & Hi).
  apply st_bind_ok in Hi as (rd & s3 & Hrd & Hi).
  apply st_bind_ok in Hi as ([] & s4 & Hv & Hi).
  unfold mret, st_ret in Hi. simplify_eq. eapply mount_virtual_fs_booted; [|exact Hv].
  pose proof (mount_additional_wf disk ps actual Hps (rd_new fs', world s2) (rd_new_wf fs')) as Hwf.
  destruct (mount_additional_partitions disk ps actual (rd_new fs', world s2)) as [r [rd' w']].
  destruct r; simplify_eq/=. done.
Qed.

(** C26: When the file systems come up, the mount points are well formed:
    absolute, valid UTF-8, different from each other and from the root, whatever
    the labels of the partitions on the disk are; [/proc] and [/sys] are among
    them, and the current directory is the root.  Together with the search for
    mount points this means that looking up a path does not panic. *)
Theorem boot_mounts_well_formed have_device bootargs s s' rd :
  ROOT_DIR s = None → init_filesystems (W:=W) (N:=N) have_device bootargs s = (Ok (), s') →
  ROOT_DIR s' = Some rd →
  rd_wf rd ∧ has_mount "/proc" rd = true ∧ has_mount "/sys" rd = true ∧
  CURRENT_DIR s' = Some RootNode ∧ CURRENT_DIR_PATH s' = "/".
Proof.
  intros Hn Hi Hr.
  assert (booted s') as (rd' & Hr' & Hb); [|by assert (rd' = rd) as -> by congruence].
  unfold init_filesystems in Hi. apply st_bind_ok in Hi as ([] & s1 & H1 & Hi).
  assert (s1 = s) as -> by (destruct have_device; unfold mret, st_ret, panic in H1; congruence).
  apply st_bind_ok in Hi as (s2 & s3 & H3 & Hi).
  assert (s2 = s ∧ s3 = s) as [-> ->] by (unfold get in H3; split; congruence). clear H3.
  apply st_bind_ok in Hi as ([k d] & s4 & H4 & Hi).
  assert (s4 = s) as -> by (unfold lift in H4; congruence).
  apply st_bind_ok in Hi as (spec & s5 & H5 & Hi).
  assert (s5 = s) as -> by (unfold lift in H5; congruence).
  apply st_bind_ok in Hi as ([r k'] & s6 & H6 & Hi).
  assert (ROOT_DIR s6 = None ∧ ∀ ps, r = Ok ps → Forall name_utf8 ps) as [Hn6 Hps].
  { unfold on_device_of in H6.
    destruct (scan_gpt_partitions (k, w_dev (world s))) as [r0 [k0 d0]] eqn:Hs.
    assert (r = r0 ∧ ROOT_DIR s6 = ROOT_DIR s) as [-> ->] by (destruct r0; by simplify_eq).
    split; [done|]. intros ps ->. by eapply scan_name_utf8. }
  destruct r as [[|p ps]|e|]; simplify_eq/=.
  - unfold init_rootfs_with_ramfs in Hi. apply st_bind_ok in Hi as (fs & s7 & _ & Hi).
    eapply mount_virtual_fs_booted; [apply rd_new_wf|done].
  - unfold initialize_with_partitions in Hi.
    destruct (existsb _ _); [|unfold mret, st_ret in Hi; congruence].
    apply st_bind_ok in Hi as (b & s7 & Hi & Hs).
    assert (s7 = s') as -> by (unfold mret, st_ret in Hs; congruence).
    eapply init_with_partitions_booted; [|done]. by apply Hps.
  - unfold mret, st_ret in Hi. congruence.
  - unfold mret, st_ret in Hi. congruence.
Qed.

Lemma rd_mount_taken path fs rd w :
  has_mount path rd = true → is_ok (rd_mount path fs (rd, w)).1 = false.
Proof.
  intros Hm. unfold rd_mount. st_run. cbn [fst]. rewrite Hm. by repeat case_match.
Qed.

Lemma on_world_rd {A} (m : st W AxError A) rd w a rd' w' :
  expecting (E':=AxError) (on_world m) (rd, w) = (Ok a, (rd', w')) → rd' = rd.
Proof. intros He%expecting_ok. unfold on_world in He. destruct (m w). congruence. Qed.

Lemma mount_virtual_collision rd (s : root_st (W:=W) (F:=F) (N:=N)) :
  has_mount "/proc" rd = true ∨ has_mount "/sys" rd = true →
  (mount_virtual_fs rd s).1 = Panic.
Proof.
  intros Hc. unfold mount_virtual_fs.
  destruct (expecting (E':=AxError) _ (rd, world s)) as [r [rd' w']] eqn:Hm.
  destruct r as [[]|e|]; [exfalso| |done].
  2: { by apply expecting_not_err in Hm. }
  apply expecting_ok in Hm. apply st_bind_ok in Hm as (proc & [rd1 w1] & H1 & Hm).
  apply on_world_rd in H1 as ->. apply st_bind_ok in Hm as ([] & [rd2 w2] & H2 & Hm).
  destruct Hc as [Hp|Hs].
  { pose proof (rd_mount_taken _ proc rd w1 Hp) as Ht. by rewrite H2 in Ht. }
  apply rd_mount_has in H2. apply st_bind_ok in Hm as (sys & [rd3 w3] & H3 & H4).
  apply on_world_rd in H3 as ->. eapply has_mount_app in Hs; [|exact H2].
  pose proof (rd_mount_taken _ sys rd2 w3 Hs) as Ht. by rewrite H4 in Ht.
Qed.

(** Boot fails when a label collides with a virtual file system: once a
    partition is mounted at [/proc] or [/sys] (its label is [proc] or [sys]),
    mounting the virtual file system there is refused, and the refusal is a
    panic. *)
Theorem label_collision_panics disk ps root s fs actual s1 w rd w1 :
  in_world (find_root_filesystem disk ps root) s = (Ok (Some fs, actual), s1) →
  world s1 = w → mount_additional_partitions disk ps actual (rd_new fs, w) = (Ok (), (rd, w1)) →
  has_mount "/proc" rd = true ∨ has_mount "/sys" rd = true →
  (init_rootfs_with_partitions (W:=W) (N:=N) disk ps root s).1 = Panic.
Proof.
  intros Hf Hw Hm Hc. unfold init_rootfs_with_partitions. unfold mbind at 1, st_bind at 1.
  rewrite Hf. unfold mbind, st_bind, mret, st_ret. rewrite Hw, Hm. cbn [fmap outcome_fmap].
  pose proof (mount_virtual_collision rd
    (mkRootSt w1 (ROOT_DIR s1) (CURRENT_DIR s1) (CURRENT_DIR_PATH s1)) Hc) as Hp.
  by destruct (mount_virtual_fs rd _) as [[] ?].
Qed.

(** A partition that looks like FAT or ext4 but cannot be opened stops the
    boot.  The callers of [create_filesystem_for_partition] handle its error by
    trying the next partition, but a failure of the driver never arrives there
    as an error: it is a panic already. *)
Theorem broken_filesystem_panics disk ps i p w e w' :
  ps !! i = Some p →
  let part := partition_new disk (pi_starting_lba p) (pi_ending_lba p) in
  filesystem_type p = Some Fat ∧ fatfs_new part w = (Err e, w') ∨
  filesystem_type p = Some Ext4 ∧ ext4_fs_mount part w = (Err e, w') →
  create_filesystem_for_partition disk p w = (Panic, w') ∧
  find_root_filesystem disk ps (Some (Z.of_nat i)) w = (Panic, w').
Proof.
  intros Hi part Hb.
  assert (Hc : create_filesystem_for_partition disk p w = (Panic, w')).
  { unfold create_filesystem_for_partition, fat_from_partition, ext4_from_partition, expecting.
    destruct Hb as [[-> Hb]|[-> Hb]]; fold part; by rewrite Hb. }
  split; [done|]. unfold find_root_filesystem, try_use_specified_partition.
  pose proof (lookup_lt_Some _ _ _ Hi). unfold len.
  rewrite (proj2 (Z.leb_gt _ _)) by lia. unfold attempt. st_run.
  rewrite Nat2Z.id, Hi. cbn [unwrap]. destruct Hb as [[Ht _]|[Ht _]]; rewrite Ht; by rewrite Hc.
Qed.
End boot_facts.

Section no_root.
Context `{OverflowChecks, UnicodeCase} {W F N D DevError : Type}.
Context `{!Vfs W F N, !BlockDevice D DevError, !FsDrivers W F D}.
Context `{!BlockDeviceOk D DevError, !BlockDeviceReliable D DevError}.

(** A disk without a partition table and without a known file system leaves
    the system without a root directory: it counts as one partition, so the
    fallback to a file system in memory is not taken, and nothing is mounted.
    [init_filesystems] returns normally, and the first use of an absolute path
    panics. *)
Theorem unsupported_disk_leaves_no_root bootargs spec (s : root_st (W:=W) (F:=F) (N:=N)) :
  let img := dev_bytes (w_dev (world s)) in
  ROOT_DIR s = None → block_size (w_dev (world s)) = BLOCK_SIZE → img ≠ [] →
  sub 512 8 img ≠ GPT_SIGNATURE → fs_at img 0 = None → parse_root_spec bootargs = Ok spec →
  ∃ s', init_filesystems true bootargs s = (Ok (), s') ∧ ROOT_DIR s' = None ∧
        ∀ path, starts_with "/" path = true → (lookup None path s').1 = Panic.
Proof.
  intros img Hn Hb Hne Hsig Hfs Hspec. set (d := w_dev (world s)) in *.
  destruct (scan_reads d Hb None Hne) with 0 d as (pos' & d' & Hs & _ & _);
    [by apply (reads_attempt _ _ None InvalidData), parse_unsigned|by vm_compute|apply shows_refl|].
  assert (Hroot : ∀ s' : root_st (W:=W) (F:=F) (N:=N), ROOT_DIR s' = None →
    ∀ path, starts_with "/" path = true → (lookup None path s').1 = Panic).
  { intros s' Hs' path Hp. unfold lookup, parent_node_of, the_root. rewrite Hp.
    destruct path; [done|]. cbn [str_is_empty]. st_run. by rewrite Hs'. }
  unfold init_filesystems, on_device_of. st_run. fold d. unfold disk_new.
  rewrite bool_decide_true by done. rewrite Hspec.
  change (mkDisk 0 0) with (disk_set_position 0). fold d. rewrite Hs.
  unfold initialize_with_partitions, whole_disk. cbn [existsb filesystem_type].
  fold img. rewrite Hfs. cbn [orb]. eexists. split_and!; [done|done|]. by apply Hroot.
Qed.
End no_root.

(** ** Concrete boots *)
Module BootExamples.
Import TinyFs RamDisk.

#[local] Instance ascii_only : UnicodeCase := {| unicode_upper s := s; unicode_lower s := s |}.
#[local] Instance debug_build : OverflowChecks := true.

Definition new_fs (ok : bool) : st tiny AxError Z := λ w,
  if ok then (Ok (next_fs w), mkTiny (next_fs w + 1) (nodes w) (disk_image w)) else (Err InvalidData, w).

(** Drivers that open every FAT partition and no ext4 partition. *)
#[local] Instance drivers : FsDrivers tiny Z (list u8) := {|
  fatfs_new _ := new_fs true;
  ext4_fs_mount _ := new_fs false;
  w_dev := disk_image;
  w_set_dev img w := mkTiny (next_fs w) (nodes w) img;
|}.

Abbreviation state := (root_st (W:=tiny) (F:=Z) (N:=Z * string)).

Definition start (img : list u8) : state := mkRootSt (mkTiny 0 ∅ img) None None "".

Lemma unsupported_disk_leaves_no_root_witness :
  ∃ s', init_filesystems true None (start GptExamples.blank_disk) = (Ok (), s') ∧
        ROOT_DIR s' = None ∧
        ∀ path, starts_with "/" path = true → (lookup None path s').1 = Panic.
Proof.
  apply (unsupported_disk_leaves_no_root None default_spec (start GptExamples.blank_disk));
    vm_compute; congruence.
Defined.

(** The disk with the FAT partition "boot", which becomes the root. *)
Definition boot_run : outcome AxError () * state :=
  init_filesystems true None (start GptExamples.gpt_disk).

Lemma boot_run_ok : boot_run = (Ok (), boot_run.2).
Proof.
  assert (Hr : boot_run.1 = Ok ()) by (vm_compute; reflexivity).
  rewrite <-Hr. apply surjective_pairing.
Qed.

Lemma boot_run_root : is_Some (ROOT_DIR boot_run.2).
Proof.
  assert (Hr : bool_decide (is_Some (ROOT_DIR boot_run.2)) = true) by (vm_compute; reflexivity).
  by apply bool_decide_eq_true in Hr.
Qed.

Lemma boot_mounts_well_formed_witness :
  ∃ rd, ROOT_DIR boot_run.2 = Some rd ∧ rd_wf rd ∧ has_mount "/proc" rd = true.
Proof.
  destruct boot_run_root as [rd Hr]. exists rd.
  destruct (boot_mounts_well_formed true None (start GptExamples.gpt_disk) boot_run.2 rd
    eq_refl boot_run_ok Hr) as (Hwf & Hp & _).
  split; [exact Hr|split; [exact Hwf|exact Hp]].
Defined.

Definition fat_info (i : Z) (name : string) : PartitionInfo :=
  mkPartitionInfo i name (replicate 16 x28) (replicate 16 xc1) None 3 4 1024 (Some Fat).
Definition labelled : list PartitionInfo := [fat_info 0 "system"; fat_info 1 "proc"].

Lemma label_collision_panics_witness :
  (init_rootfs_with_partitions (N:=Z * string) (mkDisk 0 0) labelled None (start [])).1 = Panic.
Proof.
  eapply (label_collision_panics (mkDisk 0 0) labelled None (start []) 0 (Some 0));
    [vm_compute; reflexivity|vm_compute; reflexivity|vm_compute; reflexivity|].
  left. vm_compute. reflexivity.
Defined.

Definition ext4_info : PartitionInfo :=
  mkPartitionInfo 0 "data" (replicate 16 x28) (replicate 16 xc1) None 3 4 1024 (Some Ext4).

Lemma broken_filesystem_panics_witness :
  create_filesystem_for_partition (mkDisk 0 0) ext4_info (world (start [])) =
    (Panic, world (start [])) ∧
  find_root_filesystem (mkDisk 0 0) [ext4_info] (Some 0) (world (start [])) =
    (Panic, world (start [])).
Proof.
  apply (broken_filesystem_panics (mkDisk 0 0) [ext4_info] 0 ext4_info (world (start [])) InvalidData);
    [reflexivity|right; split; reflexivity].
Defined.
End BootExamples.
