(* ===== verification/Stream.v ===== *)
(** * Disks and partitions as streams

    The FAT and the ext4 driver reach the device through [Disk] and [Partition] of
    [Disk], and each adapts both types with the same text.  [BlockStream] is what
    the adapters use of the two, [BlockStreamOk] what they promise on a device that
    serves its blocks. *)

From Stdlib Require Import Strings.Byte.
From S2P Require Import Prelude Disk.

(** What the drivers use of a disk or a partition. *)
Class BlockStream (K D DevError : Type) : Type := {
  bs_set_position : ∀ {E}, Z → st (K * D) E ();
  bs_position : ∀ {E}, st (K * D) E Z;
  bs_read_one : list u8 → st (K * D) DevError (Z * list u8);
  bs_write_one : list u8 → st (K * D) DevError Z;
  bs_size : ∀ {E}, st (K * D) E Z;
}.

(** [r.map_err(|_| e)] *)
Definition map_err {S E E' A} (e : E') (m : st S E A) : st S E' A := λ s,
  match m s with
  | (Ok a, s) => (Ok a, s)
  | (Err _, s) => (Err e, s)
  | (Panic, s) => (Panic, s)
  end.

(** ** The two implementations *)
Section implementations.
Context `{OverflowChecks} {D DevError : Type} `{!BlockDevice D DevError}.

#[export] Instance disk_stream : BlockStream Disk D DevError := {|
  bs_set_position E pos := set_disk (disk_set_position pos);
  bs_read_one := disk_read_one;
  bs_write_one := disk_write_one;
  bs_position E := k ← get_disk; lift (disk_position k);
  bs_size E := disk_size;
|}.

#[export] Instance partition_stream : BlockStream Partition D DevError := {|
  bs_set_position E pos := p ← get_disk; p' ← lift (partition_set_position pos p); set_disk p';
  bs_read_one := partition_read_one;
  bs_write_one := partition_write_one;
  bs_position E := gets (λ '(p, _), partition_position p);
  bs_size E := p ← get_disk; lift (partition_size p);
|}.
End implementations.

(** ** What a stream promises

    A stream shows a window of the device.  An access at a block boundary inside
    the window, with room for a block in the buffer, moves exactly one block. *)
Class BlockStreamOk (K D DevError : Type)
    `{!BlockDevice D DevError, !BlockDeviceOk D DevError, !BlockStream K D DevError} : Type := {
  bs_ok : K → D → Prop;
  bs_base : K → Z;
  bs_len : K → D → Z;
  bs_pos : K → Z;
  bs_window k d : bs_ok k d →
    0 ≤ bs_base k ∧ 0 ≤ bs_len k d ∧ bs_base k + bs_len k d ≤ len (dev_bytes d);
  bs_seek_ok pos k d : bs_ok k d → 0 ≤ pos ≤ bs_len k d →
    ∃ k', (∀ E, bs_set_position (E:=E) pos (k, d) = (Ok (), (k', d))) ∧
      bs_ok k' d ∧ bs_pos k' = pos ∧ bs_base k' = bs_base k ∧ bs_len k' d = bs_len k d;
  bs_read_ok buf k d : bs_ok k d → (BLOCK_SIZE | bs_pos k) → BLOCK_SIZE ≤ len buf →
    0 ≤ bs_pos k → bs_pos k + BLOCK_SIZE ≤ bs_len k d →
    ∃ k' d', bs_read_one buf (k, d) =
        (Ok (BLOCK_SIZE, splice 0 (sub (bs_base k + bs_pos k) BLOCK_SIZE (dev_bytes d)) buf), (k', d')) ∧
      bs_ok k' d' ∧ bs_pos k' = bs_pos k + BLOCK_SIZE ∧ bs_base k' = bs_base k ∧
      bs_len k' d' = bs_len k d ∧ dev_bytes d' = dev_bytes d;
  bs_write_ok buf k d : bs_ok k d → (BLOCK_SIZE | bs_pos k) → BLOCK_SIZE ≤ len buf →
    0 ≤ bs_pos k → bs_pos k + BLOCK_SIZE ≤ bs_len k d →
    ∃ k' d', bs_write_one buf (k, d) = (Ok BLOCK_SIZE, (k', d')) ∧
      bs_ok k' d' ∧ bs_pos k' = bs_pos k + BLOCK_SIZE ∧ bs_base k' = bs_base k ∧
      bs_len k' d' = bs_len k d ∧
      dev_bytes d' = splice (bs_base k + bs_pos k) (sub 0 BLOCK_SIZE buf) (dev_bytes d);
}.

Lemma chunk_whole pos n : (BLOCK_SIZE | pos) → BLOCK_SIZE ≤ n → chunk pos n = BLOCK_SIZE.
Proof.
  intros Hp Hn. unfold chunk. apply Z.mod_divide in Hp; [|done]. rewrite Hp. lia.
Qed.

Section streams_ok.
Context `{OverflowChecks} {D DevError : Type}.
Context `{!BlockDevice D DevError, !BlockDeviceOk D DevError, !BlockDeviceReliable D DevError}.

Definition disk_ok (k : Disk) (d : D) : Prop := disk_wf k ∧ block_size d = BLOCK_SIZE.

Lemma cursor_block_range k d :
  disk_ok k d → 0 ≤ cursor k → cursor k + BLOCK_SIZE ≤ len (dev_bytes d) →
  0 ≤ block_id k < num_blocks d.
Proof.
  intros [Hk Hb] ??. rewrite dev_bytes_len, Hb in *.
  unfold disk_wf, cursor, BLOCK_SIZE in *. lia.
Qed.

#[export] Program Instance disk_stream_ok : BlockStreamOk Disk D DevError := {|
  bs_ok := disk_ok;
  bs_base _ := 0;
  bs_len _ d := len (dev_bytes d);
  bs_pos := cursor;
|}.
Next Obligation. intros. pose proof (len_nonneg (dev_bytes d)). lia. Qed.
Next Obligation.
  intros pos k d [Hk Hb] Hpos. exists (disk_set_position pos). split_and!; try done.
  - split; [apply disk_set_position_wf|done].
  - apply cursor_set_position.
Qed.
Next Obligation.
  intros buf k d Hok Hp Hl ? Hend. pose proof Hok as [Hk Hb].
  destruct (disk_read_one_run buf k d Hk Hb)
    as [(d' & Hr & _ & [Hd [Hg Hn]])|(e & d' & _ & Hr & _)].
  - rewrite chunk_whole in Hr by done. eexists _, d'. simpl. rewrite Hr, Hd, cursor_set_position.
    split_and!; try done. split; [apply disk_set_position_wf|congruence].
  - apply reliable_refused in Hr; destruct (cursor_block_range k d Hok); done || lia.
Qed.
Next Obligation.
  intros buf k d Hok Hp Hl ? Hend. pose proof Hok as [Hk Hb].
  destruct (disk_write_one_run buf k d Hk Hb)
    as [(d' & Hr & _ & [Hd [Hg Hn]])|(e & d' & _ & Hr & _)].
  - rewrite chunk_whole in Hr, Hd by done. eexists _, d'. simpl. rewrite Hr, Hd, cursor_set_position.
    split_and!; try done; [split; [apply disk_set_position_wf|congruence]|].
    rewrite splice_len; [done|lia|]. rewrite sub_len by (unfold BLOCK_SIZE in *; lia). simpl in *. lia.
  - apply reliable_refused in Hr; destruct (cursor_block_range k d Hok); done || lia.
Qed.

Lemma part_chunk_whole p n :
  (BLOCK_SIZE | p_position p) → p_position p + BLOCK_SIZE ≤ part_size p → BLOCK_SIZE ≤ n →
  part_chunk p n = BLOCK_SIZE.
Proof. intros. apply chunk_whole; [done|]. lia. Qed.

Lemma part_moved_window n p p' :
  same_window (part_moved n p) p' →
  same_bounds p p' ∧ p_position p' = p_position p + n ∧ part_base p' = part_base p ∧
  part_size p' = part_size p.
Proof. intros (E1 & E2 & E3). simpl in *. unfold same_bounds, part_base, part_size. by rewrite E1, E2, E3. Qed.

#[export] Program Instance partition_stream_ok : BlockStreamOk Partition D DevError := {|
  bs_ok := on_device;
  bs_base := part_base;
  bs_len p _ := part_size p;
  bs_pos := p_position;
|}.
Next Obligation. intros. by apply on_device_window. Qed.
Next Obligation.
  intros pos p d Hok Hpos. pose proof Hok as (Hwf & Hb & He).
  exists (mkPartition (p_disk p) (start_lba p) (end_lba p) pos). split.
  - intros E. simpl. unfold get_disk, set_disk. st_run. cbn [fst].
    rewrite partition_set_position_run by done. by rewrite Z.min_l by lia.
  - destruct Hwf as (? & ? & ?). split; [|done]. split; [|done].
    unfold part_wf, part_size in *; simpl in *. lia.
Qed.
Next Obligation.
  intros buf p d Hok Hp Hl ? Hend. pose proof Hok as (Hwf & Hb & He).
  destruct (partition_read_one_run buf p d Hwf Hb)
    as [(p' & d' & Hr & Hw & Hd & _)|(e & p' & d' & _ & _ & Hr & Hlt & _)];
    [|by destruct (part_not_refused p d)].
  rewrite part_chunk_whole in Hr, Hw by done. exists p', d'. simpl. rewrite Hr.
  destruct (part_moved_window _ _ _ Hw) as (? & ? & ? & ?). split_and!; try done; [|by destruct Hd].
  eapply on_device_step; [done| |done|done]. eapply same_window_wf; [done|].
  rewrite <-(part_chunk_whole p (len buf)) by done. by apply part_moved_wf; [|apply len_nonneg].
Qed.
Next Obligation.
  intros buf p d Hok Hp Hl ? Hend. pose proof Hok as (Hwf & Hb & He).
  destruct (partition_write_one_run buf p d Hwf Hb)
    as [(p' & d' & Hr & Hw & Hd & _)|(e & p' & d' & _ & _ & Hr & Hlt & _)];
    [|by destruct (part_not_refused p d)].
  rewrite part_chunk_whole in Hr, Hw, Hd by done. exists p', d'. simpl. rewrite Hr.
  destruct (part_moved_window _ _ _ Hw) as (? & ? & ? & ?). split_and!; try done; [|by destruct Hd].
  eapply on_device_step; [done| |done|done]. eapply same_window_wf; [done|].
  rewrite <-(part_chunk_whole p (len buf)) by done. by apply part_moved_wf; [|apply len_nonneg].
Qed.
End streams_ok.

(** ** Pieces of buffers *)
Lemma splice_next {A} lo (x y l : list A) :
  0 ≤ lo → lo + len x + len y ≤ len l →
  splice (lo + len x) y (splice lo x l) = splice lo (x ++ y) l.
Proof.
  intros. pose proof (len_nonneg x). pose proof (len_nonneg y).
  apply list_eq. intros i. rewrite !lookup_splice by (rewrite ?splice_len, ?len_app; lia).
  rewrite len_app. repeat case_bool_decide; try lia; try done.
  - rewrite lookup_app_r by (unfold len in *; lia). f_equal. unfold len in *. lia.
  - rewrite lookup_app_l by (unfold len in *; lia). done.
Qed.

(** Storing a window back unchanged. *)
Lemma splice_same {A} lo m (l : list A) :
  0 ≤ lo → 0 ≤ m → lo + m ≤ len l → splice lo (sub lo m l) l = l.
Proof.
  intros. rewrite <-(splice_nil 0 (sub lo m l)), splice_sub; [by rewrite splice_nil|..]; done.
Qed.

(** Storing a window back with its front replaced. *)
Lemma splice_window_front {A} lo (x l : list A) :
  0 ≤ lo → lo + len x ≤ len l →
  splice lo (splice 0 x (sub lo (len l - lo) l)) l = splice lo x l.
Proof. intros. pose proof (len_nonneg x). rewrite splice_sub by lia. by rewrite Z.add_0_r. Qed.
