(* ===== verification/Ext4Dev.v ===== *)
(** * Disks and partitions as devices of the ext4 driver

    [modules/axfs/src/fs/ext4fs.rs] implements the trait [rsext4::BlockDevice] for
    [Disk] and for [Partition]: the driver addresses blocks of 4096 bytes, and the
    two implementations move them with [read_one] and [write_one], which transfer
    at most 512 bytes per call.  Both have the same text over the same three
    operations, those of [Stream].

    The loops end when the wanted number of bytes has been moved.  Nothing bounds
    the number of rounds, so the model has fuel: a result [None] says that the loop
    is still running after that many rounds. *)

From Stdlib Require Import Strings.Byte.
From S2P Require Import Prelude Disk Stream.

Inductive BlockDevError : Type := WriteError | ReadError.

(** [pub const BLOCK_SIZE: usize = 4096]. *)
Definition EXT4_BLOCK_SIZE : Z := 4096.

Section block_device.
Context `{OverflowChecks} {K D DevError : Type} `{!BlockStream K D DevError}.

Fixpoint write_loop (fuel : nat) (total_written to_write : Z) (buffer : list u8) :
    st (K * D) BlockDevError (option ()) :=
  if total_written <? to_write then
    match fuel with
    | O => mret None
    | S fuel =>
        remaining ← lift (slice total_written (len buffer) buffer);
        written ← map_err WriteError (bs_write_one remaining);
        total_written ← lift (usize_add total_written written);
        write_loop fuel total_written to_write buffer
    end
  else mret (Some ()).

Fixpoint read_loop (fuel : nat) (total_read to_read : Z) (buffer : list u8) :
    st (K * D) BlockDevError (option (list u8)) :=
  if total_read <? to_read then
    match fuel with
    | O => mret None
    | S fuel =>
        remaining ← lift (slice total_read (len buffer) buffer);
        '(read, remaining) ← map_err ReadError (bs_read_one remaining);
        buffer ← lift (copy_from_slice total_read (len buffer) remaining buffer);
        total_read ← lift (usize_add total_read read);
        read_loop fuel total_read to_read buffer
    end
  else mret (Some buffer).

(** [block_id] and [count] are [u32]. *)
Definition bdev_write (fuel : nat) (buffer : list u8) (block_id count : Z) :
    st (K * D) BlockDevError (option ()) :=
  pos ← lift (usize_mul block_id EXT4_BLOCK_SIZE);
  bs_set_position pos;;
  to_write ← lift (usize_mul count EXT4_BLOCK_SIZE);
  write_loop fuel 0 to_write buffer.

Definition bdev_read (fuel : nat) (buffer : list u8) (block_id count : Z) :
    st (K * D) BlockDevError (option (list u8)) :=
  pos ← lift (usize_mul block_id EXT4_BLOCK_SIZE);
  bs_set_position pos;;
  to_read ← lift (usize_mul count EXT4_BLOCK_SIZE);
  read_loop fuel 0 to_read buffer.

Definition bdev_total_blocks : st (K * D) BlockDevError Z :=
  size ← bs_size; mret (size / EXT4_BLOCK_SIZE).
End block_device.

(** ** The two implementations *)
Section implementations.
Context `{OverflowChecks} {D DevError : Type} `{!BlockDevice D DevError}.

Definition disk_write : nat → list u8 → Z → Z → st (Disk * D) BlockDevError (option ()) := bdev_write.
Definition disk_read : nat → list u8 → Z → Z → st (Disk * D) BlockDevError (option (list u8)) := bdev_read.
Definition disk_total_blocks : st (Disk * D) BlockDevError Z := bdev_total_blocks.

Definition partition_write : nat → list u8 → Z → Z → st (Partition * D) BlockDevError (option ()) :=
  bdev_write.
Definition partition_read :
    nat → list u8 → Z → Z → st (Partition * D) BlockDevError (option (list u8)) := bdev_read.
Definition partition_total_blocks : st (Partition * D) BlockDevError Z := bdev_total_blocks.
End implementations.

(** ** The loops move whole blocks *)
Ltac blocks := unfold in_usize, BLOCK_SIZE in *; lia.

Section loops.
Context `{OverflowChecks} {K D DevError : Type}.
Context `{!BlockDevice D DevError, !BlockDeviceOk D DevError}.
Context `{!BlockStream K D DevError, !BlockStreamOk K D DevError}.

(** The stream [k'] shows the same window as [k]. *)
Definition same_stream (k : K) (d : D) (k' : K) (d' : D) : Prop :=
  bs_ok k' d' ∧ bs_base k' = bs_base k ∧ bs_len k' d' = bs_len k d.

(** [n] sectors from the position of [k] on lie in the window, and there is room
    for them in the buffer behind [total]. *)
Definition room (n : nat) (total : Z) (buffer : list u8) (k : K) (d : D) : Prop :=
  bs_ok k d ∧ (BLOCK_SIZE | bs_pos k) ∧ 0 ≤ bs_pos k ∧
  bs_pos k + BLOCK_SIZE * Z.of_nat n ≤ bs_len k d ∧
  0 ≤ total ∧ total + BLOCK_SIZE * Z.of_nat n ≤ len buffer ∧ in_usize (len buffer).

(** One sector is moved: there is room for the others. *)
Lemma room_step n total buffer buffer' k d k' d' :
  room (S n) total buffer k d → same_stream k d k' d' → bs_pos k' = bs_pos k + BLOCK_SIZE →
  len buffer' = len buffer → room n (total + BLOCK_SIZE) buffer' k' d'.
Proof.
  intros (? & ? & ? & ? & ? & ? & ?) (? & _ & El) Ep Eb. unfold room. rewrite El, Ep, Eb.
  split_and!; try done; try blocks.
  apply Z.divide_add_r; [done|]. apply Z.divide_refl.
Qed.

Lemma same_stream_trans k1 d1 k2 d2 k3 d3 :
  same_stream k1 d1 k2 d2 → same_stream k2 d2 k3 d3 → same_stream k1 d1 k3 d3.
Proof. intros (? & ? & ?) (? & ? & ?). split_and!; [done|congruence..]. Qed.

Lemma read_loop_run n fuel total buffer k d :
  room n total buffer k d → (n ≤ fuel)%nat →
  ∃ k' d', read_loop fuel total (total + BLOCK_SIZE * Z.of_nat n) buffer (k, d) =
      (Ok (Some (splice total
         (sub (bs_base k + bs_pos k) (BLOCK_SIZE * Z.of_nat n) (dev_bytes d)) buffer)), (k', d')) ∧
    same_stream k d k' d' ∧ dev_bytes d' = dev_bytes d.
Proof.
  revert fuel total buffer k d.
  induction n as [|n IH]; intros fuel total buffer k d Hroom Hf; pose proof Hroom as Hr;
    destruct Hr as (Hok & Hp & ? & Hend & ? & Hbuf & Hfit).
  { exists k, d. rewrite Z.mul_0_r, Z.add_0_r.
    replace (sub (bs_base k + bs_pos k) 0 (dev_bytes d)) with (@nil u8) by done.
    rewrite splice_nil. destruct fuel; simpl; rewrite Z.ltb_irrefl; done. }
  destruct fuel as [|fuel]; [lia|]. cbn [read_loop].
  destruct (bs_window k d Hok) as (? & ? & ?).
  rewrite (proj2 (Z.ltb_lt _ _)) by blocks. st_run.
  rewrite slice_ok by blocks.
  set (rem := sub total (len buffer - total) buffer).
  assert (Hrem : len rem = len buffer - total) by (apply sub_len; blocks).
  destruct (bs_read_ok rem k d) as (k1 & d1 & Hread & Hok1 & Hp1 & Hb1 & Hl1 & Hd1);
    [done|done|blocks|done|blocks|].
  unfold map_err. rewrite Hread. cbn beta iota.
  set (x := sub (bs_base k + bs_pos k) BLOCK_SIZE (dev_bytes d)).
  assert (Hx : len x = BLOCK_SIZE) by (apply sub_len; blocks).
  assert (len (splice 0 x rem) = len rem) by (apply splice_len; blocks).
  rewrite copy_from_slice_ok by blocks. unfold rem at 1. rewrite splice_window_front by blocks.
  unfold usize_add. rewrite checked_ok by blocks.
  destruct (IH fuel (total + BLOCK_SIZE) (splice total x buffer) k1 d1)
    as (k2 & d2 & Hrun & Hsame & Hd2); [|lia|].
  { eapply room_step; [done|done|done|]. apply splice_len; blocks. }
  replace (total + BLOCK_SIZE * Z.of_nat (S n)) with (total + BLOCK_SIZE + BLOCK_SIZE * Z.of_nat n)
    by blocks.
  rewrite Hrun. exists k2, d2.
  split_and!; [|by eapply same_stream_trans; [|done]|congruence].
  rewrite Hb1, Hp1, Hd1, <-Hx at 1. rewrite splice_next; [|lia|].
  - do 4 f_equal. replace (BLOCK_SIZE * Z.of_nat (S n)) with (BLOCK_SIZE + BLOCK_SIZE * Z.of_nat n)
      by blocks.
    rewrite sub_split by blocks. by rewrite <-Z.add_assoc.
  - rewrite sub_len; rewrite ?Hx; blocks.
Qed.

Lemma write_loop_run n fuel total buffer k d :
  room n total buffer k d → (n ≤ fuel)%nat →
  ∃ k' d', write_loop fuel total (total + BLOCK_SIZE * Z.of_nat n) buffer (k, d) =
      (Ok (Some ()), (k', d')) ∧ same_stream k d k' d' ∧
    dev_bytes d' =
      splice (bs_base k + bs_pos k) (sub total (BLOCK_SIZE * Z.of_nat n) buffer) (dev_bytes d).
Proof.
  revert fuel total k d.
  induction n as [|n IH]; intros fuel total k d Hroom Hf; pose proof Hroom as Hr;
    destruct Hr as (Hok & Hp & ? & Hend & ? & Hbuf & Hfit).
  { exists k, d. rewrite Z.mul_0_r, Z.add_0_r.
    replace (sub total 0 buffer) with (@nil u8) by done.
    rewrite splice_nil. destruct fuel; simpl; rewrite Z.ltb_irrefl; done. }
  destruct fuel as [|fuel]; [lia|]. cbn [write_loop].
  destruct (bs_window k d Hok) as (? & ? & ?).
  rewrite (proj2 (Z.ltb_lt _ _)) by blocks. st_run.
  rewrite slice_ok by blocks.
  set (rem := sub total (len buffer - total) buffer).
  assert (Hrem : len rem = len buffer - total) by (apply sub_len; blocks).
  destruct (bs_write_ok rem k d) as (k1 & d1 & Hwr & Hok1 & Hp1 & Hb1 & Hl1 & Hd1);
    [done|done|blocks|done|blocks|].
  unfold map_err. rewrite Hwr. cbn beta iota. unfold rem in Hd1.
  rewrite sub_sub, Z.add_0_r in Hd1 by blocks.
  unfold usize_add. rewrite checked_ok by blocks.
  destruct (IH fuel (total + BLOCK_SIZE) k1 d1) as (k2 & d2 & Hrun & Hsame & Hd2); [|lia|].
  { by eapply room_step. }
  replace (total + BLOCK_SIZE * Z.of_nat (S n)) with (total + BLOCK_SIZE + BLOCK_SIZE * Z.of_nat n)
    by blocks.
  rewrite Hrun. exists k2, d2. split_and!; [done|by eapply same_stream_trans; [|done]|].
  assert (Hx : len (sub total BLOCK_SIZE buffer) = BLOCK_SIZE) by (apply sub_len; blocks).
  replace (BLOCK_SIZE * Z.of_nat (S n)) with (BLOCK_SIZE + BLOCK_SIZE * Z.of_nat n)
    by blocks.
  rewrite sub_split by blocks. rewrite Hd2, Hb1, Hp1, Hd1, Z.add_assoc.
  rewrite <-Hx at 1. apply splice_next; rewrite ?Hx, ?sub_len; blocks.
Qed.
End loops.

(** ** A stream is an array of blocks

    The specification: a sequence of bytes that is read and written in blocks of
    4096 bytes. *)
Inductive bdev_op : Type :=
| BRead (buffer : list u8) (id count : Z)
| BWrite (buffer : list u8) (id count : Z).

Definition image_do (o : bdev_op) (image : list u8) : list u8 * list u8 :=
  match o with
  | BRead buffer id count =>
      (splice 0 (sub (id * EXT4_BLOCK_SIZE) (count * EXT4_BLOCK_SIZE) image) buffer, image)
  | BWrite buffer id count =>
      ([], splice (id * EXT4_BLOCK_SIZE) (sub 0 (count * EXT4_BLOCK_SIZE) buffer) image)
  end.

Fixpoint image_run (ops : list bdev_op) (image : list u8) : list (list u8) * list u8 :=
  match ops with
  | [] => ([], image)
  | o :: ops =>
      let '(r, image) := image_do o image in
      let '(rs, image) := image_run ops image in (r :: rs, image)
  end.

(** An access inside a window of [size] bytes, with a buffer that is large enough;
    the arguments are [u32].  Eight sectors make a block. *)
Definition bdev_op_ok (fuel : nat) (size : Z) (o : bdev_op) : Prop :=
  match o with
  | BRead buffer id count | BWrite buffer id count =>
      (0 ≤ id < 2 ^ 32 ∧ 0 ≤ count < 2 ^ 32) ∧ (id + count) * EXT4_BLOCK_SIZE ≤ size ∧
      count * EXT4_BLOCK_SIZE ≤ len buffer ∧ in_usize (len buffer) ∧ 8 * count ≤ Z.of_nat fuel
  end.

Section block_array.
Context `{OverflowChecks} {K D DevError : Type} `{!BlockStream K D DevError}.

Definition bdev_do (fuel : nat) (o : bdev_op) : st (K * D) BlockDevError (option (list u8)) :=
  match o with
  | BRead buffer id count => bdev_read fuel buffer id count
  | BWrite buffer id count => r ← bdev_write fuel buffer id count; mret ((λ _, []) <$> r)
  end.

Fixpoint bdev_run (fuel : nat) (ops : list bdev_op) (s : K * D) :
    list (outcome BlockDevError (option (list u8))) * (K * D) :=
  match ops with
  | [] => ([], s)
  | o :: ops =>
      let '(r, s) := bdev_do fuel o s in
      let '(rs, s) := bdev_run fuel ops s in (r :: rs, s)
  end.

Context `{!BlockDevice D DevError, !BlockDeviceOk D DevError, !BlockStreamOk K D DevError}.

Definition window (k : K) (d : D) : list u8 := sub (bs_base k) (bs_len k d) (dev_bytes d).

Lemma window_len k d : bs_ok k d → len (window k d) = bs_len k d.
Proof. intros Hok. destruct (bs_window k d Hok) as (? & ? & ?). by apply sub_len. Qed.

(** Seeking to a block leaves room for the blocks of the access. *)
Lemma bdev_seek buffer id count k d :
  bs_ok k d → 0 ≤ id < 2 ^ 32 → 0 ≤ count < 2 ^ 32 →
  (id + count) * EXT4_BLOCK_SIZE ≤ bs_len k d →
  count * EXT4_BLOCK_SIZE ≤ len buffer → in_usize (len buffer) →
  ∃ k', bs_set_position (E:=BlockDevError) (id * EXT4_BLOCK_SIZE) (k, d) = (Ok (), (k', d)) ∧
    bs_pos k' = id * EXT4_BLOCK_SIZE ∧ same_stream k d k' d ∧
    room (Z.to_nat (8 * count)) 0 buffer k' d.
Proof.
  intros. destruct (bs_seek_ok (id * EXT4_BLOCK_SIZE) k d) as (k' & Hs & Hok' & Hp' & Hb' & Hl');
    [done|unfold EXT4_BLOCK_SIZE in *; lia|].
  exists k'. split_and!; [done..|]. unfold room. rewrite Hp', Hl'.
  split_and!; try done; try (unfold EXT4_BLOCK_SIZE, BLOCK_SIZE in *; lia).
  exists (8 * id). unfold EXT4_BLOCK_SIZE, BLOCK_SIZE. lia.
Qed.

Lemma bdev_do_refines fuel o k d :
  bs_ok k d → bdev_op_ok fuel (bs_len k d) o →
  ∃ k' d', bdev_do fuel o (k, d) = (Ok (Some (image_do o (window k d)).1), (k', d')) ∧
    same_stream k d k' d' ∧
    dev_bytes d' = splice (bs_base k) (image_do o (window k d)).2 (dev_bytes d).
Proof.
  intros Hok Ho. destruct (bs_window k d Hok) as (? & ? & ?). pose proof (window_len k d Hok) as Hw.
  assert (Hsame : splice (bs_base k) (window k d) (dev_bytes d) = dev_bytes d)
    by (by apply splice_same).
  destruct o as [buffer id count|buffer id count]; simpl in Ho |- *;
    destruct Ho as ((? & ?) & Hend & Hbuf & Hfit & Hf);
    destruct (bdev_seek buffer id count k d) as (k1 & Hseek & Hp1 & Hs1 & Hroom); try done;
    unfold bdev_read, bdev_write, usize_mul; st_run;
    rewrite checked_ok by (unfold in_usize, usize_max, EXT4_BLOCK_SIZE in *; lia);
    rewrite Hseek; rewrite checked_ok by (unfold in_usize, usize_max, EXT4_BLOCK_SIZE in *; lia);
    replace (count * EXT4_BLOCK_SIZE) with (0 + BLOCK_SIZE * Z.of_nat (Z.to_nat (8 * count)))
      by (unfold EXT4_BLOCK_SIZE, BLOCK_SIZE; lia);
    destruct Hs1 as (? & Hb1 & Hl1).
  - destruct (read_loop_run (Z.to_nat (8 * count)) fuel 0 buffer k1 d)
      as (k2 & d2 & -> & Hs2 & Hd2); [done|lia|].
    exists k2, d2. rewrite Hsame. split_and!; [|by eapply same_stream_trans|done].
    rewrite Z.add_0_l, Hb1, Hp1. unfold window. rewrite sub_sub; [done|..];
      unfold EXT4_BLOCK_SIZE, BLOCK_SIZE in *; lia.
  - destruct (write_loop_run (Z.to_nat (8 * count)) fuel 0 buffer k1 d)
      as (k2 & d2 & -> & Hs2 & Hd2); [done|lia|].
    exists k2, d2. split_and!; [done|by eapply same_stream_trans|].
    rewrite Hd2, Hb1, Hp1, !Z.add_0_l. unfold window. rewrite splice_sub; [done|..];
      rewrite ?sub_len; unfold EXT4_BLOCK_SIZE, BLOCK_SIZE in *; lia.
Qed.

(** The window after an access, and the rest of the device. *)
Lemma window_spliced k d k' d' image :
  bs_ok k d → same_stream k d k' d' → len image = bs_len k d →
  dev_bytes d' = splice (bs_base k) image (dev_bytes d) → window k' d' = image.
Proof.
  intros Hok (_ & Hb & Hl) Hi Hd. destruct (bs_window k d Hok) as (? & ? & ?).
  unfold window. rewrite Hb, Hl, Hd. replace (bs_base k) with (bs_base k + 0) at 2 by lia.
  rewrite sub_splice by lia. apply splice_all. rewrite sub_len; lia.
Qed.

Lemma image_do_len fuel o image :
  bdev_op_ok fuel (len image) o → len (image_do o image).2 = len image.
Proof.
  destruct o as [buffer id count|buffer id count]; simpl; [done|].
  intros ((? & ?) & ? & ? & ? & ?).
  apply splice_len; rewrite ?sub_len; unfold EXT4_BLOCK_SIZE in *; lia.
Qed.

(** Any sequence of accesses to blocks of the window returns what the array of
    blocks returns, and leaves the device with the new array in the window and
    everything else as it was. *)
Lemma bdev_run_refines fuel ops k d :
  bs_ok k d → Forall (bdev_op_ok fuel (bs_len k d)) ops →
  ∃ k' d', bdev_run fuel ops (k, d) =
      ((λ r, Ok (Some r)) <$> (image_run ops (window k d)).1, (k', d')) ∧
    same_stream k d k' d' ∧ window k' d' = (image_run ops (window k d)).2 ∧
    dev_bytes d' = splice (bs_base k) (image_run ops (window k d)).2 (dev_bytes d).
Proof.
  intros Hok Hops. remember (bs_len k d) as size eqn:Hsize. revert k d Hok Hsize.
  induction Hops as [|o ops Ho _ IH]; intros k d Hok ->; simpl.
  { exists k, d. split_and!; try done. unfold window. destruct (bs_window k d Hok) as (? & ? & ?).
    by rewrite splice_same. }
  destruct (bdev_do_refines fuel o k d Hok Ho) as (k1 & d1 & -> & Hs1 & Hd1).
  assert (Hi : len (image_do o (window k d)).2 = bs_len k d)
    by (rewrite <-(window_len k d Hok); apply (image_do_len fuel); by rewrite window_len).
  pose proof (window_spliced k d k1 d1 _ Hok Hs1 Hi Hd1) as Hw.
  destruct Hs1 as (Hok1 & Hb1 & Hl1).
  destruct (IH k1 d1 Hok1 (eq_sym Hl1)) as (k2 & d2 & -> & Hs2 & Hw2 & Hd2). rewrite Hw in *.
  destruct (image_do o (window k d)) as [r image]. simpl in *.
  destruct (image_run ops image) as [rs image'] eqn:Hrun. simpl in *. exists k2, d2.
  split_and!; [done|by eapply same_stream_trans; [|done]|done|].
  assert (Hi2 : len image' = bs_len k d).
  { destruct Hs2 as (Hok2 & _ & Hl2). rewrite <-Hw2, window_len by done. congruence. }
  destruct (bs_window k d Hok) as (? & ? & ?). pose proof (len_nonneg (dev_bytes d)).
  rewrite Hd2, Hb1, Hd1. apply list_eq. intros i.
  rewrite !lookup_splice by (rewrite ?splice_len; lia). rewrite Hi, Hi2. by case_bool_decide.
Qed.
End block_array.

Section ext4_devices.
Context `{OverflowChecks} {D DevError : Type}.
Context `{!BlockDevice D DevError, !BlockDeviceOk D DevError, !BlockDeviceReliable D DevError}.

(** C7: On a device that serves its blocks, a partition is the array of 4096-byte
    blocks that the ext4 driver takes it for: with eight rounds per block of fuel,
    every sequence of block reads and writes inside the partition returns, without
    an error and with the buffers that the array gives; afterwards the window of
    the partition holds the array, and no other byte of the device has changed. *)
Theorem partition_is_block_array fuel ops p (d : D) :
  on_device p d → Forall (bdev_op_ok fuel (part_size p)) ops →
  let array := f_bytes (part_file p d) in
  ∃ p' d', bdev_run fuel ops (p, d) = ((λ r, Ok (Some r)) <$> (image_run ops array).1, (p', d')) ∧
    f_bytes (part_file p' d') = (image_run ops array).2 ∧
    dev_bytes d' = splice (part_base p) (image_run ops array).2 (dev_bytes d).
Proof.
  intros Hp Hops. destruct (bdev_run_refines (DevError:=DevError) fuel ops p d)
    as (p' & d' & ? & ? & ? & ?); [done..|].
  by exists p', d'.
Qed.

(** The implementations for [Disk] and [Partition] agree: on a partition that
    starts at the first block and covers the device, every sequence of block
    accesses inside it returns the same results as on the whole disk and leaves
    the same bytes on the device. *)
Theorem disk_partition_agree fuel ops k p (d : D) :
  disk_ok k d → on_device p d → start_lba p = 0 → end_lba p = num_blocks d - 1 →
  Forall (bdev_op_ok fuel (part_size p)) ops →
  ∃ rs k' p' d1 d2, bdev_run fuel ops (k, d) = (rs, (k', d1)) ∧
    bdev_run fuel ops (p, d) = (rs, (p', d2)) ∧ dev_bytes d1 = dev_bytes d2 ∧
    Forall (λ r, is_ok r = true) rs.
Proof.
  intros Hk Hp Hs He Hops.
  assert (Hsize : len (dev_bytes d) = part_size p).
  { rewrite dev_bytes_len. destruct Hk as [_ ->]. unfold part_size. rewrite Hs, He. lia. }
  destruct (bdev_run_refines (DevError:=DevError) fuel ops p d)
    as (p' & d2 & Hp2 & _ & _ & Hd2); [done..|].
  destruct (bdev_run_refines (DevError:=DevError) fuel ops k d)
    as (k' & d1 & Hk1 & _ & _ & Hd1); [done|simpl; by rewrite Hsize|].
  assert (Hw : window p d = window k d).
  { unfold window; simpl. unfold part_base. by rewrite Hs, Hsize. }
  eexists _, k', p', d1, d2. rewrite Hk1, Hp2, Hd1, Hd2, Hw. split_and!; [done|done| |].
  - simpl. unfold part_base. by rewrite Hs.
  - by apply Forall_fmap, Forall_true.
Qed.

(** ** The end of the window *)
Lemma part_window_rest p n p' : 
  part_wf p → same_window (part_moved (part_chunk p n) p) p' → 0 ≤ n →
  part_size p' - p_position p' = part_size p - p_position p - part_chunk p n.
Proof. intros Hp (E1 & E2 & E3) Hn. simpl in *. unfold part_size. rewrite E1, E2, E3. lia. Qed.

(** While more bytes are wanted than the partition has left, the loops go on: at
    the end of the partition a round moves nothing. *)
Lemma read_loop_stuck fuel total to_read buffer p (d : D) :
  on_device p d → 0 ≤ total ≤ len buffer → in_usize (len buffer) →
  total + (part_size p - p_position p) < to_read →
  ∃ s', read_loop fuel total to_read buffer (p, d) = (Ok None, s').
Proof.
  revert total buffer p d. induction fuel as [|fuel IH]; intros total buffer p d Hp Ht Hfit Hto;
    pose proof Hp as (Hwf & Hb & _); pose proof Hwf as (_ & _ & ?); cbn [read_loop];
    rewrite (proj2 (Z.ltb_lt _ _)) by lia; [by eexists|]. st_run. rewrite slice_ok by lia.
  set (rem := sub total (len buffer - total) buffer).
  assert (Hrem : len rem = len buffer - total) by (apply sub_len; lia). unfold map_err. simpl.
  destruct (on_device_window p d Hp) as (? & ? & ?).
  pose proof (part_chunk_range p (len rem) Hwf (len_nonneg rem)).
  destruct (partition_read_one_run rem p d Hwf Hb)
    as [(p' & d' & -> & Hw & Hd & _)|(e & p' & d' & _ & _ & Hr & Hlt & _)];
    [|by destruct (part_not_refused p d)]. cbn beta iota.
  set (x := sub _ _ _). assert (Hx : len x = part_chunk p (len rem)) by (apply sub_len; lia).
  assert (len (splice 0 x rem) = len rem) by (apply splice_len; lia).
  rewrite copy_from_slice_ok by lia. unfold usize_add. rewrite checked_ok by (unfold in_usize in *; lia).
  assert (len (splice total (splice 0 x rem) buffer) = len buffer) by (apply splice_len; lia).
  apply IH; [|lia|congruence|rewrite (part_window_rest p (len rem)) by (done || lia); lia].
  eapply on_device_step; [done| |by destruct (part_moved_window _ _ _ Hw)|done].
  eapply same_window_wf, part_moved_wf; done || lia.
Qed.

Lemma write_loop_stuck fuel total to_write buffer p (d : D) :
  on_device p d → 0 ≤ total ≤ len buffer → in_usize (len buffer) →
  total + (part_size p - p_position p) < to_write →
  ∃ s', write_loop fuel total to_write buffer (p, d) = (Ok None, s').
Proof.
  revert total p d. induction fuel as [|fuel IH]; intros total p d Hp Ht Hfit Hto;
    pose proof Hp as (Hwf & Hb & _); pose proof Hwf as (_ & _ & ?); cbn [write_loop];
    rewrite (proj2 (Z.ltb_lt _ _)) by lia; [by eexists|]. st_run. rewrite slice_ok by lia.
  set (rem := sub total (len buffer - total) buffer).
  assert (Hrem : len rem = len buffer - total) by (apply sub_len; lia). unfold map_err. simpl.
  pose proof (part_chunk_range p (len rem) Hwf (len_nonneg rem)).
  destruct (partition_write_one_run rem p d Hwf Hb)
    as [(p' & d' & -> & Hw & Hd & _)|(e & p' & d' & _ & _ & Hr & Hlt & _)];
    [|by destruct (part_not_refused p d)]. cbn beta iota.
  unfold usize_add. rewrite checked_ok by (unfold in_usize in *; lia).
  apply IH; [|lia|done|rewrite (part_window_rest p (len rem)) by (done || lia); lia].
  eapply on_device_step; [done| |by destruct (part_moved_window _ _ _ Hw)|done].
  eapply same_window_wf, part_moved_wf; done || lia.
Qed.

(** An access of the ext4 driver that reaches past the end of its partition
    never returns, although the device works: at the end of the partition
    [read_one] and [write_one] report 0 bytes, and the loops of the block device go
    round without moving anything.  After any number of rounds they still run. *)
Theorem access_past_end_never_returns fuel buffer id count p (d : D) :
  on_device p d → 0 ≤ id < 2 ^ 32 → 0 < count < 2 ^ 32 → in_usize (len buffer) →
  part_size p < (id + count) * EXT4_BLOCK_SIZE →
  (∃ s', partition_read fuel buffer id count (p, d) = (Ok None, s')) ∧
  (∃ s', partition_write fuel buffer id count (p, d) = (Ok None, s')).
Proof.
  intros Hp ? ? Hfit Hend. pose proof Hp as (Hwf & Hb & He). pose proof Hwf as (? & ? & ?).
  set (pos := (id * EXT4_BLOCK_SIZE) `min` part_size p).
  assert (Hp' : on_device (mkPartition (p_disk p) (start_lba p) (end_lba p) pos) d).
  { split; [|done]. unfold part_wf, pos, part_size, EXT4_BLOCK_SIZE in *; simpl. lia. }
  pose proof (len_nonneg buffer).
  unfold partition_read, partition_write, bdev_read, bdev_write, usize_mul. st_run. simpl.
  unfold get_disk, set_disk. st_run. cbn [fst].
  rewrite checked_ok by (unfold in_usize, usize_max, EXT4_BLOCK_SIZE; lia).
  rewrite partition_set_position_run by done.
  rewrite checked_ok by (unfold in_usize, usize_max, EXT4_BLOCK_SIZE; lia). fold pos.
  split; [apply read_loop_stuck|apply write_loop_stuck]; try done; try lia;
    unfold pos, part_size, EXT4_BLOCK_SIZE in *; simpl; lia.
Qed.
End ext4_devices.

(** The same access through a whole disk fails. *)
Section disk_end.
Context `{OverflowChecks} {D DevError : Type}.
Context `{!BlockDevice D DevError, !BlockDeviceOk D DevError, !BlockDeviceReliable D DevError}.

Lemma disk_read_end buf k (d : D) :
  disk_ok k d → len (dev_bytes d) ≤ cursor k →
  ∃ e s', disk_read_one buf (k, d) = (Err e, s').
Proof.
  intros [Hk Hb] Hc. destruct (disk_read_one_run buf k d Hk Hb)
    as [(d' & _ & Hid & _)|(e & d' & Hr & _)]; [|by eauto].
  rewrite dev_bytes_len, Hb in Hc. unfold disk_wf, cursor, BLOCK_SIZE in *. lia.
Qed.

Lemma read_loop_fails n fuel total buffer k (d : D) :
  disk_ok k d → (BLOCK_SIZE | cursor k) → 0 ≤ cursor k → 0 ≤ total → in_usize (len buffer) →
  total + BLOCK_SIZE * Z.of_nat n ≤ len buffer →
  len (dev_bytes d) < cursor k + BLOCK_SIZE * Z.of_nat n → (n ≤ fuel)%nat → (n ≠ 0)%nat →
  ∃ s', read_loop fuel total (total + BLOCK_SIZE * Z.of_nat n) buffer (k, d) = (Err ReadError, s').
Proof.
  revert fuel total buffer k d.
  induction n as [|n IH]; intros fuel total buffer k d Hok Hp ? ? Hfit Hbuf Hend Hf Hn; [done|].
  destruct fuel as [|fuel]; [lia|]. cbn [read_loop].
  rewrite (proj2 (Z.ltb_lt _ _)) by blocks. st_run. rewrite slice_ok by blocks.
  set (rem := sub total (len buffer - total) buffer).
  assert (Hrem : len rem = len buffer - total) by (apply sub_len; blocks). unfold map_err.
  destruct (decide (len (dev_bytes d) ≤ cursor k)) as [Hc|Hc].
  { destruct (disk_read_end rem k d Hok Hc) as (e & s' & He). simpl. rewrite He. by exists s'. }
  assert (cursor k + BLOCK_SIZE ≤ len (dev_bytes d)) as Hin.
  { destruct Hok as [_ Hb]. pose proof (dev_bytes_len d) as Hl. rewrite Hb in Hl.
    destruct Hp as [q Hq]. unfold BLOCK_SIZE in *. lia. }
  destruct (bs_read_ok (DevError:=DevError) rem k d) as (k1 & d1 & -> & Hok1 & Hp1 & _ & _ & Hd1);
    [done|done|blocks|done|done|]. cbn beta iota. simpl in Hp1.
  set (x := sub _ BLOCK_SIZE (dev_bytes d)).
  assert (Hx : len x = BLOCK_SIZE) by (apply sub_len; simpl; blocks).
  assert (len (splice 0 x rem) = len rem) by (apply splice_len; blocks).
  rewrite copy_from_slice_ok by blocks. unfold usize_add. rewrite checked_ok by blocks.
  assert (len (splice total (splice 0 x rem) buffer) = len buffer) by (apply splice_len; blocks).
  replace (total + BLOCK_SIZE * Z.of_nat (S n)) with (total + BLOCK_SIZE + BLOCK_SIZE * Z.of_nat n)
    by blocks.
  apply IH; [done|..]; rewrite ?Hp1, ?Hd1; try blocks.
  apply Z.divide_add_r; [done|apply Z.divide_refl].
Qed.

Lemma disk_read_past_end_fails fuel buffer id count k (d : D) :
  disk_ok k d → 0 ≤ id < 2 ^ 32 → 0 < count < 2 ^ 32 → in_usize (len buffer) →
  count * EXT4_BLOCK_SIZE ≤ len buffer → 8 * count ≤ Z.of_nat fuel →
  len (dev_bytes d) < (id + count) * EXT4_BLOCK_SIZE →
  ∃ s', disk_read fuel buffer id count (k, d) = (Err ReadError, s').
Proof.
  intros [Hk Hb] ? ? Hfit Hbuf Hf Hend. unfold disk_read, bdev_read, usize_mul. st_run.
  rewrite checked_ok by (unfold in_usize, usize_max, EXT4_BLOCK_SIZE; lia).
  cbn -[read_loop disk_set_position Z.mul].
  rewrite checked_ok by (unfold in_usize, usize_max, EXT4_BLOCK_SIZE; lia).
  replace (count * EXT4_BLOCK_SIZE) with (0 + BLOCK_SIZE * Z.of_nat (Z.to_nat (8 * count)))
    by (unfold EXT4_BLOCK_SIZE, BLOCK_SIZE; lia).
  apply read_loop_fails; rewrite ?cursor_set_position; unfold EXT4_BLOCK_SIZE, BLOCK_SIZE in *;
    try done; try lia.
  - split; [apply disk_set_position_wf|done].
  - exists (8 * id). lia.
Qed.
End disk_end.

Module Ext4DevExamples.
Import RamDisk.

#[local] Instance checks : OverflowChecks := true.

(** A device of 17 sectors, and on it a partition of two blocks, one of a block and
    a half, and the whole. *)
Definition medium17 : list u8 := replicate (Z.to_nat 8704) x2e.
Definition two_blocks : Partition := partition_new (mkDisk 0 0) 1 16.
Definition block_and_half : Partition := partition_new (mkDisk 0 0) 0 11.
Definition all17 : Partition := partition_new (mkDisk 0 0) 0 16.
Definition block_a : list u8 := replicate (Z.to_nat 4096) x61.
Definition block_0 : list u8 := replicate (Z.to_nat 4096) x00.
Definition block_ops : list bdev_op := [BWrite block_a 1 1; BRead block_0 1 1].

Lemma placed start stop :
  0 ≤ start → start ≤ stop → stop ≤ 16 →
  on_device (DevError:=rd_error) (partition_new (mkDisk 0 0) start stop) medium17.
Proof.
  intros. split_and!; [|done|].
  - unfold part_wf, part_size, usize_max, BLOCK_SIZE; simpl. lia.
  - replace (num_blocks (DevError:=rd_error) medium17) with 17 by (vm_compute; reflexivity). simpl. lia.
Qed.

Lemma block_ops_ok size : 8192 ≤ size → Forall (bdev_op_ok 8 size) block_ops.
Proof.
  intros. assert (len block_a = 4096 ∧ len block_0 = 4096) as [Ha H0] by (vm_compute; done).
  unfold block_ops. repeat constructor; simpl; rewrite ?Ha, ?H0;
    unfold in_usize, usize_max, EXT4_BLOCK_SIZE; lia.
Qed.

Lemma partition_is_block_array_witness :
  let array := f_bytes (part_file two_blocks medium17) in
  ∃ p' d', bdev_run (DevError:=rd_error) 8 block_ops (two_blocks, medium17) =
      (Ok <$> [Some []; Some block_a], (p', d')) ∧
    f_bytes (part_file p' d') = (image_run block_ops array).2 ∧
    dev_bytes (DevError:=rd_error) d' =
      splice (part_base two_blocks) (image_run block_ops array).2 (dev_bytes medium17).
Proof.
  intros array.
  destruct (partition_is_block_array (DevError:=rd_error) 8 block_ops two_blocks medium17)
    as (p' & d' & Hr & Hf & Hd);
    [apply placed; lia|apply block_ops_ok; vm_compute; congruence|].
  exists p', d'. split_and!; [|exact Hf|exact Hd]. rewrite Hr. vm_compute. reflexivity.
Defined.

Lemma disk_partition_agree_witness :
  ∃ rs k' p' d1 d2,
    bdev_run (DevError:=rd_error) 8 block_ops (mkDisk 0 0, medium17) = (rs, (k', d1)) ∧
    bdev_run (DevError:=rd_error) 8 block_ops (all17, medium17) = (rs, (p', d2)) ∧
    dev_bytes (DevError:=rd_error) d1 = dev_bytes (DevError:=rd_error) d2 ∧
    Forall (λ r, is_ok r = true) rs.
Proof.
  apply (disk_partition_agree (DevError:=rd_error) 8 block_ops (mkDisk 0 0) all17 medium17).
  - by split.
  - apply placed; lia.
  - reflexivity.
  - vm_compute. reflexivity.
  - apply block_ops_ok. vm_compute. congruence.
Defined.

Lemma access_past_end_never_returns_witness :
  (∃ s', partition_read (DevError:=rd_error) 1000 block_0 1 1 (block_and_half, medium17) =
     (Ok None, s')) ∧
  (∃ s', partition_write (DevError:=rd_error) 1000 block_0 1 1 (block_and_half, medium17) =
     (Ok None, s')).
Proof.
  apply (access_past_end_never_returns (DevError:=rd_error) 1000 block_0 1 1 block_and_half medium17).
  - apply placed; lia.
  - lia.
  - lia.
  - vm_compute. split; congruence.
  - vm_compute. reflexivity.
Defined.
End Ext4DevExamples.
