(* ===== verification/Ext4Path.v ===== *)
(** * The paths of the ext4 nodes

    A node of the ext4 file system ([FileWrapper] of
    [modules/axfs/src/fs/ext4fs.rs]) is a path from the root of the file system.
    [path_deal_with] turns a path relative to the node into such a path: it calls
    itself until the text has no surrounding slashes, no leading ["./"] and no
    double slash.  The model has fuel for these calls; [path_deal_with] gives as
    much as the length of the path, and the theorems show that this is enough. *)

From Stdlib Require Import Ascii.
From S2P Require Import Prelude RustStr.

(** [s.replace("//", "/")], from the left and without overlaps. *)
Fixpoint replace_slashes (s : string) : string :=
  match s with
  | "" => ""
  | String a s' =>
      match s' with
      | "" => s
      | String b s'' =>
          if bool_decide (a = "/"%char) && bool_decide (b = "/"%char)
          then String a (replace_slashes s'')
          else String a (replace_slashes s')
      end
  end.

(** [s.trim_end_matches(p)] for a predicate that separates an ASCII character from
    all others. *)
Fixpoint trim_end_while (p : ascii → bool) (s : string) : string :=
  match s with
  | "" => ""
  | String a s' =>
      match trim_end_while p s' with
      | "" => if p a then "" else String a ""
      | t => String a t
      end
  end.

(** [None]: the calls are not finished. *)
Fixpoint path_calls (fuel : nat) (self_path path : string) : option string :=
  match fuel with
  | O => None
  | S fuel =>
      let trim_path := trim_matches "/" path in
      if str_is_empty trim_path || bool_decide (trim_path = ".") then Some self_path
      else match strip_prefix "./" trim_path with
      | Some rest => path_calls fuel self_path rest
      | None =>
          let rest_p := replace_slashes trim_path in
          if bool_decide (trim_path ≠ rest_p) then path_calls fuel self_path rest_p
          else
            let base_path := trim_end "/" self_path in
            if bool_decide (base_path = "/") then Some ("/" +:+ trim_path)
            else Some (base_path +:+ "/" +:+ trim_path)
      end
  end.

Definition path_deal_with (self_path path : string) : string :=
  default "" (path_calls (S (String.length path)) self_path path).

(** The path of [FileWrapper::parent]. *)
Definition parent_path (self_path : string) : option string :=
  let path := trim_end_while (λ c, negb (bool_decide (c = "/"%char))) (trim_end "/" self_path) in
  if str_is_empty path then None else Some path.

(** ** The reference: paths as sequences of components *)
Fixpoint comps_from (cur s : string) : list string :=
  match s with
  | "" => flush cur
  | String a s =>
      if bool_decide (a = "/"%char) then flush cur ++ comps_from "" s
      else comps_from (cur +:+ String a "") s
  end.

(** The non-empty parts between the slashes. *)
Definition comps (s : string) : list string := comps_from "" s.

Definition is_dot (c : string) : bool := bool_decide (c = ".").

(** What [path_deal_with] computes: leading components ["."] are skipped, the
    others are appended to the path of the node. *)
Definition resolve (self_path path : string) : string :=
  match drop_while is_dot (comps path) with
  | [] => self_path
  | cs => trim_end "/" self_path +:+ "/" +:+ str_join "/" cs
  end.

(** ** Components and the string operations *)
#[local] Arguments String.append !_ _ : simpl nomatch.

Lemma comps_from_cons cur a s :
  comps_from cur (String a s) =
  if bool_decide (a = "/"%char) then flush cur ++ comps_from "" s
  else comps_from (cur +:+ String a "") s.
Proof. done. Qed.

Lemma comps_slash s : comps (String "/" s) = comps s.
Proof. done. Qed.

Lemma comps_from_slash cur s t :
  comps_from cur (s +:+ "/" +:+ t) = comps_from cur s ++ comps t.
Proof.
  revert cur. induction s as [|a s IH]; intros cur; simpl; [done|].
  case_bool_decide; rewrite IH; [by rewrite app_assoc|done].
Qed.

Lemma comps_app s t : comps (s +:+ "/" +:+ t) = comps s ++ comps t.
Proof. apply comps_from_slash. Qed.

Lemma comps_trim_start s : comps (trim_start "/" s) = comps s.
Proof. induction s as [|a s IH]; simpl; [done|]. case_bool_decide; [subst; by rewrite IH|done]. Qed.

Lemma comps_from_trim_end cur s : comps_from cur (trim_end "/" s) = comps_from cur s.
Proof.
  revert cur. induction s as [|a s IH]; intros cur; simpl; [done|].
  destruct (trim_end "/" s) as [|b t] eqn:Ht.
  - case_bool_decide; simpl.
    + rewrite <-IH. simpl. by rewrite app_nil_r.
    + rewrite bool_decide_false by done. by rewrite <-IH.
  - by rewrite comps_from_cons, !IH.
Qed.

Lemma comps_trim_matches s : comps (trim_matches "/" s) = comps s.
Proof. unfold trim_matches, comps. rewrite comps_from_trim_end. apply comps_trim_start. Qed.

(** Induction that may skip a character. *)
Lemma string_ind2 (P : string → Prop) :
  P "" → (∀ a, P (String a "")) →
  (∀ a b s, P s → P (String b s) → P (String a (String b s))) → ∀ s, P s.
Proof.
  intros H0 H1 H2 s. cut (P s ∧ ∀ a, P (String a s)); [tauto|].
  induction s as [|b s [IH1 IH2]]; [by split|]. split; [done|]. intros a. by apply H2.
Qed.

Lemma replace_cons2 a b s :
  replace_slashes (String a (String b s)) =
  if bool_decide (a = "/"%char) && bool_decide (b = "/"%char) then String a (replace_slashes s)
  else String a (replace_slashes (String b s)).
Proof. done. Qed.

Lemma comps_replace cur s : comps_from cur (replace_slashes s) = comps_from cur s.
Proof.
  revert cur. induction s as [|a|a b s IH1 IH2] using string_ind2; intros cur; [done..|].
  rewrite replace_cons2. destruct (bool_decide (a = "/"%char) && bool_decide (b = "/"%char)) eqn:Hab.
  - apply andb_prop in Hab as [Ha%bool_decide_eq_true Hb%bool_decide_eq_true]. subst.
    cbn [comps_from]. rewrite !bool_decide_true by done. by rewrite IH1.
  - rewrite comps_from_cons, !IH2. done.
Qed.

Lemma replace_length s :
  (String.length (replace_slashes s) ≤ String.length s)%nat ∧
  (replace_slashes s ≠ s → (String.length (replace_slashes s) < String.length s)%nat).
Proof.
  induction s as [|a|a b s IH1 IH2] using string_ind2; [done..|]. rewrite replace_cons2.
  destruct (bool_decide (a = "/"%char) && bool_decide (b = "/"%char)).
  - cbn [String.length]. split; lia.
  - remember (replace_slashes (String b s)) as t eqn:Ht. cbn [String.length] in *.
    split; [lia|]. intros Hne. destruct IH2 as [_ IH2].
    assert (t ≠ String b s) as Hne2 by congruence. specialize (IH2 Hne2). lia.
Qed.

Lemma trim_start_length c s : (String.length (trim_start c s) ≤ String.length s)%nat.
Proof. induction s as [|a s IH]; simpl; [done|]. case_bool_decide; simpl; lia. Qed.

Lemma trim_end_length c s : (String.length (trim_end c s) ≤ String.length s)%nat.
Proof.
  induction s as [|a s IH]; simpl; [done|].
  destruct (trim_end c s); [case_bool_decide|]; simpl in *; lia.
Qed.

Lemma trim_matches_length c s : (String.length (trim_matches c s) ≤ String.length s)%nat.
Proof.
  unfold trim_matches. etrans; [apply trim_end_length|]. apply trim_start_length.
Qed.

Lemma trim_end_idem c s : trim_end c (trim_end c s) = trim_end c s.
Proof.
  induction s as [|a s IH]; simpl; [done|]. destruct (trim_end c s) as [|b t] eqn:Ht.
  - case_bool_decide; simpl; [done|]. by rewrite bool_decide_false.
  - cbn [trim_end] in IH |- *. by rewrite IH.
Qed.

(** The tail of a text without a slash at the end has none either. *)
Lemma trim_end_tail c a s :
  trim_end c (String a s) = String a s → trim_end c s = s ∧ (a = c → s ≠ "").
Proof.
  simpl. destruct (trim_end c s) as [|b t] eqn:Ht.
  - case_bool_decide; [done|]. intros [= <-]. by split.
  - intros [= <-]. by split.
Qed.

(** The tail of a text without double slashes. *)
Lemma replace_tail a s :
  replace_slashes (String a s) = String a s →
  replace_slashes s = s ∧ (a = "/"%char → ∀ t, s ≠ String "/" t).
Proof.
  destruct s as [|b s]; [done|]. rewrite replace_cons2.
  destruct (bool_decide (a = "/"%char) && bool_decide (b = "/"%char)) eqn:Hab.
  - intros [= Hr]. pose proof (replace_length s) as [Hl _]. rewrite Hr in Hl. simpl in Hl. lia.
  - intros [= Hr]. split; [done|]. intros -> t [= -> _]. by rewrite !bool_decide_true in Hab.
Qed.

Lemma str_join_cons sep c l : l ≠ [] → str_join sep (c :: l) = c +:+ sep +:+ str_join sep l.
Proof. by destruct l. Qed.

Lemma str_join_flush sep cur : str_join sep (flush cur) = cur.
Proof. by destruct cur. Qed.

(** A clean text is the sequence of its components. *)
Lemma join_comps_from cur s :
  replace_slashes s = s → trim_end "/" s = s → (cur = "" → ∀ t, s ≠ String "/" t) →
  str_join "/" (comps_from cur s) = cur +:+ s.
Proof.
  revert cur. induction s as [|a s IH]; intros cur Hr Ht Hc.
  { simpl. by rewrite str_join_flush, string_app_nil_r. }
  apply replace_tail in Hr as [Hr Hd]. apply trim_end_tail in Ht as [Ht Hn].
  rewrite comps_from_cons. case_bool_decide as Ha.
  - subst a. assert (cur ≠ "") as Hcur by (intros ->; by eapply Hc).
    assert (Hj : str_join "/" (comps_from "" s) = s) by (by apply IH; [..|intros _; apply Hd]).
    destruct cur as [|x cur]; [done|]. simpl app. rewrite str_join_cons, Hj; [done|].
    intros Hnil. rewrite Hnil in Hj. by apply Hn.
  - rewrite IH; [|done|done|by destruct cur]. by rewrite string_app_assoc.
Qed.

Lemma trim_start_head c s t : trim_start c s ≠ String c t.
Proof.
  induction s as [|a s IH]; simpl; [done|]. case_bool_decide; [done|]. by intros [= ].
Qed.

Lemma trim_end_head c s a t : trim_end c s = String a t → ∃ t', s = String a t'.
Proof.
  destruct s as [|b s]; simpl; [done|]. destruct (trim_end c s).
  - case_bool_decide; [done|]. intros [= -> _]. by eauto.
  - intros [= -> _]. by eauto.
Qed.

Lemma join_comps path :
  let t := trim_matches "/" path in replace_slashes t = t → str_join "/" (comps t) = t.
Proof.
  intros t Hr. apply join_comps_from; [done|apply trim_end_idem|].
  intros _ u Hu. apply trim_end_head in Hu as [t' Hu]. by apply trim_start_head in Hu.
Qed.

Lemma trim_end_not_slash s : trim_end "/" s ≠ "/".
Proof. intros Hs. pose proof (trim_end_idem "/" s) as Hi. by rewrite Hs in Hi. Qed.

Lemma drop_while_id {A} (p : A → bool) x l : p x = false → drop_while p (x :: l) = x :: l.
Proof. simpl. by intros ->. Qed.

(** A clean text that is not ["."] and does not start with ["./"] has a first
    component that is kept. *)
Lemma clean_comps path :
  let t := trim_matches "/" path in
  replace_slashes t = t → t ≠ "" → t ≠ "." → strip_prefix "./" t = None →
  drop_while is_dot (comps t) = comps t ∧ comps t ≠ [].
Proof.
  intros t Hr H0 Hdot Hs. pose proof (join_comps path Hr) as Hj. fold t in Hj.
  destruct (comps t) as [|c l] eqn:Hc; [by rewrite <-Hj in H0|]. split; [|done].
  apply drop_while_id. apply bool_decide_eq_false. intros ->. destruct l as [|c l].
  - by apply Hdot.
  - rewrite str_join_cons in Hj by done. rewrite <-Hj in Hs.
    by rewrite <-string_app_assoc, strip_prefix_app in Hs.
Qed.

Lemma path_calls_spec fuel self_path path :
  (String.length path < fuel)%nat →
  path_calls fuel self_path path = Some (resolve self_path path).
Proof.
  revert path. induction fuel as [|fuel IH]; intros path Hf; [lia|]. cbn [path_calls].
  assert (Hres : ∀ q, comps q = comps path → resolve self_path q = resolve self_path path)
    by (intros q Hq; unfold resolve; by rewrite Hq).
  pose proof (comps_trim_matches path) as Hc. pose proof (trim_matches_length "/" path).
  pose proof (clean_comps path) as Hclean. pose proof (join_comps path) as Hj.
  set (t := trim_matches "/" path) in *.
  destruct (decide (t = "")) as [Ht|Ht0].
  { rewrite Ht in *. simpl. unfold resolve. by rewrite <-Hc. }
  destruct (decide (t = ".")) as [Ht|Ht1].
  { rewrite Ht in *. simpl. unfold resolve. by rewrite <-Hc. }
  rewrite (bool_decide_false (t = ".")), orb_false_r by done.
  replace (str_is_empty t) with false by (by destruct t).
  destruct (strip_prefix "./" t) as [rest|] eqn:Hs.
  - apply strip_prefix_Some in Hs. rewrite Hs in *.
    rewrite IH by (simpl in *; lia). f_equal. unfold resolve. rewrite <-Hc.
    change ("./" +:+ rest) with ("." +:+ "/" +:+ rest). by rewrite comps_app.
  - case_bool_decide as Hr; simpl.
    + destruct (replace_length t) as [_ Hl]. specialize (Hl (not_eq_sym Hr)). rewrite IH by lia.
      f_equal. apply Hres. rewrite <-Hc. apply comps_replace.
    + destruct Hclean as [Hd Hn]; [done..|].
      rewrite bool_decide_false by apply trim_end_not_slash. f_equal.
      unfold resolve. rewrite <-Hc, Hd. specialize (Hj (eq_sym Hr)). destruct (comps t); [done|].
      by rewrite Hj.
Qed.

(** C38: [path_deal_with] ends for every path (as many calls as the path has
    characters, and one, are enough, and more change nothing) and it computes the
    resolution of the path by components: empty components and leading ["."] are
    skipped, and the others are appended to the path of the node. *)
Theorem path_deal_with_resolves self_path path :
  path_deal_with self_path path = resolve self_path path ∧
  ∀ fuel, (String.length path < fuel)%nat →
    path_calls fuel self_path path = Some (path_deal_with self_path path).
Proof.
  unfold path_deal_with. rewrite (path_calls_spec (S (String.length path))) by lia.
  split; [done|]. intros fuel Hf. by apply path_calls_spec.
Qed.

(** ** Paths in steps *)
Definition no_slash (c : string) : Prop := split_at_char "/" c = None.

(** A component: some text without slashes. *)
Definition is_comp (c : string) : Prop := c ≠ "" ∧ no_slash c.

Lemma no_slash_snoc cur a : no_slash cur → a ≠ "/"%char → no_slash (cur +:+ String a "").
Proof.
  unfold no_slash. intros Hc Ha. induction cur as [|b cur IH]; simpl in *.
  - by rewrite bool_decide_false.
  - case_bool_decide; [done|]. destruct (split_at_char "/" cur) as [[??]|]; [done|]. by rewrite IH.
Qed.

Lemma flush_comp cur : no_slash cur → Forall is_comp (flush cur).
Proof. intros. destruct cur; simpl; [constructor|]. by constructor. Qed.

Lemma comps_from_comp cur s : no_slash cur → Forall is_comp (comps_from cur s).
Proof.
  revert cur. induction s as [|a s IH]; intros cur Hc; [by apply flush_comp|].
  rewrite comps_from_cons. case_bool_decide.
  - apply Forall_app. split; [by apply flush_comp|by apply IH].
  - apply IH. by apply no_slash_snoc.
Qed.

Lemma comps_comp s : Forall is_comp (comps s).
Proof. by apply comps_from_comp. Qed.

Lemma drop_while_Forall {A} (P : A → Prop) p l : Forall P l → Forall P (drop_while p l).
Proof. intros Hl. induction Hl; simpl; [constructor|]. destruct (p x); [done|by constructor]. Qed.

Lemma trim_end_app c s t : trim_end c t ≠ "" → trim_end c (s +:+ t) = s +:+ trim_end c t.
Proof.
  intros Ht. induction s as [|a s IH]; [done|].
  change (String a s +:+ t) with (String a (s +:+ t)). cbn [trim_end]. rewrite IH.
  destruct s; simpl; [by destruct (trim_end c t)|done].
Qed.

Lemma trim_end_comp c : is_comp c → trim_end "/" c = c.
Proof.
  intros [_ Hc]. induction c as [|a c IH]; simpl; [done|]. unfold no_slash in *. simpl in Hc.
  case_bool_decide as Ha; [done|]. destruct (split_at_char "/" c) as [[??]|] eqn:Hs; [done|].
  rewrite IH by done. by destruct c.
Qed.

Lemma trim_end_join cs : cs ≠ [] → Forall is_comp cs → trim_end "/" (str_join "/" cs) = str_join "/" cs.
Proof.
  intros Hn Hc. induction Hc as [|c cs Hc Hcs IH]; [done|].
  destruct cs as [|c' cs]; [by apply trim_end_comp|]. rewrite str_join_cons by done.
  specialize (IH ltac:(done)). rewrite <-string_app_assoc, trim_end_app; rewrite IH; [done|].
  inversion_clear Hcs as [|? ? [Hne _] _]. destruct c'; [done|]. by destruct cs.
Qed.

Lemma str_join_nonempty cs : cs ≠ [] → Forall is_comp cs → str_join "/" cs ≠ "".
Proof.
  intros Hn Hc. destruct Hc as [|c l [Hne _] _]; [done|]. destruct c; [done|]. by destruct l.
Qed.

Lemma trim_end_path base cs :
  cs ≠ [] → Forall is_comp cs →
  trim_end "/" (base +:+ "/" +:+ str_join "/" cs) = base +:+ "/" +:+ str_join "/" cs.
Proof.
  intros Hn Hc. pose proof (str_join_nonempty cs Hn Hc). pose proof (trim_end_join cs Hn Hc) as Ht.
  rewrite <-string_app_assoc, trim_end_app; by rewrite Ht.
Qed.

Lemma str_join_app cs ds :
  cs ≠ [] → ds ≠ [] → str_join "/" (cs ++ ds) = str_join "/" cs +:+ "/" +:+ str_join "/" ds.
Proof.
  intros Hc Hd. induction cs as [|c cs IH]; [done|]. destruct cs as [|c' cs].
  - simpl app. by rewrite str_join_cons.
  - change ((c :: c' :: cs) ++ ds) with (c :: ((c' :: cs) ++ ds)).
    rewrite (str_join_cons _ _ (c' :: cs)) by done. rewrite str_join_cons, IH by done.
    by rewrite !string_app_assoc.
Qed.

(** Resolving a path in two steps, when the second does not start with ["."]. *)
Lemma resolve_steps self_path p q :
  drop_while is_dot (comps q) = comps q →
  resolve (resolve self_path p) q = resolve self_path (p +:+ "/" +:+ q).
Proof.
  intros Hq. unfold resolve. rewrite comps_app, Hq.
  assert (Happ : ∀ l k, drop_while is_dot (l ++ k) =
    match drop_while is_dot l with [] => drop_while is_dot k | l' => l' ++ k end).
  { intros l k. induction l as [|c l IH]; simpl; [done|]. by destruct (is_dot c). }
  rewrite Happ, Hq. pose proof (drop_while_Forall _ is_dot _ (comps_comp p)) as Hp.
  destruct (drop_while is_dot (comps p)) as [|c l]; [done|].
  destruct (comps q) as [|d k]; [by rewrite app_nil_r|].
  rewrite trim_end_path by done. destruct ((c :: l) ++ d :: k) eqn:Hl; [done|].
  rewrite <-Hl, str_join_app by done. by rewrite !string_app_assoc.
Qed.

Lemma trim_end_while_app p s t :
  trim_end_while p (s +:+ t) = 
  match trim_end_while p t with "" => trim_end_while p s | t' => s +:+ t' end.
Proof.
  induction s as [|a s IH]; simpl; [by destruct (trim_end_while p t)|].
  rewrite IH. destruct (trim_end_while p t); [done|]. by destruct s.
Qed.

Lemma trim_end_while_comp c : no_slash c → trim_end_while (λ c, negb (bool_decide (c = "/"%char))) c = "".
Proof.
  unfold no_slash. induction c as [|a c IH]; simpl; [done|]. case_bool_decide; [done|].
  destruct (split_at_char "/" c) as [[??]|]; [done|]. intros _. by rewrite IH.
Qed.

(** The parent of a node that was found by its name is the directory it was found
    in, and the name finds it there again. *)
Lemma parent_resolve self_path c :
  is_comp c → c ≠ "." →
  ∃ d, parent_path (resolve self_path c) = Some d ∧ d = trim_end "/" self_path +:+ "/" ∧
    resolve d c = resolve self_path c.
Proof.
  intros Hc Hdot. pose proof Hc as [Hne Hns].
  assert (Hcs : drop_while is_dot (comps c) = [c]).
  { assert (comps c = [c]) as ->; [|unfold is_dot; simpl; by rewrite bool_decide_false].
    unfold comps. cut (∀ cur, cur +:+ c ≠ "" → comps_from cur c = [cur +:+ c]); [intros Hg; by apply Hg|].
    clear -Hns. unfold no_slash in Hns. induction c as [|a c IH]; intros cur Hcur.
    - rewrite string_app_nil_r in *. by destruct cur.
    - simpl in Hns. rewrite comps_from_cons. case_bool_decide; [done|].
      destruct (split_at_char "/" c) as [[??]|] eqn:Hs; [done|]. rewrite IH; rewrite ?string_app_assoc; done. }
  assert (Ht : ∀ b, trim_end "/" (b +:+ "/" +:+ c) = b +:+ "/" +:+ c)
    by (intros b; apply (trim_end_path b [c]); [done|by constructor]).
  unfold resolve. rewrite Hcs. simpl str_join. unfold parent_path.
  rewrite Ht, <-string_app_assoc, trim_end_while_app, trim_end_while_comp by done.
  rewrite trim_end_while_app. simpl trim_end_while. cbn iota.
  exists (trim_end "/" self_path +:+ "/"). split_and!; [|done|].
  - by destruct (trim_end "/" self_path).
  - assert (Hb : ∀ b, trim_end "/" b = b → trim_end "/" (b +:+ "/") = b).
    { clear. induction b as [|a b IH]; simpl; [done|]. intros Hb.
      apply trim_end_tail in Hb as [Hb Hn]. rewrite IH by done. destruct b; [|done].
      rewrite bool_decide_false; [done|]. intros ->. by apply Hn. }
    rewrite Hb by apply trim_end_idem. by rewrite string_app_assoc.
Qed.
