(* ===== verification/Ext4Fs.v ===== *)
(** * The nodes of the ext4 file system

    [FileWrapper] of [modules/axfs/src/fs/ext4fs.rs] implements the trait
    [VfsNodeOps] on top of the crate [rsext4].  The crate is a parameter: its
    functions take a path and work on a world that holds the file system and its
    device ([Rsext4FileSystem] and [Jbd2Dev]).  The two variants of [Ext4Inner] (a
    whole disk, a partition) carry the same code for the two types of device; a
    node holds a handle to its device and to its file system that every call
    locks, so in the model they are the world.  Log messages are left out. *)

From Stdlib Require Import Ascii Strings.Byte.
From S2P Require Import Prelude RustStr Disk Vfs Ext4Path.

(** The functions of [rsext4] that the nodes call. *)
Class Rsext4 (W RsError Inode OpenFile : Type) : Type := {
  get_inode_with_num : string → st W RsError (option (Z * Inode));
  inode_is_dir : Inode → bool;
  inode_size : Inode → Z;
  inode_blocks_count : Inode → Z;
  rs_mkdir : string → st W RsError ();
  rs_mkfile : string → st W RsError ();
  rs_delete_dir : string → st W RsError ();
  rs_unlink : string → st W RsError ();
  rs_mv : string → string → st W RsError ();
  rs_truncate : string → Z → st W RsError ();
  rs_write_file : string → Z → list u8 → st W RsError ();
  rs_open : string → st W RsError OpenFile;
  rs_lseek : OpenFile → Z → OpenFile;
  rs_read_at : Z → st (OpenFile * W) RsError (list u8);
  (** The blocks of a directory, in the order of the directory. *)
  resolve_inode_block_allextend : Inode → st W RsError (list Z);
  datablock_get_or_load : Z → st W RsError (list u8);
  (** The entries that the blocks hold: name, when it is text, and type. *)
  list_entries : list u8 → list (option string * Z);
}.

Section ext4fs.
Context {W RsError Inode OpenFile : Type} `{!Rsext4 W RsError Inode OpenFile}.
Context (dirent_new : string → VfsNodeType → VfsDirEntry).

(** [OpenFile] of the node is opened by the first read. *)
Record FileWrapper : Type := mkWrapper {
  w_path : string;
  w_file : option OpenFile;
}.

Definition wrapper_new (path : string) : FileWrapper := mkWrapper path None.

Definition ext4_root_dir : FileWrapper := wrapper_new "/".

(** [r.map_err(|_| VfsError::Io)?] *)
Definition io_err {S A} (m : st S RsError A) : st S AxError A := λ s,
  match m s with
  | (Ok a, s) => (Ok a, s)
  | (Err _, s) => (Err Io, s)
  | (Panic, s) => (Panic, s)
  end.

(** A call whose result is dropped. *)
Definition ignore {S E E' A} (m : st S E A) : st S E' () := attempt m;; mret tt.

Definition ext4_get_attr (self : FileWrapper) : st W AxError VfsNodeAttr :=
  found ← io_err (get_inode_with_num (w_path self));
  '(_, inode) ← lift (ok_or found NotFound);
  let vtype := if inode_is_dir inode then Dir else File in
  mret (mkAttr 493 vtype (inode_size inode) (inode_blocks_count inode)).

Definition ext4_create (self : FileWrapper) (path : string) (ty : VfsNodeType) : st W AxError () :=
  let fpath := path_deal_with (w_path self) path in
  if str_is_empty fpath then mret tt
  else
    match ty with
    | Dir => ignore (rs_mkdir fpath)
    | _ => ignore (rs_mkfile fpath)
    end;;
    mret tt.

Definition ext4_remove (self : FileWrapper) (path : string) : st W AxError () :=
  let fpath := path_deal_with (w_path self) path in
  if str_is_empty fpath then panic
  else
    found ← io_err (get_inode_with_num fpath);
    '(_, inode) ← lift (ok_or found NotFound);
    (if inode_is_dir inode then ignore (rs_delete_dir fpath) else ignore (rs_unlink fpath));;
    mret tt.

Definition ext4_parent (self : FileWrapper) : option FileWrapper :=
  wrapper_new <$> parent_path (w_path self).

(** The loop that loads the blocks of a directory. *)
Fixpoint load_blocks (blocks : list Z) (data : list u8) : st W AxError (list u8) :=
  match blocks with
  | [] => mret data
  | phys_block :: blocks =>
      cached ← io_err (datablock_get_or_load phys_block);
      load_blocks blocks (data ++ cached)
  end.

(** The map from names to types that the entries fill. *)
Definition unique_entries (entries : list (option string * Z)) : gmap string Z :=
  foldl (λ unique '(name, file_type),
    match name with
    | Some name =>
        if bool_decide (name ≠ ".") && bool_decide (name ≠ "..") then <[name := file_type]> unique
        else unique
    | None => unique
    end) ∅ entries.

(** Writes the entries into the buffer as far as it goes; returns the number
    written. *)
Fixpoint put_entries (shown : list (string * Z)) (dirents : list VfsDirEntry) :
    Z * list VfsDirEntry :=
  match shown, dirents with
  | (name, file_type) :: shown, _ :: dirents =>
      let ty := if file_type =? 2 then Dir else File in
      let '(count, dirents) := put_entries shown dirents in
      (count + 1, dirent_new name ty :: dirents)
  | _, _ => (0, dirents)
  end.

Definition ext4_read_dir (self : FileWrapper) (start_idx : Z) (dirents : list VfsDirEntry) :
    st W AxError (Z * list VfsDirEntry) :=
  found ← io_err (get_inode_with_num (w_path self));
  '(_, inode) ← lift (ok_or found NotFound);
  if negb (inode_is_dir inode) then throw Unsupported
  else
    blocks ← io_err (resolve_inode_block_allextend inode);
    data ← load_blocks blocks [];
    let unique_vec := btree_iter (unique_entries (list_entries data)) in
    mret (put_entries (drop (Z.to_nat start_idx) unique_vec) dirents).

Definition ext4_lookup (self : FileWrapper) (path : string) : st W AxError FileWrapper :=
  let fpath := path_deal_with (w_path self) path in
  if str_is_empty fpath then mret self
  else
    found ← io_err (get_inode_with_num fpath);
    if bool_decide (is_Some found) then mret (wrapper_new fpath) else throw NotFound.

(** Runs code on the world of a node. *)
Definition on_world {E A} (m : st W E A) : st (FileWrapper * W) E A := λ '(n, w),
  let '(r, w) := m w in (r, (n, w)).

Definition set_file (file : option OpenFile) : st (FileWrapper * W) AxError () :=
  modify (λ '(n, w), (mkWrapper (w_path n) file, w)).

(** The first read opens the file; a file that cannot be opened stays closed. *)
Definition ext4_read_at (offset : Z) (buf : list u8) :
    st (FileWrapper * W) AxError (Z * list u8) :=
  self ← gets fst;
  match w_file self with
  | None => file ← on_world (attempt (rs_open (w_path self))); set_file file
  | Some _ => mret tt
  end;;
  self ← gets fst;
  match w_file self with
  | Some file =>
      data ← (λ '(n, w),
        let '(r, (file, w)) := io_err (rs_read_at (len buf)) (rs_lseek file offset, w) in
        (r, (mkWrapper (w_path n) (Some file), w)));
      let n := len data `min` len buf in
      src ← lift (slice 0 n data);
      buf ← lift (copy_from_slice 0 n src buf);
      mret (n, buf)
  | None => throw NotFound
  end.

Definition ext4_write_at (self : FileWrapper) (offset : Z) (buf : list u8) : st W AxError Z :=
  io_err (rs_write_file (w_path self) offset buf);;
  mret (len buf).

Definition ext4_truncate (self : FileWrapper) (size : Z) : st W AxError () :=
  ignore (rs_truncate (w_path self) size);;
  mret tt.

Definition ext4_rename (self : FileWrapper) (src_path dst_path : string) : st W AxError () :=
  let src_fpath := path_deal_with (w_path self) src_path in
  let dst_fpath := path_deal_with (w_path self) dst_path in
  ignore (rs_mv src_fpath dst_fpath);;
  mret tt.
End ext4fs.

(** ** Listings *)
Section ext4_listing.
Context {W RsError Inode OpenFile : Type} `{!Rsext4 W RsError Inode OpenFile}.
Context (dirent_new : string → VfsNodeType → VfsDirEntry).

Definition ext4_dirent (e : string * Z) : VfsDirEntry :=
  dirent_new e.1 (if e.2 =? 2 then Dir else File).

(** The listing of a directory whose blocks hold [data]. *)
Definition ext4_entries (data : list u8) : list (string * Z) :=
  btree_iter (unique_entries (list_entries data)).

Lemma put_entries_page shown dirents :
  put_entries dirent_new shown dirents =
    (len shown `min` len dirents,
     (ext4_dirent <$> take (length dirents) shown) ++ drop (length shown) dirents).
Proof.
  revert dirents. induction shown as [|[name ft] shown IH]; intros [|d dirents];
    cbn [put_entries]; [done..|]. rewrite IH. f_equal. unfold len. simpl. lia.
Qed.

Lemma page_put start data dirents :
  0 ≤ start →
  put_entries dirent_new (drop (Z.to_nat start) (ext4_entries data)) dirents =
    page start (ext4_dirent <$> ext4_entries data) dirents.
Proof.
  intros Hs. rewrite put_entries_page, page_eq by done. rewrite <-fmap_drop, <-fmap_take.
  by unfold len; rewrite !length_fmap.
Qed.

(** The directory at [path] can be read, and holds [data], as long as [I] holds. *)
Record holds_dir (path : string) (I : W → Prop) (data : list u8) : Prop := {
  hd_inode w : I w → ∃ num inode blocks w1 w2 w3,
    get_inode_with_num path w = (Ok (Some (num, inode)), w1) ∧ inode_is_dir inode = true ∧
    resolve_inode_block_allextend inode w1 = (Ok blocks, w2) ∧
    load_blocks blocks [] w2 = (Ok data, w3) ∧ I w3;
}.

Lemma unique_entries_no_dots es name ty :
  unique_entries es !! name = Some ty → name ≠ "." ∧ name ≠ ".." ∧ (Some name, ty) ∈ es.
Proof.
  unfold unique_entries.
  cut (∀ m : gmap string Z, (∀ name ty, m !! name = Some ty →
         name ≠ "." ∧ name ≠ ".." ∧ (Some name, ty) ∈ es) →
       ∀ es', es' ⊆ es → foldl (λ unique '(name, file_type),
         match name with
         | Some name =>
             if bool_decide (name ≠ ".") && bool_decide (name ≠ "..")
             then <[name := file_type]> unique else unique
         | None => unique
         end) m es' !! name = Some ty → name ≠ "." ∧ name ≠ ".." ∧ (Some name, ty) ∈ es).
  { intros Hcut. apply (Hcut ∅); done. }
  intros m Hm es'. revert m Hm. induction es' as [|[o t] es' IH]; intros m Hm Hsub; [by apply Hm|].
  simpl. apply IH; [|set_solver]. destruct o as [n|]; [|done].
  destruct (bool_decide (n ≠ ".") && bool_decide (n ≠ "..")) eqn:Hn; [|done].
  apply andb_prop in Hn as [H1%bool_decide_eq_true H2%bool_decide_eq_true].
  intros n' t' [[<- <-]|[_ Hl]]%lookup_insert_Some; [|by apply Hm].
  split_and!; [done..|]. apply Hsub. by left.
Qed.

(** A directory of the ext4 file system serves a fixed listing in pages, as
    [ReadDir] reads it: the names are those of the entries in its blocks, each
    once (the last entry counts), in the order of their bytes, without [.] and
    [..], and no page skips or repeats one. *)
Theorem ext4_directory_serves self I data :
  holds_dir (w_path self) I data →
  serves (ext4_read_dir dirent_new self) I (ext4_dirent <$> ext4_entries data) ∧
  NoDup (ext4_entries data).*1 ∧ StronglySorted entry_le (ext4_entries data) ∧
  ∀ name ty, (name, ty) ∈ ext4_entries data →
    name ≠ "." ∧ name ≠ ".." ∧ (Some name, ty) ∈ list_entries data.
Proof.
  intros [Hd]. split_and!.
  - intros start dirents w Hs Hw.
    destruct (Hd w Hw) as (num & inode & blocks & w1 & w2 & w3 & Hi & Hdir & Hb & Hl & Hw3).
    exists w3. split; [|done]. unfold ext4_read_dir, io_err. st_run.
    rewrite Hi. cbn. rewrite Hdir. cbn. rewrite Hb, Hl. f_equal. f_equal. by apply page_put.
  - apply btree_iter_nodup.
  - apply btree_iter_sorted.
  - intros name ty Hin%elem_of_btree_iter. by apply unique_entries_no_dots.
Qed.
End ext4_listing.

(** ** Moving around *)
Section ext4_navigation.
Context {W RsError Inode OpenFile : Type} `{!Rsext4 W RsError Inode OpenFile}.

Lemma path_deal_with_eq self_path path : path_deal_with self_path path = resolve self_path path.
Proof. unfold path_deal_with. by rewrite path_calls_spec by lia. Qed.

Lemma resolve_empty self_path path : resolve self_path path = "" → self_path = "".
Proof. unfold resolve. destruct (drop_while _ _); [done|]. by destruct (trim_end "/" self_path). Qed.

Lemma ext4_lookup_ok (n m : FileWrapper) path (w w' : W) :
  ext4_lookup n path w = (Ok m, w') →
  w_path m = resolve (w_path n) path ∧ (resolve (w_path n) path = "" → m = n).
Proof.
  unfold ext4_lookup. rewrite path_deal_with_eq.
  destruct (resolve (w_path n) path) eqn:Hr; simpl.
  - intros [= <- <-]. apply resolve_empty in Hr. by rewrite Hr.
  - st_run. destruct (io_err _ w) as [[found|e|] w1]; [|done..]. case_bool_decide; [|done].
    intros [= <- <-]. done.
Qed.

(** Looking up a path in steps is looking it up at once: the node that [p]
    leads to finds under [q] what the first node finds under [p/q] (when [q] does
    not start with [.]); and the parent of a node that was found by its name finds
    it under that name again. *)
Theorem ext4_lookup_in_steps (n m : FileWrapper) p (w w' : W) :
  ext4_lookup n p w = (Ok m, w') →
  (∀ q, drop_while is_dot (comps q) = comps q →
    ext4_lookup m q w' = ext4_lookup n (p +:+ "/" +:+ q) w') ∧
  (is_comp p → p ≠ "." → ∃ d, ext4_parent m = Some d ∧
    path_deal_with (w_path d) p = path_deal_with (w_path n) p).
Proof.
  intros Hm. apply ext4_lookup_ok in Hm as [Hp Hn]. split.
  - intros q Hq. unfold ext4_lookup. rewrite !path_deal_with_eq, <-resolve_steps, Hp by done.
    destruct (resolve (resolve (w_path n) p) q) eqn:Hr; [|done]. cbn.
    rewrite Hn; [done|]. by eapply resolve_empty.
  - intros Hc Hdot. destruct (parent_resolve (w_path n) p Hc Hdot) as (d & Hd & _ & Hr).
    exists (wrapper_new d). unfold ext4_parent. rewrite Hp, Hd. split; [done|].
    by rewrite !path_deal_with_eq.
Qed.

(** The operations that change an ext4 file system report success when the
    driver fails: [create], [rename] and [truncate] drop the result of the driver,
    and [remove] drops it for a node that exists. *)
Theorem ext4_failures_are_silent (self : FileWrapper) path path' ty size e (w w1 w' : W) :
  let target := path_deal_with (w_path self) path in
  target ≠ "" →
  ((if bool_decide (ty = Dir) then rs_mkdir target else rs_mkfile target) w = (Err e, w') →
     ext4_create self path ty w = (Ok (), w')) ∧
  (rs_mv target (path_deal_with (w_path self) path') w = (Err e, w') →
     ext4_rename self path path' w = (Ok (), w')) ∧
  (rs_truncate (w_path self) size w = (Err e, w') → ext4_truncate self size w = (Ok (), w')) ∧
  (∀ num inode, get_inode_with_num target w = (Ok (Some (num, inode)), w1) →
     (if inode_is_dir inode then rs_delete_dir target else rs_unlink target) w1 = (Err e, w') →
     ext4_remove self path w = (Ok (), w')).
Proof.
  intros target Ht. assert (str_is_empty target = false) as He by (by destruct target).
  split_and!.
  - intros Hf. unfold ext4_create. fold target. rewrite He.
    unfold ignore, attempt. st_run. case_bool_decide as Hd; [subst; by rewrite Hf|].
    destruct ty; try done; by rewrite Hf.
  - intros Hf. unfold ext4_rename, ignore, attempt. st_run. fold target. by rewrite Hf.
  - intros Hf. unfold ext4_truncate, ignore, attempt. st_run. by rewrite Hf.
  - intros num inode Hi Hf. unfold ext4_remove, io_err, ignore, attempt. fold target. rewrite He.
    clearbody target. st_run. rewrite Hi. cbn. destruct (inode_is_dir inode); by rewrite Hf.
Qed.
End ext4_navigation.

(** ** A small driver

    Directories and files by path; an entry of a directory is one byte of its
    block, the name; creating what exists, and moving, removing or truncating what
    does not, fails. *)
Module TinyExt4.
Definition tiny_inode : Type := bool * list u8.
Definition tiny_ext4 : Type := gmap string tiny_inode.

Definition present {A} (path : string) (k : tiny_inode → tiny_ext4 → tiny_ext4) (a : A) :
    st tiny_ext4 () A := λ w,
  match w !! path with Some i => (Ok a, k i w) | None => (Err tt, w) end.

Definition absent (path : string) (i : tiny_inode) : st tiny_ext4 () () := λ w,
  match w !! path with Some _ => (Err tt, w) | None => (Ok (), <[path := i]> w) end.

#[export] Instance tiny_rsext4 : Rsext4 tiny_ext4 () tiny_inode string := {|
  get_inode_with_num path := λ w, (Ok ((λ i, (0, i)) <$> w !! path), w);
  inode_is_dir i := i.1;
  inode_size i := len i.2;
  inode_blocks_count _ := 1;
  rs_mkdir path := absent path (true, []);
  rs_mkfile path := absent path (false, []);
  rs_delete_dir path := present path (λ _, delete path) tt;
  rs_unlink path := present path (λ _, delete path) tt;
  rs_mv src dst := present src (λ i w, <[dst := i]> (delete src w)) tt;
  rs_truncate path size := present path (λ i, <[path := (i.1, take (Z.to_nat size) i.2)]>) tt;
  rs_write_file path off data := present path (λ i, <[path := (i.1, splice off data i.2)]>) tt;
  rs_open path := present path (λ _, id) path;
  rs_lseek f _ := f;
  rs_read_at n := λ '(f, w), (Ok (default [] (snd <$> w !! f)), (f, w));
  resolve_inode_block_allextend i := mret (Z.of_nat <$> seq 0 (if i.1 then 1 else 0));
  datablock_get_or_load _ := λ w, (Ok (default [] (snd <$> w !! "/d")), w);
  list_entries data := (λ b, (Some (String (ascii_of_byte (u8_val b)) ""), 1)) <$> data;
|}.
End TinyExt4.

Module Ext4Examples.
Import TinyExt4.

Definition tree : tiny_ext4 :=
  {["/" := (true, []); "/d" := (true, [x63; x61; x2e; x63]); "/d/a" := (false, [x61])]}.
Definition entry (name : string) (ty : VfsNodeType) : VfsDirEntry := mkDirEntry ty name.
Definition dir_d : FileWrapper (OpenFile:=string) := wrapper_new "/d".

Lemma d_holds : holds_dir (W:=tiny_ext4) (w_path dir_d) (λ w, w = tree) [x63; x61; x2e; x63].
Proof.
  split. intros w ->. eexists 0, (true, [x63; x61; x2e; x63]), [0], tree, tree, tree. 
  split_and!; try reflexivity. 
Qed.

Lemma ext4_directory_serves_witness :
  (∃ w', ext4_read_dir (W:=tiny_ext4) entry dir_d 0 [mkDirEntry File ""] tree =
     (Ok (1, [entry "a" File]), w')) ∧
  NoDup (ext4_entries (W:=tiny_ext4) [x63; x61; x2e; x63]).*1.
Proof.
  destruct (ext4_directory_serves (W:=tiny_ext4) entry dir_d (λ w, w = tree)
    [x63; x61; x2e; x63] d_holds) as (Hs & Hn & _ & _).
  split; [|exact Hn].
  destruct (Hs 0 [mkDirEntry File ""] tree) as (w' & Hr & _); [lia|reflexivity|].
  exists w'. rewrite Hr. vm_compute. reflexivity.
Defined.

Lemma ext4_lookup_in_steps_witness :
  (∀ q, drop_while is_dot (comps q) = comps q →
    ext4_lookup (W:=tiny_ext4) dir_d q tree =
    ext4_lookup (W:=tiny_ext4) ext4_root_dir ("d" +:+ "/" +:+ q) tree) ∧
  (is_comp "d" → "d" ≠ "." → ∃ d, ext4_parent dir_d = Some d ∧
    path_deal_with (w_path d) "d" = path_deal_with (w_path (ext4_root_dir (OpenFile:=string))) "d").
Proof.
  apply (ext4_lookup_in_steps (W:=tiny_ext4) ext4_root_dir dir_d "d" tree tree).
  vm_compute. reflexivity.
Defined.

Lemma ext4_failures_are_silent_witness :
  ext4_create (W:=tiny_ext4) (wrapper_new (OpenFile:=string) "/") "d" Dir tree = (Ok (), tree).
Proof.
  destruct (ext4_failures_are_silent (W:=tiny_ext4) (wrapper_new "/") "d" "e" Dir 0 tt tree tree tree)
    as [Hc _]; [vm_compute; congruence|]. apply Hc. vm_compute. reflexivity.
Defined.
End Ext4Examples.
