(* ===== verification/FatDev.v ===== *)
(** * Disks and partitions as devices of the FAT driver

    [modules/axfs/src/fs/fatfs.rs] implements the traits [Read], [Write] and [Seek]
    of the crate [fatfs] for [PartitionWrapper] and for [Disk], with the same text.
    A read or a write goes on until the buffer is used up or the stream moves
    nothing.  Every round that goes on shortens the buffer, so the length of the
    buffer is enough fuel for the loops ([None] says that it was not). *)

From Stdlib Require Import Strings.Byte.
From S2P Require Import Prelude Disk Stream.

Section fat_stream.
Context `{OverflowChecks} {K D DevError : Type} `{!BlockStream K D DevError}.

(** [filled] is the part of the buffer that the loop has left behind. *)
Fixpoint fat_read_loop (fuel : nat) (filled buf : list u8) (read_len : Z) :
    st (K * D) () (option (Z * list u8)) :=
  if is_empty buf then mret (Some (read_len, filled))
  else match fuel with
  | O => mret None
  | S fuel =>
      '(n, buf) ← map_err tt (bs_read_one buf);
      if n =? 0 then mret (Some (read_len, filled ++ buf))
      else
        rest ← lift (slice n (len buf) buf);
        read_len ← lift (usize_add read_len n);
        fat_read_loop fuel (filled ++ sub 0 n buf) rest read_len
  end.

Fixpoint fat_write_loop (fuel : nat) (buf : list u8) (write_len : Z) :
    st (K * D) () (option Z) :=
  if is_empty buf then mret (Some write_len)
  else match fuel with
  | O => mret None
  | S fuel =>
      n ← map_err tt (bs_write_one buf);
      if n =? 0 then mret (Some write_len)
      else
        buf ← lift (slice n (len buf) buf);
        write_len ← lift (usize_add write_len n);
        fat_write_loop fuel buf write_len
  end.

Definition fat_read (buf : list u8) : st (K * D) () (option (Z * list u8)) :=
  fat_read_loop (length buf) [] buf 0.

Definition fat_write (buf : list u8) : st (K * D) () (option Z) :=
  fat_write_loop (length buf) buf 0.

Definition fat_seek (pos : SeekFrom) : st (K * D) () Z :=
  size ← bs_size;
  new_pos ← (match pos with
             | SeekStart pos => mret (Some pos)
             | SeekCurrent off => cur ← bs_position; mret (checked_add_signed cur off)
             | SeekEnd off => mret (checked_add_signed size off)
             end);
  new_pos ← lift (ok_or new_pos tt);
  bs_set_position new_pos;;
  mret new_pos.
End fat_stream.

(** ** The two implementations *)
Section implementations.
Context `{OverflowChecks} {D DevError : Type} `{!BlockDevice D DevError}.

Definition wrapper_read : list u8 → st (Partition * D) () (option (Z * list u8)) := fat_read.
Definition wrapper_write : list u8 → st (Partition * D) () (option Z) := fat_write.
Definition wrapper_seek : SeekFrom → st (Partition * D) () Z := fat_seek.

Definition disk_fat_read : list u8 → st (Disk * D) () (option (Z * list u8)) := fat_read.
Definition disk_fat_write : list u8 → st (Disk * D) () (option Z) := fat_write.
Definition disk_fat_seek : SeekFrom → st (Disk * D) () Z := fat_seek.
End implementations.

(** ** A partition is a file for the FAT driver

    The specification: bytes of fixed size with a position.  A read or a write
    moves as much as there is; a seek returns the position that was asked for, and
    goes there or to the end. *)
Inductive fat_op : Type :=
| FatRead (buf : list u8)
| FatWrite (buf : list u8)
| FatSeek (pos : SeekFrom).

Definition fat_result : Type := outcome () (option (Z * list u8)).

Definition stream_do (o : fat_op) (f : file) : fat_result * file :=
  let bytes := f_bytes f in
  let rest := len bytes - f_pos f in
  match o with
  | FatRead buf =>
      let n := len buf `min` rest in
      (Ok (Some (n, splice 0 (sub (f_pos f) n bytes) buf)), mkFile bytes (f_pos f + n))
  | FatWrite buf =>
      let n := len buf `min` rest in
      (Ok (Some (n, [])), mkFile (splice (f_pos f) (sub 0 n buf) bytes) (f_pos f + n))
  | FatSeek p =>
      let target := match p with
                    | SeekStart q => Some q
                    | SeekCurrent off => checked_add_signed (f_pos f) off
                    | SeekEnd off => checked_add_signed (len bytes) off
                    end in
      match target with
      | Some q => (Ok (Some (q, [])), mkFile bytes (q `min` len bytes))
      | None => (Err tt, f)
      end
  end.

Fixpoint stream_run (ops : list fat_op) (f : file) : list fat_result * file :=
  match ops with
  | [] => ([], f)
  | o :: ops =>
      let '(r, f) := stream_do o f in
      let '(rs, f) := stream_run ops f in (r :: rs, f)
  end.

(** Buffers have lengths, and seek targets are [u64]. *)
Definition fat_op_ok (o : fat_op) : Prop :=
  match o with
  | FatRead buf | FatWrite buf => in_usize (len buf)
  | FatSeek (SeekStart pos) => in_usize pos
  | FatSeek _ => True
  end.

Section fat_partition.
Context `{OverflowChecks} {D DevError : Type}.
Context `{!BlockDevice D DevError, !BlockDeviceOk D DevError, !BlockDeviceReliable D DevError}.

Definition fat_do (o : fat_op) : st (Partition * D) () (option (Z * list u8)) :=
  match o with
  | FatRead buf => wrapper_read buf
  | FatWrite buf => n ← wrapper_write buf; mret ((λ n, (n, [])) <$> n)
  | FatSeek pos => n ← wrapper_seek pos; mret (Some (n, []))
  end.

(** A caller may go on after an error. *)
Fixpoint fat_run (ops : list fat_op) (s : Partition * D) : list fat_result * (Partition * D) :=
  match ops with
  | [] => ([], s)
  | o :: ops =>
      let '(r, s) := fat_do o s in
      let '(rs, s) := fat_run ops s in (r :: rs, s)
  end.

Lemma file_chunk_zero f n :
  0 < n → 0 ≤ f_pos f ≤ len (f_bytes f) → file_chunk f n = 0 → f_pos f = len (f_bytes f).
Proof.
  unfold file_chunk. intros ? ? Hz. destruct (decide (f_pos f = len (f_bytes f))); [done|].
  pose proof (chunk_pos (f_pos f) (n `min` (len (f_bytes f) - f_pos f))). lia.
Qed.

Lemma file_chunk_le f n :
  0 ≤ n → 0 ≤ f_pos f ≤ len (f_bytes f) →
  0 ≤ file_chunk f n ≤ n `min` (len (f_bytes f) - f_pos f).
Proof. intros. apply chunk_range. lia. Qed.

Lemma part_file_pos p d : on_device p d →
  0 ≤ f_pos (part_file p d) ≤ len (f_bytes (part_file p d)) ∧ in_usize (len (f_bytes (part_file p d))).
Proof.
  intros Hp. rewrite part_file_len by done. destruct Hp as ((? & ? & ?) & _). split; [done|].
  unfold in_usize, part_size, BLOCK_SIZE in *. lia.
Qed.

Lemma sub_0 {A} lo (l : list A) : sub lo 0 l = [].
Proof. done. Qed.

(** The parts of a buffer whose front was filled. *)
Lemma splice_parts {A} (x buf : list A) :
  len x ≤ len buf →
  sub (len x) (len buf - len x) (splice 0 x buf) = drop (Z.to_nat (len x)) buf ∧
  sub 0 (len x) (splice 0 x buf) = x.
Proof.
  intros. rewrite splice_0. unfold sub, len in *. rewrite Nat2Z.id, drop_0. split.
  - rewrite drop_app_length, take_ge; [done|]. rewrite length_drop. lia.
  - apply take_app_length.
Qed.

Lemma fat_read_loop_run fuel filled buf rl p (d : D) :
  on_device p d → (length buf ≤ fuel)%nat → 0 ≤ rl → rl + len buf ≤ usize_max →
  let f := part_file p d in
  let n := len buf `min` (len (f_bytes f) - f_pos f) in
  ∃ p' d', fat_read_loop fuel filled buf rl (p, d) =
      (Ok (Some (rl + n, filled ++ splice 0 (sub (f_pos f) n (f_bytes f)) buf)), (p', d')) ∧
    part_file p' d' = mkFile (f_bytes f) (f_pos f + n) ∧ on_device p' d'.
Proof.
  revert filled buf rl p d. induction fuel as [|fuel IH]; intros filled buf rl p d Hp Hf Hrl Hmax f n.
  { destruct buf; [|simpl in Hf; lia]. exists p, d. simpl.
    destruct (part_file_pos p d Hp) as [Hpos _]. fold f in Hpos.
    assert (n = 0) as -> by (unfold n; change (len (@nil u8)) with 0; lia).
    rewrite !Z.add_0_r, sub_0, splice_nil, app_nil_r. by split_and!. }
  destruct (part_file_pos p d Hp) as [Hpos Hfit]. fold f in Hpos, Hfit.
  destruct buf as [|b0 buf0] eqn:Eb.
  { exists p, d. simpl. assert (n = 0) as -> by (unfold n; change (len (@nil u8)) with 0; lia).
    rewrite !Z.add_0_r, sub_0, splice_nil, app_nil_r. by split_and!. }
  rewrite <-Eb in *. assert (0 < len buf) by (rewrite Eb; unfold len; simpl; lia).
  assert (Hn : n = len buf `min` (len (f_bytes f) - f_pos f)) by (by rewrite Eb). clearbody n.
  replace (fat_read_loop (S fuel) filled buf rl) with
    ('(n, buf) ← map_err tt (bs_read_one (K:=Partition) buf);
      if n =? 0 then mret (Some (rl, filled ++ buf))
      else
        rest ← lift (slice n (len buf) buf);
        read_len ← lift (usize_add rl n);
        fat_read_loop fuel (filled ++ sub 0 n buf) rest read_len) by (by rewrite Eb).
  destruct (part_do_refines (PRead buf) p d Hp I) as (p1 & d1 & Hr & Hf1 & Hp1).
  cbn [part_do file_do fst snd] in Hr, Hf1. fold f in Hr, Hf1. set (c := file_chunk f (len buf)) in *.
  pose proof (file_chunk_le f (len buf) ltac:(lia) Hpos) as Hc. fold c in Hc.
  unfold map_err. st_run. cbn [bs_read_one partition_stream]. rewrite Hr. cbn beta iota.
  assert (Hl : len (sub (f_pos f) c (f_bytes f)) = c) by (apply sub_len; lia).
  destruct (Z.eqb_spec c 0) as [Hz|Hz].
  - pose proof (file_chunk_zero f (len buf) ltac:(lia) Hpos Hz). assert (n = 0) as -> by lia.
    rewrite Hz in *. exists p1, d1. by rewrite !Z.add_0_r in *.
  - assert (Hs : len (splice 0 (sub (f_pos f) c (f_bytes f)) buf) = len buf)
      by (apply splice_len; lia).
    rewrite slice_ok by lia. unfold usize_add. rewrite checked_ok by (unfold in_usize; lia).
    destruct (splice_parts (sub (f_pos f) c (f_bytes f)) buf) as [Hrest Hfront]; [lia|].
    rewrite Hl in Hrest, Hfront.
    rewrite Hs, Hrest, Hfront.
    assert (Hld : len (drop (Z.to_nat c) buf) = len buf - c) by (unfold len in *; rewrite length_drop; lia).
    destruct (IH (filled ++ sub (f_pos f) c (f_bytes f)) (drop (Z.to_nat c) buf) (rl + c) p1 d1)
      as (p2 & d2 & -> & Hf2 & Hp2); [done|unfold len in *; lia|lia|lia|].
    rewrite Hf1 in *. cbn [f_bytes f_pos] in *. rewrite Hld in *. exists p2, d2.
    replace ((len buf - c) `min` (len (f_bytes f) - (f_pos f + c))) with (n - c) in * by lia.
    split_and!; [|rewrite Hf2; f_equal; lia|done].
    assert (Hsplit : sub (f_pos f) n (f_bytes f) =
      sub (f_pos f) c (f_bytes f) ++ sub (f_pos f + c) (n - c) (f_bytes f))
      by (rewrite <-sub_split by lia; f_equal; lia).
    rewrite Hsplit, !splice_0.
    replace (rl + c + (n - c)) with (rl + n) by lia. rewrite <-!app_assoc. do 5 f_equal.
    rewrite drop_drop. f_equal. rewrite length_app.
    assert (len (sub (f_pos f + c) (n - c) (f_bytes f)) = n - c) by (apply sub_len; lia).
    f_equal. f_equal. unfold len in *. lia.
Qed.

Lemma fat_write_loop_run fuel buf wl p (d : D) :
  on_device p d → (length buf ≤ fuel)%nat → 0 ≤ wl → wl + len buf ≤ usize_max →
  let f := part_file p d in
  let n := len buf `min` (len (f_bytes f) - f_pos f) in
  ∃ p' d', fat_write_loop fuel buf wl (p, d) = (Ok (Some (wl + n)), (p', d')) ∧
    part_file p' d' = mkFile (splice (f_pos f) (sub 0 n buf) (f_bytes f)) (f_pos f + n) ∧
    on_device p' d'.
Proof.
  revert buf wl p d. induction fuel as [|fuel IH]; intros buf wl p d Hp Hf Hwl Hmax f n;
    destruct (part_file_pos p d Hp) as [Hpos Hfit]; fold f in Hpos, Hfit;
    destruct buf as [|b0 buf0] eqn:Eb; try (simpl in Hf; lia);
    try (exists p, d; assert (n = 0) as -> by (unfold n; change (len (@nil u8)) with 0; lia);
         rewrite !Z.add_0_r, sub_0, splice_nil; done).
  rewrite <-Eb in *. assert (0 < len buf) by (rewrite Eb; unfold len; simpl; lia).
  assert (Hn : n = len buf `min` (len (f_bytes f) - f_pos f)) by (by rewrite Eb). clearbody n.
  replace (fat_write_loop (S fuel) buf wl) with
    (n ← map_err tt (bs_write_one (K:=Partition) buf);
      if n =? 0 then mret (Some wl)
      else
        buf ← lift (slice n (len buf) buf);
        write_len ← lift (usize_add wl n);
        fat_write_loop fuel buf write_len) by (by rewrite Eb).
  destruct (part_do_refines (PWrite buf) p d Hp I) as (p1 & d1 & Hr & Hf1 & Hp1).
  cbn [part_do file_do fst snd] in Hr, Hf1. fold f in Hr, Hf1. set (c := file_chunk f (len buf)) in *.
  pose proof (file_chunk_le f (len buf) ltac:(lia) Hpos) as Hc. fold c in Hc.
  apply st_bind_ok in Hr as (c' & s1 & Hr & Hs1). unfold mret, st_ret in Hs1. clear Eb. simplify_eq.
  unfold map_err. st_run. cbn [bs_write_one partition_stream]. rewrite Hr. cbn beta iota.
  destruct (Z.eqb_spec c 0) as [Hz|Hz].
  - pose proof (file_chunk_zero f (len buf) ltac:(lia) Hpos Hz).
    assert (len buf `min` (len (f_bytes f) - f_pos f) = 0) as -> by lia.
    rewrite Hz in *. exists p1, d1. by rewrite !Z.add_0_r in *.
  - set (n := len buf `min` (len (f_bytes f) - f_pos f)) in *.
    assert (Hn : n = len buf `min` (len (f_bytes f) - f_pos f)) by done. clearbody n.
    rewrite slice_ok by lia. unfold usize_add. rewrite checked_ok by (unfold in_usize; lia).
    assert (Hld : sub c (len buf - c) buf = drop (Z.to_nat c) buf)
      by (unfold sub; apply take_ge; rewrite length_drop; unfold len in *; lia).
    assert (Hl : len (drop (Z.to_nat c) buf) = len buf - c) by (unfold len in *; rewrite length_drop; lia).
    assert (Hs0 : len (sub 0 c buf) = c) by (apply sub_len; lia).
    rewrite Hld. destruct (IH (drop (Z.to_nat c) buf) (wl + c) p1 d1) as (p2 & d2 & -> & Hf2 & Hp2);
      [done|unfold len in *; lia|lia|lia|].
    rewrite Hf1 in *. cbn [f_bytes f_pos] in *. rewrite Hl, splice_len in * by lia.
    replace ((len buf - c) `min` (len (f_bytes f) - (f_pos f + c))) with (n - c) in * by lia.
    exists p2, d2. split_and!; [by replace (wl + c + (n - c)) with (wl + n) by lia| |done]. rewrite Hf2. f_equal; [|lia].
    replace (sub 0 n buf) with (sub 0 c buf ++ sub (0 + c) (n - c) buf)
      by (rewrite <-sub_split by lia; f_equal; lia).
    rewrite <-splice_next by (rewrite ?Hs0, ?sub_len; lia). by rewrite Hs0.
Qed.

Lemma fat_do_refines o p (d : D) :
  on_device p d → fat_op_ok o →
  ∃ p' d', fat_do o (p, d) = ((stream_do o (part_file p d)).1, (p', d')) ∧
    part_file p' d' = (stream_do o (part_file p d)).2 ∧ on_device p' d'.
Proof.
  intros Hp Ho. pose proof Hp as (Hwf & Hb & He). destruct o as [buf|buf|pos]; simpl in Ho.
  - destruct (fat_read_loop_run (length buf) [] buf 0 p d Hp) as (p' & d' & Hr & Hf & Hp');
      [lia|lia|unfold in_usize in *; lia|]. exists p', d'.
    cbn [fat_do]. unfold wrapper_read, fat_read. rewrite Hr. done.
  - destruct (fat_write_loop_run (length buf) buf 0 p d Hp) as (p' & d' & Hr & Hf & Hp');
      [lia|lia|unfold in_usize in *; lia|]. exists p', d'.
    cbn [fat_do]. unfold wrapper_write, fat_write. st_run. rewrite Hr. done.
  - destruct (part_file_pos p d Hp) as [Hpos Hfit]. rewrite part_file_len in Hpos, Hfit by done.
    cbn [fat_do]. unfold wrapper_seek, fat_seek, stream_do. cbn [bs_size bs_position bs_set_position partition_stream].
    rewrite part_file_len by done. unfold get_disk, set_disk, partition_position. st_run. cbn [fst].
    rewrite partition_size_run by done. cbn [f_pos part_file].
    set (target := match pos with SeekStart q => Some q | _ => _ end).
    assert (∀ q, target = Some q → in_usize q) as Hq.
    { intros q. unfold target, checked_add_signed. destruct pos; [by intros [= <-]|..];
        case_bool_decide; try done; by intros [= <-]. }
    destruct pos as [q|off|off]; fold target; cbn beta iota.
    all: destruct target as [q'|]; cbn [ok_or]; [|by exists p, d].
    all: rewrite partition_set_position_run by done; eexists _, d; split_and!; [done|done|].
    all: specialize (Hq _ eq_refl); split; [|done]; unfold part_wf, part_size, in_usize in *; simpl.
    all: destruct Hwf as (? & ? & ?); lia.
Qed.

(** C31: For the FAT driver a partition is a file of fixed size: on a device that
    serves its blocks, every read and write returns (no round of its loop is
    wasted), moves as many bytes as the buffer and the rest of the partition
    allow, and every seek behaves as the specification says; sequences of them
    give the results of the file and leave its bytes in the window of the
    partition.  The blocks of the device do not show. *)
Theorem fat_stream_is_file ops p (d : D) :
  on_device p d → Forall fat_op_ok ops →
  ∃ p' d', fat_run ops (p, d) = ((stream_run ops (part_file p d)).1, (p', d')) ∧
    part_file p' d' = (stream_run ops (part_file p d)).2.
Proof.
  intros Hp Hops. revert p d Hp. induction Hops as [|o ops Ho _ IH]; intros p d Hp; simpl.
  { by exists p, d. }
  destruct (fat_do_refines o p d Hp Ho) as (p1 & d1 & -> & Hf & Hp1).
  destruct (IH p1 d1 Hp1) as (p2 & d2 & -> & Hf2). rewrite Hf in *.
  destruct (stream_do o (part_file p d)) as [r f1]. simpl in *.
  destruct (stream_run ops f1) as [rs f2]. by exists p2, d2.
Qed.
End fat_partition.

Module FatDevExamples.
Import RamDisk.

#[local] Instance checks : OverflowChecks := true.

(** Four blocks; the partition is the middle two. *)
Definition medium : list u8 := replicate (Z.to_nat 2048) x2e.
Definition middle : Partition := partition_new (mkDisk 0 0) 1 2.
Definition fat_script : list fat_op :=
  [FatSeek (SeekEnd (-2)); FatWrite [x61; x62; x63]; FatSeek (SeekStart 4096);
   FatSeek (SeekCurrent (-1)); FatRead [x00; x00]; FatSeek (SeekEnd (-1025))].

(** The write stops at the end, and the seek behind the end goes to the end. *)
Lemma fat_stream_is_file_witness :
  ∃ p' d', fat_run (DevError:=rd_error) fat_script (middle, medium) =
    ([Ok (Some (1022, [])); Ok (Some (2, [])); Ok (Some (4096, [])); Ok (Some (1023, []));
      Ok (Some (1, [x62; x00])); Err tt], (p', d')) ∧
    part_file p' d' = (stream_run fat_script (part_file middle medium)).2.
Proof.
  destruct (fat_stream_is_file (DevError:=rd_error) fat_script middle medium) as (p' & d' & Hr & Hf).
  - split_and!; [vm_compute; intuition congruence|done|vm_compute; reflexivity].
  - unfold fat_script. repeat constructor; vm_compute; congruence.
  - exists p', d'. split; [|exact Hf]. rewrite Hr. vm_compute. reflexivity.
Defined.
End FatDevExamples.
