(* ===== verification/FatFs.v ===== *)
(** * The nodes of the FAT file system

    [FileWrapper] and [DirWrapper] of [modules/axfs/src/fs/fatfs.rs] implement the
    trait [VfsNodeOps] on top of the crate [fatfs], which is a parameter: an open
    file or directory is a handle, and the world holds the volume and the cursors
    of the open files.  [lookup], [create] and [remove] call themselves on the rest
    of a path that starts with ["./"]; [fat_norm] is the path that the last of these
    calls sees.  Log messages are left out. *)

From Stdlib Require Import Ascii Strings.Byte.
From S2P Require Import Prelude RustStr Disk Vfs.

(** [fatfs::Error<()>]; the enumeration is open. *)
Inductive FatError : Type :=
| FatAlreadyExists
| FatCorruptedFileSystem
| FatDirectoryIsNotEmpty
| FatInvalidInput
| FatInvalidFileNameLength
| FatUnsupportedFileNameCharacter
| FatNotEnoughSpace
| FatNotFound
| FatUnexpectedEof
| FatWriteZero
| FatIo
| FatOther.

Definition as_vfs_err (err : FatError) : AxError :=
  match err with
  | FatAlreadyExists => AlreadyExists
  | FatCorruptedFileSystem => InvalidData
  | FatDirectoryIsNotEmpty => DirectoryNotEmpty
  | FatInvalidInput | FatInvalidFileNameLength | FatUnsupportedFileNameCharacter => InvalidInput
  | FatNotEnoughSpace => StorageFull
  | FatNotFound => NotFound
  | FatUnexpectedEof => UnexpectedEof
  | FatWriteZero => WriteZero
  | FatIo => Io
  | FatOther => Io
  end.

Record FatEntry : Type := mkFatEntry {
  fe_name : string;
  fe_is_dir : bool;
  fe_is_file : bool;
}.

(** The operations of [fatfs] on open files and directories. *)
Class Fatfs (W FileH DirH : Type) : Type := {
  ff_root_dir : DirH;
  ff_seek : FileH → SeekFrom → st W FatError Z;
  ff_read : FileH → list u8 → st W FatError (Z * list u8);
  ff_write : FileH → list u8 → st W FatError Z;
  ff_truncate : FileH → st W FatError ();
  fd_open_file : DirH → string → st W FatError FileH;
  fd_open_dir : DirH → string → st W FatError DirH;
  fd_create_file : DirH → string → st W FatError FileH;
  fd_create_dir : DirH → string → st W FatError DirH;
  fd_remove : DirH → string → st W FatError ();
  fd_rename : DirH → string → DirH → string → st W FatError ();
  (** The items of the iterator over the entries. *)
  fd_iter : DirH → W → list (FatError + FatEntry) * W;
}.

Section fatfs.
Context `{OverflowChecks} {W FileH DirH : Type} `{!Fatfs W FileH DirH}.
Context (dirent_new : string → VfsNodeType → VfsDirEntry).

Inductive FatNode : Type :=
| FatFileNode (h : FileH)
| FatDirNode (h : DirH).

Definition fat_root_dir : FatNode := FatDirNode ff_root_dir.

(** [r.map_err(as_vfs_err)] *)
Definition vfs_err {A} (m : st W FatError A) : st W AxError A := λ w,
  match m w with
  | (Ok a, w) => (Ok a, w)
  | (Err e, w) => (Err (as_vfs_err e), w)
  | (Panic, w) => (Panic, w)
  end.

(** ** Files *)

(** [size.div_ceil(BLOCK_SIZE as u64)] *)
Definition div_ceil (n d : Z) : Z := n / d + (if n mod d =? 0 then 0 else 1).

Definition fat_file_get_attr (h : FileH) : st W AxError VfsNodeAttr :=
  size ← vfs_err (ff_seek h (SeekEnd 0));
  mret (mkAttr 493 File size (div_ceil size 512)).

Definition fat_file_read_at (h : FileH) (off : Z) (buf : list u8) : st W AxError (Z * list u8) :=
  vfs_err (ff_seek h (SeekStart off));;
  vfs_err (ff_read h buf).

Definition fat_file_write_at (h : FileH) (off : Z) (buf : list u8) : st W AxError Z :=
  vfs_err (ff_seek h (SeekStart off));;
  vfs_err (ff_write h buf).

(** The loop of [truncate] that fills up with zeros; a round takes up to 4096 off
    the count, so the count is more fuel than it needs. *)
Fixpoint zero_fill (fuel : nat) (h : FileH) (zeros_needed : Z) : st W AxError (option ()) :=
  if 0 <? zeros_needed then
    match fuel with
    | O => mret None
    | S fuel =>
        let zeros := replicate (Z.to_nat 4096) x00 in
        let to_write := zeros_needed `min` len zeros in
        write_buf ← lift (slice 0 to_write zeros);
        vfs_err (ff_write h write_buf);;
        zeros_needed ← lift (usize_sub zeros_needed to_write);
        zero_fill fuel h zeros_needed
    end
  else mret (Some tt).

Definition fat_file_truncate (fuel : nat) (h : FileH) (size : Z) : st W AxError (option ()) :=
  current_size ← vfs_err (ff_seek h (SeekEnd 0));
  if size <=? current_size then
    vfs_err (ff_seek h (SeekStart size));;
    vfs_err (ff_truncate h);;
    mret (Some tt)
  else
    zeros_needed ← lift (usize_sub size current_size);
    zero_fill fuel h zeros_needed.

(** ** Directories *)
Fixpoint fat_norm_calls (fuel : nat) (path : string) : option string :=
  match fuel with
  | O => None
  | S fuel =>
      let path := trim_matches "/" path in
      match strip_prefix "./" path with
      | Some rest => fat_norm_calls fuel rest
      | None => Some path
      end
  end.

Definition fat_norm (path : string) : string :=
  default "" (fat_norm_calls (S (String.length path)) path).

Definition is_self (path : string) : bool := str_is_empty path || bool_decide (path = ".").

Definition fat_dir_get_attr (h : DirH) : st W AxError VfsNodeAttr :=
  mret (mkAttr 493 Dir 512 1).

Definition fat_parent (h : DirH) : st W AxError (option FatNode) :=
  dir ← attempt (fd_open_dir h "..");
  mret (FatDirNode <$> dir).

Definition fat_lookup (h : DirH) (path : string) : st W AxError FatNode :=
  let path := fat_norm path in
  if is_self path then mret (FatDirNode h)
  else
    file ← attempt (fd_open_file h path);
    match file with
    | Some file => mret (FatFileNode file)
    | None =>
        dir ← attempt (fd_open_dir h path);
        match dir with
        | Some dir => mret (FatDirNode dir)
        | None => throw NotFound
        end
    end.

Definition fat_create (h : DirH) (path : string) (ty : VfsNodeType) : st W AxError () :=
  let path := fat_norm path in
  if is_self path then mret tt
  else match ty with
  | File => vfs_err (fd_create_file h path);; mret tt
  | Dir => vfs_err (fd_create_dir h path);; mret tt
  | _ => throw Unsupported
  end.

Definition fat_remove (h : DirH) (path : string) : st W AxError () :=
  let path := fat_norm path in
  if str_is_empty path then panic
  else vfs_err (fd_remove h path).

Definition fat_rename (h : DirH) (src_path dst_path : string) : st W AxError () :=
  vfs_err (fd_rename h src_path h dst_path).

(** The loop over the output entries: it stops at the end of the iterator and at
    the first item that is an error. *)
Fixpoint fat_fill (items : list (FatError + FatEntry)) (dirents : list VfsDirEntry) (i : Z) :
    outcome AxError (Z * list VfsDirEntry) :=
  match dirents with
  | [] => Ok (i, [])
  | d :: dirents =>
      match items with
      | inr entry :: items =>
          if fe_is_dir entry || fe_is_file entry then
            let ty := if fe_is_dir entry then Dir else File in
            '(n, rest) ← fat_fill items dirents (i + 1);
            mret (n, dirent_new (fe_name entry) ty :: rest)
          else Panic
      | _ => Ok (i, d :: dirents)
      end
  end.

Definition fat_read_dir (h : DirH) (start_idx : Z) (dirents : list VfsDirEntry) :
    st W AxError (Z * list VfsDirEntry) := λ w,
  let '(items, w) := fd_iter h w in
  (fat_fill (drop (Z.to_nat start_idx) items) dirents 0, w).
End fatfs.

(** ** Paths *)
Lemma trim_length c s : (String.length (trim_matches c s) ≤ String.length s)%nat.
Proof.
  assert (Hs : (String.length (trim_start c s) ≤ String.length s)%nat)
    by (induction s as [|a s IH]; simpl; [done|]; case_bool_decide; simpl; lia).
  etrans; [|exact Hs]. unfold trim_matches. generalize (trim_start c s). intros t.
  induction t as [|a t IH]; simpl; [done|]. destruct (trim_end c t); [case_bool_decide|]; simpl in *; lia.
Qed.

(** The calls end, and what they end with starts with no ["./"]. *)
Lemma fat_norm_total fuel path :
  (String.length path < fuel)%nat →
  ∃ p, fat_norm_calls fuel path = Some p ∧ strip_prefix "./" p = None ∧
    ∃ q, p = trim_matches "/" q.
Proof.
  revert path. induction fuel as [|fuel IH]; intros path Hf; [lia|]. cbn [fat_norm_calls].
  pose proof (trim_length "/" path) as Hl.
  destruct (strip_prefix "./" (trim_matches "/" path)) as [rest|] eqn:Hs; [|by eauto].
  apply IH. apply strip_prefix_Some in Hs. rewrite Hs in Hl.
  change ("./" +:+ rest) with (String "." (String "/" rest)) in Hl. simpl in Hl. lia.
Qed.

(** ** Listings and sizes *)
Section fat_theorems.
Context `{OverflowChecks} {W FileH DirH : Type} `{!Fatfs W FileH DirH}.
Context (dirent_new : string → VfsNodeType → VfsDirEntry).

Definition fat_dirent (e : FatEntry) : VfsDirEntry :=
  dirent_new (fe_name e) (if fe_is_dir e then Dir else File).

Lemma fat_fill_run es dirents i :
  Forall (λ e, fe_is_dir e || fe_is_file e = true) es →
  fat_fill dirent_new (inr <$> es) dirents i =
    Ok (i + len es `min` len dirents,
        (fat_dirent <$> take (length dirents) es) ++ drop (length es) dirents).
Proof.
  intros Hes. revert dirents i. induction Hes as [|e es He Hes IH]; intros [|d dirents] i;
    cbn [fat_fill fmap list_fmap];
    [change (len (@nil FatEntry)) with 0; change (len (@nil VfsDirEntry)) with 0..|].
  - do 2 f_equal. lia.
  - do 2 f_equal. unfold len. lia.
  - do 2 f_equal. unfold len. lia.
  - rewrite He. change (list_fmap _ _ inr es) with ((inr : FatEntry → FatError + FatEntry) <$> es).
    rewrite IH. cbn. do 2 f_equal. unfold len. simpl. lia.
Qed.

(** A directory of the FAT file system serves its entries in pages, as long as
    the volume yields the same entries: no page skips or repeats one. *)
Theorem fat_directory_serves h (I : W → Prop) es :
  (∀ w, I w → ∃ w', fd_iter h w = (inr <$> es, w') ∧ I w') →
  Forall (λ e, fe_is_dir e || fe_is_file e = true) es →
  serves (fat_read_dir dirent_new h) I (fat_dirent <$> es).
Proof.
  intros Hit Hes start dirents w Hs Hw. destruct (Hit w Hw) as (w' & Hi & Hw'). exists w'.
  split; [|done]. unfold fat_read_dir. rewrite Hi. f_equal.
  rewrite <-fmap_drop, fat_fill_run by (by apply Forall_drop). rewrite page_eq by done.
  rewrite <-fmap_drop, <-fmap_take. unfold len. rewrite !length_fmap. done.
Qed.

(** Extending a FAT file may stop short and still report success: [truncate]
    drops the number of bytes that each [write] returns and takes the whole piece
    off its count.  When the driver writes fewer bytes than it is given, as [write]
    may, the call returns [Ok] and the file has fewer bytes than asked for. *)
Theorem fat_truncate_stops_short h size cur n (file_size : W → Z) fuel (w w1 w2 : W) :
  ff_seek h (SeekEnd 0) w = (Ok cur, w1) → file_size w1 = cur → 0 ≤ cur →
  cur < size ≤ cur + 4096 → size ≤ usize_max → (fuel ≠ 0)%nat →
  ff_write h (replicate (Z.to_nat (size - cur)) x00) w1 = (Ok n, w2) →
  file_size w2 = cur + n → n < size - cur →
  fat_file_truncate fuel h size w = (Ok (Some tt), w2) ∧ file_size w2 < size.
Proof.
  intros Hseek Hcur ? ? Hmax Hf Hw Hsz Hn. split; [|lia].
  unfold fat_file_truncate, vfs_err, usize_sub. st_run. rewrite Hseek.
  rewrite (proj2 (Z.leb_gt _ _)) by lia. rewrite checked_ok by (unfold in_usize; lia).
  destruct fuel as [|fuel]; [done|]. cbn [zero_fill]. rewrite (proj2 (Z.ltb_lt _ _)) by lia.
  rewrite len_replicate by done. rewrite Z.min_l by lia.
  assert (Hz : sub 0 (size - cur) (replicate (Z.to_nat 4096) x00) =
    replicate (Z.to_nat (size - cur)) x00).
  { unfold sub. rewrite drop_0, take_replicate. f_equal. lia. }
  unfold vfs_err. st_run. rewrite slice_ok by (rewrite ?len_replicate; lia). rewrite Z.sub_0_r, Hz, Hw.
  unfold usize_sub. rewrite checked_ok by (unfold in_usize, usize_max; lia). rewrite Z.sub_diag.
  by destruct fuel.
Qed.
End fat_theorems.

(** ** A small driver

    One file whose writes take at most a cluster of 512 bytes, and one directory. *)
Module TinyFat.
Record tiny_fat : Type := mkTinyFat {
  tf_bytes : list u8;
  tf_pos : Z;
}.

Definition cluster_end (pos : Z) : Z := (pos / 512 + 1) * 512.

Definition tiny_fat_entries : list FatEntry :=
  [mkFatEntry "." true false; mkFatEntry "a" false true; mkFatEntry "d" true false].

#[export] Instance tiny_fatfs : Fatfs tiny_fat () () := {|
  ff_root_dir := tt;
  ff_seek _ p := λ w,
    let target := match p with
                  | SeekStart q => q
                  | SeekCurrent off => tf_pos w + off
                  | SeekEnd off => len (tf_bytes w) + off
                  end in
    (Ok target, mkTinyFat (tf_bytes w) target);
  ff_read _ buf := λ w,
    let n := len buf `min` (len (tf_bytes w) - tf_pos w) in
    (Ok (n, splice 0 (sub (tf_pos w) n (tf_bytes w)) buf), mkTinyFat (tf_bytes w) (tf_pos w + n));
  ff_write _ buf := λ w,
    let n := len buf `min` (cluster_end (tf_pos w) - tf_pos w) in
    (Ok n, mkTinyFat (splice (tf_pos w) (sub 0 n buf) (tf_bytes w)) (tf_pos w + n));
  ff_truncate _ := λ w, (Ok (), mkTinyFat (sub 0 (tf_pos w) (tf_bytes w)) (tf_pos w));
  fd_open_file _ p := λ w, (if bool_decide (p = "a") then Ok tt else Err FatNotFound, w);
  fd_open_dir _ p := λ w, (if bool_decide (p = "d") then Ok tt else Err FatNotFound, w);
  fd_create_file _ _ := throw FatNotEnoughSpace;
  fd_create_dir _ _ := throw FatNotEnoughSpace;
  fd_remove _ _ := throw FatInvalidInput;
  fd_rename _ _ _ _ := throw FatInvalidInput;
  fd_iter _ := λ w, (inr <$> tiny_fat_entries, w);
|}.
End TinyFat.

Module FatFsExamples.
Import TinyFat.

#[local] Instance checks : OverflowChecks := true.

Definition entry (name : string) (ty : VfsNodeType) : VfsDirEntry := mkDirEntry ty name.
Definition fat0 : tiny_fat := mkTinyFat [] 0.

Lemma fat_directory_serves_witness :
  ∃ w', fat_read_dir (W:=tiny_fat) (FileH:=()) entry () 1 [mkDirEntry File ""] fat0 =
    (Ok (1, [mkDirEntry File "a"]), w').
Proof.
  destruct (fat_directory_serves (W:=tiny_fat) (FileH:=()) entry () (λ _, True) tiny_fat_entries
    ltac:(intros w _; exists w; split; reflexivity) ltac:(repeat constructor)
    1 [mkDirEntry File ""] fat0 ltac:(lia) I) as (w' & Hr & _).
  exists w'. rewrite Hr. vm_compute. reflexivity.
Defined.

(** Asked for 600 bytes, the empty file gets 512. *)
Lemma fat_truncate_stops_short_witness :
  ∃ w2, fat_file_truncate (W:=tiny_fat) (DirH:=()) 1 () 600 fat0 = (Ok (Some tt), w2) ∧
    len (tf_bytes w2) < 600.
Proof.
  eexists. apply (fat_truncate_stops_short (W:=tiny_fat) (DirH:=()) () 600 0 512
    (λ w, len (tf_bytes w)) 1 fat0 fat0
    (mkTinyFat (replicate (Z.to_nat 512) x00) 512)).
  - reflexivity.
  - reflexivity.
  - lia.
  - lia.
  - vm_compute. congruence.
  - lia.
  - vm_compute. reflexivity.
  - vm_compute. reflexivity.
  - lia.
Defined.
End FatFsExamples.
