(* ===== verification/Fops.v ===== *)
(** * Open files and directories ([modules/axfs/src/fops.rs])

    An open file is a node with the capabilities it was opened with and a cursor,
    an open directory a node with a position in its listing.  The crate
    [cap_access] is a parameter with its documented laws.  Operations that move a
    cursor work on the handle and the state of [RootFs]. *)

From Stdlib Require Import Ascii Strings.Byte.
From S2P Require Import Prelude RustStr Disk Vfs RootFs.

(** ** Capabilities *)
Inductive cap_flag : Type := CapRead | CapWrite | CapExecute.

#[global] Instance cap_flag_eq_dec : EqDecision cap_flag.
Proof. solve_decision. Defined.

Class CapAccess (Cap : Type) : Type := {
  cap_empty : Cap;
  cap_READ : Cap;
  cap_WRITE : Cap;
  cap_EXECUTE : Cap;
  cap_or : Cap → Cap → Cap;
  cap_contains : Cap → Cap → bool;
  (** [WithCap::new(inner, own).access_or_err(cap, err)] *)
  access_or_err : ∀ {A E}, A → Cap → Cap → E → outcome E A;
}.

(** A [Cap] is a set of flags; an access is granted when the flags it asks for are
    among those of the object. *)
Class CapAccessOk (Cap : Type) `{!CapAccess Cap} : Type := {
  cap_has : Cap → cap_flag → bool;
  cap_has_empty f : cap_has cap_empty f = false;
  cap_has_read f : cap_has cap_READ f = bool_decide (f = CapRead);
  cap_has_write f : cap_has cap_WRITE f = bool_decide (f = CapWrite);
  cap_has_execute f : cap_has cap_EXECUTE f = bool_decide (f = CapExecute);
  cap_has_or a b f : cap_has (cap_or a b) f = cap_has a f || cap_has b f;
  cap_contains_spec a b :
    cap_contains a b = true ↔ ∀ f, cap_has b f = true → cap_has a f = true;
  access_or_err_spec {A E} (inner : A) own cap (err : E) :
    access_or_err inner own cap err = if cap_contains own cap then Ok inner else Err err;
}.

(** ** Options *)
Record OpenOptions : Type := mkOptions {
  o_read : bool;
  o_write : bool;
  o_append : bool;
  o_truncate : bool;
  o_create : bool;
  o_create_new : bool;
}.

Definition options_new : OpenOptions := mkOptions false false false false false false.

Definition is_valid (o : OpenOptions) : bool :=
  if negb (o_read o) && negb (o_write o) && negb (o_append o) then false
  else match o_write o, o_append o with
  | true, false => true
  | false, false => negb (o_truncate o || o_create o || o_create_new o)
  | _, true => negb (o_truncate o && negb (o_create_new o))
  end.

Section fops.
Context `{OverflowChecks} {W F N Cap : Type} `{!Vfs W F N, !CapAccess Cap}.

Abbreviation root_state := (root_st (W:=W) (F:=F) (N:=N)).
Abbreviation node_ref := (VfsNodeRef (N:=N)).

(** ** The operations of nodes that files use

    [RootDirectory] has the defaults of directories. *)
Definition nref_open (r : node_ref) : st root_state AxError () :=
  in_world (match r with RootNode => default_open | FsNode n => node_open n end).
Definition nref_release (r : node_ref) : st root_state AxError () :=
  in_world (match r with RootNode => default_release | FsNode n => node_release n end).
Definition nref_truncate (r : node_ref) (size : Z) : st root_state AxError () :=
  in_world (match r with RootNode => dir_truncate size | FsNode n => node_truncate n size end).
Definition nref_read_at (r : node_ref) (off : Z) (buf : list u8) :
    st root_state AxError (Z * list u8) :=
  in_world (match r with RootNode => dir_read_at off buf | FsNode n => node_read_at n off buf end).
Definition nref_write_at (r : node_ref) (off : Z) (buf : list u8) : st root_state AxError Z :=
  in_world (match r with RootNode => dir_write_at off buf | FsNode n => node_write_at n off buf end).
Definition nref_fsync (r : node_ref) : st root_state AxError () :=
  in_world (match r with RootNode => dir_fsync | FsNode n => node_fsync n end).

(** ** Capabilities of options and nodes *)
Definition options_cap (o : OpenOptions) : Cap :=
  let cap := cap_empty in
  let cap := if o_read o then cap_or cap cap_READ else cap in
  if o_write o || o_append o then cap_or cap cap_WRITE else cap.

Definition perm_to_cap (perm : Z) : Cap :=
  let cap := cap_empty in
  let cap := if owner_readable perm then cap_or cap cap_READ else cap in
  let cap := if owner_writable perm then cap_or cap cap_WRITE else cap in
  if owner_executable perm then cap_or cap cap_EXECUTE else cap.

(** ** Files *)
Record OFile : Type := mkOFile {
  fl_node : node_ref;
  fl_cap : Cap;
  fl_append : bool;
  fl_offset : Z;
}.

Definition file_open_at (dir : option node_ref) (path : string) (opts : OpenOptions) :
    st root_state AxError OFile :=
  if negb (is_valid opts) then throw InvalidInput
  else
    node ← on_result (lookup dir path) (λ node_option,
      if o_create opts || o_create_new opts then
        match node_option with
        | inr node => if o_create_new opts then throw AlreadyExists else mret node
        | inl NotFound => create_file dir path
        | inl e => throw e
        end
      else match node_option with inr node => mret node | inl e => throw e end);
    attr ← nref_get_attr node;
    if attr_is_dir attr &&
       (o_create opts || o_create_new opts || o_write opts || o_append opts || o_truncate opts)
    then throw IsADirectory
    else
      let access_cap := options_cap opts in
      if negb (cap_contains (perm_to_cap (a_perm attr)) access_cap) then throw PermissionDenied
      else
        nref_open node;;
        (if o_truncate opts then nref_truncate node 0 else mret tt);;
        mret (mkOFile node access_cap (o_append opts) 0).

Definition file_open (path : string) (opts : OpenOptions) : st root_state AxError OFile :=
  file_open_at None path opts.

(** Code with a handle. *)
Definition on_root {K A} (m : st root_state AxError A) : st (K * root_state) AxError A := λ '(k, s),
  let '(r, s) := m s in (r, (k, s)).

Definition file_access (f : OFile) (cap : Cap) : outcome AxError node_ref :=
  access_or_err (fl_node f) (fl_cap f) cap PermissionDenied.

Definition set_offset (off : Z) : st (OFile * root_state) AxError () :=
  modify (λ '(f, s), (mkOFile (fl_node f) (fl_cap f) (fl_append f) off, s)).

Definition file_truncate (f : OFile) (size : Z) : st root_state AxError () :=
  node ← lift (file_access f cap_WRITE); nref_truncate node size.

Definition file_get_attr (f : OFile) : st root_state AxError VfsNodeAttr :=
  node ← lift (file_access f cap_empty); nref_get_attr node.

Definition file_read (buf : list u8) : st (OFile * root_state) AxError (Z * list u8) :=
  f ← gets fst;
  node ← lift (file_access f cap_READ);
  '(read_len, buf) ← on_root (nref_read_at node (fl_offset f) buf);
  off ← lift (usize_add (fl_offset f) read_len);
  set_offset off;;
  mret (read_len, buf).

Definition file_read_at (f : OFile) (off : Z) (buf : list u8) :
    st root_state AxError (Z * list u8) :=
  node ← lift (file_access f cap_READ); nref_read_at node off buf.

Definition file_write (buf : list u8) : st (OFile * root_state) AxError Z :=
  f ← gets fst;
  off ← (if fl_append f then attr ← on_root (file_get_attr f); mret (a_size attr)
         else mret (fl_offset f));
  node ← lift (file_access f cap_WRITE);
  write_len ← on_root (nref_write_at node off buf);
  off ← lift (usize_add off write_len);
  set_offset off;;
  mret write_len.

Definition file_write_at (f : OFile) (off : Z) (buf : list u8) : st root_state AxError Z :=
  node ← lift (file_access f cap_WRITE); nref_write_at node off buf.

Definition file_flush (f : OFile) : st root_state AxError () :=
  node ← lift (file_access f cap_WRITE); nref_fsync node.

Definition file_seek (pos : SeekFrom) : st (OFile * root_state) AxError Z :=
  f ← gets fst;
  attr ← on_root (file_get_attr f);
  let new_offset :=
    match pos with
    | SeekStart pos => Some pos
    | SeekCurrent off => checked_add_signed (fl_offset f) off
    | SeekEnd off => checked_add_signed (a_size attr) off
    end in
  new_offset ← lift (ok_or new_offset InvalidInput);
  set_offset new_offset;;
  mret new_offset.

(** Dropping a file releases its node and ignores the result. *)
Definition file_drop (f : OFile) (s : root_state) : root_state := (nref_release (fl_node f) s).2.

(** ** Directories *)
Record Directory : Type := mkDirectory {
  dr_node : node_ref;
  dr_cap : Cap;
  entry_idx : Z;
}.

Definition dir_access (d : Directory) (cap : Cap) : outcome AxError node_ref :=
  access_or_err (dr_node d) (dr_cap d) cap PermissionDenied.

Definition open_dir_at_node (dir : option node_ref) (path : string) (opts : OpenOptions) :
    st root_state AxError Directory :=
  if negb (o_read opts) then throw InvalidInput
  else if o_create opts || o_create_new opts || o_write opts || o_append opts || o_truncate opts
  then throw InvalidInput
  else
    node ← lookup dir path;
    attr ← nref_get_attr node;
    if negb (attr_is_dir attr) then throw NotADirectory
    else
      let access_cap := options_cap opts in
      if negb (cap_contains (perm_to_cap (a_perm attr)) access_cap) then throw PermissionDenied
      else
        nref_open node;;
        mret (mkDirectory node access_cap 0).

Definition access_at (d : Directory) (path : string) : outcome AxError (option node_ref) :=
  if starts_with "/" path then Ok None
  else node ← dir_access d cap_EXECUTE; mret (Some node).

Definition open_dir (path : string) (opts : OpenOptions) : st root_state AxError Directory :=
  open_dir_at_node None path opts.

Definition dir_open_dir_at (d : Directory) (path : string) (opts : OpenOptions) :
    st root_state AxError Directory :=
  at_ ← lift (access_at d path); open_dir_at_node at_ path opts.

Definition dir_open_file_at (d : Directory) (path : string) (opts : OpenOptions) :
    st root_state AxError OFile :=
  at_ ← lift (access_at d path); file_open_at at_ path opts.

Definition dir_create_file (d : Directory) (path : string) : st root_state AxError node_ref :=
  at_ ← lift (access_at d path); create_file at_ path.

Definition dir_create_dir (d : Directory) (path : string) : st root_state AxError () :=
  at_ ← lift (access_at d path); create_dir at_ path.

Definition dir_remove_file (d : Directory) (path : string) : st root_state AxError () :=
  at_ ← lift (access_at d path); remove_file at_ path.

Definition dir_remove_dir (d : Directory) (path : string) : st root_state AxError () :=
  at_ ← lift (access_at d path); remove_dir at_ path.

Definition dir_read_dir (dirents : list VfsDirEntry) :
    st (Directory * root_state) AxError (Z * list VfsDirEntry) :=
  d ← gets fst;
  node ← lift (dir_access d cap_READ);
  '(n, dirents) ← on_root (nref_read_dir node (entry_idx d) dirents);
  idx ← lift (usize_add (entry_idx d) n);
  modify (λ '(d, s), (mkDirectory (dr_node d) (dr_cap d) idx, s));;
  mret (n, dirents).

Definition dir_rename (old new : string) : st root_state AxError () := rename old new.

Definition dir_drop (d : Directory) (s : root_state) : root_state := (nref_release (dr_node d) s).2.
End fops.

(** ** What the open mode allows *)
Section modes.
Context `{OverflowChecks} {W F N Cap : Type}.
Context `{!Vfs W F N, !CapAccess Cap, !CapAccessOk Cap}.
Implicit Types (f : OFile (N:=N) (Cap:=Cap)) (d : Directory (N:=N) (Cap:=Cap)).
Implicit Types (s : root_st (W:=W) (F:=F) (N:=N)).

Lemma options_cap_has o fl :
  cap_has (options_cap o) fl =
  match fl with
  | CapRead => o_read o
  | CapWrite => o_write o || o_append o
  | CapExecute => false
  end.
Proof.
  unfold options_cap. destruct (o_read o), (o_write o || o_append o), fl;
    rewrite ?cap_has_or, ?cap_has_read, ?cap_has_write, ?cap_has_empty; done.
Qed.

Lemma access_flag {A E} (inner : A) own cap fl (err : E) :
  (∀ fl', cap_has cap fl' = bool_decide (fl' = fl)) →
  access_or_err inner own cap err = if cap_has own fl then Ok inner else Err err.
Proof.
  intros Hcap. rewrite access_or_err_spec. destruct (cap_has own fl) eqn:Hf.
  - rewrite (proj2 (cap_contains_spec own cap)); [done|]. intros fl'. rewrite Hcap.
    rewrite bool_decide_eq_true. by intros ->.
  - destruct (cap_contains own cap) eqn:Hc; [|done]. rewrite cap_contains_spec in Hc.
    specialize (Hc fl). rewrite Hcap, bool_decide_true, Hf in Hc by done. by specialize (Hc eq_refl).
Qed.

Lemma access_none {A E} (inner : A) own (err : E) : access_or_err inner own cap_empty err = Ok inner.
Proof.
  rewrite access_or_err_spec, (proj2 (cap_contains_spec own cap_empty)); [done|].
  intros fl. by rewrite cap_has_empty.
Qed.

(** The handle carries the capabilities of the options. *)
Lemma file_open_at_ok dir path o s f s' :
  file_open_at dir path o s = (Ok f, s') →
  fl_cap f = options_cap o ∧ fl_append f = o_append o ∧ fl_offset f = 0.
Proof.
  intros Hopen.
  assert (Hret : returns (λ f, fl_cap f = options_cap o ∧ fl_append f = o_append o ∧ fl_offset f = 0)
    (file_open_at dir path o)); [|by eapply Hret].
  unfold file_open_at. destruct (negb (is_valid o)); [apply returns_throw|].
  apply returns_bind_any. intros node. apply returns_bind_any. intros attr.
  destruct (_ && _); [apply returns_throw|]. destruct (negb _); [apply returns_throw|].
  apply returns_bind_any. intros _. apply returns_bind_any. intros _. by apply returns_ret.
Qed.

Lemma open_dir_at_node_ok dir path o s d s' :
  open_dir_at_node dir path o s = (Ok d, s') → dr_cap d = options_cap o.
Proof.
  intros Hopen.
  assert (Hret : returns (λ d, dr_cap d = options_cap o) (open_dir_at_node dir path o));
    [|by eapply Hret].
  unfold open_dir_at_node. destruct (negb (o_read o)); [apply returns_throw|].
  destruct (_ || _); [apply returns_throw|].
  apply returns_bind_any. intros node. apply returns_bind_any. intros attr.
  destruct (negb _); [apply returns_throw|]. destruct (negb _); [apply returns_throw|].
  apply returns_bind_any. intros _. by apply returns_ret.
Qed.

(** [f'] is the handle [f] with its cursor anywhere. *)
Definition same_handle f f' : Prop :=
  fl_node f' = fl_node f ∧ fl_cap f' = fl_cap f ∧ fl_append f' = fl_append f.

(** A file does only what it was opened for.  A file that was opened without
    write and append access refuses [write], [write_at], [truncate] and [flush]
    with [PermissionDenied], at any cursor and in any later state, and nothing
    changes; a file that was opened without read access refuses [read] and
    [read_at] in the same way. *)
Theorem file_respects_open_mode dir path o s0 f s1 :
  file_open_at dir path o s0 = (Ok f, s1) →
  ∀ f' s buf off size, same_handle f f' →
  (o_write o = false → o_append o = false →
    file_write buf (f', s) = (Err PermissionDenied, (f', s)) ∧
    file_write_at f' off buf s = (Err PermissionDenied, s) ∧
    file_truncate f' size s = (Err PermissionDenied, s) ∧
    file_flush f' s = (Err PermissionDenied, s)) ∧
  (o_read o = false →
    file_read buf (f', s) = (Err PermissionDenied, (f', s)) ∧
    file_read_at f' off buf s = (Err PermissionDenied, s)).
Proof.
  intros (Hcap & Happ & _)%file_open_at_ok f' s buf off size (_ & Ec & Ea).
  rewrite Hcap in Ec. rewrite Happ in Ea. split.
  - intros Hw Ha.
    assert (Hden : file_access f' cap_WRITE = Err PermissionDenied).
    { unfold file_access. rewrite (access_flag _ _ _ CapWrite) by apply cap_has_write.
      by rewrite Ec, options_cap_has, Hw, Ha. }
    unfold file_write, file_write_at, file_truncate, file_flush. st_run. simpl.
    by rewrite Ea, Ha, Hden.
  - intros Hr.
    assert (Hden : file_access f' cap_READ = Err PermissionDenied).
    { unfold file_access. rewrite (access_flag _ _ _ CapRead) by apply cap_has_read.
      by rewrite Ec, options_cap_has, Hr. }
    unfold file_read, file_read_at. st_run. simpl. by rewrite Hden.
Qed.

(** The operations of an open directory on relative paths never work: a
    directory is opened with the capabilities of the options, which never include
    [EXECUTE], and this is the one the operations ask for.  Each of them returns
    [PermissionDenied] and does nothing, whatever the permissions of the node. *)
Theorem relative_operations_denied path o s0 d s1 :
  open_dir path o s0 = (Ok d, s1) →
  ∀ p s opts, starts_with "/" p = false →
    dir_open_dir_at d p opts s = (Err PermissionDenied, s) ∧
    dir_open_file_at d p opts s = (Err PermissionDenied, s) ∧
    dir_create_file d p s = (Err PermissionDenied, s) ∧
    dir_create_dir d p s = (Err PermissionDenied, s) ∧
    dir_remove_file d p s = (Err PermissionDenied, s) ∧
    dir_remove_dir d p s = (Err PermissionDenied, s).
Proof.
  intros Hcap%open_dir_at_node_ok p s opts Hp.
  assert (Hden : access_at d p = Err PermissionDenied).
  { unfold access_at. rewrite Hp. unfold dir_access.
    rewrite (access_flag _ _ _ CapExecute) by apply cap_has_execute.
    by rewrite Hcap, options_cap_has. }
  unfold dir_open_dir_at, dir_open_file_at, dir_create_file, dir_create_dir, dir_remove_file,
    dir_remove_dir. st_run. by rewrite Hden.
Qed.
End modes.

(** ** A file is a sequence of bytes with a cursor

    The specification.  A write that would leave a gap behind the end of the bytes,
    or pass the largest offset, is left open ([None]): what a file system does
    there is its own affair. *)
Inductive file_op : Type :=
| FRead (buf : list u8)
| FWrite (buf : list u8)
| FSeek (pos : SeekFrom).

Abbreviation file_result := (outcome AxError (Z * list u8)).

Definition cursor_do (append : bool) (o : file_op) (bytes : list u8) (pos : Z) :
    option (file_result * (list u8 * Z)) :=
  match o with
  | FRead buf =>
      let n := ((len bytes - pos) `max` 0) `min` len buf in
      Some (Ok (n, splice 0 (sub pos n bytes) buf), (bytes, pos + n))
  | FWrite buf =>
      let off := if append then len bytes else pos in
      if bool_decide (off ≤ len bytes ∧ off + len buf ≤ usize_max)
      then Some (Ok (len buf, []), (splice off buf bytes, off + len buf)) else None
  | FSeek p =>
      let q := match p with
               | SeekStart q => Some q
               | SeekCurrent off => checked_add_signed pos off
               | SeekEnd off => checked_add_signed (len bytes) off
               end in
      match q with
      | Some q => Some (Ok (q, []), (bytes, q))
      | None => Some (Err InvalidInput, (bytes, pos))
      end
  end.

Fixpoint cursor_run (append : bool) (ops : list file_op) (bytes : list u8) (pos : Z) :
    option (list file_result * (list u8 * Z)) :=
  match ops with
  | [] => Some ([], (bytes, pos))
  | o :: ops =>
      '(r, (bytes, pos)) ← cursor_do append o bytes pos;
      '(rs, k) ← cursor_run append ops bytes pos;
      Some (r :: rs, k)
  end.

Definition fop_ok (o : file_op) : Prop :=
  match o with FSeek (SeekStart pos) => in_usize pos | _ => True end.

Section cursor.
Context `{OverflowChecks} {W F N Cap : Type}.
Context `{!Vfs W F N, !CapAccess Cap, !CapAccessOk Cap}.
Implicit Types (f : OFile (N:=N) (Cap:=Cap)) (s : root_st (W:=W) (F:=F) (N:=N)).

Definition fop_do (o : file_op) :
    st (OFile (N:=N) (Cap:=Cap) * root_st (W:=W) (F:=F) (N:=N)) AxError (Z * list u8) :=
  match o with
  | FRead buf => file_read buf
  | FWrite buf => n ← file_write buf; mret (n, [])
  | FSeek pos => n ← file_seek pos; mret (n, [])
  end.

(** A caller may go on after an error. *)
Fixpoint fop_run (ops : list file_op) (k : OFile (N:=N) (Cap:=Cap) * root_st (W:=W) (F:=F) (N:=N)) :
    list file_result * (OFile (N:=N) (Cap:=Cap) * root_st (W:=W) (F:=F) (N:=N)) :=
  match ops with
  | [] => ([], k)
  | o :: ops =>
      let '(r, k) := fop_do o k in
      let '(rs, k) := fop_run ops k in (r :: rs, k)
  end.

(** The node keeps a sequence of bytes: in a state with [I s bytes], reading and
    asking for the attributes keeps them, and writing replaces a part of them. *)
Record stores (n : VfsNodeRef (N:=N)) (I : root_st (W:=W) (F:=F) (N:=N) → list u8 → Prop) : Prop := {
  stores_attr s bytes : I s bytes →
    ∃ a s', nref_get_attr n s = (Ok a, s') ∧ a_size a = len bytes ∧ I s' bytes;
  stores_read s bytes off buf : I s bytes → 0 ≤ off →
    let k := ((len bytes - off) `max` 0) `min` len buf in
    ∃ s', nref_read_at n off buf s = (Ok (k, splice 0 (sub off k bytes) buf), s') ∧ I s' bytes;
  stores_write s bytes off buf : I s bytes → 0 ≤ off ≤ len bytes →
    ∃ s', nref_write_at n off buf s = (Ok (len buf), s') ∧ I s' (splice off buf bytes);
}.

Lemma splice_grow {A} off (new l : list A) :
  0 ≤ off ≤ len l → len (splice off new l) = len l `max` (off + len new).
Proof.
  intros. unfold len, splice in *. rewrite !length_app, length_take, length_drop. lia.
Qed.

(** The handle may read and write, and its cursor is an offset. *)
Definition handle_ok f : Prop :=
  cap_has (fl_cap f) CapRead = true ∧ cap_has (fl_cap f) CapWrite = true ∧ in_usize (fl_offset f).

Lemma handle_access f :
  handle_ok f → file_access f cap_READ = Ok (fl_node f) ∧ file_access f cap_WRITE = Ok (fl_node f) ∧
  file_access f cap_empty = Ok (fl_node f).
Proof.
  intros (Hr & Hw & _). unfold file_access.
  rewrite (access_flag _ _ _ CapRead), (access_flag _ _ _ CapWrite), access_none, Hr, Hw
    by (apply cap_has_read || apply cap_has_write). done.
Qed.

Lemma fop_do_refines I o f s bytes r bytes' pos' :
  stores (fl_node f) I → I s bytes → handle_ok f → in_usize (len bytes) → fop_ok o →
  cursor_do (fl_append f) o bytes (fl_offset f) = Some (r, (bytes', pos')) →
  ∃ f' s', fop_do o (f, s) = (r, (f', s')) ∧ same_handle f f' ∧ handle_ok f' ∧
    fl_offset f' = pos' ∧ I s' bytes' ∧ in_usize (len bytes').
Proof.
  intros Hn HI Hf Hb Ho Hc. destruct (handle_access f Hf) as (Hr & Hw & He).
  pose proof Hf as (? & ? & Hoff). destruct o as [buf|buf|p]; simpl in Hc.
  - simplify_eq. pose proof (len_nonneg buf).
    destruct (stores_read _ _ Hn s bytes' (fl_offset f) buf HI) as (s' & Hrun & HI');
      [by destruct Hoff|].
    eexists _, s'. simpl. unfold file_read, on_root, set_offset. st_run. cbn [fst]. rewrite Hr, Hrun.
    unfold usize_add. rewrite checked_ok by (unfold in_usize in *; lia).
    split_and!; try done. split_and!; try done; simpl; unfold in_usize in *; lia.
  - case_bool_decide as Hfit; [|done]. simplify_eq. destruct Hfit as [Hle Hmax].
    pose proof (len_nonneg buf). pose proof (len_nonneg bytes).
    set (off := if fl_append f then len bytes else fl_offset f) in *.
    assert (0 ≤ off) by (unfold off, in_usize in *; destruct (fl_append f); lia).
    assert (Hat : ∃ s1, I s1 bytes ∧ (if fl_append f then
        attr ← on_root (K:=OFile) (file_get_attr f); mret (a_size attr) else mret (fl_offset f)) (f, s)
        = (Ok off, (f, s1))).
    { unfold off. destruct (fl_append f); [|by exists s].
      destruct (stores_attr _ _ Hn s bytes HI) as (a & s1 & Ha & Hsz & HI1). exists s1. split; [done|].
      unfold on_root, file_get_attr. st_run. by rewrite He, Ha, Hsz. }
    destruct Hat as (s1 & HI1 & Hat).
    destruct (stores_write _ _ Hn s1 bytes off buf HI1) as (s' & Hrun & HI'); [lia|].
    eexists _, s'. cbn [fop_do]. unfold file_write, on_root, set_offset in *. st_run. cbn [fst] in *.
    rewrite Hat, Hw, Hrun. unfold usize_add. rewrite checked_ok by (unfold in_usize in *; lia).
    split_and!; try done.
    + split_and!; try done; simpl; unfold in_usize in *; lia.
    + rewrite splice_grow by lia. unfold in_usize in *. lia.
  - destruct (stores_attr _ _ Hn s bytes HI) as (a & s1 & Ha & Hsz & HI1).
    cbn [fop_do]. unfold file_seek, on_root, file_get_attr, set_offset. st_run. cbn [fst].
    rewrite He, Ha, Hsz. set (q := match p with SeekStart _ => _ | _ => _ end) in *.
    assert (∀ x, q = Some x → in_usize x) as Hq.
    { intros x. unfold q, checked_add_signed. destruct p; [intros [= <-]; done|..];
        case_bool_decide; try done; by intros [= <-]. }
    clearbody q. destruct q as [x|]; simplify_eq; cbn; eexists _, s1; split_and!; try done.
    split_and!; try done. simpl. by apply Hq.
Qed.

(** C8: An open file is a sequence of bytes with a cursor: on a node that stores
    bytes, any sequence of reads, writes and seeks returns what the specification
    returns, counts, buffers and errors included, and leaves the node with its
    bytes and the cursor at its position.  In append mode each write goes to the
    end, wherever the cursor was. *)
Theorem file_is_byte_cursor I ops f s bytes rs bytes' pos' :
  stores (fl_node f) I → I s bytes → handle_ok f → in_usize (len bytes) → Forall fop_ok ops →
  cursor_run (fl_append f) ops bytes (fl_offset f) = Some (rs, (bytes', pos')) →
  ∃ f' s', fop_run ops (f, s) = (rs, (f', s')) ∧ same_handle f f' ∧
    fl_offset f' = pos' ∧ I s' bytes'.
Proof.
  intros Hn HI Hf Hb Hops. revert f s bytes rs Hn HI Hf Hb.
  induction Hops as [|o ops Ho _ IH]; intros f s bytes rs Hn HI Hf Hb Hc; simpl in Hc |- *.
  { simplify_eq. by exists f, s. }
  destruct (cursor_do _ o bytes (fl_offset f)) as [[r [b1 p1]]|] eqn:Hd; [|done]. simpl in Hc.
  destruct (fop_do_refines I o f s bytes r b1 p1) as (f1 & s1 & -> & Hs1 & Hf1 & <- & HI1 & Hb1);
    [done..|].
  destruct (cursor_run _ ops b1 (fl_offset f1)) as [[rs1 k]|] eqn:Hrun; [|done]. simplify_eq/=.
  pose proof Hs1 as (En & Ec & Ea). rewrite <-Ea in Hrun. rewrite <-En in Hn.
  destruct (IH f1 s1 b1 rs1) as (f2 & s2 & -> & (En2 & Ec2 & Ea2) & Hp2 & HI2); [done..|].
  exists f2, s2. split_and!; [done| |done|done]. split_and!; congruence.
Qed.
End cursor.

(** ** A concrete set of capabilities *)
Module TinyCap.
Definition tiny_cap : Type := bool * bool * bool.

Definition tiny_has (c : tiny_cap) (f : cap_flag) : bool :=
  match f with CapRead => c.1.1 | CapWrite => c.1.2 | CapExecute => c.2 end.

#[export] Instance tiny_caps : CapAccess tiny_cap := {|
  cap_empty := (false, false, false);
  cap_READ := (true, false, false);
  cap_WRITE := (false, true, false);
  cap_EXECUTE := (false, false, true);
  cap_or a b := (a.1.1 || b.1.1, a.1.2 || b.1.2, a.2 || b.2);
  cap_contains a b := (negb b.1.1 || a.1.1) && (negb b.1.2 || a.1.2) && (negb b.2 || a.2);
  access_or_err A E inner own cap err :=
    if (negb cap.1.1 || own.1.1) && (negb cap.1.2 || own.1.2) && (negb cap.2 || own.2)
    then Ok inner else Err err;
|}.

#[export] Program Instance tiny_caps_ok : CapAccessOk tiny_cap := {| cap_has := tiny_has |}.
Next Obligation. by intros []. Qed.
Next Obligation. by intros []. Qed.
Next Obligation. by intros []. Qed.
Next Obligation. by intros []. Qed.
Next Obligation. by intros [[??]?] [[??]?] []. Qed.
Next Obligation.
  intros [[a1 a2] a3] [[b1 b2] b3]. simpl. split.
  - destruct a1, a2, a3, b1, b2, b3; try done; by intros _ [].
  - intros Hf. pose proof (Hf CapRead) as H1. pose proof (Hf CapWrite) as H2.
    pose proof (Hf CapExecute) as H3. simpl in *. destruct b1, b2, b3, a1, a2, a3; naive_solver.
Qed.
Next Obligation. done. Qed.
End TinyCap.

Module FopsExamples.
Import TinyFs TinyCap.

#[local] Instance checks : OverflowChecks := true.

(** A file system with one file and one directory. *)
Definition nodes0 : gmap (Z * string) (VfsNodeType * list u8) :=
  {[(0, "a") := (File, [x61; x62]); (0, "d") := (Dir, [])]}.
Definition state0 : root_st (W:=tiny) (F:=Z) (N:=Z * string) :=
  mkRootSt (mkTiny 1 nodes0 []) (Some (rd_new 0)) (Some RootNode) "/".

Definition read_only : OpenOptions := mkOptions true false false false false false.
Definition read_write : OpenOptions := mkOptions true true false false false false.
Definition file_a : OFile (N:=Z * string) (Cap:=tiny_cap) :=
  mkOFile (FsNode (0, "a")) (options_cap read_only) false 0.
Definition dir_d : Directory (N:=Z * string) (Cap:=tiny_cap) :=
  mkDirectory (FsNode (0, "d")) (options_cap read_only) 0.

Lemma open_a : file_open_at None "/a" read_only state0 = (Ok file_a, state0).
Proof. vm_compute. reflexivity. Qed.

Lemma file_respects_open_mode_witness :
  file_write [x63] (file_a, state0) = (Err PermissionDenied, (file_a, state0)) ∧
  file_truncate file_a 0 state0 = (Err PermissionDenied, state0).
Proof.
  destruct (file_respects_open_mode None "/a" read_only state0 file_a state0 open_a
    file_a state0 [x63] 0 0) as [Hw _]; [by split_and!|].
  destruct (Hw eq_refl eq_refl) as (H1 & _ & H3 & _). split; [exact H1|exact H3].
Defined.

Lemma open_d : open_dir "/d" read_only state0 = (Ok dir_d, state0).
Proof. vm_compute. reflexivity. Qed.

Lemma relative_operations_denied_witness :
  dir_create_file dir_d "new" state0 = (Err PermissionDenied, state0).
Proof.
  destruct (relative_operations_denied "/d" read_only state0 dir_d state0 open_d
    "new" state0 read_only eq_refl) as (_ & _ & Hc & _).
  exact Hc.
Defined.

Definition rw_a : OFile (N:=Z * string) (Cap:=tiny_cap) :=
  mkOFile (FsNode (0, "a")) (options_cap read_write) false 0.

(** The file is there and holds [bytes]. *)
Definition holds_a (s : root_st (W:=tiny) (F:=Z) (N:=Z * string)) (bytes : list u8) : Prop :=
  nodes (world s) !! (0, "a") = Some (File, bytes).

Lemma a_stores : stores (fl_node rw_a) holds_a.
Proof.
  split.
  - intros s b HI. unfold holds_a in HI. eexists _, s.
    unfold nref_get_attr, in_world. simpl. unfold with_node, found. simpl. rewrite HI.
    split_and!; [by destruct s|done|done].
  - intros s b off buf HI Hoff k. unfold holds_a in HI. exists s. unfold nref_read_at, in_world. simpl.
    unfold with_node, found. simpl. rewrite HI. split; [by destruct s|done].
  - intros s b off buf HI Hoff. unfold holds_a in HI. eexists.
    unfold nref_write_at, in_world. simpl. unfold with_node, found. simpl. rewrite HI. split; [done|].
    unfold holds_a. simpl. rewrite lookup_insert_eq. do 2 f_equal. unfold overwrite.
    pose proof (len_nonneg buf). unfold splice. rewrite take_app_le by (unfold len in *; lia).
    f_equal. f_equal. rewrite drop_app. unfold len in *.
    rewrite (drop_ge (replicate _ _)) by (rewrite length_replicate; lia). by rewrite app_nil_r.
Qed.

Definition edit : list file_op :=
  [FSeek (SeekEnd 0); FWrite [x63]; FSeek (SeekStart 1); FRead [x00; x00; x00]; FSeek (SeekCurrent (-9))].

Lemma file_is_byte_cursor_witness :
  ∃ f' s', fop_run edit (rw_a, state0) =
      ([Ok (2, []); Ok (1, []); Ok (1, []); Ok (2, [x62; x63; x00]); Err InvalidInput], (f', s')) ∧
    same_handle rw_a f' ∧ fl_offset f' = 3 ∧ holds_a s' [x61; x62; x63].
Proof.
  apply (file_is_byte_cursor holds_a edit rw_a state0 [x61; x62]).
  - exact a_stores.
  - vm_compute. reflexivity.
  - vm_compute. intuition congruence.
  - vm_compute. intuition congruence.
  - repeat constructor; vm_compute; congruence.
  - vm_compute. reflexivity.
Defined.
End FopsExamples.
