(* ===== verification/Api.v ===== *)
(** * The file interface of ArceOS programs ([modules/axfs/src/api])

    [File], [OpenOptions] and [Metadata] wrap the types of [Fops]; [ReadDir]
    iterates over the entries of a directory, which it fetches 31 at a time.  The
    loop of [next] skips [.] and [..], so it has fuel; the theorem says how much is
    enough.  [read], [read_to_string] and [write] of [api/mod.rs] are in
    [ApiFiles]. *)

From Stdlib Require Import Ascii Strings.Byte.
From S2P Require Import Prelude RustStr Disk Vfs RootFs Fops.

(** ** [OpenOptions] and [File] *)
Definition set_read (b : bool) (o : OpenOptions) : OpenOptions :=
  mkOptions b (o_write o) (o_append o) (o_truncate o) (o_create o) (o_create_new o).
Definition set_write (b : bool) (o : OpenOptions) : OpenOptions :=
  mkOptions (o_read o) b (o_append o) (o_truncate o) (o_create o) (o_create_new o).
Definition set_append (b : bool) (o : OpenOptions) : OpenOptions :=
  mkOptions (o_read o) (o_write o) b (o_truncate o) (o_create o) (o_create_new o).
Definition set_truncate (b : bool) (o : OpenOptions) : OpenOptions :=
  mkOptions (o_read o) (o_write o) (o_append o) b (o_create o) (o_create_new o).
Definition set_create (b : bool) (o : OpenOptions) : OpenOptions :=
  mkOptions (o_read o) (o_write o) (o_append o) (o_truncate o) b (o_create_new o).
Definition set_create_new (b : bool) (o : OpenOptions) : OpenOptions :=
  mkOptions (o_read o) (o_write o) (o_append o) (o_truncate o) (o_create o) b.

Section api.
Context `{OverflowChecks} {W F N Cap : Type} `{!Vfs W F N, !CapAccess Cap}.

Abbreviation root_state := (root_st (W:=W) (F:=F) (N:=N)).
Abbreviation io := (st root_state AxError).
Abbreviation ofile := (OFile (N:=N) (Cap:=Cap)).

Definition api_open (path : string) : io ofile := file_open path (set_read true options_new).

Definition api_create (path : string) : io ofile :=
  file_open path (set_truncate true (set_create true (set_write true options_new))).

Definition api_create_new (path : string) : io ofile :=
  file_open path (set_create_new true (set_write true (set_read true options_new))).

Definition api_set_len (f : ofile) (size : Z) : io () := file_truncate f size.

Definition api_file_metadata (f : ofile) : io VfsNodeAttr := file_get_attr f.

(** A file that lives for one call: it is released when the call is over, whatever
    the result. *)
Definition with_temp {A} (f : ofile) (m : io A) : io A := λ s,
  let '(r, s) := m s in (r, file_drop f s).

Definition api_metadata (path : string) : io VfsNodeAttr :=
  f ← api_open path;
  with_temp f (api_file_metadata f).

Definition api_canonicalize (path : string) : io string := absolute_path path.
Definition api_current_dir : io string := current_dir.
Definition api_set_current_dir (path : string) : io () := set_current_dir path.
Definition api_remove_dir (path : string) : io () := remove_dir None path.
Definition api_remove_file (path : string) : io () := remove_file None path.
Definition api_rename (old new : string) : io () := rename old new.

(** ** [DirBuilder] *)
Definition dir_builder_create (recursive : bool) (path : string) : io () :=
  if recursive then throw Unsupported else create_dir None path.

Definition api_create_dir (path : string) : io () := dir_builder_create false path.
Definition api_create_dir_all (path : string) : io () := dir_builder_create true path.

(** ** [ReadDir] *)
Record ReadDir : Type := mkReadDir {
  rr_path : string;
  rr_inner : Directory (N:=N) (Cap:=Cap);
  buf_pos : Z;
  buf_end : Z;
  end_of_stream : bool;
  dirent_buf : list VfsDirEntry;
}.

Record DirEntry : Type := mkEntry {
  dir_path : string;
  entry_name : string;
  entry_type : VfsNodeType;
}.

Definition read_dir_new (path : string) : io ReadDir :=
  inner ← open_dir path (set_read true options_new);
  mret (mkReadDir path inner 0 0 false (replicate 31 dirent_default)).

(** What a call of [next] returns; [Running] says that it has not returned yet. *)
Inductive next_item : Type :=
| Running
| Done
| Failed (e : AxError)
| Item (d : DirEntry).

Definition upd_rr (f : ReadDir → ReadDir) : st (ReadDir * root_state) AxError () :=
  modify (λ '(rr, s), (f rr, s)).

Definition set_eos (rr : ReadDir) : ReadDir :=
  mkReadDir (rr_path rr) (rr_inner rr) (buf_pos rr) (buf_end rr) true (dirent_buf rr).
Definition set_window (pos stop : Z) (rr : ReadDir) : ReadDir :=
  mkReadDir (rr_path rr) (rr_inner rr) pos stop (end_of_stream rr) (dirent_buf rr).

(** [self.inner.read_dir(&mut self.dirent_buf)], whose result is looked at. *)
Definition fetch : st (ReadDir * root_state) AxError (AxError + Z) := λ '(rr, s),
  match dir_read_dir (dirent_buf rr) (rr_inner rr, s) with
  | (Ok (n, buf), (d, s)) =>
      (Ok (inr n), (mkReadDir (rr_path rr) d (buf_pos rr) (buf_end rr) (end_of_stream rr) buf, s))
  | (Err e, (d, s)) =>
      (Ok (inl e),
       (mkReadDir (rr_path rr) d (buf_pos rr) (buf_end rr) (end_of_stream rr) (dirent_buf rr), s))
  | (Panic, (d, s)) => (Panic, (rr, s))
  end.

(** The refill at the top of the loop: a result here ends the call. *)
Definition refill : st (ReadDir * root_state) AxError (option next_item) :=
  rr ← gets fst;
  if buf_end rr <=? buf_pos rr then
    r ← fetch;
    match r with
    | inr n =>
        if n =? 0 then upd_rr set_eos;; mret (Some Done)
        else upd_rr (set_window 0 n);; mret None
    | inl e => upd_rr set_eos;; mret (Some (Failed e))
    end
  else mret None.

Fixpoint next_loop (fuel : nat) : st (ReadDir * root_state) AxError next_item :=
  match fuel with
  | O => mret Running
  | S fuel =>
      ended ← refill;
      match ended with
      | Some r => mret r
      | None =>
          rr ← gets fst;
          entry ← lift (unwrap (dirent_buf rr !! Z.to_nat (buf_pos rr)));
          pos ← lift (usize_add (buf_pos rr) 1);
          upd_rr (set_window pos (buf_end rr));;
          if bool_decide (d_name entry = ".") || bool_decide (d_name entry = "..")
          then next_loop fuel
          else mret (Item (mkEntry (rr_path rr) (d_name entry) (d_type entry)))
      end
  end.

Definition read_dir_next (fuel : nat) : st (ReadDir * root_state) AxError next_item :=
  rr ← gets fst;
  if end_of_stream rr then mret Done else next_loop fuel.

(** [DirEntry::path] *)
Definition entry_path (e : DirEntry) : string := trim_end "/" (dir_path e) +:+ "/" +:+ entry_name e.

(** [n] calls of [next]. *)
Fixpoint next_calls (fuel n : nat) : st (ReadDir * root_state) AxError (list next_item) :=
  match n with
  | O => mret []
  | S n => r ← read_dir_next fuel; rs ← next_calls fuel n; mret (r :: rs)
  end.
End api.

(** ** The iterator visits every entry once *)
Section read_dir_spec.
Context `{OverflowChecks} {W F N Cap : Type}.
Context `{!Vfs W F N, !CapAccess Cap, !CapAccessOk Cap}.
Context (path : string) (node : VfsNodeRef (N:=N)).
Context (I : root_st (W:=W) (F:=F) (N:=N) → Prop) (L : list VfsDirEntry).
Context (HL : serves (nref_read_dir node) I L) (Hfit : in_usize (len L)).

Definition is_dots (e : VfsDirEntry) : bool :=
  bool_decide (d_name e = ".") || bool_decide (d_name e = "..").

Definition item (e : VfsDirEntry) : next_item := Item (mkEntry path (d_name e) (d_type e)).

(** [rest]: the entries that the iterator has not returned. *)
Definition iter_inv (rest : list VfsDirEntry)
    (k : ReadDir (N:=N) (Cap:=Cap) * root_st (W:=W) (F:=F) (N:=N)) : Prop :=
  let '(rr, s) := k in
  I s ∧ rr_path rr = path ∧ dr_node (rr_inner rr) = node ∧
  cap_has (dr_cap (rr_inner rr)) CapRead = true ∧ end_of_stream rr = false ∧
  len (dirent_buf rr) = 31 ∧ 0 ≤ entry_idx (rr_inner rr) ≤ len L ∧
  0 ≤ buf_pos rr ≤ buf_end rr ∧ buf_end rr ≤ 31 ∧
  sub (buf_pos rr) (buf_end rr - buf_pos rr) (dirent_buf rr) ++
    drop (Z.to_nat (entry_idx (rr_inner rr))) L = rest.

(** Everything was returned. *)
Definition ended (k : ReadDir (N:=N) (Cap:=Cap) * root_st (W:=W) (F:=F) (N:=N)) : Prop :=
  end_of_stream k.1 = true.

Lemma page_sub start entries dirents :
  0 ≤ start ≤ len entries →
  let n := ((len entries - start) `max` 0) `min` len dirents in
  page start entries dirents = (n, splice 0 (sub start n entries) dirents) ∧
  n = (len entries - start) `min` len dirents ∧
  sub 0 n (splice 0 (sub start n entries) dirents) ++ drop (Z.to_nat (start + n)) entries =
    drop (Z.to_nat start) entries ∧
  len (splice 0 (sub start n entries) dirents) = len dirents.
Proof.
  intros Hs n. pose proof (len_nonneg dirents).
  assert (Hl : len (sub start n entries) = n) by (apply sub_len; lia).
  split_and!; [done|lia| |rewrite splice_len; lia].
  rewrite splice_0. replace n with (len (sub start n entries)) at 1 by done.
  unfold sub at 1, len at 1. rewrite Nat2Z.id, drop_0, take_app_length.
  unfold sub. rewrite Z2Nat.inj_add, <-drop_drop by lia. apply take_drop.
Qed.

Lemma fetch_run rest rr s :
  iter_inv rest (rr, s) → buf_pos rr = buf_end rr →
  let n := (len L - entry_idx (rr_inner rr)) `min` 31 in
  ∃ rr' s', fetch (rr, s) = (Ok (inr n), (rr', s')) ∧ n ≤ len rest ∧ (n = 0 → rest = []) ∧
    iter_inv rest (set_window 0 n rr', s').
Proof.
  intros (HI & Hp & Hn & Hc & He & Hb & Hi & Hpos & Hend & Hrest) Heq n.
  assert (Hrest' : drop (Z.to_nat (entry_idx (rr_inner rr))) L = rest).
  { rewrite <-Hrest, Heq, Z.sub_diag. done. }
  destruct (HL (entry_idx (rr_inner rr)) (dirent_buf rr) s) as (s' & Hr & HI'); [lia|done|].
  destruct (page_sub (entry_idx (rr_inner rr)) L (dirent_buf rr) Hi) as (Hpage & Hmin & Hsub & Hlen).
  rewrite Hpage in Hr. rewrite Hb in Hmin, Hr, Hsub, Hlen. rewrite Hmin in Hr, Hsub, Hlen. fold n in Hr, Hsub, Hlen.
  eexists _, s'. unfold fetch, dir_read_dir, on_root, dir_access. st_run. cbn [fst].
  rewrite (access_flag _ _ _ CapRead), Hc, Hn by apply cap_has_read. rewrite Hr.
  unfold usize_add. rewrite checked_ok by (unfold in_usize in *; lia).
  assert (len rest = len L - entry_idx (rr_inner rr))
    by (rewrite <-Hrest'; unfold len in *; rewrite length_drop; lia).
  split_and!; [done|lia| |].
  - intros Hz. apply nil_length_inv. unfold len in *. lia.
  - unfold iter_inv; simpl. rewrite Z.sub_0_r. split_and!; try done; try lia. by rewrite Hsub.
Qed.

Lemma refill_run rest rr s :
  iter_inv rest (rr, s) →
  (rest = [] ∧ ∃ k', refill (rr, s) = (Ok (Some Done), k') ∧ ended k') ∨
  (∃ rr' s', refill (rr, s) = (Ok None, (rr', s')) ∧ iter_inv rest (rr', s') ∧
     buf_pos rr' < buf_end rr').
Proof.
  intros Hinv. unfold refill, upd_rr. st_run. cbn [fst].
  pose proof Hinv as (_ & _ & _ & _ & _ & _ & Hi & Hpos & _).
  destruct (Z.leb_spec (buf_end rr) (buf_pos rr)); [|right; exists rr, s; split_and!; [done|exact Hinv|done]].
  destruct (fetch_run rest rr s Hinv) as (rr' & s' & -> & Hle & Hz & Hinv'); [lia|].
  set (n := _ `min` 31) in *. destruct (Z.eqb_spec n 0).
  - left. split; [by apply Hz|]. by eexists.
  - right. exists (set_window 0 n rr'), s'. split; [done|]. split; [exact Hinv'|]. simpl. lia.
Qed.

(** The entries that are returned. *)
Definition shown (l : list VfsDirEntry) : list VfsDirEntry := List.filter (λ e, negb (is_dots e)) l.

Lemma shown_cons e l : shown (e :: l) = if is_dots e then shown l else e :: shown l.
Proof. unfold shown; simpl. by destruct (is_dots e). Qed.

(** Taking one entry out of the buffer. *)
Lemma take_entry rest rr s :
  iter_inv rest (rr, s) → buf_pos rr < buf_end rr →
  ∃ e rest', rest = e :: rest' ∧ dirent_buf rr !! Z.to_nat (buf_pos rr) = Some e ∧
    iter_inv rest' (set_window (buf_pos rr + 1) (buf_end rr) rr, s).
Proof.
  intros (HI & Hp & Hn & Hc & He & Hb & Hi & Hpos & Hend & Hrest) Hlt.
  destruct (lookup_lt_is_Some_2 (dirent_buf rr) (Z.to_nat (buf_pos rr))) as [e Hlook];
    [unfold len in *; lia|].
  exists e. eexists. split_and!; [|done|by split_and!; simpl; try done; try lia].
  rewrite <-Hrest. simpl. unfold sub. rewrite (drop_S _ e) by done.
  replace (Z.to_nat (buf_end rr - buf_pos rr)) with (S (Z.to_nat (buf_end rr - (buf_pos rr + 1)))) by lia.
  simpl. do 3 f_equal. replace (S (Z.to_nat (buf_pos rr))) with (Z.to_nat (buf_pos rr + 1)) by lia.
  done.
Qed.

Lemma next_loop_run fuel rest rr s :
  iter_inv rest (rr, s) → (length rest < fuel)%nat →
  match shown rest with
  | [] => ∃ k', next_loop fuel (rr, s) = (Ok Done, k') ∧ ended k'
  | e :: tl => ∃ k' rest', next_loop fuel (rr, s) = (Ok (item e), k') ∧ iter_inv rest' k' ∧
      shown rest' = tl ∧ (length rest' < length rest)%nat
  end.
Proof.
  revert rest rr s. induction fuel as [|fuel IH]; intros rest rr s Hinv Hf; [lia|]. cbn [next_loop].
  unfold upd_rr. st_run.
  destruct (refill_run rest rr s Hinv) as [[-> (k' & -> & He)]|(rr' & s' & -> & Hinv' & Hlt)];
    [by exists k'|]. cbn [fst].
  destruct (take_entry rest rr' s' Hinv' Hlt) as (e & rest' & -> & -> & Hinv1).
  rewrite shown_cons. cbn [unwrap]. fold (is_dots e).
  pose proof Hinv' as (_ & Hp & _ & _ & _ & _ & _ & ? & ? & _).
  unfold usize_add. rewrite checked_ok by (unfold in_usize, usize_max; lia).
  destruct (is_dots e).
  - specialize (IH rest' _ s' Hinv1). simpl in Hf. specialize (IH ltac:(lia)).
    destruct (shown rest') as [|e' tl]; [done|].
    destruct IH as (k' & rest2 & -> & ? & ? & ?). exists k', rest2. split_and!; [done..|simpl; lia].
  - eexists _, rest'. rewrite Hp. split_and!; [done|done|done|simpl; lia].
Qed.

Lemma ended_calls fuel n k : ended k → next_calls fuel n k = (Ok (replicate n Done), k).
Proof.
  intros He. induction n as [|n IH]; [done|]. simpl. unfold read_dir_next. st_run.
  unfold ended in He. rewrite He. by rewrite IH.
Qed.

Lemma next_calls_run fuel n rest k :
  iter_inv rest k → (length rest < fuel)%nat →
  ∃ k', next_calls fuel n k = (Ok (take n ((item <$> shown rest) ++ replicate n Done)), k').
Proof.
  revert rest k. induction n as [|n IH]; intros rest [rr s] Hinv Hf; [by eexists|].
  cbn [next_calls]. unfold read_dir_next. st_run. cbn [fst].
  pose proof Hinv as (_ & _ & _ & _ & He & _). rewrite He.
  pose proof (next_loop_run fuel rest rr s Hinv Hf) as Hn.
  destruct (shown rest) as [|e tl].
  - destruct Hn as (k' & -> & Hend). rewrite (ended_calls _ _ _ Hend). exists k'. simpl.
    by rewrite firstn_all2 by (rewrite length_replicate; lia).
  - destruct Hn as (k' & rest' & -> & Hinv' & <- & Hlt).
    destruct (IH rest' k' Hinv') as (k2 & ->); [lia|]. exists k2. do 3 f_equal.
    rewrite replicate_S_end, app_assoc, (take_app_le _ [Done]); [done|].
    rewrite length_app, length_replicate. simpl. lia.
Qed.
End read_dir_spec.

Section read_dir_theorem.
Context `{OverflowChecks} {W F N Cap : Type}.
Context `{!Vfs W F N, !CapAccess Cap, !CapAccessOk Cap}.

(** C32: Iterating over a directory visits every entry exactly once.  For a
    directory that serves a listing, with more fuel than the listing has entries
    every call of [next] returns; the calls give the entries of the listing except
    [.] and [..], in order and with their types, and after the last one [None] for
    good.  The buffer of 31 entries is invisible. *)
Theorem read_dir_visits_once path node I L fuel n rr
    (s : root_st (W:=W) (F:=F) (N:=N)) :
  serves (nref_read_dir node) I L → in_usize (len L) → I s →
  rr = mkReadDir path (mkDirectory node (options_cap (Cap:=Cap) (set_read true options_new)) 0)
    0 0 false (replicate 31 dirent_default) →
  (length L < fuel)%nat →
  ∃ k', next_calls fuel n (rr, s) =
    (Ok (take n ((item path <$> shown L) ++ replicate n Done)), k').
Proof.
  intros HL Hfit HI -> Hf. apply (next_calls_run path node I L HL Hfit); [|done].
  pose proof (len_nonneg L). split_and!; try done; simpl; try lia.
  by rewrite options_cap_has.
Qed.
End read_dir_theorem.

Module ApiExamples.
Import TinyFs TinyCap.

#[local] Instance checks : OverflowChecks := true.

(** A root directory with a file, a directory and [..]. *)
Definition nodes1 : gmap (Z * string) (VfsNodeType * list u8) :=
  {[(0, "a") := (File, []); (0, "d") := (Dir, []); (0, "..") := (Dir, []); (0, "d/x") := (File, [])]}.
Definition state1 : root_st (W:=tiny) (F:=Z) (N:=Z * string) :=
  mkRootSt (mkTiny 1 nodes1 []) (Some (rd_new 0)) (Some RootNode) "/".
Definition top : VfsNodeRef (N:=Z * string) := FsNode (0, "").
Definition listing : list VfsDirEntry :=
  (λ x, mkDirEntry x.2 x.1) <$> top_names 0 (mkTiny 1 nodes1 []).
Definition iter : ReadDir (N:=Z * string) (Cap:=tiny_cap) :=
  mkReadDir "/" (mkDirectory top (options_cap (set_read true options_new)) 0)
    0 0 false (replicate 31 dirent_default).

Lemma top_serves : serves (nref_read_dir top) (λ s, s = state1) listing.
Proof.
  intros start dirents s Hs ->. exists state1. split; [|done].
  rewrite page_eq by done. unfold nref_read_dir, top, in_world. simpl. unfold listing.
  rewrite <-fmap_drop, <-fmap_take. unfold len. by rewrite !length_fmap.
Qed.

Lemma read_dir_visits_once_witness :
  ∃ k', next_calls 10 4 (iter, state1) =
    (Ok [Item (mkEntry "/" "a" File); Item (mkEntry "/" "d" Dir); Done; Done], k').
Proof.
  destruct (read_dir_visits_once "/" top (λ s, s = state1) listing 10 4 iter state1)
    as (k' & Hk).
  - exact top_serves.
  - vm_compute. split; congruence.
  - reflexivity.
  - reflexivity.
  - vm_compute. lia.
  - exists k'. rewrite Hk. vm_compute. reflexivity.
Defined.
End ApiExamples.
