(* ===== verification/FdtTree.v ===== *)
(** * Device trees

    The crates that parse and write flattened device trees ([fdt_parser],
    [vm_fdt]) are parameters of the code in [kernel/src/vmm/fdt].  A parsed tree is
    the sequence of its nodes in depth-first order, each with its level (the root
    has level 1); a node is the record of what its accessors return.  A writer is
    the sequence of the calls that were made on it: the documentation of the writer
    accepts exactly the sequences that open and close nodes in a nested way, give
    the properties of a node before its children and close everything.

    This file has the path of a node ([build_node_path] of [device.rs]) and the
    theory of trees, their sequences and their calls; [FdtCreate] and [FdtDevice]
    use it. *)

From Stdlib Require Import Ascii Strings.Byte.
From S2P Require Import Prelude RustStr Disk.

Record fdt_prop : Type := mkProp {
  pr_name : string;
  pr_raw : list u8;
}.

Inductive PciSpace : Type := Configuration | IO | Memory32 | Memory64.

Record PciRange : Type := mkPciRange {
  pci_space : PciSpace;
  pci_cpu_address : Z;
  pci_size : Z;
}.

(** What the accessors of a node return: [reg] gives the address and the size of
    each region, [interrupts] the cells of each interrupt, and [into_pci] followed by
    [ranges] the windows of a PCI bridge. *)
Record node_data : Type := mkData {
  nd_name : string;
  nd_props : list fdt_prop;
  nd_reg : option (list (Z * option Z));
  nd_interrupts : option (list (list Z));
  nd_pci_ranges : option (list PciRange);
}.

Record fdt_node : Type := mkNode {
  n_level : Z;
  n_data : node_data;
}.

Definition n_name (n : fdt_node) : string := nd_name (n_data n).

(** ** Paths

    [path_stack] is kept with its last element first. *)
Fixpoint pop_while (n : Z) (path_stack : list string) : list string :=
  match path_stack with
  | [] => []
  | _ :: rest => if n <=? len path_stack then pop_while n rest else path_stack
  end.

Section paths.
Context `{OverflowChecks}.

Definition path_step (path_stack : list string) (node : fdt_node) : outcome AxError (list string) :=
  if n_level node =? 1 then
    if bool_decide (n_name node ≠ "/") then Ok [n_name node] else Ok []
  else
    n ← usize_sub (n_level node) 1;
    mret (n_name node :: pop_while n path_stack).

Fixpoint path_steps (path_stack : list string) (nodes : list fdt_node) :
    outcome AxError (list string) :=
  match nodes with
  | [] => Ok path_stack
  | node :: nodes => path_stack ← path_step path_stack node; path_steps path_stack nodes
  end.

Definition path_text (path_stack : list string) : string :=
  if is_empty path_stack || bool_decide (path_stack = ["/"]) then "/"
  else "/" +:+ str_join "/" (reverse path_stack).

Definition build_node_path (all_nodes : list fdt_node) (target_index : nat) :
    outcome AxError string :=
  path_stack ← path_steps [] (take (target_index + 1) all_nodes);
  mret (path_text path_stack).
End paths.

(** ** Trees *)
Inductive rtree (A : Type) : Type := RNode (a : A) (children : list (rtree A)).
Arguments RNode {A} _ _.

Section trees.
Context {A : Type}.
Implicit Types (t : rtree A) (ts : list (rtree A)).

Definition rtree_rect' (P : rtree A → Prop)
    (H : ∀ a ts, Forall P ts → P (RNode a ts)) : ∀ t, P t :=
  fix go t :=
    match t with
    | RNode a ts =>
        H a ts ((fix gos ts : Forall P ts :=
          match ts with
          | [] => Forall_nil_2 P
          | t :: ts => Forall_cons_2 P t ts (go t) (gos ts)
          end) ts)
    end.

Definition label t : A := let 'RNode a _ := t in a.
Definition children t : list (rtree A) := let 'RNode _ ts := t in ts.

(** The nodes in depth-first order with their levels. *)
Fixpoint flat (level : Z) t : list (Z * A) :=
  let 'RNode a ts := t in (level, a) :: concat (map (flat (level + 1)) ts).

Definition flats (level : Z) ts : list (Z * A) := concat (map (flat level) ts).

(** The labels alone. *)
Fixpoint labels t : list A := let 'RNode a ts := t in a :: concat (map labels ts).

Context (keep : A → bool).

(** The tree without the nodes that are not kept, and what is below them. *)
Fixpoint prune t : option (rtree A) :=
  let 'RNode a ts := t in
  if keep a then Some (RNode a (omap prune ts)) else None.

(** No kept node is below a node that is not kept. *)
Fixpoint closed t : bool :=
  let 'RNode a ts := t in
  if keep a then forallb closed ts else forallb (λ b, negb (keep b)) (concat (map labels ts)).

Lemma flat_labels level t : (flat level t).*2 = labels t.
Proof.
  revert level. induction t as [a ts IH] using rtree_rect'; intros level.
  cbn [flat labels]. rewrite fmap_cons. cbn [snd]. f_equal.
  induction IH as [|t ts Ht _ IHs]; cbn [map concat]; [done|]. by rewrite fmap_app, Ht, IHs.
Qed.

Lemma flats_labels level ts : (flats level ts).*2 = concat (map labels ts).
Proof.
  unfold flats. induction ts as [|t ts IH]; cbn [map concat]; [done|].
  by rewrite fmap_app, flat_labels, IH.
Qed.

Lemma list_filter_none {B} (f : B → bool) l :
  forallb (λ b, negb (f b)) l = true → List.filter f l = [].
Proof.
  induction l as [|b l IH]; simpl; [done|]. intros [Hb Hl]%andb_prop. rewrite negb_true_iff in Hb.
  rewrite Hb. by apply IH.
Qed.

(** Leaving nodes out of the sequence prunes the tree. *)
Lemma filter_flat level t :
  closed t = true →
  List.filter (λ x, keep x.2) (flat level t) =
    match prune t with Some t' => flat level t' | None => [] end.
Proof.
  revert level. induction t as [a ts IH] using rtree_rect'; intros level Hc. simpl in *.
  fold (flats (level + 1) ts). destruct (keep a) eqn:Ha; simpl.
  - f_equal. unfold flats. induction IH as [|t ts Ht _ IHs]; simpl; [done|].
    apply andb_prop in Hc as [Hct Hcs]. rewrite List.filter_app, Ht, IHs by done.
    unfold omap; simpl. by destruct (prune t).
  - rewrite list_filter_none; [done|]. rewrite <-(flats_labels (level + 1) ts) in Hc.
    clear -Hc. induction (flats (level + 1) ts) as [|x l IH]; simpl in *; [done|].
    apply andb_prop in Hc as [-> Hl]. by apply IH.
Qed.
End trees.

(** ** The path of every node *)
Definition to_node (x : Z * node_data) : fdt_node := mkNode x.1 x.2.

(** The nodes that the parser yields for a tree. *)
Definition nodes_of (t : rtree node_data) : list fdt_node := to_node <$> flat 1 t.

(** Each node with its path; [anc] are the names of the nodes above it, innermost
    first, without the root. *)
Fixpoint annot (anc : list string) (t : rtree node_data) : rtree (string * node_data) :=
  let 'RNode d ts := t in
  RNode (path_text (nd_name d :: anc), d) (map (annot (nd_name d :: anc)) ts).

Definition annot_root (t : rtree node_data) : rtree (string * node_data) :=
  let 'RNode d ts := t in RNode ("/", d) (map (annot []) ts).

(** The root, and no other node, is called [/], and the levels are machine
    integers. *)
Definition is_device_tree (t : rtree node_data) : Prop :=
  nd_name (label t) = "/" ∧ Forall (λ x, x.1 ≤ usize_max) (flat 1 t) ∧
  Forall (λ d, nd_name d ≠ "/") (concat (map labels (children t))).

Section node_paths.
Context `{OverflowChecks}.

(** The paths after each step. *)
Fixpoint scan_paths (path_stack : list string) (nodes : list fdt_node) : outcome AxError (list string) :=
  match nodes with
  | [] => Ok []
  | node :: nodes =>
      path_stack ← path_step path_stack node;
      rest ← scan_paths path_stack nodes;
      mret (path_text path_stack :: rest)
  end.

Lemma scan_paths_build st nodes ps i :
  scan_paths st nodes = Ok ps → (i < length nodes)%nat →
  ∃ p, ps !! i = Some p ∧
    (path_stack ← path_steps st (take (i + 1) nodes); mret (path_text path_stack)) = Ok p.
Proof.
  revert st ps i. induction nodes as [|node nodes IH]; intros st ps i Hs Hi; simpl in *; [lia|].
  apply outcome_bind_ok in Hs as (st' & Hst & Hs). apply outcome_bind_ok in Hs as (rest & Hr & Hs).
  injection Hs as <-. destruct i as [|i]; simpl.
  - rewrite Hst. eexists. split; [done|]. cbn. by destruct nodes.
  - rewrite Hst. cbn. destruct (IH st' rest i Hr ltac:(lia)) as (p & Hp & Hb). exists p. by split.
Qed.

(** [st] grew out of [base], which has as many elements as a node of level [level]
    has ancestors below the root. *)
Definition grown (level : Z) (base st : list string) : Prop :=
  len base = level - 2 ∧ ∃ extra, st = extra ++ base.

Lemma pop_while_grown level base st :
  grown level base st → pop_while (level - 1) st = base.
Proof.
  intros [Hl [extra ->]]. induction extra as [|x extra IH]; simpl.
  - destruct base as [|b base]; [done|]. simpl. rewrite (proj2 (Z.leb_gt _ _)); [done|lia].
  - rewrite (proj2 (Z.leb_le _ _)); [done|]. unfold len in *. simpl. rewrite length_app. lia.
Qed.

Lemma path_step_grown level base st d :
  grown level base st → 2 ≤ level ≤ usize_max →
  path_step st (mkNode level d) = Ok (nd_name d :: base).
Proof.
  intros Hg Hl. unfold path_step, n_name, usize_sub; simpl.
  rewrite (proj2 (Z.eqb_neq _ _)) by lia. rewrite checked_ok by (unfold in_usize; lia). cbn.
  by rewrite (pop_while_grown level base).
Qed.

Lemma grown_child level base st name :
  grown level base st → grown (level + 1) (name :: base) (name :: base).
Proof. intros [Hl _]. split; [unfold len in *; simpl; lia|by exists []]. Qed.

Lemma grown_shrink level base st name :
  len base = level - 2 → grown (level + 1) (name :: base) st → grown level base st.
Proof.
  intros Hb [_ [extra ->]]. split; [done|]. exists (extra ++ [name]). by rewrite <-app_assoc.
Qed.

Lemma scan_forest level base ts rest :
  2 ≤ level →
  Forall (λ t, ∀ level base st rest, grown level base st → 2 ≤ level →
    Forall (λ x, x.1 ≤ usize_max) (flat level t) →
    ∃ st', grown level base st' ∧
      scan_paths st ((to_node <$> flat level t) ++ rest) =
        (λ qs, (labels (annot base t)).*1 ++ qs) <$> scan_paths st' rest) ts →
  ∀ st, grown level base st → Forall (λ x, x.1 ≤ usize_max) (flats level ts) →
  ∃ st', grown level base st' ∧
    scan_paths st ((to_node <$> flats level ts) ++ rest) =
      (λ qs, (concat (map labels (map (annot base) ts))).*1 ++ qs) <$> scan_paths st' rest.
Proof.
  intros Hl Hts. induction Hts as [|t ts Ht Hts IH]; intros st Hg Hmax.
  { exists st. split; [done|]. cbn. by destruct (scan_paths st rest). }
  unfold flats in *. cbn [map concat] in *. apply Forall_app in Hmax as [Hm1 Hm2].
  destruct (Ht level base st ((to_node <$> concat (map (flat level) ts)) ++ rest)) as (st1 & Hg1 & H1);
    [done..|].
  destruct (IH st1 Hg1 Hm2) as (st2 & Hg2 & H2). exists st2. split; [done|].
  rewrite fmap_app, <-app_assoc, H1, H2. destruct (scan_paths st2 rest); cbn; [|done..].
  f_equal. by rewrite fmap_app, app_assoc.
Qed.

Lemma scan_tree t level base st rest :
  grown level base st → 2 ≤ level → Forall (λ x, x.1 ≤ usize_max) (flat level t) →
  ∃ st', grown level base st' ∧
    scan_paths st ((to_node <$> flat level t) ++ rest) =
      (λ qs, (labels (annot base t)).*1 ++ qs) <$> scan_paths st' rest.
Proof.
  revert level base st rest. induction t as [d ts IH] using rtree_rect'.
  intros level base st rest Hg Hl Hmax. cbn [flat labels annot] in *.
  apply Forall_cons in Hmax as [Hm1 Hm2]. simpl in Hm1. rewrite fmap_cons. cbn [app scan_paths].
  change (to_node (level, d)) with (mkNode level d). rewrite (path_step_grown level base) by done. cbn.
  pose proof (grown_child level base st (nd_name d) Hg) as Hgc.
  destruct (scan_forest (level + 1) (nd_name d :: base) ts rest ltac:(lia) IH _ Hgc Hm2)
    as (st' & Hg' & Hs). unfold flats in Hs. rewrite Hs.
  exists st'. split; [by eapply grown_shrink; [destruct Hg|]|].
  destruct (scan_paths st' rest); done.
Qed.

Lemma flat_annot t : ∀ L anc, (λ x, (x.1, x.2.2)) <$> flat L (annot anc t) = flat L t.
Proof.
  induction t as [d ts IH] using rtree_rect'; intros L anc. cbn [flat annot]. rewrite fmap_cons.
  f_equal. induction IH as [|t ts Ht _ IHs]; cbn [map concat]; [done|]. by rewrite fmap_app, Ht, IHs.
Qed.

Lemma flat_annot_root t : (λ x, (x.1, x.2.2)) <$> flat 1 (annot_root t) = flat 1 t.
Proof.
  destruct t as [d ts]. cbn [flat annot_root]. rewrite fmap_cons. f_equal.
  induction ts as [|t ts IH]; cbn [map concat]; [done|]. by rewrite fmap_app, flat_annot, IH.
Qed.

Lemma scan_root t :
  is_device_tree t → scan_paths [] (nodes_of t) = Ok (labels (annot_root t)).*1.
Proof.
  intros (Hr & Hmax & _). destruct t as [d ts]. simpl in Hr.
  unfold nodes_of. cbn [flat annot_root labels]. rewrite !fmap_cons. cbn [scan_paths].
  assert (path_step [] (to_node (1, d)) = Ok []) as ->.
  { unfold path_step, n_name; simpl. by rewrite Hr. }
  apply Forall_cons in Hmax as [_ Hmax].
  destruct (scan_forest 2 [] ts [] ltac:(lia)) with (st := @nil string) as (st' & _ & Hs);
    [apply Forall_forall; intros t _; apply scan_tree|by split; [|exists []]|done|].
  rewrite app_nil_r in Hs. unfold flats in Hs. change (1 + 1) with 2. cbn [mbind outcome_bind].
  rewrite Hs. cbn. by rewrite app_nil_r.
Qed.

(** Every node with its path, by its index. *)
Lemma node_path_at t i node :
  is_device_tree t → nodes_of t !! i = Some node →
  ∃ path, flat 1 (annot_root t) !! i = Some (n_level node, (path, n_data node)) ∧
    build_node_path (nodes_of t) i = Ok path.
Proof.
  intros Ht Hn. pose proof (lookup_lt_Some _ _ _ Hn) as Hi.
  destruct (scan_paths_build [] _ _ i (scan_root t Ht) Hi) as (p & Hp & Hb).
  unfold nodes_of in Hn. rewrite <-flat_annot_root, <-list_fmap_compose in Hn.
  apply list_lookup_fmap_Some in Hn as ([l [path d]] & -> & Hx). exists path. split; [done|].
  rewrite <-(flat_labels 1), !list_lookup_fmap, Hx in Hp. injection Hp as <-. done.
Qed.

(** [build_node_path] finds the path of every node: for the sequence of nodes
    of a device tree, the call for index [i] returns the path of the [i]-th node in
    depth-first order, the names from the root down to the node joined by slashes.
    Siblings and nodes with the same name at other places do not confuse it. *)
Theorem build_node_path_exact t i node :
  is_device_tree t → nodes_of t !! i = Some node →
  ∃ path, flat 1 (annot_root t) !! i = Some (n_level node, (path, n_data node)) ∧
    build_node_path (nodes_of t) i = Ok path.
Proof. apply node_path_at. Qed.
End node_paths.
