(* ===== verification/FdtWrite.v ===== *)
(** * Writing device trees

    [vm_fdt::FdtWriter] and the parser [fdt_parser::Fdt] are classes of operations;
    their law ([FdtWriterOk]) is the documented one: the calls that write a tree,
    each node opened, its properties written, its children, and closed, succeed on a
    new writer, and the bytes it finishes with parse to that tree.

    [kernel/src/vmm/fdt/create.rs] has three loops that copy nodes to a writer and
    keep the open nodes on a stack.  This file has what they share,
    [handle_node_level_change] and the closing loop, and the theorem behind all of
    them: from the levels of the nodes alone they make exactly the calls that write
    the tree. *)

From Stdlib Require Import Ascii Strings.Byte.
From S2P Require Import Prelude RustStr Disk FdtTree.

(** The value of a property as the writer gets it. *)
Inductive wval : Type :=
  | VRaw (raw : list u8)
  | VStr (s : string)
  | VU32s (l : list Z).

(** The calls on a writer that is given the node on top of the stack to close. *)
Inductive wcall : Type :=
  | WBegin (name : string)
  | WProp (name : string) (v : wval)
  | WEnd.

(** Big-endian words, and strings with their terminator. *)
Definition be32 (n : Z) : list u8 :=
  [u8_of (Z.shiftr n 24); u8_of (Z.shiftr n 16); u8_of (Z.shiftr n 8); u8_of n].

Definition encode (v : wval) : list u8 :=
  match v with
  | VRaw raw => raw
  | VStr s => String.list_byte_of_string s ++ [x00]
  | VU32s l => concat (map be32 l)
  end.

(** A node to write: its name and its properties. *)
Definition wnode : Type := string * list (string * wval).

Definition prop_calls (d : wnode) : list wcall := (λ '(n, v), WProp n v) <$> d.2.

(** The calls that write a tree. *)
Fixpoint ser (t : rtree wnode) : list wcall :=
  let 'RNode d ts := t in WBegin d.1 :: prop_calls d ++ concat (map ser ts) ++ [WEnd].

Definition sers (ts : list (rtree wnode)) : list wcall := concat (map ser ts).

Fixpoint tmap {A B} (f : A → B) (t : rtree A) : rtree B :=
  let 'RNode a ts := t in RNode (f a) (map (tmap f) ts).

(** What a tree looks like in the finished bytes. *)
Definition written (d : wnode) : string * list (string * list u8) :=
  (d.1, (λ '(n, v), (n, encode v)) <$> d.2).

(** The root is written with an empty name and read as [/]. *)
Definition outline (d : node_data) : string * list (string * list u8) :=
  (if bool_decide (nd_name d = "/") then "" else nd_name d,
   (λ p, (pr_name p, pr_raw p)) <$> nd_props d).

Class FdtWriter (W H : Type) : Type := {
  writer_new : option W;
  begin_node : W → string → option (W * H);
  property : W → string → list u8 → option W;
  property_string : W → string → string → option W;
  property_array_u32 : W → string → list Z → option W;
  end_node : W → H → option W;
  finish : W → option (list u8);
}.

(** [Fdt::from_bytes] with [all_nodes], and [Property::str]. *)
Class FdtParser : Type := {
  from_bytes : list u8 → option (list fdt_node);
  prop_str : fdt_prop → string;
}.

Section writing.
Context `{FdtWriter W H}.

Record writing : Type := mkWriting {
  fdt_writer : W;
  node_stack : list H;
  previous_node_level : Z;
}.

Definition wst : Type → Type := st writing AxError.

Definition set_writer (w : W) (s : writing) : writing :=
  mkWriting w (node_stack s) (previous_node_level s).
Definition set_stack (k : list H) (s : writing) : writing :=
  mkWriting (fdt_writer s) k (previous_node_level s).
Definition set_level (p : Z) (s : writing) : writing :=
  mkWriting (fdt_writer s) (node_stack s) p.

Definition push_node (name : string) : wst () :=
  s ← get;
  '(w, h) ← lift (unwrap (begin_node (fdt_writer s) name));
  put (mkWriting w (h :: node_stack s) (previous_node_level s)).

Definition write_value (name : string) (v : wval) : wst () :=
  s ← get;
  w ← lift (unwrap
    match v with
    | VRaw raw => property (fdt_writer s) name raw
    | VStr t => property_string (fdt_writer s) name t
    | VU32s l => property_array_u32 (fdt_writer s) name l
    end);
  put (set_writer w s).

Definition write_property (p : fdt_prop) : wst () := write_value (pr_name p) (VRaw (pr_raw p)).

Fixpoint write_properties (ps : list fdt_prop) : wst () :=
  match ps with [] => mret () | p :: ps => write_property p;; write_properties ps end.

(** [if let Some(n) = node_stack.pop() { w.end_node(n).unwrap() }] *)
Definition end_popped : wst () :=
  s ← get;
  match node_stack s with
  | [] => mret ()
  | h :: rest =>
      w ← lift (unwrap (end_node (fdt_writer s) h));
      put (mkWriting w rest (previous_node_level s))
  end.

Fixpoint times (n : nat) (m : wst ()) : wst () :=
  match n with O => mret () | S n => m;; times n m end.

Definition handle_node_level_change (current_level previous_level : Z) : wst () :=
  if current_level <=? previous_level then
    times (Z.to_nat (previous_level - current_level + 1)) end_popped
  else mret ().

(** The loop that ends all unclosed nodes; [after] is what it does after closing
    one. *)
Section end_unclosed.
Context `{OverflowChecks} (after : Z → wst ()).

Fixpoint end_unclosed (fuel : nat) : wst () :=
  s ← get;
  match node_stack s, fuel with
  | [], _ => mret ()
  | h :: rest, S fuel =>
      p ← lift (usize_sub (previous_node_level s) 1);
      w ← lift (unwrap (end_node (fdt_writer s) h));
      put (mkWriting w rest p);;
      after p;;
      end_unclosed fuel
  | _ :: _, O => mret ()
  end.
End end_unclosed.
End writing.
Arguments writing : clear implicits.

(** ** Sequences of calls *)
Ltac unfold_wdo :=
  cbn; unfold push_node, write_value, end_popped, set_level, set_writer, get, put, lift,
    unwrap, mbind, st_bind, mret, st_ret; cbn.

Section emit.
Context `{FdtWriter W H}.

Definition wdo (c : wcall) : wst (W:=W) (H:=H) () :=
  match c with
  | WBegin name => push_node name
  | WProp name v => write_value name v
  | WEnd => end_popped
  end.

Fixpoint emit (cs : list wcall) : wst (W:=W) (H:=H) () :=
  match cs with [] => mret () | c :: cs => wdo c;; emit cs end.

(** [emits cs s s']: the calls succeed. *)
Definition emits (cs : list wcall) (s s' : writing W H) : Prop := emit cs s = (Ok (), s').

Lemma emits_nil s : emits [] s s.
Proof. done. Qed.

Lemma emits_app cs1 cs2 s s' :
  emits (cs1 ++ cs2) s s' ↔ ∃ s1, emits cs1 s s1 ∧ emits cs2 s1 s'.
Proof.
  unfold emits. revert s. induction cs1 as [|c cs1 IH]; intros s.
  { split; [intros Hs; by exists s|]. intros (s1 & Hs & Hs'). by injection Hs as <-. }
  cbn [app emit]. split.
  - intros (? & s1 & Hc & Hs)%st_bind_ok. apply IH in Hs as (s2 & Hs1 & Hs2).
    exists s2. split; [|done]. unfold mbind, st_bind. by rewrite Hc.
  - intros (s1 & (? & s2 & Hc & Hs)%st_bind_ok & Hs1). unfold mbind, st_bind. rewrite Hc.
    apply IH. eauto.
Qed.

Lemma emits_cons c cs s s' :
  emits (c :: cs) s s' ↔ ∃ s1, wdo c s = (Ok (), s1) ∧ emits cs s1 s'.
Proof.
  change (c :: cs) with ([c] ++ cs). rewrite emits_app. unfold emits. cbn [emit].
  split; intros (s1 & Hc & Hs); exists s1; (split; [|done]).
  - apply st_bind_ok in Hc as ([] & s2 & Hc & Hr). by injection Hr as <-.
  - unfold mbind, st_bind. by rewrite Hc.
Qed.

Lemma emits_single c s s' : emits [c] s s' ↔ wdo c s = (Ok (), s').
Proof.
  rewrite emits_cons. split; [intros (s1 & Hc & Hr)|intros Hc; by exists s'].
  by injection Hr as <-.
Qed.

(** The writer does not look at the level. *)
Lemma wdo_level c s p : wdo c (set_level p s) = ((wdo c s).1, set_level p (wdo c s).2).
Proof.
  destruct s as [w k q], c as [name|name v|]; unfold_wdo.
  - destruct (begin_node w name) as [[w' h]|]; done.
  - destruct v; cbn; by case_match.
  - destruct k as [|h k]; cbn; [done|]. by destruct (end_node w h).
Qed.

Lemma emits_level cs s s' p : emits cs s s' → emits cs (set_level p s) (set_level p s').
Proof.
  revert s. induction cs as [|c cs IH]; intros s Hs.
  { unfold emits in *. by injection Hs as <-. }
  apply emits_cons in Hs as (s1 & Hc & Hs). apply emits_cons. exists (set_level p s1).
  rewrite wdo_level, Hc. split; [done|by apply IH].
Qed.

Lemma emits_keeps_level cs s s' : emits cs s s' → previous_node_level s' = previous_node_level s.
Proof.
  intros Hs. pose proof (emits_level cs s s' (previous_node_level s) Hs) as Hl.
  destruct s as [w k p]. unfold emits in *. unfold set_level in Hl. cbn in Hl.
  rewrite Hs in Hl. injection Hl as Hl. by rewrite Hl.
Qed.

(** How many nodes are open, when no call closes one that is not. *)
Fixpoint depth (n : nat) (cs : list wcall) : option nat :=
  match cs with
  | [] => Some n
  | WBegin _ :: cs => depth (S n) cs
  | WProp _ _ :: cs => depth n cs
  | WEnd :: cs => match n with O => None | S n => depth n cs end
  end.

Lemma depth_app n cs1 cs2 : depth n (cs1 ++ cs2) = depth n cs1 ≫= λ m, depth m cs2.
Proof.
  revert n. induction cs1 as [|[name|name v|] cs1 IH]; intros n; cbn; [done|by rewrite IH..|].
  destruct n; cbn; [done|apply IH].
Qed.

Lemma depth_ends n k m : depth n (replicate k WEnd) = Some m → n = (k + m)%nat.
Proof.
  revert n. induction k as [|k IH]; intros n; cbn; [by intros [= ->]|].
  destruct n; [done|]. intros Hd. f_equal. by apply IH.
Qed.

Lemma depth_props n d : depth n (prop_calls d) = Some n.
Proof. unfold prop_calls. induction d.2 as [|[name v] ps IH]; cbn; [done|apply IH]. Qed.

Lemma depth_ser n t : depth n (ser t) = Some n.
Proof.
  revert n. induction t as [d ts IH] using rtree_rect'; intros n. cbn [ser depth].
  rewrite depth_app, depth_props. cbn [mbind option_bind]. rewrite depth_app.
  assert (depth (S n) (concat (map ser ts)) = Some (S n)) as ->; [|done].
  induction IH as [|t ts Ht _ IHs]; cbn [map concat]; [done|]. by rewrite depth_app, Ht.
Qed.

Lemma wdo_stack c s s' m :
  wdo c s = (Ok (), s') → depth (length (node_stack s)) [c] = Some m → length (node_stack s') = m.
Proof.
  destruct s as [w k p], c as [name|name v|]; unfold_wdo.
  - destruct (begin_node w name) as [[w' h]|]; cbn; [|done]. by intros [= <-] [= <-].
  - destruct v; cbn; case_match; intros [=]; simplify_eq/=; by intros [= <-].
  - destruct k as [|h k]; cbn; [done|]. destruct (end_node w h); cbn; [|done]. by intros [= <-] [= <-].
Qed.

Lemma emits_stack cs s s' m :
  emits cs s s' → depth (length (node_stack s)) cs = Some m → length (node_stack s') = m.
Proof.
  revert s. induction cs as [|c cs IH]; intros s Hs Hd.
  { unfold emits in Hs. injection Hs as <-. by injection Hd. }
  apply emits_cons in Hs as (s1 & Hc & Hs). change (c :: cs) with ([c] ++ cs) in Hd.
  rewrite depth_app in Hd. destruct (depth _ [c]) as [m'|] eqn:Hm; [|done].
  apply (IH s1 Hs). cbn in Hd. by rewrite (wdo_stack c s s1 m').
Qed.
End emit.

(** ** The calls of a sequence of nodes *)
Definition ends (n : Z) : list wcall := replicate (Z.to_nat n) WEnd.

Fixpoint node_calls (p : Z) (nodes : list (Z * wnode)) : list wcall :=
  match nodes with
  | [] => []
  | (l, d) :: nodes => ends (p - l + 1) ++ WBegin d.1 :: prop_calls d ++ node_calls l nodes
  end.

Fixpoint last_level {A} (p : Z) (nodes : list (Z * A)) : Z :=
  match nodes with [] => p | (l, _) :: nodes => last_level l nodes end.

Lemma last_level_app {A} p (n1 n2 : list (Z * A)) :
  last_level p (n1 ++ n2) = last_level (last_level p n1) n2.
Proof. revert p. induction n1 as [|[l d] n1 IH]; intros p; cbn; [done|apply IH]. Qed.

Lemma node_calls_app p n1 n2 :
  node_calls p (n1 ++ n2) = node_calls p n1 ++ node_calls (last_level p n1) n2.
Proof.
  revert p. induction n1 as [|[l d] n1 IH]; intros p; cbn; [done|].
  rewrite IH, <-!app_assoc. cbn. by rewrite <-app_assoc.
Qed.

Lemma ends_add a b : 0 ≤ a → 0 ≤ b → ends (a + b) = ends a ++ ends b.
Proof. intros Ha Hb. unfold ends. rewrite Z2Nat.inj_add by done. apply replicate_add. Qed.

Lemma forest_calls L ts :
  Forall (λ t, ∀ L p, L - 1 ≤ p →
    L ≤ last_level p (flat L t) ∧
    node_calls p (flat L t) ++ ends (last_level p (flat L t) - L + 1) = ends (p - L + 1) ++ ser t) ts →
  ∀ p, L - 1 ≤ p →
    L - 1 ≤ last_level p (flats L ts) ∧
    node_calls p (flats L ts) ++ ends (last_level p (flats L ts) - L + 1) = ends (p - L + 1) ++ sers ts.
Proof.
  unfold flats, sers. induction 1 as [|t ts Ht _ IH]; intros p Hp; cbn [map concat].
  { cbn. by rewrite app_nil_r. }
  destruct (Ht L p Hp) as [Hl1 He1].
  rewrite last_level_app, node_calls_app.
  destruct (IH (last_level p (flat L t)) ltac:(lia)) as [Hl2 He2]. split; [done|].
  rewrite <-app_assoc, He2, !app_assoc. by rewrite He1.
Qed.

(** From the levels alone, the calls write the tree. *)
Lemma tree_calls t L p :
  L - 1 ≤ p →
  L ≤ last_level p (flat L t) ∧
  node_calls p (flat L t) ++ ends (last_level p (flat L t) - L + 1) = ends (p - L + 1) ++ ser t.
Proof.
  revert L p. induction t as [d ts IH] using rtree_rect'; intros L p Hp.
  cbn [flat last_level node_calls ser]. fold (flats (L + 1) ts). fold (sers ts).
  destruct (forest_calls (L + 1) ts IH L ltac:(lia)) as [Hl He].
  set (q := last_level L (flats (L + 1) ts)) in *. split; [lia|].
  rewrite <-app_assoc. f_equal. cbn [app]. f_equal. rewrite <-app_assoc. f_equal.
  replace (q - L + 1) with ((q - (L + 1) + 1) + 1) by lia. rewrite ends_add by lia.
  rewrite app_assoc, He. by replace (L - (L + 1) + 1) with 0 by lia.
Qed.

Lemma forest_calls_ser L ts p :
  L - 1 ≤ p →
  L - 1 ≤ last_level p (flats L ts) ∧
  node_calls p (flats L ts) ++ ends (last_level p (flats L ts) - L + 1) = ends (p - L + 1) ++ sers ts.
Proof. apply forest_calls, Forall_forall. intros t _. apply tree_calls. Qed.

(** ** The loops make those calls *)
Section loops.
Context `{FdtWriter W H} `{OverflowChecks}.

Lemma times_ends n s s' :
  emits (replicate n WEnd) s s' → times (W:=W) (H:=H) n end_popped s = (Ok (), s').
Proof.
  revert s. induction n as [|n IH]; intros s; cbn [replicate times]; [done|].
  intros (s1 & Hc & Hs)%emits_cons. cbn in Hc. unfold mbind, st_bind. rewrite Hc. by apply IH.
Qed.

Lemma level_change_emits l p s s' :
  emits (ends (p - l + 1)) s s' → handle_node_level_change (W:=W) (H:=H) l p s = (Ok (), s').
Proof.
  unfold handle_node_level_change, ends. destruct (Z.leb_spec l p); [apply times_ends|].
  by replace (Z.to_nat (p - l + 1)) with O by lia.
Qed.

Lemma write_properties_emits ps s s' name :
  emits (prop_calls (name, (λ p, (pr_name p, VRaw (pr_raw p))) <$> ps)) s s' →
  write_properties (W:=W) (H:=H) ps s = (Ok (), s').
Proof.
  unfold prop_calls; cbn [snd]. revert s. induction ps as [|p ps IH]; intros s; cbn; [done|].
  intros (s1 & Hc & Hs)%emits_cons. unfold mbind, st_bind, write_property. cbn in Hc. rewrite Hc.
  by apply IH.
Qed.

(** The calls that close [n] nodes, with those made after each. *)
Fixpoint closing (aft : Z → list wcall) (n : nat) : list wcall :=
  match n with O => [] | S n => WEnd :: aft (Z.of_nat n) ++ closing aft n end.

Lemma end_unclosed_emits (after : Z → wst ()) (aft : Z → list wcall) n s s' :
  (∀ p k s s', previous_node_level s = p → length (node_stack s) = k → emits (aft p) s s' →
    after p s = (Ok (), s') ∧ length (node_stack s') = k) →
  emits (closing aft n) s s' → length (node_stack s) = n → previous_node_level s = Z.of_nat n →
  Z.of_nat n ≤ usize_max →
  end_unclosed (W:=W) (H:=H) after n s = (Ok (), set_level 0 s').
Proof.
  intros Haft. revert s s'. induction n as [|n IH]; intros s s' Hs Hk Hp Hmax.
  { unfold emits in Hs. injection Hs as <-. destruct s as [w [|] p]; [|done]. simpl in Hp. by subst. }
  destruct s as [w [|h k] p]; [done|]. simpl in Hk, Hp. injection Hk as Hk.
  cbn [closing] in Hs. apply emits_cons in Hs as (s1 & Hc & Hs). revert Hc. unfold_wdo.
  destruct (end_node w h) as [w'|] eqn:He; [|done]. intros [= <-].
  apply emits_app in Hs as (s2 & Ha & Hs). apply emits_level with (p := Z.of_nat n) in Ha.
  apply emits_level with (p := Z.of_nat n) in Hs. unfold set_level in Ha at 1. cbn in Ha.
  destruct (λ Hl Hn, Haft (Z.of_nat n) n _ _ Hl Hn Ha) as [Ha' Hk']; [done..|].
  cbn [end_unclosed]. unfold mbind, st_bind, get, put, lift, usize_sub. cbn.
  rewrite checked_ok by (unfold in_usize; lia). rewrite ?He. cbn.
  replace (p - 1) with (Z.of_nat n) by lia. rewrite Ha'.
  rewrite (IH _ _ Hs) by (done || lia). done.
Qed.
End loops.

(** What the documentation of the writer and of the parser promises. [writable]
    trees have valid names and fit. *)
Class FdtWriterOk (W H : Type) `{FdtWriter W H} `{FdtParser} : Type := {
  writable : rtree wnode → Prop;
  writer_builds : ∀ t, writable t → ∃ w s bytes t',
    writer_new (W:=W) = Some w ∧ emits (W:=W) (H:=H) (ser t) (mkWriting w [] 0) s ∧
    finish (fdt_writer s) = Some bytes ∧
    from_bytes bytes = Some (nodes_of t') ∧ tmap outline t' = tmap written t;
}.
