(* ===== verification/GuestMem.v ===== *)
(** * The memory of a guest

    The guest as the image loader and the device-tree code see it through
    [axvm]: its memory regions, the load addresses of its configuration and the
    host memory behind it.  [load_vm_image_from_memory] of
    [kernel/src/vmm/images/mod.rs] copies an image into the slices that
    [get_image_load_region] of [axvm] returns; [calculate_dtb_load_addr] of
    [kernel/src/vmm/fdt/create.rs] and [config_guest_address] of
    [kernel/src/vmm/config.rs] choose load addresses.  Cache maintenance
    ([dcache_range]) does not change what is stored. *)

From Stdlib Require Import Strings.Byte.
From S2P Require Import Prelude Disk.

Record mem_region : Type := mkRegion {
  mr_gpa : Z;
  mr_size : Z;
  mr_identical : bool;
}.

Record guest : Type := mkGuest {
  g_memory_regions : list mem_region;
  g_kernel_load_gpa : Z;
  g_bios_load_gpa : option Z;
  g_dtb_load_gpa : option Z;
  g_ramdisk_load_gpa : option Z;
  g_bsp_entry : Z;
  g_ap_entry : Z;
  g_memory : Z → u8;
}.

Definition set_memory (m : Z → u8) (g : guest) : guest :=
  mkGuest (g_memory_regions g) (g_kernel_load_gpa g) (g_bios_load_gpa g) (g_dtb_load_gpa g)
    (g_ramdisk_load_gpa g) (g_bsp_entry g) (g_ap_entry g) m.

Definition set_dtb_load_gpa (a : Z) (g : guest) : guest :=
  mkGuest (g_memory_regions g) (g_kernel_load_gpa g) (g_bios_load_gpa g) (Some a)
    (g_ramdisk_load_gpa g) (g_bsp_entry g) (g_ap_entry g) (g_memory g).

Definition set_entry (a : Z) (g : guest) : guest :=
  mkGuest (g_memory_regions g) a (g_bios_load_gpa g) (g_dtb_load_gpa g)
    (g_ramdisk_load_gpa g) a a (g_memory g).

(** [get_image_load_region] of [axvm]: host slices, each with its address and
    length, for [size] bytes of guest memory from an address on. *)
Class ImageRegions : Type :=
  get_image_load_region : guest → Z → Z → outcome AxError (list (Z * Z)).

(** [align_down] of [memory_addr]. *)
Class AlignDown : Type := align_down : Z → Z → Z.

Class AlignDownOk `{AlignDown} : Prop :=
  align_down_spec : ∀ a n, 0 ≤ a → 0 < n → align_down a n = a - a mod n.

(** ** Copying an image *)
Definition write_bytes (m : Z → u8) (ptr : Z) (bs : list u8) : Z → u8 := λ a,
  if bool_decide (ptr ≤ a) then default (m a) (bs !! Z.to_nat (a - ptr)) else m a.

Section load.
Context `{OverflowChecks} `{ImageRegions} `{AlignDown}.

Fixpoint copy_regions (image_buffer : list u8) (buffer_pos : Z) (regions : list (Z * Z))
    (m : Z → u8) : outcome AxError (Z → u8) :=
  match regions with
  | [] => Ok m
  | (region, region_len) :: regions =>
      rest ← usize_sub (len image_buffer) buffer_pos;
      let bytes_to_write := Z.min region_len rest in
      src ← slice buffer_pos (len image_buffer) image_buffer;
      let m := write_bytes m region (take (Z.to_nat bytes_to_write) src) in
      buffer_pos ← usize_add buffer_pos bytes_to_write;
      if len image_buffer <=? buffer_pos then Ok m
      else copy_regions image_buffer buffer_pos regions m
  end.

Definition load_vm_image_from_memory (image_buffer : list u8) (load_addr : Z) :
    st guest AxError () :=
  g ← get;
  image_load_regions ← lift (get_image_load_region g load_addr (len image_buffer));
  m ← lift (copy_regions image_buffer 0 image_load_regions (g_memory g));
  put (set_memory m g).

(** ** Load addresses *)
Definition MB : Z := 1024 * 1024.

Definition calculate_dtb_load_addr (fdt_size : Z) : st guest AxError Z :=
  g ← get;
  main_memory ← lift (unwrap (head (g_memory_regions g)));
  dtb_addr ←
    match g_dtb_load_gpa g, mr_identical main_memory with
    | Some addr, false => mret addr
    | _, _ =>
        let main_memory_size := Z.min (mr_size main_memory) (512 * MB) in
        a ← lift (usize_add (mr_gpa main_memory) main_memory_size);
        a ← lift (usize_sub a fdt_size);
        mret (align_down a (2 * MB))
    end;
  modify (set_dtb_load_gpa dtb_addr);;
  mret dtb_addr.

Definition config_guest_address (main_memory : mem_region) : st guest AxError () :=
  g ← get;
  if mr_identical main_memory then
    kernel_addr ←
      match g_bios_load_gpa g with
      | Some _ => lift (usize_add (mr_gpa main_memory) (MB * 2))
      | None => mret (mr_gpa main_memory)
      end;
    put (set_entry kernel_addr g)
  else mret ().
End load.

(** ** What the copy leaves behind *)
Definition read_bytes (m : Z → u8) (ptr n : Z) : list u8 := m <$> seqZ ptr n.

Definition read_regions (m : Z → u8) (rs : list (Z * Z)) : list u8 :=
  concat (map (λ r, read_bytes m r.1 r.2) rs).

Definition total (rs : list (Z * Z)) : Z := foldr Z.add 0 rs.*2.

Definition in_region (a : Z) (r : Z * Z) : Prop := r.1 ≤ a < r.1 + r.2.

Definition apart (r1 r2 : Z * Z) : Prop := r1.1 + r1.2 ≤ r2.1 ∨ r2.1 + r2.2 ≤ r1.1.

(** Slices do not overlap. *)
Fixpoint disjoint_regions (rs : list (Z * Z)) : Prop :=
  match rs with
  | [] => True
  | r :: rs => 0 ≤ r.2 ∧ Forall (apart r) rs ∧ disjoint_regions rs
  end.

Lemma write_bytes_out m ptr bs a :
  ¬ (ptr ≤ a < ptr + len bs) → write_bytes m ptr bs a = m a.
Proof.
  intros Ha. unfold write_bytes. case_bool_decide; [|done].
  rewrite lookup_ge_None_2; [done|]. unfold len in Ha. lia.
Qed.

Lemma read_write_same m ptr bs n :
  len bs ≤ n → read_bytes (write_bytes m ptr bs) ptr n = bs ++ drop (length bs) (read_bytes m ptr n).
Proof.
  intros Hn. unfold len in Hn. apply list_eq. intros i. unfold read_bytes.
  rewrite list_lookup_fmap.
  destruct (decide (i < Z.to_nat n)%nat) as [Hi|Hi].
  - rewrite lookup_seqZ_lt by lia. cbn. unfold write_bytes. rewrite bool_decide_true by lia.
    replace (Z.to_nat (ptr + Z.of_nat i - ptr)) with i by lia.
    destruct (decide (i < length bs)%nat).
    + rewrite lookup_app_l by done. by destruct (lookup_lt_is_Some_2 bs i) as [b ->].
    + rewrite lookup_ge_None_2 by lia. rewrite lookup_app_r by lia. cbn.
      rewrite lookup_drop, list_lookup_fmap, lookup_seqZ_lt by lia. cbn. do 2 f_equal. lia.
  - rewrite lookup_seqZ_ge by lia. cbn. symmetry. apply lookup_ge_None_2.
    rewrite length_app, length_drop, length_fmap, length_seqZ. lia.
Qed.

Lemma read_bytes_ext m m' ptr n :
  (∀ a, ptr ≤ a < ptr + n → m a = m' a) → read_bytes m ptr n = read_bytes m' ptr n.
Proof.
  intros Hm. apply list_eq. intros i. unfold read_bytes. rewrite !list_lookup_fmap.
  destruct (decide (Z.of_nat i < n)); [|by rewrite lookup_seqZ_ge by lia].
  rewrite lookup_seqZ_lt by lia. cbn. by rewrite Hm by lia.
Qed.

Lemma read_bytes_len m ptr n : 0 ≤ n → len (read_bytes m ptr n) = n.
Proof. intros. unfold len, read_bytes. rewrite length_fmap, length_seqZ. lia. Qed.

Lemma load_step m r rs (bs : list u8) :
  len bs ≤ r.2 → disjoint_regions (r :: rs) →
  read_regions (write_bytes m r.1 bs) rs = read_regions m rs.
Proof.
  intros Hb (_ & Ha & _). unfold read_regions.
  induction Ha as [|r' rs Hr _ IH]; cbn [map concat]; [done|]. rewrite IH. f_equal.
  apply read_bytes_ext. intros a Ha. apply write_bytes_out. unfold apart in Hr. lia.
Qed.

Lemma total_nonneg rs : disjoint_regions rs → 0 ≤ total rs.
Proof. induction rs as [|r rs IH]; cbn; [done|]. intros (? & _ & ?%IH). unfold total in *. lia. Qed.

Lemma read_regions_len m rs : disjoint_regions rs → len (read_regions m rs) = total rs.
Proof.
  unfold read_regions, total, len. induction rs as [|r rs IH]; cbn; [done|].
  intros (Hn & _ & Hd). rewrite length_app. specialize (IH Hd).
  pose proof (read_bytes_len m r.1 r.2 Hn). unfold len in *. lia.
Qed.

Section copy.
Context `{OverflowChecks}.

(** The part of the image from [pos] on is copied to the front of the regions. *)
Lemma copy_regions_spec image rs : ∀ pos m,
  disjoint_regions rs → 0 ≤ pos ≤ len image → len image ≤ usize_max →
  ∃ m', copy_regions image pos rs m = Ok m' ∧
    let src := take (Z.to_nat (total rs)) (drop (Z.to_nat pos) image) in
    read_regions m' rs = src ++ drop (length src) (read_regions m rs) ∧
    (∀ a, Forall (λ r, ¬ in_region a r) rs → m' a = m a).
Proof.
  induction rs as [|[ptr n] rs IH]; intros pos m Hd Hpos Hmax.
  { exists m. cbn. by rewrite take_0. }
  pose proof Hd as (Hn & Hap & Hd'). cbn [fst snd] in *. pose proof (total_nonneg rs Hd') as Ht.
  cbn [copy_regions]. unfold usize_sub, usize_add, slice.
  rewrite checked_ok by (unfold in_usize; lia). cbn [mbind outcome_bind].
  rewrite bool_decide_true by lia. cbn [mbind outcome_bind].
  rewrite checked_ok by (unfold in_usize; lia). cbn [mbind outcome_bind].
  set (b := Z.min n (len image - pos)).
  assert (Hsrc : take (Z.to_nat b) (sub pos (len image - pos) image) = take (Z.to_nat b) (drop (Z.to_nat pos) image)).
  { unfold sub. rewrite take_take. f_equal. lia. }
  rewrite Hsrc. set (chunk := take (Z.to_nat b) (drop (Z.to_nat pos) image)).
  assert (Hlen : len chunk = b).
  { unfold chunk, len. rewrite length_take, length_drop. unfold len in *. lia. }
  assert (Hsame : read_bytes (write_bytes m ptr chunk) ptr n = chunk ++ drop (length chunk) (read_bytes m ptr n))
    by (apply read_write_same; lia).
  unfold read_regions. cbn [map concat fst snd]. fold (read_regions m rs).
  destruct (Z.leb_spec (len image) (pos + b)) as [Hdone|Hmore].
  - exists (write_bytes m ptr chunk). split; [done|]. cbn zeta.
    assert (take (Z.to_nat (total ((ptr, n) :: rs))) (drop (Z.to_nat pos) image) = chunk) as ->.
    { unfold chunk. rewrite !take_ge; [done|..]; rewrite length_drop; unfold len, total in *; cbn in *; lia. }
    split.
    + fold (read_regions (write_bytes m ptr chunk) rs).
      rewrite (load_step m (ptr, n)) by (done || cbn; lia). cbn [fst]. rewrite Hsame, <-app_assoc.
      f_equal. rewrite drop_app_le; [done|]. pose proof (read_bytes_len m ptr n Hn). unfold len in *. lia.
    + intros a (Hr & _)%Forall_cons. apply write_bytes_out. unfold in_region in Hr. cbn in Hr. lia.
  - assert (Hb : b = n) by lia. rewrite Hb in *.
    destruct (IH (pos + n) (write_bytes m ptr chunk) Hd' ltac:(lia) Hmax) as (m' & -> & Hm' & Hout).
    exists m'. split; [done|]. cbn zeta in *.
    assert (take (Z.to_nat (total ((ptr, n) :: rs))) (drop (Z.to_nat pos) image) =
      chunk ++ take (Z.to_nat (total rs)) (drop (Z.to_nat (pos + n)) image)) as ->.
    { unfold chunk. change (total ((ptr, n) :: rs)) with (n + total rs).
      rewrite Z2Nat.inj_add, <-take_take_drop, drop_drop by lia. do 3 f_equal; lia. }
    set (src := take (Z.to_nat (total rs)) _) in *. split.
    + fold (read_regions m' rs). rewrite Hm', (load_step m (ptr, n)) by (done || cbn; lia).
      assert (read_bytes m' ptr n = chunk) as ->.
      { transitivity (read_bytes (write_bytes m ptr chunk) ptr n).
        - apply read_bytes_ext. intros a Ha. apply Hout. eapply Forall_impl; [exact Hap|].
          intros r Hr. unfold apart, in_region in *. cbn in Hr. lia.
        - rewrite Hsame, drop_ge; [by rewrite app_nil_r|].
          pose proof (read_bytes_len m ptr n Hn). unfold len in *. lia. }
      rewrite <-app_assoc. do 2 f_equal. rewrite length_app.
      pose proof (read_bytes_len m ptr n Hn) as Hl. unfold len in *.
      rewrite drop_app_ge by lia. f_equal. lia.
    + intros a (Hr & Hrs)%Forall_cons. rewrite Hout by done. apply write_bytes_out.
      unfold in_region in Hr. cbn in Hr. lia.
Qed.
End copy.

Section load_theorems.
Context `{OverflowChecks} `{ImageRegions} `{AlignDown}.

Lemma load_image_spec image addr rs g :
  get_image_load_region g addr (len image) = Ok rs → disjoint_regions rs → len image ≤ usize_max →
  ∃ m, load_vm_image_from_memory image addr g = (Ok (), set_memory m g) ∧
    read_regions m rs =
      take (Z.to_nat (total rs)) image ++ drop (length image) (read_regions (g_memory g) rs) ∧
    (∀ a, Forall (λ r, ¬ in_region a r) rs → m a = g_memory g a).
Proof.
  intros Hr Hd Hmax.
  destruct (copy_regions_spec image rs 0 (g_memory g) Hd) as (m & Hm & Hread & Hout); [unfold len; lia|done|].
  exists m. split_and!; [|rewrite Hread|done].
  - unfold load_vm_image_from_memory, mbind, st_bind, get, lift, put. by rewrite Hr, Hm.
  - f_equal. change (Z.to_nat 0) with O. rewrite drop_0, length_take.
    pose proof (read_regions_len (g_memory g) rs Hd) as Hl. unfold len in Hl.
    destruct (Nat.min_spec (Z.to_nat (total rs)) (length image)) as [[? ->]|[? ->]]; [|done].
    rewrite !drop_ge by lia. done.
Qed.

(** Loading an image from memory stores exactly its bytes: when [axvm] gives
    slices that do not overlap, the call succeeds, the slices, read one after the
    other, hold the image followed by what they held behind it, an image that is
    longer than the slices is cut off at their end, and no byte outside the slices
    and no other part of the guest changes. *)
Theorem image_load_exact image addr rs g :
  get_image_load_region g addr (len image) = Ok rs → disjoint_regions rs → len image ≤ usize_max →
  ∃ m, load_vm_image_from_memory image addr g = (Ok (), set_memory m g) ∧
    read_regions m rs =
      take (Z.to_nat (total rs)) image ++ drop (length image) (read_regions (g_memory g) rs) ∧
    (∀ a, Forall (λ r, ¬ in_region a r) rs → m a = g_memory g a).
Proof. apply load_image_spec. Qed.

(** Where the device tree of a guest is loaded: an address that the
    configuration gives is kept unless the memory is mapped identically; otherwise
    the tree gets a 2 MiB aligned place that ends within the first 512 MiB of the
    main memory and does not start below it.  The address is recorded in the
    configuration and nothing else of the guest changes. *)
Theorem dtb_load_addr_inside `{!AlignDownOk} g r rs fdt_size :
  g_memory_regions g = r :: rs → 0 ≤ mr_gpa r → mr_gpa r mod (2 * MB) = 0 →
  0 ≤ fdt_size ≤ Z.min (mr_size r) (512 * MB) → mr_gpa r + mr_size r ≤ usize_max →
  ∃ a, calculate_dtb_load_addr fdt_size g = (Ok a, set_dtb_load_gpa a g) ∧
    match g_dtb_load_gpa g, mr_identical r with
    | Some preset, false => a = preset
    | _, _ => a mod (2 * MB) = 0 ∧ mr_gpa r ≤ a ∧
        a + fdt_size ≤ mr_gpa r + Z.min (mr_size r) (512 * MB)
    end.
Proof.
  intros Hr Hg Hal Hf Hmax. unfold calculate_dtb_load_addr, mbind, st_bind, get, lift, modify.
  rewrite Hr. cbn [head unwrap].
  set (free := mr_gpa r + Z.min (mr_size r) (512 * MB) - fdt_size).
  assert (Ha : checked (E:=AxError) (mr_gpa r + Z.min (mr_size r) (512 * MB)) =
    Ok (mr_gpa r + Z.min (mr_size r) (512 * MB))) by (apply checked_ok; unfold in_usize, MB in *; lia).
  assert (Hs : checked (E:=AxError) (mr_gpa r + Z.min (mr_size r) (512 * MB) - fdt_size) = Ok free)
    by (apply checked_ok; unfold in_usize, MB in *; lia).
  assert (Hd : align_down free (2 * MB) = free - free mod (2 * MB))
    by (apply align_down_spec; unfold free, MB in *; lia).
  assert (Hplace : (free - free mod (2 * MB)) mod (2 * MB) = 0 ∧ mr_gpa r ≤ free - free mod (2 * MB) ∧
    free - free mod (2 * MB) + fdt_size ≤ mr_gpa r + Z.min (mr_size r) (512 * MB)).
  { unfold MB in *. pose proof (Z.mod_pos_bound free (2 * (1024 * 1024))).
    pose proof (Z.div_mod free (2 * (1024 * 1024))). pose proof (Z.div_mod (mr_gpa r) (2 * (1024 * 1024))).
    split_and!; [|nia|lia].
    replace (free - _) with (free / (2 * (1024 * 1024)) * (2 * (1024 * 1024))) by lia.
    apply Z.mod_mul. lia. }
  unfold usize_add, usize_sub.
  destruct (g_dtb_load_gpa g) as [preset|], (mr_identical r); [|by eexists|..];
    (exists (align_down free (2 * MB)); split; [by rewrite Ha, Hs|by rewrite Hd]).
Qed.
End load_theorems.

Module GuestMemExamples.
#[local] Instance checks : OverflowChecks := true.
(** Two slices, four bytes at 256 and the rest at 512. *)
#[local] Instance two_slices : ImageRegions := λ _ _ size, Ok [(256, 4); (512, size - 4)].
#[local] Instance simple_align_down : AlignDown := λ a n, a - a mod n.
#[local] Instance simple_align_down_ok : AlignDownOk.
Proof. done. Qed.

Definition g : guest :=
  mkGuest [mkRegion (1024 * MB) (256 * MB) true] (1024 * MB) None None None 0 0 (λ _, x00).

Definition image : list u8 := [x01; x02; x03; x04; x05; x06].

Lemma image_load_exact_witness :
  ∃ m, load_vm_image_from_memory image 0 g = (Ok (), set_memory m g) ∧
    read_regions m [(256, 4); (512, 2)] = image.
Proof.
  destruct (image_load_exact image 0 [(256, 4); (512, 2)] g) as (m & Hm & Hr & _).
  - reflexivity.
  - cbn. split_and!; try done. apply Forall_cons. split; [left; cbn; lia|by apply Forall_nil].
  - vm_compute. congruence.
  - exists m. split; [exact Hm|exact Hr].
Defined.

Lemma dtb_load_addr_inside_witness :
  ∃ a, calculate_dtb_load_addr 65536 g = (Ok a, set_dtb_load_gpa a g) ∧
    a mod (2 * MB) = 0 ∧ 1024 * MB ≤ a ∧ a + 65536 ≤ 1024 * MB + 256 * MB.
Proof.
  destruct (dtb_load_addr_inside g (mkRegion (1024 * MB) (256 * MB) true) [] 65536)
    as (a & Ha & Hp); [reflexivity|vm_compute; congruence|reflexivity|vm_compute; split; congruence|vm_compute; congruence|].
  exists a. split; [exact Ha|exact Hp].
Defined.
End GuestMemExamples.
