(* ===== verification/FdtCreate.v ===== *)
(** * The device tree of a guest

    [kernel/src/vmm/fdt/create.rs]: the tree that [crate_guest_fdt] selects from the
    host's, the tree that [update_cpu_node] makes of one that was provided, and the
    last changes and the load of [update_fdt].  The loops keep the writer, the stack
    of open nodes and the level of the previous node ([FdtWrite.writing]). *)

From Stdlib Require Import Ascii Strings.Byte.
From S2P Require Import Prelude RustStr Disk FdtTree FdtWrite GuestMem.

Inductive NodeAction : Type :=
  | Skip
  | RootNode
  | CpuNode
  | IncludeAsPassthroughDevice
  | IncludeAsChildNode
  | IncludeAsAncestorNode.

(** [s.matches(c).count()] *)
Fixpoint count_char (c : ascii) (s : string) : Z :=
  match s with
  | "" => 0
  | String a s => (if bool_decide (a = c) then 1 else 0) + count_char c s
  end.

Definition str_len (s : string) : Z := Z.of_nat (String.length s).

Definition is_descendant_of (node_path : string) (node_level : Z) (passthrough_path : string) : bool :=
  (starts_with passthrough_path node_path && (str_len passthrough_path <? str_len node_path)) &&
  (bool_decide (passthrough_path = "/") ||
   bool_decide (chars node_path !! String.length passthrough_path = Some "/")) &&
  (let expected_parent_level := count_char "/" passthrough_path in
   (bool_decide (passthrough_path = "/") && (2 <=? node_level)) ||
   (bool_decide (passthrough_path ≠ "/") && (expected_parent_level <? node_level))).

Definition is_descendant_of_passthrough_device (node_path : string) (node_level : Z)
    (passthrough_device_names : list string) : bool :=
  existsb (is_descendant_of node_path node_level) passthrough_device_names.

Definition is_ancestor_of (node_path passthrough_path : string) : bool :=
  (starts_with node_path passthrough_path && (str_len node_path <? str_len passthrough_path)) &&
  (let next_char := default " " (chars passthrough_path !! String.length node_path) in
   bool_decide (next_char = "/") || bool_decide (node_path = "/")).

Definition is_ancestor_of_passthrough_device (node_path : string)
    (passthrough_device_names : list string) : bool :=
  existsb (is_ancestor_of node_path) passthrough_device_names.

Definition determine_node_action (node : fdt_node) (node_path : string)
    (passthrough_device_names : list string) : NodeAction :=
  if bool_decide (n_name node = "/") then RootNode
  else if starts_with "memory" (n_name node) then Skip
  else if starts_with "/cpus" node_path then CpuNode
  else if bool_decide (node_path ∈ passthrough_device_names) then IncludeAsPassthroughDevice
  else if is_descendant_of_passthrough_device node_path (n_level node) passthrough_device_names then
    IncludeAsChildNode
  else if is_ancestor_of_passthrough_device node_path passthrough_device_names then
    IncludeAsAncestorNode
  else Skip.

(** [node.reg()] and the first of its entries. *)
Definition first_reg (node : fdt_node) : option Z :=
  reg ← nd_reg (n_data node);
  entry ← head reg;
  Some entry.1.

Definition need_cpu_node (phys_cpu_ids : list Z) (node : fdt_node) (node_path : string) : bool :=
  if negb (starts_with "/cpus/cpu@" node_path) then true
  else
    match first_reg node with
    | Some cpu_address => bool_decide (cpu_address ∈ phys_cpu_ids)
    | None => false
    end.

(** [str::replace]: the occurrences from the left, without overlaps. *)
Fixpoint str_replace_go (fuel : nat) (from to s : string) : string :=
  match fuel with
  | O => s
  | S fuel =>
      match strip_prefix from s with
      | Some rest => to +:+ str_replace_go fuel from to rest
      | None =>
          match s with
          | "" => ""
          | String a s => String a (str_replace_go fuel from to s)
          end
      end
  end.

Definition str_replace (from to s : string) : string :=
  str_replace_go (S (String.length s)) from to s.

Section create.
Context `{FdtWriter W H} `{FdtParser} `{OverflowChecks}.

#[local] Abbreviation M := (wst (W:=W) (H:=H)).

(** Closing what the levels say, and opening the node. *)
Definition open_node (node : fdt_node) : M () :=
  s ← get;
  handle_node_level_change (n_level node) (previous_node_level s);;
  push_node (n_name node).

(** The end of an iteration that copied the node. *)
Definition copy_props (node : fdt_node) : M () :=
  modify (set_level (n_level node));;
  write_properties (nd_props (n_data node)).

(** The end of the three functions. *)
Definition finish_nodes (after : Z → M ()) : M (list u8) :=
  s ← get;
  end_unclosed after (length (node_stack s));;
  s ← get;
  if previous_node_level s =? 0 then lift (unwrap (finish (fdt_writer s))) else panic.

Definition with_writer (m : M (list u8)) : outcome AxError (list u8) :=
  w ← unwrap writer_new; (m (mkWriting w [] 0)).1.

(** [for (index, node) in all_nodes.iter().enumerate()] with the path of the node. *)
Fixpoint for_each_node (body : fdt_node → string → M ()) (all_nodes : list fdt_node)
    (index : nat) (nodes : list fdt_node) : M () :=
  match nodes with
  | [] => mret ()
  | node :: nodes =>
      node_path ← lift (build_node_path all_nodes index);
      body node node_path;;
      for_each_node body all_nodes (S index) nodes
  end.

(** ** [crate_guest_fdt] *)
Definition crate_body (passthrough_device_names : list string) (phys_cpu_ids : list Z)
    (node : fdt_node) (node_path : string) : M () :=
  match determine_node_action node node_path passthrough_device_names with
  | RootNode => push_node "";; copy_props node
  | CpuNode =>
      if need_cpu_node phys_cpu_ids node node_path then open_node node;; copy_props node
      else mret ()
  | Skip => mret ()
  | _ => open_node node;; copy_props node
  end.

Definition crate_guest_fdt (all_nodes : list fdt_node) (passthrough_device_names : list string)
    (phys_cpu_ids : option (list Z)) : outcome AxError (list u8) :=
  with_writer (
    phys_cpu_ids ← lift (unwrap phys_cpu_ids);
    for_each_node (crate_body passthrough_device_names phys_cpu_ids) all_nodes 0 all_nodes;;
    finish_nodes (λ _, mret ())).

(** ** [update_cpu_node] *)
Definition guest_node_body (node : fdt_node) (node_path : string) : M () :=
  if bool_decide (n_name node = "/") then push_node "";; copy_props node
  else if starts_with "/cpus" node_path then mret ()
  else open_node node;; copy_props node.

Definition host_cpu_body (phys_cpu_ids : list Z) (node : fdt_node) (node_path : string) : M () :=
  if starts_with "/cpus" node_path then
    if need_cpu_node phys_cpu_ids node node_path then
      open_node node;;
      write_properties (nd_props (n_data node));;
      modify (set_level (n_level node))
    else mret ()
  else mret ().

Definition update_cpu_node (fdt_all_nodes host_fdt_all_nodes : list fdt_node)
    (phys_cpu_ids : option (list Z)) : outcome AxError (list u8) :=
  with_writer (
    phys_cpu_ids ← lift (unwrap phys_cpu_ids);
    for_each_node guest_node_body fdt_all_nodes 0 fdt_all_nodes;;
    for_each_node (host_cpu_body phys_cpu_ids) host_fdt_all_nodes 0 host_fdt_all_nodes;;
    finish_nodes (λ _, mret ())).

(** ** [update_fdt] *)
Fixpoint memory_words (new_memory : list mem_region) : list Z :=
  match new_memory with
  | [] => []
  | mem :: new_memory =>
      let gpa := mr_gpa mem in
      let size := mr_size mem in
      [Z.land (Z.shiftr gpa 32) (Z.ones 32); Z.land gpa (Z.ones 32);
       Z.land (Z.shiftr size 32) (Z.ones 32); Z.land size (Z.ones 32)] ++ memory_words new_memory
  end.

Definition add_memory_node (new_memory : list mem_region) : M () :=
  write_value "reg" (VU32s (memory_words new_memory));;
  write_value "device_type" (VStr "memory").

Fixpoint chosen_props (ps : list fdt_prop) : M () :=
  match ps with
  | [] => mret ()
  | prop :: ps =>
      (if starts_with "linux,initrd-" (pr_name prop) then mret ()
       else if bool_decide (pr_name prop = "bootargs") then
         write_value (pr_name prop) (VStr (str_replace " ro " " rw " (prop_str prop)))
       else write_property prop);;
      chosen_props ps
  end.

Fixpoint update_loop (nodes : list fdt_node) : M () :=
  match nodes with
  | [] => mret ()
  | node :: nodes =>
      (if negb (bool_decide (n_name node = "/")) && starts_with "memory" (n_name node) then mret ()
       else
         (if bool_decide (n_name node = "/") then push_node "" else open_node node);;
         modify (set_level (n_level node));;
         (if bool_decide (n_name node = "chosen") then chosen_props (nd_props (n_data node))
          else write_properties (nd_props (n_data node))));;
      update_loop nodes
  end.

(** The memory node is written when only the root is left open. *)
Definition memory_after (memory_regions : list mem_region) (previous_node_level : Z) : M () :=
  if previous_node_level =? 1 then
    push_node "memory";;
    add_memory_node memory_regions;;
    end_popped
  else mret ().

Definition updated_fdt (fdt_bytes : list u8) (memory_regions : list mem_region) :
    outcome AxError (list u8) :=
  with_writer (
    nodes ← lift (unwrap (from_bytes fdt_bytes));
    update_loop nodes;;
    finish_nodes (memory_after memory_regions)).

Definition update_fdt `{ImageRegions} `{AlignDown} (fdt_bytes : list u8) : st guest AxError () :=
  vm ← get;
  new_fdt_bytes ← lift (updated_fdt fdt_bytes (g_memory_regions vm));
  dest_addr ← calculate_dtb_load_addr (len new_fdt_bytes);
  expecting (load_vm_image_from_memory new_fdt_bytes dest_addr).
End create.

(** ** Selecting nodes *)
Definition wn (d : node_data) : wnode :=
  (if bool_decide (nd_name d = "/") then "" else nd_name d,
   (λ p, (pr_name p, VRaw (pr_raw p))) <$> nd_props d).

(** Each node with whether it is selected, given its level and path. *)
Section mark.
Context (f : Z → string → node_data → bool).

Fixpoint mark (L : Z) (anc : list string) (t : rtree node_data) : rtree (bool * node_data) :=
  let 'RNode d ts := t in
  RNode (f L (path_text (nd_name d :: anc)) d, d) (map (mark (L + 1) (nd_name d :: anc)) ts).

Definition mark_root (t : rtree node_data) : rtree (bool * node_data) :=
  let 'RNode d ts := t in RNode (f 1 "/" d, d) (map (mark 2 []) ts).

Definition marked (x : Z * (string * node_data)) : Z * (bool * node_data) :=
  (x.1, (f x.1 x.2.1 x.2.2, x.2.2)).

Lemma flat_mark t : ∀ L anc, flat L (mark L anc t) = marked <$> flat L (annot anc t).
Proof.
  induction t as [d ts IH] using rtree_rect'; intros L anc. cbn [flat mark annot]. rewrite fmap_cons.
  f_equal. induction IH as [|t ts Ht _ IHs]; cbn [map concat]; [done|]. by rewrite fmap_app, Ht, IHs.
Qed.

Lemma flat_mark_root t : flat 1 (mark_root t) = marked <$> flat 1 (annot_root t).
Proof.
  destruct t as [d ts]. cbn [flat mark_root annot_root]. rewrite fmap_cons. f_equal.
  change (1 + 1) with 2.
  induction ts as [|t ts IH]; cbn [map concat]; [done|]. by rewrite fmap_app, flat_mark, IH.
Qed.
End mark.

(** The selected part of a tree; the root is always selected. *)
Definition selected (f : Z → string → node_data → bool) (t : rtree node_data) : rtree node_data :=
  RNode (label t) (tmap snd <$> omap (prune fst) (children (mark_root f t))).

Definition to_write (x : Z * (bool * node_data)) : Z * wnode := (x.1, wn x.2.2).

Definition kept (l : list (Z * (bool * node_data))) : list (Z * wnode) :=
  to_write <$> List.filter (λ x, x.2.1) l.

Lemma flat_tmap {A B} (g : A → B) t : ∀ L, flat L (tmap g t) = prod_map id g <$> flat L t.
Proof.
  induction t as [a ts IH] using rtree_rect'; intros L. cbn [flat tmap]. rewrite fmap_cons. f_equal.
  induction IH as [|t ts Ht _ IHs]; cbn [map concat]; [done|]. by rewrite fmap_app, Ht, IHs.
Qed.

Lemma kept_flats L ts :
  forallb (closed fst) ts = true →
  kept (flats L ts) = flats L (map (tmap wn) (tmap snd <$> omap (prune fst) ts)).
Proof.
  unfold kept, flats. induction ts as [|t ts IH]; cbn [map concat forallb]; [done|].
  intros [Ht Hts]%andb_prop. rewrite List.filter_app, fmap_app, IH, (filter_flat fst) by done.
  cbn [omap list_omap]. destruct (prune fst t) as [t'|]; [|done]. cbn. f_equal.
  rewrite !flat_tmap, <-list_fmap_compose. apply list_fmap_ext. by intros ? [l [b d]] _.
Qed.

(** The selected nodes below the root, in their order, are the nodes of [kids]. *)
Definition selects_as (f : Z → string → node_data → bool) (t : rtree node_data)
    (kids : list (rtree node_data)) : Prop :=
  kept (flats 2 (children (mark_root f t))) = flats 2 (map (tmap wn) kids).

Lemma selects_closed f t :
  forallb (closed fst) (children (mark_root f t)) = true →
  selects_as f t (children (selected f t)).
Proof. apply kept_flats. Qed.

(** ** The loops write what is selected *)
Section simulation.
Context `{FdtWriter W H} `{OverflowChecks}.

#[local] Abbreviation M := (wst (W:=W) (H:=H)).

Lemma set_level_same (s : writing W H) : set_level (previous_node_level s) s = s.
Proof. by destruct s. Qed.

(** [m] copies the node, or leaves the writer alone. *)
Definition copies (b : bool) (node : fdt_node) (m : M ()) : Prop :=
  if b then ∀ s s',
    emits (ends (previous_node_level s - n_level node + 1) ++
      WBegin (wn (n_data node)).1 :: prop_calls (wn (n_data node))) s s' →
    m s = (Ok (), set_level (n_level node) s')
  else ∀ s, m s = (Ok (), s).

Lemma copies_skip node : copies false node (mret ()).
Proof. done. Qed.

Lemma open_emits node s s2 cs :
  n_name node ≠ "/" →
  emits (ends (previous_node_level s - n_level node + 1) ++ WBegin (wn (n_data node)).1 :: cs) s s2 →
  ∃ s1, open_node node s = (Ok (), s1) ∧ emits cs s1 s2.
Proof.
  intros Hn (s0 & He & (s1' & Hb & Hc)%emits_cons)%emits_app. exists s1'. split; [|done].
  unfold open_node, mbind, st_bind, get. rewrite (level_change_emits _ _ _ _ He).
  cbn in Hb. by rewrite bool_decide_false in Hb.
Qed.

Lemma props_emits node s s' :
  emits (prop_calls (wn (n_data node))) s s' →
  write_properties (nd_props (n_data node)) s = (Ok (), s').
Proof. apply write_properties_emits. Qed.

Lemma copy_props_emits node s s' :
  emits (prop_calls (wn (n_data node))) s s' → copy_props node s = (Ok (), set_level (n_level node) s').
Proof.
  intros Hs. unfold copy_props, mbind, st_bind, modify. apply props_emits. by apply emits_level.
Qed.

Lemma copies_open node : n_name node ≠ "/" → copies true node (open_node node;; copy_props node).
Proof.
  intros Hn s s' Hs. apply open_emits in Hs as (s1 & Ho & Hs); [|done..].
  unfold mbind, st_bind. rewrite Ho. by apply copy_props_emits.
Qed.

Lemma copies_open_late node :
  n_name node ≠ "/" →
  copies true node (open_node node;; write_properties (nd_props (n_data node));;
    modify (set_level (n_level node))).
Proof.
  intros Hn s s' Hs. apply open_emits in Hs as (s1 & Ho & Hs); [|done..].
  unfold mbind, st_bind. rewrite Ho. by rewrite (props_emits node _ _ Hs).
Qed.

Lemma for_each_emits (body : fdt_node → string → M ()) all nodes : ∀ index items s s',
  length items = length nodes →
  (∀ j node, nodes !! j = Some node → ∃ path b,
    build_node_path all (index + j) = Ok path ∧
    items !! j = Some (n_level node, (b, n_data node)) ∧ copies b node (body node path)) →
  emits (node_calls (previous_node_level s) (kept items)) s s' →
  for_each_node body all index nodes s =
    (Ok (), set_level (last_level (previous_node_level s) (kept items)) s').
Proof.
  induction nodes as [|node nodes IH]; intros index items s s' Hlen Hnodes Hs.
  { destruct items; [|done]. unfold emits in Hs. injection Hs as <-. cbn. by rewrite set_level_same. }
  destruct items as [|item items]; [done|]. injection Hlen as Hlen.
  destruct (Hnodes O node eq_refl) as (path & b & Hp & Hi & Hc). injection Hi as ->.
  rewrite Nat.add_0_r in Hp. cbn [for_each_node]. unfold mbind, st_bind, lift. rewrite Hp.
  assert (Hrest : ∀ j node, nodes !! j = Some node → ∃ path b,
    build_node_path all (S index + j) = Ok path ∧
    items !! j = Some (n_level node, (b, n_data node)) ∧ copies b node (body node path)).
  { intros j n Hj. rewrite Nat.add_succ_comm. by apply (Hnodes (S j)). }
  destruct b; cbn in Hc.
  - unfold kept in Hs. cbn [List.filter snd fst fmap list_fmap] in Hs. unfold to_write in Hs at 1.
    cbn [node_calls fst snd] in Hs. rewrite app_comm_cons, app_assoc in Hs.
    apply emits_app in Hs as (s1 & Hs1 & Hs2). rewrite (Hc _ _ Hs1).
    apply emits_level with (p := n_level node) in Hs2.
    rewrite (IH (S index) items _ _ Hlen Hrest Hs2). done.
  - rewrite Hc. by apply (IH (S index) items).
Qed.

(** What a loop over a tree writes, when its body copies the root and, of the other
    nodes, those that [f] selects. *)
Definition selects (f : Z → string → node_data → bool) (body : fdt_node → string → M ()) : Prop :=
  (∀ node, n_name node = "/" → body node "/" = (push_node "";; copy_props node)) ∧
  (∀ node path, n_name node ≠ "/" →
    copies (f (n_level node) path (n_data node)) node (body node path)).

Lemma wbind_run {A B} (m : M A) (k : A → M B) s a s1 : m s = (Ok a, s1) → (m ≫= k) s = k a s1.
Proof. apply (bind_run m k). Qed.

Lemma root_emits d s s' :
  nd_name d = "/" → emits (WBegin (wn d).1 :: prop_calls (wn d)) s s' →
  (push_node "";; copy_props (mkNode 1 d)) s = (Ok (), set_level 1 s').
Proof.
  intros Hd (s1 & Hb & Hp)%emits_cons. cbn in Hb. rewrite Hd in Hb. cbn in Hb.
  erewrite wbind_run by exact Hb. by apply copy_props_emits.
Qed.

Lemma root_path t node :
  is_device_tree t → nodes_of t !! O = Some node → build_node_path (nodes_of t) 0 = Ok "/".
Proof.
  intros Ht Hn. destruct (node_path_at t 0 node Ht Hn) as (path & Hp & ->). destruct t.
  injection Hp as _ <- _. done.
Qed.

Lemma rest_selected f body t j node :
  selects f body → is_device_tree t → nodes_of t !! S j = Some node →
  ∃ path b, build_node_path (nodes_of t) (1 + j) = Ok path ∧
    flats 2 (children (mark_root f t)) !! j = Some (n_level node, (b, n_data node)) ∧
    copies b node (body node path).
Proof.
  intros [_ Hf] Ht Hn. destruct (node_path_at t (S j) node Ht Hn) as (path & Hp & Hb).
  exists path, (f (n_level node) path (n_data node)). split_and!; [done|..].
  - pose proof (flat_mark_root f t) as Hm. destruct t as [d ts].
    assert (flats 2 (children (mark_root f (RNode d ts))) !! j = flat 1 (mark_root f (RNode d ts)) !! S j)
      as -> by done.
    rewrite Hm, list_lookup_fmap, Hp. done.
  - apply Hf. destruct Ht as (_ & _ & Hnames). destruct t as [d ts].
    unfold nodes_of in Hn. cbn [flat] in Hn. rewrite fmap_cons in Hn. cbn in Hn.
    apply list_lookup_fmap_Some in Hn as ([l d'] & -> & Hd'). cbn [children] in Hnames.
    rewrite <-(flats_labels 2) in Hnames. rewrite Forall_lookup in Hnames.
    apply (Hnames j). rewrite list_lookup_fmap. unfold flats. change (1 + 1) with 2 in Hd'. by rewrite Hd'.
Qed.

Lemma select_emits f body t kids s s' :
  selects f body → is_device_tree t → selects_as f t kids →
  previous_node_level s = 0 →
  emits (node_calls 0 (flat 1 (tmap wn (RNode (label t) kids)))) s s' →
  for_each_node body (nodes_of t) 0 (nodes_of t) s =
    (Ok (), set_level (last_level 0 (flat 1 (tmap wn (RNode (label t) kids)))) s').
Proof.
  intros Hsel Ht Hc Hp Hs. pose proof (rest_selected f body t) as Hrest.
  assert (Hlen : length (flats 2 (children (mark_root f t))) = length (tail (nodes_of t))).
  { pose proof (f_equal length (flat_mark_root f t)) as Hl. rewrite length_fmap in Hl.
    pose proof (f_equal length (flat_annot_root t)) as Hl'. rewrite length_fmap in Hl'.
    rewrite Hl' in Hl. destruct t as [d ts]. unfold nodes_of. cbn [tail fmap list_fmap flat] in *.
    rewrite length_fmap. injection Hl as Hl. exact Hl. }
  pose proof (root_path t) as Hroot. destruct t as [d ts]. set (t := RNode d ts) in *.
  assert (Hn : nodes_of t = mkNode 1 d :: tail (nodes_of t)) by done.
  pose proof Hsel as [Hbody _]. pose proof Ht as (Hr & _ & _).
  cbn [tmap flat node_calls last_level label] in Hs |- *.
  fold (flats (1 + 1) (map (tmap wn) kids)) in Hs |- *.
  change (1 + 1) with 2 in *. unfold selects_as in Hc. rewrite <-Hc in Hs |- *.
  change (ends (0 - 1 + 1)) with (@nil wcall) in Hs. cbn [app] in Hs.
  rewrite app_comm_cons in Hs. apply emits_app in Hs as (s1 & Hb & Hs).
  rewrite Hn at 2. cbn [for_each_node].
  erewrite wbind_run by (unfold lift; by rewrite (Hroot (mkNode 1 d)) by (done || by rewrite Hn)).
  rewrite (Hbody (mkNode 1 d)) by done. erewrite wbind_run by (by apply root_emits).
  apply emits_level with (p := 1) in Hs.
  rewrite (for_each_emits body (nodes_of t) (tail (nodes_of t)) 1 _ _ (set_level 1 s') Hlen);
    [done| |exact Hs].
  intros j node Hj. by apply (Hrest j node).
Qed.

Lemma finish_emits (after : Z → M ()) (aft : Z → list wcall) n s s' bytes :
  (∀ p k s s', previous_node_level s = p → length (node_stack s) = k → emits (aft p) s s' →
    after p s = (Ok (), s') ∧ length (node_stack s') = k) →
  emits (closing aft n) s s' → length (node_stack s) = n → previous_node_level s = Z.of_nat n →
  Z.of_nat n ≤ usize_max → finish (fdt_writer s') = Some bytes →
  (finish_nodes after s).1 = Ok bytes.
Proof.
  intros Haft Hs Hk Hp Hmax Hf. unfold finish_nodes.
  erewrite wbind_run by done. rewrite Hk.
  erewrite wbind_run by (by eapply end_unclosed_emits).
  erewrite wbind_run by done. cbn. by rewrite Hf.
Qed.

Lemma closing_nil n : closing (λ _, []) n = replicate n WEnd.
Proof. induction n as [|n IH]; cbn; [done|]. by rewrite IH. Qed.

Lemma last_level_bound {A} m (l : list (Z * A)) p :
  Forall (λ x, x.1 ≤ m) l → p ≤ m → last_level p l ≤ m.
Proof.
  intros Hl. revert p. induction Hl as [|[q a] l Hq _ IH]; intros p Hp; cbn; [done|]. by apply IH.
Qed.

Lemma kept_bound m l : Forall (λ x, x.1 ≤ m) l → Forall (λ x, x.1 ≤ m) (kept l).
Proof.
  intros Hl. unfold kept. apply Forall_fmap. induction Hl as [|x l Hx _ IH]; cbn; [done|].
  destruct x.2.1; [|done]. by apply Forall_cons.
Qed.

Lemma selected_levels f t kids :
  is_device_tree t → selects_as f t kids →
  last_level 0 (flat 1 (tmap wn (RNode (label t) kids))) ≤ usize_max.
Proof.
  intros (_ & Hmax & _) Hc. rewrite <-flat_annot_root, Forall_fmap in Hmax.
  assert (Hm : Forall (λ x, x.1 ≤ usize_max) (flat 1 (mark_root f t))).
  { rewrite flat_mark_root. by apply Forall_fmap. }
  destruct t as [d ts]. cbn [flat mark_root] in Hm.
  apply Forall_cons in Hm as [_ Hm]. apply last_level_bound; [|done].
  cbn [tmap flat]. apply Forall_cons. split; [done|].
  change (1 + 1) with 2 in *. unfold selects_as, flats in Hc. rewrite <-Hc. by apply kept_bound.
Qed.

(** The calls of a loop are the calls that write the tree, up to the closing ones. *)
Lemma ser_split t w s :
  emits (W:=W) (H:=H) (ser t) (mkWriting w [] 0) s →
  ∃ s1, emits (node_calls 0 (flat 1 t)) (mkWriting w [] 0) s1 ∧
    emits (ends (last_level 0 (flat 1 t))) s1 s ∧ 1 ≤ last_level 0 (flat 1 t) ∧
    Z.of_nat (length (node_stack s1)) = last_level 0 (flat 1 t).
Proof.
  intros Hs. destruct (tree_calls t 1 0 ltac:(lia)) as [Hl Hc].
  replace (last_level 0 (flat 1 t) - 1 + 1) with (last_level 0 (flat 1 t)) in Hc by lia.
  pose proof (depth_ser 0 t) as Hd. change (ends (0 - 1 + 1) ++ ser t) with (ser t) in Hc.
  rewrite <-Hc in Hs, Hd.
  apply emits_app in Hs as (s1 & Hs1 & Hs2). exists s1. split_and!; [done..|].
  rewrite depth_app in Hd. destruct (depth 0 (node_calls 0 (flat 1 t))) as [n|] eqn:Hn; [|done].
  rewrite (emits_stack _ _ _ n Hs1 Hn). apply depth_ends in Hd. lia.
Qed.
End simulation.

Section written.
Context `{FdtWriter W H} `{FdtParser} `{OverflowChecks} `{!FdtWriterOk W H}.

(** The tree that is parsed back. *)
Definition parses_to (bytes : list u8) (t : rtree node_data) : Prop :=
  ∃ r, from_bytes bytes = Some (nodes_of r) ∧ tmap outline r = tmap outline t.

Lemma tmap_compose {A B C} (g : B → C) (h : A → B) t : tmap g (tmap h t) = tmap (g ∘ h) t.
Proof.
  induction t as [a ts IH] using rtree_rect'. cbn. f_equal.
  induction IH as [|t ts Ht _ IHs]; cbn; [done|]. by rewrite Ht, IHs.
Qed.

Lemma tmap_ext {A B} (g h : A → B) t : (∀ a, g a = h a) → tmap g t = tmap h t.
Proof.
  intros Hgh. induction t as [a ts IH] using rtree_rect'. cbn. rewrite Hgh. f_equal.
  induction IH as [|t ts Ht _ IHs]; cbn; [done|]. by rewrite Ht, IHs.
Qed.

Lemma written_wn t : tmap written (tmap wn t) = tmap outline t.
Proof.
  rewrite tmap_compose. apply tmap_ext. intros d. unfold written, wn, outline; cbn. f_equal.
  rewrite <-list_fmap_compose. done.
Qed.

Lemma write_selected f body t kids :
  selects (W:=W) (H:=H) f body → is_device_tree t →
  selects_as f t kids →
  writable (tmap wn (RNode (label t) kids)) →
  ∃ bytes, with_writer (for_each_node body (nodes_of t) 0 (nodes_of t);;
      finish_nodes (λ _, mret ())) = Ok bytes ∧ parses_to bytes (RNode (label t) kids).
Proof.
  intros Hsel Ht Hc Hw. destruct (writer_builds _ Hw) as (w & s & bytes & r & Hnew & Hs & Hf & Hb & Ho).
  exists bytes. rewrite written_wn in Ho. split; [|by exists r].
  apply ser_split in Hs as (s1 & Hcalls & Hends & Hpos & Hk).
  unfold with_writer. rewrite Hnew. cbn [unwrap mbind outcome_bind].
  erewrite wbind_run by (by eapply select_emits).
  eapply (finish_emits _ (λ _, []) (Z.to_nat (last_level 0 (flat 1 (tmap wn (RNode (label t) kids)))))).
  - intros p k s2 s2' _ Hk2 Hnil. unfold emits in Hnil. by injection Hnil as <-.
  - rewrite closing_nil. apply emits_level. unfold ends in Hends. exact Hends.
  - unfold set_level; cbn [node_stack]. lia.
  - unfold set_level; cbn [previous_node_level]. lia.
  - pose proof (selected_levels f t kids Ht Hc). lia.
  - done.
Qed.
End written.
