(* ===== verification/FdtGuest.v ===== *)
(** * Guest trees are parts of the host's tree

    What [FdtCreate] writes: for a host tree whose memory nodes are leaves, the nodes
    that [crate_guest_fdt] selects by comparing paths are closed under taking
    parents, so that the sequence it writes is a tree, the host's tree without the
    other nodes; [update_fdt] then replaces the memory nodes and edits [chosen]. *)

From Stdlib Require Import Ascii Strings.Byte.
From S2P Require Import Prelude RustStr Disk FdtTree FdtWrite GuestMem FdtCreate.

#[local] Arguments String.append !_ _ : simpl nomatch.

(** ** Paths as strings *)
Fixpoint sforall (P : ascii → Prop) (s : string) : Prop :=
  match s with "" => True | String a s => P a ∧ sforall P s end.

Lemma sforall_app P s t : sforall P (s +:+ t) ↔ sforall P s ∧ sforall P t.
Proof. induction s as [|a s IH]; simpl; [naive_solver|]. rewrite IH. naive_solver. Qed.

(** Names and paths are ASCII; a name has no slash. *)
Definition is_plain (s : string) : Prop := sforall (λ a, byte_of a < 128) s.

Definition is_name (s : string) : Prop :=
  s ≠ "" ∧ is_plain s ∧ sforall (λ a, a ≠ "/"%char) s.

Lemma plain_chars_from s cur :
  is_plain s → cur ≠ "" → chars_from cur s = cur :: chars_from "" s.
Proof.
  intros Hs Hc. destruct s as [|a s]; simpl.
  - unfold flush. by destruct cur.
  - destruct Hs as [Ha _]. assert (is_cont a = false) as ->.
    { unfold is_cont. apply bool_decide_false. lia. }
    unfold flush. by destruct cur.
Qed.

Lemma plain_chars a s : is_plain (String a s) → chars (String a s) = String a "" :: chars s.
Proof.
  intros Hs. pose proof Hs as [Ha Hs']. unfold chars. simpl.
  assert (is_cont a = false) as -> by (unfold is_cont; apply bool_decide_false; lia).
  cbn. by apply plain_chars_from.
Qed.

Lemma plain_char_at p a u :
  is_plain (p +:+ String a u) → chars (p +:+ String a u) !! String.length p = Some (String a "").
Proof.
  induction p as [|b p IH]; intros Hs.
  - change ("" +:+ String a u) with (String a u) in *. by rewrite plain_chars.
  - change (String b p +:+ String a u) with (String b (p +:+ String a u)) in *.
    rewrite plain_chars by done. cbn. apply IH. apply Hs.
Qed.

Lemma str_len_app s t : str_len (s +:+ t) = str_len s + str_len t.
Proof.
  unfold str_len. induction s as [|a s IH]; [done|].
  change (String a s +:+ t) with (String a (s +:+ t)). cbn [String.length]. lia.
Qed.

Lemma count_char_app c s t : count_char c (s +:+ t) = count_char c s + count_char c t.
Proof. induction s as [|a s IH]; simpl; [done|]. rewrite IH. lia. Qed.

Lemma count_char_nonneg c s : 0 ≤ count_char c s.
Proof. induction s as [|a s IH]; simpl; [done|]. case_bool_decide; lia. Qed.

Lemma count_slash_name s : sforall (λ a, a ≠ "/"%char) s → count_char "/" s = 0.
Proof.
  induction s as [|a s IH]; simpl; [done|]. intros [Ha Hs]. rewrite bool_decide_false by done.
  by rewrite IH.
Qed.

(** A slash in [q/n] is the one before [n] or one of [q]. *)
Lemma last_slash q n p r :
  q +:+ String "/" n = p +:+ String "/" r → sforall (λ a, a ≠ "/"%char) n →
  p = q ∨ ∃ r', q = p +:+ String "/" r'.
Proof.
  revert q. induction p as [|b p IH]; intros q Heq Hn.
  - destruct q as [|a q]; [by left|]. right. simpl in Heq. injection Heq as -> _. by exists q.
  - destruct q as [|a q]; simpl in Heq.
    + injection Heq as _ ->. apply sforall_app in Hn as [_ [Hn _]]. done.
    + injection Heq as -> Heq. destruct (IH q Heq Hn) as [->|[r' ->]]; [by left|right; by exists r'].
Qed.

(** ** Selection looks at whole components *)
Section components.
Context (q n : string) (L : Z).
Context (Hq : is_plain q) (Hn : is_name n) (Habs : ∃ a q', q = String "/" (String a q')).
Context (HL : 2 ≤ L) (Hcount : count_char "/" q = L - 1).

#[local] Abbreviation c := (q +:+ String "/" n).

Lemma plain_child : is_plain c.
Proof. apply sforall_app. split; [done|]. split; [vm_compute; done|apply Hn]. Qed.

Lemma ancestor_intro p u :
  is_plain p → p = q +:+ String "/" u → is_ancestor_of q p = true.
Proof.
  intros Hp ->. unfold is_ancestor_of. rewrite !andb_true_iff. split_and!.
  - apply starts_with_app. by eexists.
  - rewrite str_len_app. apply Z.ltb_lt. unfold str_len. cbn [String.length]. lia.
  - rewrite plain_char_at by done. cbn. done.
Qed.

Lemma ancestor_parent p : is_plain p → is_ancestor_of c p = true → is_ancestor_of q p = true.
Proof.
  unfold is_ancestor_of at 1. rewrite !andb_true_iff. intros Hp ((Hs & _) & _).
  apply starts_with_app in Hs as [t Ht]. apply (ancestor_intro _ (n +:+ t)); [done|].
  rewrite Ht. by rewrite string_app_assoc.
Qed.

Lemma descendant_parent p :
  is_plain p → is_descendant_of c (L + 1) p = true → p = q ∨ is_descendant_of q L p = true.
Proof.
  unfold is_descendant_of. rewrite !andb_true_iff. intros Hp (((Hs & Hl) & Hsep) & _).
  apply starts_with_app in Hs as [t Ht]. case_bool_decide as Hroot.
  - right. destruct Habs as (a & q' & Hq'). subst p. rewrite Hq'. split_and!.
    + apply starts_with_app. by exists (String a q').
    + apply Z.ltb_lt. unfold str_len. cbn. lia.
    + done.
    + cbn. rewrite orb_true_iff. left. by apply Z.leb_le.
  - cbn [orb andb] in Hsep. apply bool_decide_eq_true in Hsep.
    destruct t as [|a t].
    { rewrite string_app_nil_r in Ht. rewrite <-Ht in Hl. apply Z.ltb_lt in Hl. lia. }
    pose proof plain_child as Hc. rewrite Ht in Hsep, Hc. rewrite plain_char_at in Hsep by done.
    injection Hsep as ->. destruct (last_slash _ _ _ _ Ht) as [->|[r' Hr]]; [apply Hn|by left|].
    right. split_and!.
    + apply starts_with_app. by eexists.
    + rewrite Hr, str_len_app. apply Z.ltb_lt. unfold str_len. cbn [String.length]. lia.
    + cbn. apply bool_decide_true. rewrite Hr at 1. apply plain_char_at. by rewrite <-Hr.
    + cbn [orb andb]. rewrite bool_decide_true by done. apply Z.ltb_lt. rewrite Hr, count_char_app in Hcount. cbn [count_char] in Hcount. rewrite bool_decide_true in Hcount by done.
      pose proof (count_char_nonneg "/" r'). lia.
Qed.

Lemma cpus_parent : starts_with "/cpus" c = true → starts_with "/cpus" q = true.
Proof.
  destruct Habs as (a & q' & Hq'). rewrite !starts_with_app, Hq'. intros [t Ht].
  assert (Hgo : ∀ p x, sforall (λ a, a ≠ "/"%char) p → x +:+ String "/" n = p +:+ t → ∃ t', x = p +:+ t').
  { clear. induction p as [|b p IH]; intros x Hp Hx; [by exists x|]. destruct Hp as [Hb Hp].
    destruct x as [|y x]; simpl in Hx; injection Hx as <- Hx; [done|].
    destruct (IH x Hp Hx) as [t' ->]. by exists t'. }
  injection Ht as -> Ht. destruct (Hgo "pus" q') as [t' ->]; [|exact Ht|by exists t'].
  repeat (split; [discriminate|]). done.
Qed.

Lemma prefix_child p : starts_with p q = true → starts_with p c = true.
Proof.
  rewrite !starts_with_app. intros [t Ht]. exists (t +:+ String "/" n). rewrite Ht.
  apply string_app_assoc.
Qed.
End components.

(** ** Paths grow by components *)
Lemma str_join_snoc sep l x :
  l ≠ [] → str_join sep (l ++ [x]) = str_join sep l +:+ (sep +:+ x).
Proof.
  induction l as [|y l IH]; [done|]. intros _. destruct l as [|z l]; [done|].
  change (y +:+ (sep +:+ str_join sep ((z :: l) ++ [x])) = (y +:+ (sep +:+ str_join sep (z :: l))) +:+ (sep +:+ x)).
  rewrite IH by done. by rewrite !string_app_assoc.
Qed.

Definition good_stack (st : list string) : Prop := st ≠ [] ∧ Forall is_name st.

Lemma path_text_good st : good_stack st → path_text st = String "/" (str_join "/" (reverse st)).
Proof.
  intros [Hne Hn]. unfold path_text. destruct st as [|x st]; [done|]. simpl.
  rewrite bool_decide_false; [done|]. intros [= -> ->]. apply Forall_cons in Hn as [(_ & _ & Hs) _].
  by destruct Hs.
Qed.

Lemma path_text_cons n st :
  good_stack st → is_name n → path_text (n :: st) = path_text st +:+ String "/" n.
Proof.
  intros Hst Hn. rewrite !path_text_good; [|done|split; [done|constructor; [done|apply Hst]]].
  rewrite reverse_cons, str_join_snoc; [done|]. destruct Hst as [Hst _]. intros Hr.
  apply Hst, (inj reverse). by rewrite Hr.
Qed.

Lemma path_text_one n : is_name n → path_text [n] = String "/" n.
Proof. intros Hn. rewrite path_text_good; [done|]. split; [done|by constructor]. Qed.

(** What the lemmas on components need of a path. *)
Lemma good_path st :
  good_stack st →
  is_plain (path_text st) ∧ (∃ a q, path_text st = String "/" (String a q)) ∧
  count_char "/" (path_text st) = len st.
Proof.
  intros [Hne Hst]. induction Hst as [|n st Hn Hst IH]; [done|].
  destruct st as [|m st].
  - rewrite path_text_one by done. destruct Hn as (Hn1 & Hn2 & Hn3). destruct n as [|a n]; [done|].
    split_and!; [by split|by eexists _, _|]. cbn [count_char]. rewrite bool_decide_true by done.
    change (1 + count_char "/" (String a n) = 1). by rewrite count_slash_name.
  - destruct (IH ltac:(done)) as (Hp & (a & q & Hq) & Hc).
    rewrite path_text_cons by done. destruct Hn as (Hn1 & Hn2 & Hn3). split_and!.
    + apply sforall_app. split; [done|]. by split.
    + rewrite Hq. by eexists a, _.
    + rewrite count_char_app, Hc. cbn [count_char]. rewrite bool_decide_true by done.
      rewrite count_slash_name by done. unfold len. cbn [length]. lia.
Qed.

(** ** Closed selections *)
Section edges.
Context {A : Type} (keep : A → bool).

(** Whoever keeps a node keeps its parent. *)
Fixpoint edges (t : rtree A) : bool :=
  let 'RNode a ts := t in forallb (λ u, implb (keep (label u)) (keep a) && edges u) ts.

Lemma edges_closed t : edges t = true → closed keep t = true.
Proof.
  induction t as [a ts IH] using rtree_rect'. cbn [edges closed]. intros He.
  destruct (keep a) eqn:Ha.
  - induction IH as [|t ts Ht _ IHs]; cbn in *; [done|].
    apply andb_prop in He as [[_ He]%andb_prop Hes]. by rewrite Ht, IHs.
  - induction IH as [|t ts Ht _ IHs]; cbn in *; [done|].
    apply andb_prop in He as [[Hk He]%andb_prop Hes]. rewrite forallb_app, (IHs Hes), andb_true_r.
    specialize (Ht He). destruct t as [b us]. cbn in *. destruct (keep b) eqn:Hb; [done|].
    cbn. exact Ht.
Qed.
End edges.

(** Every node with children satisfies [inner]. *)
Fixpoint inner_nodes (inner : node_data → bool) (t : rtree node_data) : bool :=
  let 'RNode d ts := t in (is_empty ts || inner d) && forallb (inner_nodes inner) ts.

Section mark_edges.
Context (f : Z → string → node_data → bool).
Context (inner : node_data → bool) (ok : Z * (string * node_data) → Prop).

(** A selected node has a selected parent. *)
Definition edge_closed : Prop := ∀ L st d dc,
  good_stack (nd_name d :: st) → is_name (nd_name dc) → len st = L - 2 → inner d = true →
  ok (L + 1, (path_text (nd_name dc :: nd_name d :: st), dc)) →
  f (L + 1) (path_text (nd_name dc :: nd_name d :: st)) dc = true →
  f L (path_text (nd_name d :: st)) d = true.

(** A tree with plain names on which that is enough. *)
Definition named_tree (t : rtree node_data) : Prop :=
  is_device_tree t ∧ Forall (λ d, is_name (nd_name d)) (concat (map labels (children t))) ∧
  forallb (inner_nodes inner) (children t) = true ∧ Forall ok (flat 1 (annot_root t)).

Lemma mark_edges (Hedge : edge_closed) t : ∀ L anc,
  Forall is_name anc → len anc = L - 2 → Forall (λ d, is_name (nd_name d)) (labels t) →
  inner_nodes inner t = true → Forall ok (flat L (annot anc t)) →
  edges fst (mark f L anc t) = true.
Proof.
  induction t as [d ts IH] using rtree_rect'. intros L anc Hanc Hlen Hnames Hin Hreg.
  cbn [mark edges flat annot labels inner_nodes] in *.
  apply Forall_cons in Hnames as [Hd Hnames]. apply Forall_cons in Hreg as [_ Hreg].
  apply andb_prop in Hin as [Hi Hin].
  assert (Hi' : ts = [] ∨ inner d = true).
  { apply orb_prop in Hi as [Hi|Hi]; [|by right]. left. by destruct ts. }
  clear Hi. induction IH as [|u ts Hu _ IHs]; [done|]. destruct Hi' as [|Hi]; [done|].
  cbn [map concat forallb] in *. apply andb_prop in Hin as [Hiu Hin].
  apply Forall_app in Hnames as [Hnu Hns]. apply Forall_app in Hreg as [Hru Hrs].
  rewrite (IHs Hns Hin Hrs) by by right. rewrite andb_true_r. apply andb_true_intro. split.
  - destruct u as [du us]. cbn [mark label fst].
    destruct (f (L + 1) _ du) eqn:Hf; [|done]. cbn [implb].
    cbn [labels flat annot] in Hnu, Hru. apply Forall_cons in Hnu as [Hnu _].
    apply Forall_cons in Hru as [Hru _].
    eapply Hedge; [by split; [|constructor]|exact Hnu|done..].
  - apply Hu; [by constructor| |done..]. unfold len in *. cbn. lia.
Qed.

Lemma named_closed t :
  edge_closed → named_tree t → forallb (closed fst) (children (mark_root f t)) = true.
Proof.
  intros Hedge (_ & Hn & Hm & Hr). destruct t as [d ts]. cbn [children mark_root annot_root flat] in *.
  apply Forall_cons in Hr as [_ Hr]. change (1 + 1) with 2 in Hr.
  induction ts as [|t ts IH]; cbn [map concat forallb] in *; [done|].
  apply andb_prop in Hm as [Hmt Hms]. apply Forall_app in Hn as [Hnt Hns]. apply Forall_app in Hr as [Hrt Hrs].
  rewrite IH by done. rewrite andb_true_r. by apply edges_closed, mark_edges.
Qed.
End mark_edges.

(** ** The nodes of the guest *)
Section guest.
Context (passthrough_device_names : list string) (phys_cpu_ids : list Z).

(** A node of the host is copied. *)
Definition included (level : Z) (path : string) (d : node_data) : bool :=
  match determine_node_action (mkNode level d) path passthrough_device_names with
  | Skip => false
  | CpuNode => need_cpu_node phys_cpu_ids (mkNode level d) path
  | _ => true
  end.

Definition is_memory (d : node_data) : bool := starts_with "memory" (nd_name d).

Definition not_memory (d : node_data) : bool := negb (is_memory d).

(** Memory nodes have no children. *)
Definition memory_leaves : rtree node_data → bool := inner_nodes not_memory.

(** Below a CPU node, no [reg] starts with the number of a selected CPU. *)
Definition cpu_regs_ok (x : Z * (string * node_data)) : Prop :=
  4 ≤ x.1 → starts_with "/cpus/cpu@" x.2.1 = true →
  ∀ a, first_reg (mkNode x.1 x.2.2) = Some a → a ∉ phys_cpu_ids.

Lemma device_or_ancestor L path d :
  nd_name d ≠ "/" → is_memory d = false → starts_with "/cpus" path = false →
  included L path d = bool_decide (path ∈ passthrough_device_names) ||
    is_descendant_of_passthrough_device path L passthrough_device_names ||
    is_ancestor_of_passthrough_device path passthrough_device_names.
Proof.
  intros Hr Hm Hc. unfold included, determine_node_action, n_name, is_memory in *. cbn [n_data n_level].
  rewrite bool_decide_false, Hm, Hc by done. case_bool_decide; [done|].
  destruct (is_descendant_of_passthrough_device _ _ _); [done|].
  by destruct (is_ancestor_of_passthrough_device _ _).
Qed.

Lemma included_cpu L path d :
  nd_name d ≠ "/" → is_memory d = false → starts_with "/cpus" path = true →
  included L path d = need_cpu_node phys_cpu_ids (mkNode L d) path.
Proof.
  intros Hr Hm Hc. unfold included, determine_node_action, n_name, is_memory in *. cbn [n_data n_level].
  by rewrite bool_decide_false, Hm, Hc by done.
Qed.

Lemma name_not_root n : is_name n → n ≠ "/".
Proof. intros (_ & _ & Hs) ->. by destruct Hs. Qed.

Lemma need_cpu_parent L q d dc :
  count_char "/" q = L - 1 → cpu_regs_ok (L + 1, (q +:+ String "/" (nd_name dc), dc)) →
  need_cpu_node phys_cpu_ids (mkNode (L + 1) dc) (q +:+ String "/" (nd_name dc)) = true →
  need_cpu_node phys_cpu_ids (mkNode L d) q = true.
Proof.
  intros Hcnt Hreg Hneed. unfold need_cpu_node in *.
  destruct (starts_with "/cpus/cpu@" q) eqn:Hcq; [|done].
  rewrite prefix_child in Hneed by done. cbn [negb] in Hneed.
  destruct (first_reg (mkNode (L + 1) dc)) as [a|] eqn:Hf; [|done].
  apply bool_decide_eq_true in Hneed. exfalso. assert (HL3 : 3 ≤ L).
  { apply starts_with_app in Hcq as [t Ht]. rewrite Ht, count_char_app in Hcnt.
    change (count_char "/" "/cpus/cpu@") with 2 in Hcnt. pose proof (count_char_nonneg "/" t). lia. }
  apply (Hreg ltac:(cbn; lia)) with (a := a); [|done..]. by apply prefix_child.
Qed.

Lemma included_parent :
  Forall is_plain passthrough_device_names → edge_closed included not_memory cpu_regs_ok.
Proof.
  intros Hpl L st d dc Hst Hn Hlen Hm Hreg Hinc. apply negb_true_iff in Hm.
  pose proof (good_path _ Hst) as (Hq & Habs & Hcount).
  rewrite path_text_cons in Hinc, Hreg by done. set (q := path_text (nd_name d :: st)) in *.
  assert (HL : 2 ≤ L) by (unfold len in *; lia).
  assert (Hcnt : count_char "/" q = L - 1) by (rewrite Hcount; unfold len in *; cbn; lia).
  assert (Hr : nd_name d ≠ "/") by (apply name_not_root; by destruct Hst as [_ [? _]%Forall_cons]).
  assert (Hrc : nd_name dc ≠ "/") by by apply name_not_root.
  assert (Hmc : is_memory dc = false).
  { destruct (is_memory dc) eqn:Hmc; [|done]. unfold included, determine_node_action, n_name in Hinc.
    unfold is_memory in Hmc. cbn in Hinc. by rewrite bool_decide_false, Hmc in Hinc. }
  destruct (starts_with "/cpus" q) eqn:Hcpu.
  - rewrite included_cpu by done. rewrite included_cpu in Hinc by (done || by apply prefix_child).
    by apply (need_cpu_parent L q d dc).
  - assert (Hcc : starts_with "/cpus" (q +:+ String "/" (nd_name dc)) = false).
    { apply not_true_iff_false. intros Hx. apply cpus_parent in Hx; [congruence|done]. }
    rewrite device_or_ancestor by done. rewrite device_or_ancestor in Hinc by done.
    rewrite !orb_true_iff in *. destruct Hinc as [[Hx|Hx]|Hx].
    + apply bool_decide_eq_true in Hx. right. apply existsb_exists. eexists.
      split; [by apply list_elem_of_In|]. eapply ancestor_intro; [|done]. by apply plain_child.
    + apply existsb_exists in Hx as (p & Hp & Hx). rewrite Forall_forall in Hpl.
      apply list_elem_of_In in Hp as Hp'. destruct (descendant_parent q (nd_name dc) L Hq Hn Habs HL Hcnt p) as [->|Hd];
        [by apply Hpl|done|left; left; by apply bool_decide_true|].
      left. right. apply existsb_exists. by exists p.
    + apply existsb_exists in Hx as (p & Hp & Hx). right. apply existsb_exists. exists p. split; [done|].
      rewrite Forall_forall in Hpl. eapply ancestor_parent; [|done]. apply Hpl. by apply list_elem_of_In.
Qed.

(** What a host tree has to look like. *)
Definition host_ready (t : rtree node_data) : Prop := named_tree not_memory cpu_regs_ok t.

Lemma host_closed t :
  Forall is_plain passthrough_device_names → host_ready t →
  forallb (closed fst) (children (mark_root included t)) = true.
Proof. intros Hpl Ht. eapply named_closed; [by apply included_parent|done]. Qed.

Lemma crate_selects `{FdtWriter W H} `{OverflowChecks} :
  selects (W:=W) (H:=H) included (crate_body passthrough_device_names phys_cpu_ids).
Proof.
  split.
  - intros node Hn. unfold crate_body, determine_node_action. by rewrite bool_decide_true.
  - intros [l d] path Hn. unfold crate_body, included. cbn [n_level n_data].
    pose proof (copies_open (W:=W) (H:=H) (mkNode l d) Hn) as Hopen.
    unfold determine_node_action. rewrite bool_decide_false by done.
    repeat case_match; simplify_eq; done || apply copies_skip.
Qed.
End guest.

Section crate.
Context `{FdtWriter W H} `{FdtParser} `{OverflowChecks} `{!FdtWriterOk W H}.

Lemma guest_fdt_spec t names ids :
  host_ready ids t → Forall is_plain names → writable (tmap wn (selected (included names ids) t)) →
  ∃ bytes, crate_guest_fdt (W:=W) (H:=H) (nodes_of t) names (Some ids) = Ok bytes ∧
    parses_to bytes (selected (included names ids) t).
Proof.
  intros Ht Hpl Hw. pose proof (selects_closed _ _ (host_closed names ids t Hpl Ht)) as Hc.
  destruct Ht as (Ht & _).
  by destruct (write_selected _ _ t _ (crate_selects names ids) Ht Hc Hw) as (bytes & Hb & Hp); eauto.
Qed.

(** C4: [crate_guest_fdt] refines the selection of nodes from the host's tree: for a
    host tree with plain names in which no node whose name starts with [memory] has
    children and no node below a CPU node has a [reg] that starts with the number of a
    selected CPU ([host_ready]), and for the passthrough paths and CPUs of a guest, it
    returns a device tree that parses to the host's tree without the nodes that are not
    included.  It neither panics nor leaves its stack of open nodes and its levels in
    disagreement, because on such a tree a node is included only when its parent is:
    comparing paths as strings respects their components.  On other trees it does
    not: [child_of_memory_is_reparented], [child_of_cpu_is_reparented] and, in
    [FdtExamples], [child_of_cpu_panics]. *)
Theorem guest_fdt_prunes_host t names ids :
  host_ready ids t → Forall is_plain names → writable (tmap wn (selected (included names ids) t)) →
  ∃ bytes, crate_guest_fdt (W:=W) (H:=H) (nodes_of t) names (Some ids) = Ok bytes ∧
    parses_to bytes (selected (included names ids) t).
Proof. apply guest_fdt_spec. Qed.

(** A node whose name starts with [memory] is left out even when it is not the
    memory and has children, such as [memory-controller@2c00000].  Its children are
    still copied: a passthrough device below it ends up below the device that was
    copied before, in the bytes that the guest is given. *)
Theorem child_of_memory_is_reparented root dev mc child names ids :
  let t := RNode root [RNode dev []; RNode mc [RNode child []]] in
  is_device_tree t → is_memory mc = true →
  included names ids 2 (path_text [nd_name dev]) dev = true →
  included names ids 3 (path_text [nd_name child; nd_name mc]) child = true →
  writable (tmap wn (RNode root [RNode dev [RNode child []]])) →
  ∃ bytes, crate_guest_fdt (W:=W) (H:=H) (nodes_of t) names (Some ids) = Ok bytes ∧
    parses_to bytes (RNode root [RNode dev [RNode child []]]).
Proof.
  intros t Ht Hm Hd Hc Hw.
  assert (Hmc : included names ids 2 (path_text [nd_name mc]) mc = false).
  { destruct Ht as (_ & _ & Hn). cbn in Hn. unfold included, determine_node_action, n_name. cbn.
    apply Forall_cons in Hn as [_ [Hn _]%Forall_cons]. unfold is_memory in Hm.
    by rewrite bool_decide_false, Hm. }
  destruct (write_selected (included names ids) _ t [RNode dev [RNode child []]]
    (crate_selects names ids) Ht) as (bytes & Hb & Hp); [|done|by eauto].
  unfold selects_as, kept. cbn. change (2 + 1) with 3. rewrite Hd, Hmc, Hc. done.
Qed.

(** [need_cpu_node] takes every node below [/cpus/cpu@..] for a CPU: when a node below a
    CPU that the guest does not get, such as a cache, has a [reg] that is the number of a
    CPU that it gets, the node is copied without its parent, and ends up below the CPU
    that was copied before. *)
Theorem child_of_cpu_is_reparented root cpus cpu other child names ids :
  let t := RNode root [RNode cpus [RNode cpu []; RNode other [RNode child []]]] in
  is_device_tree t →
  included names ids 2 (path_text [nd_name cpus]) cpus = true →
  included names ids 3 (path_text [nd_name cpu; nd_name cpus]) cpu = true →
  included names ids 3 (path_text [nd_name other; nd_name cpus]) other = false →
  included names ids 4 (path_text [nd_name child; nd_name other; nd_name cpus]) child = true →
  writable (tmap wn (RNode root [RNode cpus [RNode cpu [RNode child []]]])) →
  ∃ bytes, crate_guest_fdt (W:=W) (H:=H) (nodes_of t) names (Some ids) = Ok bytes ∧
    parses_to bytes (RNode root [RNode cpus [RNode cpu [RNode child []]]]).
Proof.
  intros t Ht Hc Hcpu Ho Hch Hw.
  destruct (write_selected (included names ids) _ t [RNode cpus [RNode cpu [RNode child []]]]
    (crate_selects names ids) Ht) as (bytes & Hb & Hp); [|done|by eauto].
  unfold selects_as, kept. cbn. change (2 + 1) with 3. change (3 + 1) with 4. by rewrite Hc, Hcpu, Ho, Hch.
Qed.
End crate.
