(* ===== verification/FdtUpdate.v ===== *)
(** * The last changes to a guest's device tree

    [update_fdt] and [update_cpu_node] of [kernel/src/vmm/fdt/create.rs]: the trees
    that they write, and the guest memory that [update_fdt] leaves. *)

From Stdlib Require Import Ascii Strings.Byte.
From S2P Require Import Prelude RustStr Disk FdtTree FdtWrite GuestMem FdtCreate FdtGuest.

(** ** The tree that [update_fdt] writes *)
Section update.
Context `{FdtWriter W H} `{FdtParser} `{OverflowChecks}.

Definition chosen_value (prop : fdt_prop) : option (string * wval) :=
  if starts_with "linux,initrd-" (pr_name prop) then None
  else if bool_decide (pr_name prop = "bootargs") then
    Some (pr_name prop, VStr (str_replace " ro " " rw " (prop_str prop)))
  else Some (pr_name prop, VRaw (pr_raw prop)).

(** A node as it is written: [chosen] loses the initial ramdisk and mounts its root
    read-write. *)
Definition un (d : node_data) : wnode :=
  ((wn d).1, if bool_decide (nd_name d = "chosen") then omap chosen_value (nd_props d) else (wn d).2).

Definition memory_node (regions : list mem_region) : rtree wnode :=
  RNode ("memory", [("reg", VU32s (memory_words regions)); ("device_type", VStr "memory")]) [].

Definition other_nodes (t : rtree node_data) : list (rtree wnode) :=
  map (tmap un) (omap (prune not_memory) (children t)).

(** What is written when the other nodes, by their levels, are the trees [K]. *)
Definition written_tree (regions : list mem_region) (t : rtree node_data) (K : list (rtree wnode)) : rtree wnode :=
  RNode (un (label t)) (K ++ [memory_node regions]).

Definition updated_tree (regions : list mem_region) (t : rtree node_data) : rtree wnode :=
  written_tree regions t (other_nodes t).

Definition copied (l : list (Z * node_data)) : list (Z * wnode) :=
  prod_map id un <$> List.filter (λ x, not_memory x.2) l.

Lemma copied_cons l d ls :
  copied ((l, d) :: ls) = if not_memory d then (l, un d) :: copied ls else copied ls.
Proof. unfold copied. cbn. by destruct (not_memory d). Qed.

Lemma chosen_emits ps name s s' :
  emits (prop_calls (name, omap chosen_value ps)) s s' → chosen_props (W:=W) (H:=H) ps s = (Ok (), s').
Proof.
  unfold prop_calls; cbn [snd]. revert s. induction ps as [|p ps IH]; intros s; [done|].
  cbn [omap list_omap chosen_props]. unfold chosen_value at 1.
  destruct (starts_with "linux,initrd-" (pr_name p)); [apply IH|].
  case_bool_decide; rewrite fmap_cons; intros (s1 & Hc & Hs)%emits_cons; cbn [wdo] in Hc.
  - erewrite wbind_run by exact Hc. by apply IH.
  - unfold write_property. erewrite wbind_run by exact Hc. by apply IH.
Qed.

Lemma un_props_emits d s s' :
  emits (prop_calls (un d)) s s' →
  (if bool_decide (nd_name d = "chosen") then chosen_props (nd_props d)
   else write_properties (nd_props d)) s = (Ok (), s').
Proof.
  unfold un. case_bool_decide; [apply chosen_emits|]. intros Hs. by apply (props_emits (mkNode 0 d)).
Qed.

Lemma update_emits l : ∀ s s',
  Forall (λ x, nd_name x.2 ≠ "/") l →
  emits (node_calls (previous_node_level s) (copied l)) s s' →
  update_loop (W:=W) (H:=H) (to_node <$> l) s =
    (Ok (), set_level (last_level (previous_node_level s) (copied l)) s').
Proof.
  induction l as [|[l d] ls IH]; intros s s' Hn Hs.
  { unfold emits in Hs. injection Hs as <-. cbn. by rewrite set_level_same. }
  apply Forall_cons in Hn as [Hd Hn]. cbn [snd] in Hd. rewrite fmap_cons. cbn [update_loop].
  change (to_node (l, d)) with (mkNode l d). unfold n_name; cbn [n_data n_level].
  rewrite bool_decide_false by done. cbn [negb andb].
  rewrite copied_cons in Hs |- *. unfold not_memory, is_memory in Hs |- *.
  destruct (starts_with "memory" (nd_name d)) eqn:Hm; cbn [negb] in Hs |- *.
  { rewrite (wbind_run _ _ _ () s) by done. by apply IH. }
  cbn [node_calls last_level] in Hs |- *.
  rewrite app_comm_cons, app_assoc in Hs. apply emits_app in Hs as (s1 & Hc & Hs).
  apply (open_emits (mkNode l d)) in Hc as (s2 & Ho & Hp); [|done].
  apply emits_level with (p := l) in Hp, Hs.
  erewrite wbind_run; [by rewrite (IH (set_level l s1) (set_level l s') Hn Hs)|].
  erewrite wbind_run by exact Ho. erewrite wbind_run by done. by apply un_props_emits.
Qed.

Lemma memory_closed t : memory_leaves t = true → closed not_memory t = true.
Proof.
  unfold memory_leaves. induction t as [d ts IH] using rtree_rect'. cbn [inner_nodes closed].
  intros [Hm Hts]%andb_prop. destruct (not_memory d).
  - induction IH as [|t ts Ht _ IHs]; cbn in *; [done|]. apply andb_prop in Hts as [Ht' Hts].
    by rewrite Ht, IHs by by rewrite orb_true_r in *.
  - by destruct ts.
Qed.

Lemma copied_flats L ts :
  forallb memory_leaves ts = true →
  copied (flats L ts) = flats L (map (tmap un) (omap (prune not_memory) ts)).
Proof.
  unfold copied, flats. induction ts as [|t ts IH]; cbn [map concat forallb]; [done|].
  intros [Ht Hts]%andb_prop.
  rewrite List.filter_app, fmap_app, IH, (filter_flat not_memory) by (done || by apply memory_closed).
  cbn [omap list_omap]. destruct (prune not_memory t) as [t'|]; [|done]. cbn [map concat]. f_equal.
  by rewrite flat_tmap.
Qed.

(** The calls after a node is closed. *)
Definition memory_calls (regions : list mem_region) (p : Z) : list wcall :=
  if p =? 1 then ser (memory_node regions) else [].

Lemma closing_memory regions m :
  closing (memory_calls regions) (S (S m)) =
    replicate (S m) WEnd ++ ser (memory_node regions) ++ [WEnd].
Proof.
  induction m as [|m IH]; [done|].
  change (closing (memory_calls regions) (S (S (S m)))) with
    (WEnd :: memory_calls regions (Z.of_nat (S (S m))) ++ closing (memory_calls regions) (S (S m))).
  rewrite IH. unfold memory_calls. by rewrite (proj2 (Z.eqb_neq _ _)) by lia.
Qed.

Lemma memory_after_emits regions p k s s' :
  previous_node_level s = p → length (node_stack s) = k → emits (memory_calls regions p) s s' →
  memory_after (W:=W) (H:=H) regions p s = (Ok (), s') ∧ length (node_stack s') = k.
Proof.
  intros _ Hk Hs. unfold memory_after, memory_calls in *. destruct (p =? 1).
  - split; [|by apply (emits_stack _ _ _ _ Hs); rewrite depth_ser, Hk].
    apply emits_cons in Hs as (s1 & Hb & Hs). erewrite wbind_run by exact Hb.
    apply emits_cons in Hs as (s2 & Hp1 & Hs). apply emits_cons in Hs as (s3 & Hp2 & Hs).
    cbn [wdo] in Hp1, Hp2. erewrite wbind_run by (unfold add_memory_node; by erewrite wbind_run by exact Hp1).
    by apply emits_single in Hs.
  - unfold emits in Hs. by injection Hs as <-.
Qed.

Lemma flat_levels {A} (t : rtree A) : ∀ L, Forall (λ x, L ≤ x.1) (flat L t).
Proof.
  induction t as [a ts IH] using rtree_rect'; intros L. cbn [flat]. apply Forall_cons. split; [done|].
  induction IH as [|t ts Ht _ IHs]; cbn [map concat]; [done|]. apply Forall_app. split; [|done].
  eapply Forall_impl; [apply Ht|]. intros x Hx. cbn in *. lia.
Qed.

Lemma last_level_flats {A} L p (t : rtree A) ts : L ≤ last_level p (flats L (t :: ts)).
Proof.
  assert (Hlow : ∀ l p, Forall (λ x : Z * A, L ≤ x.1) l → L ≤ p → L ≤ last_level p l).
  { clear. intros l p Hl. revert p. induction Hl as [|[q a] l Hq _ IH]; intros p Hp; cbn; [done|]. by apply IH. }
  destruct t as [a us]. cbn. apply Hlow; [|done].
  assert (Hall : Forall (λ x, L ≤ x.1) (flats L (RNode a us :: ts))).
  { unfold flats. generalize (RNode a us :: ts). intros l. induction l as [|t l IH]; cbn [map concat]; [done|].
    apply Forall_app. split; [apply flat_levels|done]. }
  by apply Forall_cons in Hall as [_ Hall].
Qed.

(** The calls that write the updated tree are those of the nodes and of the loop
    that closes them. *)
Lemma updated_calls regions t K (q := last_level 1 (flats 2 K)) :
  K ≠ [] →
  2 ≤ q ∧ ser (written_tree regions t K) =
    node_calls 0 ((1, un (label t)) :: flats 2 K) ++ closing (memory_calls regions) (Z.to_nat q).
Proof.
  intros HK. destruct (forest_calls_ser 2 K 1 ltac:(lia)) as [_ Hc]. fold q in Hc.
  assert (Hq : 2 ≤ q).
  { unfold q. destruct K as [|t1 K']; [done|]. apply last_level_flats. }
  split; [done|]. unfold written_tree. cbn [ser node_calls]. clearbody q.
  change (ends (0 - 1 + 1)) with (@nil wcall). cbn [app]. f_equal. rewrite <-app_assoc. f_equal.
  replace (Z.to_nat q) with (S (S (Z.to_nat (q - 2)))) by lia. rewrite closing_memory, app_assoc.
  replace (S (Z.to_nat (q - 2))) with (Z.to_nat (q - 2 + 1)) by lia.
  change (replicate (Z.to_nat (q - 2 + 1)) WEnd) with (ends (q - 2 + 1)). rewrite Hc.
  change (ends (1 - 2 + 1)) with (@nil wcall). cbn [app]. unfold sers.
  rewrite map_app, concat_app, <-!app_assoc. f_equal.
Qed.

Lemma updated_depth regions q n :
  2 ≤ q → depth n (closing (memory_calls regions) (Z.to_nat q)) = Some O → Z.of_nat n = q.
Proof.
  intros Hq. replace (Z.to_nat q) with (S (S (Z.to_nat (q - 2)))) by lia.
  rewrite closing_memory, depth_app. destruct (depth n _) as [m|] eqn:Hm; [|done]. cbn [mbind option_bind].
  rewrite depth_app, depth_ser. cbn. destruct m as [|m]; [done|]. intros [= ->].
  apply depth_ends in Hm. lia.
Qed.

Lemma copied_bound m l : Forall (λ x, x.1 ≤ m) l → Forall (λ x, x.1 ≤ m) (copied l).
Proof.
  intros Hl. induction Hl as [|[p d] l Hp _ IH]; [done|]. rewrite copied_cons.
  destruct (not_memory d); [|done]. by apply Forall_cons.
Qed.

(** The nodes of the tree that are not memory nodes are, by their levels, the trees [K],
    and there are some. *)
Definition updates_to (t : rtree node_data) (K : list (rtree wnode)) : Prop :=
  is_device_tree t ∧ copied (flats 2 (children t)) = flats 2 K ∧ K ≠ [].

(** No node whose name starts with [memory] has children, and there are other nodes. *)
Definition updatable (t : rtree node_data) : Prop :=
  is_device_tree t ∧ forallb memory_leaves (children t) = true ∧ other_nodes t ≠ [].

Lemma updatable_updates t : updatable t → updates_to t (other_nodes t).
Proof. intros (Ht & Hm & HK). split_and!; [done|by apply copied_flats|done]. Qed.

Lemma update_tree_emits t K s s' :
  updates_to t K → previous_node_level s = 0 →
  emits (node_calls 0 ((1, un (label t)) :: flats 2 K)) s s' →
  update_loop (W:=W) (H:=H) (nodes_of t) s = (Ok (), set_level (last_level 1 (flats 2 K)) s').
Proof.
  intros ((Hr & _ & Hn) & Hc & _) Hp Hs.
  rewrite <-Hc in *. destruct t as [d ts]. cbn [children label] in *.
  cbn [node_calls] in Hs. change (ends (0 - 1 + 1)) with (@nil wcall) in Hs. cbn [app] in Hs.
  apply emits_cons in Hs as (s1 & Hb & (s2 & Hpr & Hs)%emits_app).
  unfold nodes_of. cbn [flat]. rewrite fmap_cons. cbn [update_loop].
  change (to_node (1, d)) with (mkNode 1 d). unfold n_name; cbn [n_data n_level].
  rewrite bool_decide_true by done. cbn [negb andb].
  assert (Hb' : push_node "" s = (Ok (), s1)).
  { cbn [wdo] in Hb. unfold un, wn in Hb. cbn [fst] in Hb. by rewrite bool_decide_true in Hb. }
  apply emits_level with (p := 1) in Hpr, Hs.
  erewrite wbind_run; [apply (update_emits (flats 2 ts) (set_level 1 s2) (set_level 1 s'))|];
    [|exact Hs|by erewrite wbind_run by exact Hb'; erewrite wbind_run by done; apply un_props_emits].
  apply (Forall_fmap snd (λ d, nd_name d ≠ "/")). by rewrite flats_labels.
Qed.
End update.

Section updated.
Context `{FdtWriter W H} `{FdtParser} `{OverflowChecks} `{!FdtWriterOk W H}.

Definition parses_to_written (bytes : list u8) (t : rtree wnode) : Prop :=
  ∃ r, from_bytes bytes = Some (nodes_of r) ∧ tmap outline r = tmap written t.

Lemma updated_fdt_spec regions fdt_bytes t K :
  from_bytes fdt_bytes = Some (nodes_of t) → updates_to t K → writable (written_tree regions t K) →
  ∃ bytes, updated_fdt (W:=W) (H:=H) fdt_bytes regions = Ok bytes ∧
    parses_to_written bytes (written_tree regions t K).
Proof.
  intros Hf Ht Hw. destruct (writer_builds _ Hw) as (w & s & bytes & r & Hnew & Hs & Hfin & Hb & Ho).
  exists bytes. split; [|by exists r]. pose proof Ht as ((_ & Hmax & _) & Hm & HK).
  destruct (updated_calls regions t K HK) as [Hq Hser]. set (q := last_level 1 _) in *.
  pose proof (depth_ser 0 (written_tree regions t K)) as Hd. rewrite Hser in Hs, Hd.
  apply emits_app in Hs as (s1 & Hs1 & Hs2). rewrite depth_app in Hd.
  destruct (depth 0 _) as [n|] eqn:Hn; [|done]. cbn [mbind option_bind] in Hd.
  apply updated_depth in Hd; [|done].
  unfold updated_fdt, with_writer. rewrite Hnew. cbn [unwrap mbind outcome_bind].
  erewrite wbind_run by (unfold lift; by rewrite Hf).
  erewrite wbind_run by (by apply (update_tree_emits _ K)).
  apply emits_level with (p := q) in Hs2.
  eapply (finish_emits _ _ (Z.to_nat q)); [apply memory_after_emits|exact Hs2|..].
  - cbn [node_stack set_level]. pose proof (emits_stack _ _ _ _ Hs1 Hn). unfold set_level. cbn. lia.
  - unfold set_level. cbn. lia.
  - assert (q ≤ usize_max); [|lia]. unfold q. rewrite <-Hm.
    apply last_level_bound; [|by vm_compute]. apply copied_bound. destruct t as [d ts].
    by apply Forall_cons in Hmax as [_ Hmax].
  - done.
Qed.

(** The nodes below a node whose name starts with [memory], such as those of a memory
    controller, are copied without it: [update_fdt] writes them below the device that
    comes before. *)
Theorem update_reparents_child_of_memory regions fdt_bytes root dev mc child :
  let t := RNode root [RNode dev []; RNode mc [RNode child []]] in
  let K := [RNode (un dev) [RNode (un child) []]] in
  from_bytes fdt_bytes = Some (nodes_of t) → is_device_tree t →
  is_memory dev = false → is_memory mc = true → is_memory child = false →
  writable (written_tree regions t K) →
  ∃ bytes, updated_fdt (W:=W) (H:=H) fdt_bytes regions = Ok bytes ∧
    parses_to_written bytes (written_tree regions t K).
Proof.
  intros t K Hf Ht Hd Hm Hc Hw. apply (updated_fdt_spec regions fdt_bytes t K); [done| |done].
  split_and!; [done| |done]. unfold copied, not_memory. cbn. by rewrite Hd, Hm, Hc.
Qed.

Section load.
Context `{ImageRegions} `{AlignDown}.

(** C11: [update_fdt] gives the guest its final device tree.  For cached bytes of a tree
    in which no node whose name starts with [memory] has children and which has another
    node ([updatable]; [update_reparents_child_of_memory] shows what happens to the
    children of such a node), it is the tree of these bytes, in which the memory nodes are
    replaced by one that lists the memory regions of the guest and [chosen] has no
    initial ramdisk and mounts its root read-write.  The bytes that parse to this tree are what the guest finds in its
    memory at the address that [calculate_dtb_load_addr] chose and recorded, and the
    call changes nothing else of the guest. *)
Theorem update_fdt_installs fdt_bytes t g :
  from_bytes fdt_bytes = Some (nodes_of t) → updatable t →
  writable (updated_tree (g_memory_regions g) t) →
  ∃ bytes, updated_fdt (W:=W) (H:=H) fdt_bytes (g_memory_regions g) = Ok bytes ∧
    parses_to_written bytes (updated_tree (g_memory_regions g) t) ∧
    ∀ a slices,
      calculate_dtb_load_addr (len bytes) g = (Ok a, set_dtb_load_gpa a g) →
      get_image_load_region (set_dtb_load_gpa a g) a (len bytes) = Ok slices →
      disjoint_regions slices → total slices = len bytes → len bytes ≤ usize_max →
      ∃ m, update_fdt (W:=W) (H:=H) fdt_bytes g = (Ok (), set_memory m (set_dtb_load_gpa a g)) ∧
        read_regions m slices = bytes ∧
        (∀ p, Forall (λ r, ¬ in_region p r) slices → m p = g_memory g p).
Proof.
  intros Hf Ht Hw.
  destruct (updated_fdt_spec _ _ _ _ Hf (updatable_updates _ Ht) Hw) as (bytes & Hb & Hp).
  exists bytes. split_and!; [done..|]. intros a slices Ha Hs Hd Htot Hmax.
  destruct (load_image_spec bytes a slices _ Hs Hd Hmax) as (m & Hl & Hr & Hout).
  exists m. split_and!; [| |done].
  - unfold update_fdt, mbind, st_bind, get, lift. rewrite Hb, Ha. unfold expecting. by rewrite Hl.
  - rewrite Hr, Htot. unfold len. rewrite Nat2Z.id, firstn_all, drop_ge; [by rewrite app_nil_r|].
    enough (len (read_regions (g_memory (set_dtb_load_gpa a g)) slices) = total slices) by (unfold len in *; lia).
    by apply read_regions_len.
Qed.
End load.

(** ** The tree that [update_cpu_node] writes *)
Definition not_cpus (_ : Z) (path : string) (_ : node_data) : bool := negb (starts_with "/cpus" path).

Definition host_cpu (phys_cpu_ids : list Z) (level : Z) (path : string) (d : node_data) : bool :=
  starts_with "/cpus" path && need_cpu_node phys_cpu_ids (mkNode level d) path.

Lemma not_cpus_parent ok : edge_closed not_cpus (λ _, true) ok.
Proof.
  intros L st d dc Hst Hn _ _ _. unfold not_cpus. rewrite path_text_cons by done.
  rewrite !negb_true_iff, <-!not_true_iff_false. intros Hc Hq. by apply Hc, prefix_child.
Qed.

Lemma host_cpu_parent ids : edge_closed (host_cpu ids) (λ _, true) (cpu_regs_ok ids).
Proof.
  intros L st d dc Hst Hn Hlen _ Hreg. pose proof (good_path _ Hst) as (Hq & Habs & Hcount).
  rewrite path_text_cons in Hreg |- * by done. set (q := path_text (nd_name d :: st)) in *.
  unfold host_cpu. intros [Hc Hneed]%andb_prop. rewrite (cpus_parent q (nd_name dc)) by done.
  apply (need_cpu_parent ids L q d dc); [|done..].
  rewrite Hcount. unfold len in *. cbn. lia.
Qed.

Lemma guest_node_selects : selects (W:=W) (H:=H) not_cpus guest_node_body.
Proof.
  split.
  - intros node Hn. unfold guest_node_body. by rewrite bool_decide_true.
  - intros [l d] path Hn. unfold guest_node_body, not_cpus. rewrite bool_decide_false by done.
    destruct (starts_with "/cpus" path); [apply copies_skip|by apply copies_open].
Qed.

Lemma host_cpu_items ids t kids s s' :
  is_device_tree t → selects_as (host_cpu ids) t kids →
  emits (node_calls (previous_node_level s) (flats 2 (map (tmap wn) kids))) s s' →
  for_each_node (host_cpu_body (W:=W) (H:=H) ids) (nodes_of t) 0 (nodes_of t) s =
    (Ok (), set_level (last_level (previous_node_level s) (flats 2 (map (tmap wn) kids))) s').
Proof.
  intros Ht Hk. pose proof (flat_mark_root (host_cpu ids) t) as Hm.
  assert (Hroot : kept (flat 1 (mark_root (host_cpu ids) t)) = flats 2 (map (tmap wn) kids)).
  { rewrite <-Hk. by destruct t. }
  rewrite <-Hroot. intros Hs. apply (for_each_emits _ (nodes_of t) (nodes_of t) 0); [| |done].
  { pose proof (f_equal length (flat_annot_root t)) as Hl. rewrite length_fmap in Hl.
    unfold nodes_of. by rewrite Hm, !length_fmap. }
  intros j node Hj. destruct (node_path_at t j node Ht Hj) as (path & Hp & Hb).
  exists path, (host_cpu ids (n_level node) path (n_data node)). split_and!; [done|..].
  { by rewrite Hm, list_lookup_fmap, Hp. }
  unfold host_cpu_body, host_cpu. destruct node as [l d]. cbn [n_level n_data].
  destruct (starts_with "/cpus" path) eqn:Hc; [|apply copies_skip]. cbn [andb].
  destruct (need_cpu_node ids _ path); [|apply copies_skip]. apply copies_open_late.
  destruct j as [|j].
  - destruct t. injection Hp as _ <- _. done.
  - destruct Ht as (_ & _ & Hn). rewrite Forall_forall in Hn. apply Hn.
    rewrite <-(flats_labels 2). destruct t as [d' ts]. unfold nodes_of in Hj. cbn [flat] in Hj.
    rewrite fmap_cons in Hj. apply list_lookup_fmap_Some in Hj as ([l' d''] & [= -> ->] & Hd).
    apply list_elem_of_fmap. exists (l', d''). split; [done|]. by eapply list_elem_of_lookup_2.
Qed.

(** [update_cpu_node] gives a provided device tree the CPUs of the host: the
    bytes it returns parse to the provided tree without its [/cpus], followed by the
    host's [/cpus] with the CPUs that the configuration lists.  It does not panic. *)
Theorem update_cpu_node_grafts t host ids
    (kids := children (selected not_cpus t) ++ children (selected (host_cpu ids) host)) :
  named_tree (λ _, true) (λ _, True) t → named_tree (λ _, true) (cpu_regs_ok ids) host →
  writable (tmap wn (RNode (label t) kids)) →
  ∃ bytes, update_cpu_node (W:=W) (H:=H) (nodes_of t) (nodes_of host) (Some ids) = Ok bytes ∧
    parses_to bytes (RNode (label t) kids).
Proof.
  intros Ht Hh Hw.
  pose proof (selects_closed _ _ (named_closed _ _ _ t (not_cpus_parent _) Ht)) as Hg.
  pose proof (selects_closed _ _ (named_closed _ _ _ host (host_cpu_parent ids) Hh)) as Hc.
  destruct Ht as (Ht & _), Hh as (Hh & _).
  destruct (writer_builds _ Hw) as (w & s & bytes & r & Hnew & Hs & Hf & Hb & Ho).
  exists bytes. rewrite written_wn in Ho. split; [|by exists r].
  apply ser_split in Hs as (s1 & Hcalls & Hends & Hpos & Hk).
  set (t1 := tmap wn (RNode (label t) (children (selected not_cpus t)))).
  set (cpus := flats 2 (map (tmap wn) (children (selected (host_cpu ids) host)))).
  assert (Hflat : flat 1 (tmap wn (RNode (label t) kids)) = flat 1 t1 ++ cpus).
  { unfold kids, t1, cpus, flats. cbn [tmap flat]. rewrite !map_app, concat_app. done. }
  rewrite Hflat, node_calls_app in Hcalls. apply emits_app in Hcalls as (s0 & Hg1 & Hg2).
  rewrite Hflat in *. rewrite last_level_app in *.
  unfold update_cpu_node, with_writer. rewrite Hnew. cbn [unwrap mbind outcome_bind].
  erewrite wbind_run by done.
  erewrite wbind_run by (by eapply select_emits; [apply guest_node_selects|..]).
  apply emits_level with (p := last_level 0 (flat 1 t1)) in Hg2.
  erewrite wbind_run by (by eapply host_cpu_items).
  eapply (finish_emits _ (λ _, []) (Z.to_nat (last_level (last_level 0 (flat 1 t1)) cpus))).
  - intros p k s2 s2' _ Hk2 Hnil. unfold emits in Hnil. by injection Hnil as <-.
  - rewrite closing_nil. do 2 apply emits_level. exact Hends.
  - unfold set_level; cbn [node_stack]. lia.
  - unfold set_level; cbn [previous_node_level]. fold t1 cpus. lia.
  - rewrite Z2Nat.id by lia. apply last_level_bound; [|by apply (selected_levels not_cpus)].
    unfold cpus. rewrite <-Hc. apply kept_bound. destruct Hh as (_ & Hmax & _).
    rewrite <-flat_annot_root, Forall_fmap in Hmax.
    assert (Hm : Forall (λ x, x.1 ≤ usize_max) (flat 1 (mark_root (host_cpu ids) host))).
    { rewrite flat_mark_root. by apply Forall_fmap. }
    destruct host. by apply Forall_cons in Hm as [_ Hm].
  - done.
Qed.
End updated.
