(* ===== verification/FdtDevice.v ===== *)
(** * Passthrough devices

    [kernel/src/vmm/fdt/device.rs]: from the devices that the configuration of a guest
    names, the devices of the host's tree that have to be passed through with them:
    what is below them, and, through the references in their properties, what they
    depend on, without the excluded ones. *)

From Stdlib Require Import Ascii Strings.Byte.
From S2P Require Import Prelude RustStr Disk FdtTree FdtWrite FdtCreate.

(** [Property::u32] of [fdt_parser]. *)
Class PropU32 : Type := prop_u32 : fdt_prop → Z.

(** Whether [info!] is logged, which decides if its arguments are evaluated. *)
Class InfoLog : Type := info_log : bool.

Abbreviation cells_map := (gmap string Z).
Abbreviation phandles := (gmap Z (string * cells_map)).
Abbreviation node_cache := (gmap string (list fdt_node)).

Section device.
Context `{OverflowChecks} `{PropU32} `{InfoLog}.

(** ** The tables *)
Fixpoint cache_loop (all_nodes : list fdt_node) (index : nat) (nodes : list fdt_node)
    (cache : node_cache) : outcome AxError node_cache :=
  match nodes with
  | [] => Ok cache
  | node :: nodes =>
      node_path ← build_node_path all_nodes index;
      cache_loop all_nodes (S index) nodes
        (<[node_path := default [] (cache !! node_path) ++ [node]]> cache)
  end.

Definition build_optimized_node_cache (all_nodes : list fdt_node) : outcome AxError node_cache :=
  cache_loop all_nodes 0 all_nodes ∅.

Definition cells_properties : list string :=
  ["#address-cells"; "#size-cells"; "#clock-cells"; "#reset-cells"; "#gpio-cells";
   "#interrupt-cells"; "#power-domain-cells"; "#thermal-sensor-cells"; "#phy-cells"; "#dma-cells";
   "#sound-dai-cells"; "#mbox-cells"; "#pwm-cells"; "#iommu-cells"].

Fixpoint collect_props (ps : list fdt_prop) (phandle : option Z) (cells : cells_map) :
    option Z * cells_map :=
  match ps with
  | [] => (phandle, cells)
  | prop :: ps =>
      if bool_decide (pr_name prop = "phandle" ∨ pr_name prop = "linux,phandle") then
        collect_props ps (Some (prop_u32 prop)) cells
      else if bool_decide (pr_name prop ∈ cells_properties) then
        collect_props ps phandle (<[pr_name prop := prop_u32 prop]> cells)
      else collect_props ps phandle cells
  end.

Fixpoint phandle_loop (all_nodes : list fdt_node) (index : nat) (nodes : list fdt_node)
    (phandle_map : phandles) : outcome AxError phandles :=
  match nodes with
  | [] => Ok phandle_map
  | node :: nodes =>
      node_path ← build_node_path all_nodes index;
      let '(phandle, cells) := collect_props (nd_props (n_data node)) None ∅ in
      phandle_loop all_nodes (S index) nodes
        match phandle with
        | Some ph => <[ph := (node_path, cells)]> phandle_map
        | None => phandle_map
        end
  end.

Definition build_phandle_map (all_nodes : list fdt_node) : outcome AxError phandles :=
  phandle_loop all_nodes 0 all_nodes ∅.

(** ** References in properties *)
Definition get_cells_count_for_property (prop_name : string) (cells_info : cells_map) : nat :=
  let cells_property :=
    if bool_decide (prop_name ∈ ["clocks"; "assigned-clocks"]) then Some "#clock-cells"
    else if bool_decide (prop_name = "resets") then Some "#reset-cells"
    else if bool_decide (prop_name = "power-domains") then Some "#power-domain-cells"
    else if bool_decide (prop_name = "phys") then Some "#phy-cells"
    else if bool_decide (prop_name ∈ ["interrupts"; "interrupts-extended"]) then Some "#interrupt-cells"
    else if bool_decide (prop_name = "gpios") then Some "#gpio-cells"
    else if ends_with "-gpios" prop_name || ends_with "-gpio" prop_name then Some "#gpio-cells"
    else if bool_decide (prop_name = "dmas") then Some "#dma-cells"
    else if bool_decide (prop_name = "thermal-sensors") then Some "#thermal-sensor-cells"
    else if bool_decide (prop_name = "sound-dai") then Some "#sound-dai-cells"
    else if bool_decide (prop_name = "mboxes") then Some "#mbox-cells"
    else if bool_decide (prop_name = "pwms") then Some "#pwm-cells"
    else None in
  match cells_property with
  | Some p => Z.to_nat (default 0 (cells_info !! p))
  | None => O
  end.

(** [chunks(4)] with [u32::from_be_bytes]. *)
Fixpoint be_words (bs : list u8) : list Z :=
  match bs with
  | a :: b :: c :: d :: bs =>
      (((u8_val a * 256 + u8_val b) * 256 + u8_val c) * 256 + u8_val d) :: be_words bs
  | _ => []
  end.

(** The loop over [u32_values], on what is left of them. *)
Fixpoint refs_loop (fuel : nat) (prop_name : string) (phandle_map : phandles) (values : list Z) :
    list (Z * list Z) :=
  match fuel, values with
  | S fuel, potential_phandle :: rest =>
      match phandle_map !! potential_phandle with
      | Some (_, cells_info) =>
          let cells_count := get_cells_count_for_property prop_name cells_info in
          if (cells_count <? length values)%nat then
            (potential_phandle, take cells_count rest) ::
              refs_loop fuel prop_name phandle_map (drop cells_count rest)
          else []
      | None => refs_loop fuel prop_name phandle_map rest
      end
  | _, _ => []
  end.

Definition parse_phandle_property_with_cells (prop_data : list u8) (prop_name : string)
    (phandle_map : phandles) : list (Z * list Z) :=
  if is_empty prop_data || negb (len prop_data mod 4 =? 0) then []
  else
    let u32_values := be_words prop_data in
    refs_loop (length u32_values) prop_name phandle_map u32_values.

Definition parse_phandle_property (prop_data : list u8) (prop_name : string)
    (phandle_map : phandles) : list string :=
  omap (λ r, fst <$> phandle_map !! r.1)
    (parse_phandle_property_with_cells prop_data prop_name phandle_map).

Definition PHANDLE_PROPERTIES : list string :=
  ["clocks"; "power-domains"; "phys"; "resets"; "dmas"; "thermal-sensors"; "mboxes";
   "assigned-clocks"; "interrupt-parent"; "phy-handle"; "msi-parent"; "memory-region"; "syscon";
   "regmap"; "iommus"; "interconnects"; "nvmem-cells"; "sound-dai"; "pinctrl-0"; "pinctrl-1";
   "pinctrl-2"; "pinctrl-3"; "pinctrl-4"].

Definition is_phandle_property (prop_name : string) : bool :=
  bool_decide (prop_name ∈ PHANDLE_PROPERTIES) || ends_with "-supply" prop_name ||
  bool_decide (prop_name = "gpios") || ends_with "-gpios" prop_name || ends_with "-gpio" prop_name ||
  (str_contains "cells" prop_name && negb (starts_with "#" prop_name) && (4 <=? str_len prop_name)).

Definition find_device_dependencies (device_node_path : string) (phandle_map : phandles)
    (cache : node_cache) : list string :=
  match cache !! device_node_path with
  | Some nodes =>
      nodes ≫= λ node, nd_props (n_data node) ≫= λ prop,
        if is_phandle_property (pr_name prop) then
          parse_phandle_property (pr_raw prop) (pr_name prop) phandle_map
        else []
  | None => []
  end.

Definition get_descendant_nodes_by_path (cache : node_cache) (parent_path : string) : list string :=
  let search_prefix := if bool_decide (parent_path = "/") then "/" else parent_path +:+ "/" in
  List.filter (λ path, starts_with search_prefix path && (str_len search_prefix <? str_len path))
    (btree_iter cache).*1.

(** ** The analysis *)

(** One list of names added to a set, with those that were new. *)
Fixpoint add_new (names : list string) (known : gset string) (added : list string) :
    gset string * list string :=
  match names with
  | [] => (known, added)
  | n :: names =>
      if bool_decide (n ∈ known) then add_new names known added
      else add_new names ({[n]} ∪ known) (added ++ [n])
  end.

(** Phase 1, and the same for the excluded devices. *)
Fixpoint add_descendants (cache : node_cache) (devices : list string) (known : gset string)
    (added : list string) : gset string * list string :=
  match devices with
  | [] => (known, added)
  | device_name :: devices =>
      let '(known, added) := add_new (get_descendant_nodes_by_path cache device_name) known added in
      add_descendants cache devices known added
  end.

(** Phase 2: [devices_to_process] is kept with its last element first. *)
Fixpoint dependency_loop (fuel : nat) (phandle_map : phandles) (cache : node_cache)
    (devices_to_process : list string) (processed configured : gset string)
    (dependency_device_names : list string) : option (gset string * list string) :=
  match devices_to_process, fuel with
  | [], _ => Some (configured, dependency_device_names)
  | _ :: _, O => None
  | p :: devices_to_process, S fuel =>
      if bool_decide (p ∈ processed) then
        dependency_loop fuel phandle_map cache devices_to_process processed configured
          dependency_device_names
      else
        let '(configured', new) :=
          add_new (find_device_dependencies p phandle_map cache) configured [] in
        dependency_loop fuel phandle_map cache (reverse new ++ devices_to_process)
          ({[p]} ∪ processed) configured' (dependency_device_names ++ new)
  end.

Definition sorted_elements (s : gset string) : list string :=
  (btree_iter (gset_to_gmap () s)).*1.

(** The last log message, which subtracts the numbers of devices. *)
Definition counted (all_device_names initial_device_names : list string) :
    outcome AxError (option (list string)) :=
  (if info_log then
     _added ← usize_sub (len all_device_names) (len initial_device_names); mret ()
   else mret ()) ≫= λ _,
  mret (Some all_device_names).

Definition find_all_passthrough_devices (fuel : nat) (initial_device_names : list string)
    (excluded_devices : list (list string)) (all_nodes : list fdt_node) :
    outcome AxError (option (list string)) :=
  cache ← build_optimized_node_cache all_nodes;
  let configured := list_to_set initial_device_names in
  let '(configured, additional_device_names) :=
    add_descendants cache initial_device_names configured [] in
  phandle_map ← build_phandle_map all_nodes;
  match
    dependency_loop fuel phandle_map cache (reverse (sorted_elements configured)) ∅ configured []
  with
  | None => Ok None
  | Some (_, dependency_device_names) =>
      let excluded_device_path := concat excluded_devices in
      let '(_, more) :=
        add_descendants cache excluded_device_path (list_to_set excluded_device_path) [] in
      let all_excludes_devices := excluded_device_path ++ more in
      let all_device_names :=
        initial_device_names ++ additional_device_names ++ dependency_device_names in
      let all_device_names :=
        if is_empty all_excludes_devices then all_device_names
        else List.filter (λ d, negb (bool_decide (d ∈ all_excludes_devices))) all_device_names in
      let all_device_names := List.filter (λ d, negb (bool_decide (d = "/"))) all_device_names in
      counted all_device_names initial_device_names
  end.
End device.

(** ** Adding names *)
Lemma add_new_spec names : ∀ (known : gset string) added,
  ∃ new, add_new names known added = (list_to_set new ∪ known, added ++ new) ∧
    (∀ x, x ∈ new ↔ x ∈ names ∧ x ∉ known) ∧ NoDup new.
Proof.
  induction names as [|n names IH]; intros known added; cbn [add_new].
  { exists []. split_and!; [|set_solver|constructor]. f_equal; [set_solver|by rewrite app_nil_r]. }
  case_bool_decide as Hn.
  - destruct (IH known added) as (new & -> & Hnew & Hnd). exists new. split_and!; [done| |done].
    intros x. rewrite Hnew. set_solver.
  - destruct (IH ({[n]} ∪ known) (added ++ [n])) as (new & -> & Hnew & Hnd).
    exists (n :: new). split_and!.
    + rewrite <-app_assoc. f_equal. set_solver.
    + intros x. rewrite elem_of_cons, Hnew. destruct (decide (x = n)); set_solver.
    + constructor; [rewrite Hnew; set_solver|done].
Qed.

Lemma add_descendants_spec cache devices : ∀ (known : gset string) added,
  ∃ new, add_descendants cache devices known added = (list_to_set new ∪ known, added ++ new) ∧
    (∀ x, x ∈ new ↔ (∃ p, p ∈ devices ∧ x ∈ get_descendant_nodes_by_path cache p) ∧ x ∉ known).
Proof.
  induction devices as [|p devices IH]; intros known added; cbn [add_descendants].
  { exists []. split; [f_equal; [set_solver|by rewrite app_nil_r]|set_solver]. }
  destruct (add_new_spec (get_descendant_nodes_by_path cache p) known added) as (new1 & -> & H1 & _).
  destruct (IH (list_to_set new1 ∪ known) (added ++ new1)) as (new2 & -> & H2).
  exists (new1 ++ new2). split; [rewrite <-app_assoc; f_equal; set_solver|].
  intros x. rewrite elem_of_app, H1, H2, elem_of_union, elem_of_list_to_set, H1.
  split.
  - intros [[Hx Hk]|[(q & Hq & Hx) Hk]]; (split; [|tauto]); [exists p|exists q]; set_solver.
  - intros [(q & Hq & Hx) Hk]. apply elem_of_cons in Hq as [->|Hq]; [tauto|].
    destruct (decide (x ∈ get_descendant_nodes_by_path cache p)); [tauto|]. right. split; [eauto|tauto].
Qed.

Lemma elem_of_sorted_elements s x : x ∈ sorted_elements s ↔ x ∈ s.
Proof.
  unfold sorted_elements. rewrite list_elem_of_fmap. split.
  - intros ([k []] & -> & Hk). apply elem_of_btree_iter, lookup_gset_to_gmap_Some in Hk. by destruct Hk.
  - intros Hx. exists (x, ()). split; [done|]. apply elem_of_btree_iter, lookup_gset_to_gmap_Some. done.
Qed.

Lemma sorted_elements_length s : length (sorted_elements s) = size s.
Proof.
  unfold sorted_elements. rewrite length_fmap, btree_iter_length. rewrite <-(size_dom (D:=gset string)).
  by rewrite dom_gset_to_gmap.
Qed.

(** ** Dependencies are devices with a phandle *)
Definition device_paths (phandle_map : phandles) : gset string :=
  list_to_set ((map_to_list phandle_map).*2.*1).

Lemma elem_of_device_paths pm x : x ∈ device_paths pm ↔ ∃ ph cells, pm !! ph = Some (x, cells).
Proof.
  unfold device_paths. rewrite elem_of_list_to_set, !list_elem_of_fmap. split.
  - intros ([y cells] & -> & Hin). apply list_elem_of_fmap in Hin as ([ph v] & Hv & Hin).
    cbn in Hv. subst v. apply elem_of_map_to_list in Hin. by exists ph, cells.
  - intros (ph & cells & Hp). exists (x, cells). split; [done|]. apply list_elem_of_fmap.
    exists (ph, (x, cells)). split; [done|]. by apply elem_of_map_to_list.
Qed.

Lemma size_list_to_set_le (l : list string) : (size (list_to_set (C:=gset string) l) ≤ length l)%nat.
Proof.
  induction l as [|x l IH]; cbn; [by rewrite size_empty|]. rewrite size_union_alt, size_singleton.
  enough (size (list_to_set l ∖ {[x]} : gset string) ≤ size (list_to_set l : gset string))%nat by lia.
  apply subseteq_size. set_solver.
Qed.

Lemma device_paths_size pm : (size (device_paths pm) ≤ size pm)%nat.
Proof.
  unfold device_paths. etrans; [apply size_list_to_set_le|]. by rewrite !length_fmap, length_map_to_list.
Qed.

Lemma parse_phandle_property_devices data name pm x :
  x ∈ parse_phandle_property data name pm → x ∈ device_paths pm.
Proof.
  unfold parse_phandle_property. rewrite list_elem_of_omap. intros ([ph specs] & _ & Hx).
  cbn in Hx. destruct (pm !! ph) as [[y cells]|] eqn:Hp; [|done]. cbn in Hx. injection Hx as ->.
  apply elem_of_device_paths. by exists ph, cells.
Qed.

Lemma dependencies_devices p pm cache x :
  x ∈ find_device_dependencies p pm cache → x ∈ device_paths pm.
Proof.
  unfold find_device_dependencies. destruct (cache !! p) as [nodes|]; [|set_solver].
  rewrite list_elem_of_bind. intros (node & (prop & Hx & _)%list_elem_of_bind & _).
  destruct (is_phandle_property (pr_name prop)); [by eapply parse_phandle_property_devices|set_solver].
Qed.

(** ** The work list *)
Section worklist.
Context (pm : phandles) (cache : node_cache) (seeds : gset string).

Definition depends (a b : string) : Prop := b ∈ find_device_dependencies a pm cache.

(** Reached from the seeds by dependencies. *)
Definition needed (x : string) : Prop := ∃ a, a ∈ seeds ∧ rtc depends a x.

Record loop_inv (stack : list string) (processed configured : gset string) (deps : list string) : Prop := {
  inv_deps : configured = seeds ∪ list_to_set deps;
  inv_needed : ∀ x, x ∈ configured → needed x;
  inv_todo : ∀ x, x ∈ configured → x ∈ processed ∨ x ∈ stack;
  inv_stack : ∀ x, x ∈ stack → x ∈ configured;
  inv_closed : ∀ x y, x ∈ processed → depends x y → y ∈ configured;
}.

Lemma inv_init : loop_inv (reverse (sorted_elements seeds)) ∅ seeds [].
Proof.
  split.
  - set_solver.
  - intros x Hx. exists x. by split.
  - intros x Hx. right. by rewrite elem_of_reverse, elem_of_sorted_elements.
  - intros x. by rewrite elem_of_reverse, elem_of_sorted_elements.
  - set_solver.
Qed.

Lemma inv_step p stack processed configured deps new :
  loop_inv (p :: stack) processed configured deps →
  (∀ x, x ∈ new ↔ x ∈ find_device_dependencies p pm cache ∧ x ∉ configured) →
  loop_inv (reverse new ++ stack) ({[p]} ∪ processed) (list_to_set new ∪ configured) (deps ++ new).
Proof.
  intros [Hd Hn Ht Hs Hc] Hnew. assert (Hp : p ∈ configured) by (apply Hs; set_solver). split.
  - rewrite Hd. set_solver.
  - intros x [Hx|Hx]%elem_of_union; [|by apply Hn]. apply elem_of_list_to_set, Hnew in Hx as [Hx _].
    destruct (Hn p Hp) as (a & Ha & Hr). exists a. split; [done|]. eapply rtc_r; [done|exact Hx].
  - intros x [Hx|Hx]%elem_of_union; [right; set_solver|].
    destruct (Ht x Hx) as [?|[->|?]%elem_of_cons]; set_solver.
  - intros x [Hx|Hx]%elem_of_app; [set_solver|]. apply elem_of_union_r, Hs. set_solver.
  - intros x y [->%elem_of_singleton|Hx]%elem_of_union Hxy; [|apply elem_of_union_r; by eapply Hc].
    destruct (decide (y ∈ configured)); [set_solver|]. apply elem_of_union_l, elem_of_list_to_set.
    by apply Hnew.
Qed.

Lemma inv_skip p stack processed configured deps :
  loop_inv (p :: stack) processed configured deps → p ∈ processed →
  loop_inv stack processed configured deps.
Proof.
  intros [Hd Hn Ht Hs Hc] Hp. split; [done..| | |done].
  - intros x Hx. destruct (Ht x Hx) as [?|[->|?]%elem_of_cons]; auto.
  - intros x Hx. apply Hs. set_solver.
Qed.

(** The names that can still be added. *)
Definition left_over (configured : gset string) : nat := size (device_paths pm ∖ configured).

Lemma left_over_new configured new :
  NoDup new → (∀ x, x ∈ new → x ∈ device_paths pm ∧ x ∉ configured) →
  (left_over (list_to_set new ∪ configured) + length new ≤ left_over configured)%nat.
Proof.
  intros Hnd Hnew. unfold left_over.
  assert (Hsz : size (list_to_set (C:=gset string) new) = length new) by by apply size_list_to_set.
  rewrite <-Hsz, <-size_union by set_solver. apply subseteq_size. intros x.
  destruct (decide (x ∈ new)) as [Hx|]; [apply Hnew in Hx|]; set_solver.
Qed.

Lemma dependency_loop_spec fuel : ∀ stack processed configured deps,
  loop_inv stack processed configured deps →
  (length stack + left_over configured < fuel)%nat →
  ∃ configured' deps',
    dependency_loop fuel pm cache stack processed configured deps = Some (configured', deps') ∧
    configured' = seeds ∪ list_to_set deps' ∧ (∀ x, x ∈ configured' ↔ needed x).
Proof.
  induction fuel as [|fuel IH]; intros stack processed configured deps Hinv Hf; [lia|].
  destruct stack as [|p stack]; cbn [dependency_loop].
  { exists configured, deps. destruct Hinv as [Hd Hn Ht Hs Hc]. split_and!; [done..|].
    intros x. split; [apply Hn|]. intros (a & Ha & Hr). assert (Hac : a ∈ configured) by set_solver.
    clear Ha. induction Hr as [|a b c Hab _ IHr]; [done|]. apply IHr.
    destruct (Ht a Hac) as [Hp|Hp]; [by eapply Hc|by apply elem_of_nil in Hp]. }
  case_bool_decide as Hp.
  - apply IH; [by eapply inv_skip|]. cbn in Hf. lia.
  - destruct (add_new_spec (find_device_dependencies p pm cache) configured []) as (new & -> & Hnew & Hnd).
    cbn [app]. apply IH; [by apply inv_step|].
    pose proof (left_over_new configured new Hnd) as Hl. cbn in Hf. rewrite length_app, length_reverse.
    enough (left_over (list_to_set new ∪ configured) + length new ≤ left_over configured)%nat by lia.
    apply Hl. intros x Hx. apply Hnew in Hx as [Hx Hxc]. split; [|done]. by eapply dependencies_devices.
Qed.
End worklist.

(** ** The tables of a tree *)
Section tables.
Context `{OverflowChecks} `{PropU32} `{InfoLog}.

Definition tree_paths (t : rtree node_data) : list string := (flat 1 (annot_root t)).*2.*1.

(** The paths of the nodes from [index] on. *)
Definition paths_from (all : list fdt_node) (index : nat) (ps : list string) : Prop :=
  ∀ j p, ps !! j = Some p → build_node_path all (index + j) = Ok p.

Lemma paths_from_next all index p ps :
  paths_from all index (p :: ps) → build_node_path all index = Ok p ∧ paths_from all (S index) ps.
Proof.
  intros Hp. split; [rewrite <-(Nat.add_0_r index); by apply (Hp O)|].
  intros j q Hq. rewrite Nat.add_succ_comm. by apply (Hp (S j)).
Qed.

Lemma tree_paths_from t :
  is_device_tree t → paths_from (nodes_of t) 0 (tree_paths t) ∧
    length (tree_paths t) = length (nodes_of t).
Proof.
  intros Ht. pose proof (flat_annot_root t) as Hf. unfold tree_paths, nodes_of. split.
  - intros j p Hp. rewrite !list_lookup_fmap in Hp.
    destruct (flat 1 (annot_root t) !! j) as [[l [q d]]|] eqn:Hj; [|done]. injection Hp as <-.
    destruct (node_path_at t j (mkNode l d) Ht) as (path & Hq & Hb).
    + unfold nodes_of. by rewrite <-Hf, !list_lookup_fmap, Hj.
    + rewrite Hj in Hq. injection Hq as <-. done.
  - rewrite !length_fmap, <-Hf. by rewrite length_fmap.
Qed.

Lemma cache_loop_ok all nodes : ∀ index ps cache,
  paths_from all index ps → length ps = length nodes →
  ∃ cache', cache_loop all index nodes cache = Ok cache' ∧ dom cache' = dom cache ∪ list_to_set ps.
Proof.
  induction nodes as [|node nodes IH]; intros index ps cache Hp Hl.
  { destruct ps; [|done]. exists cache. split; [done|set_solver]. }
  destruct ps as [|p ps]; [done|]. injection Hl as Hl. apply paths_from_next in Hp as [Hp Hps].
  cbn [cache_loop]. rewrite Hp. cbn [mbind outcome_bind].
  destruct (IH (S index) ps (<[p := default [] (cache !! p) ++ [node]]> cache) Hps Hl) as (c & Hc & Hd).
  exists c. split; [done|]. rewrite Hd, dom_insert_L. set_solver.
Qed.

Lemma phandle_loop_ok all nodes : ∀ index ps pm,
  paths_from all index ps → length ps = length nodes →
  ∃ pm', phandle_loop all index nodes pm = Ok pm' ∧ (size pm' ≤ size pm + length nodes)%nat.
Proof.
  induction nodes as [|node nodes IH]; intros index ps pm Hp Hl.
  { exists pm. split; [done|]. cbn. lia. }
  destruct ps as [|p ps]; [done|]. injection Hl as Hl. apply paths_from_next in Hp as [Hp Hps].
  cbn [phandle_loop]. rewrite Hp. cbn [mbind outcome_bind].
  destruct (collect_props _ _ _) as [ph cells].
  destruct (IH (S index) ps (match ph with Some ph => <[ph := (p, cells)]> pm | None => pm end) Hps Hl)
    as (pm' & Hpm & Hs).
  exists pm'. split; [done|]. cbn [length]. destruct ph as [ph|]; [|lia].
  rewrite map_size_insert in Hs. destruct (pm !! ph); cbn in Hs; lia.
Qed.

Lemma node_cache_ok t :
  is_device_tree t →
  ∃ cache, build_optimized_node_cache (nodes_of t) = Ok cache ∧ dom cache = list_to_set (tree_paths t).
Proof.
  intros Ht. destruct (tree_paths_from t Ht) as [Hp Hl].
  destruct (cache_loop_ok _ _ 0 _ ∅ Hp Hl) as (c & Hc & Hd). exists c. split; [done|].
  rewrite Hd. set_solver.
Qed.

Lemma phandle_map_ok t :
  is_device_tree t →
  ∃ pm, build_phandle_map (nodes_of t) = Ok pm ∧ (size pm ≤ length (nodes_of t))%nat.
Proof.
  intros Ht. destruct (tree_paths_from t Ht) as [Hp Hl].
  destruct (phandle_loop_ok _ _ 0 _ ∅ Hp Hl) as (pm & Hpm & Hs). exists pm. split; [done|].
  by rewrite map_size_empty in Hs.
Qed.

(** The phandles lead to nodes of the tree. *)
Lemma phandle_loop_paths all nodes : ∀ index ps pm pm',
  paths_from all index ps → length ps = length nodes → phandle_loop all index nodes pm = Ok pm' →
  ∀ x, x ∈ device_paths pm' → x ∈ device_paths pm ∨ x ∈ ps.
Proof.
  induction nodes as [|node nodes IH]; intros index ps pm pm' Hp Hl Hloop x Hx.
  { injection Hloop as <-. by left. }
  destruct ps as [|p ps]; [done|]. injection Hl as Hl. apply paths_from_next in Hp as [Hp Hps].
  cbn [phandle_loop] in Hloop. rewrite Hp in Hloop. cbn [mbind outcome_bind] in Hloop.
  destruct (collect_props _ _ _) as [ph cells].
  destruct (IH _ _ _ _ Hps Hl Hloop x Hx) as [Hd|Hd]; [|right; by right].
  destruct ph as [ph|]; [|by left]. apply elem_of_device_paths in Hd as (ph' & cells' & Hd).
  apply lookup_insert_Some in Hd as [[_ [= <- _]]|[_ Hd]]; [right; by left|].
  left. apply elem_of_device_paths. eauto.
Qed.

Lemma phandle_map_paths t pm x :
  is_device_tree t → build_phandle_map (nodes_of t) = Ok pm → x ∈ device_paths pm → x ∈ tree_paths t.
Proof.
  intros Ht Hpm Hx. destruct (tree_paths_from t Ht) as [Hp Hl].
  destruct (phandle_loop_paths _ _ _ _ _ _ Hp Hl Hpm x Hx) as [Hd|]; [|done].
  apply elem_of_device_paths in Hd as (ph & cells & Hd). by rewrite lookup_empty in Hd.
Qed.

(** [x] is below [p]: one or more components longer. *)
Definition below (p x : string) : Prop :=
  ∃ r, r ≠ "" ∧ x = (if bool_decide (p = "/") then "/" else p +:+ "/") +:+ r.

Lemma elem_of_descendants cache p x :
  x ∈ get_descendant_nodes_by_path cache p ↔ x ∈ dom cache ∧ below p x.
Proof.
  unfold get_descendant_nodes_by_path, below. set (pre := if bool_decide _ then _ else _).
  rewrite list_elem_of_In, filter_In, <-list_elem_of_In, andb_true_iff, starts_with_app, Z.ltb_lt.
  rewrite list_elem_of_fmap, elem_of_dom.
  assert (Hlen : ∀ r, str_len pre < str_len (pre +:+ r) ↔ r ≠ "").
  { intros r. unfold str_len. rewrite string_app_length. destruct r; cbn; split; try done; lia. }
  split.
  - intros (([k v] & -> & Hin) & (r & Hr) & Hlt). apply elem_of_btree_iter in Hin. cbn in *.
    split; [by eexists|]. exists r. rewrite Hr in Hlt. split; [by apply Hlen|done].
  - intros ([v Hv] & r & Hr & Hx). split; [exists (x, v); split; [done|by apply elem_of_btree_iter]|].
    split; [by exists r|]. rewrite Hx. by apply Hlen.
Qed.

(** ** What the analysis finds *)

(** A device of the configuration or one below it. *)
Definition seed (t : rtree node_data) (initial : list string) (x : string) : Prop :=
  x ∈ initial ∨ (x ∈ tree_paths t ∧ ∃ p, p ∈ initial ∧ below p x).

Lemma seeds_spec t cache initial :
  dom cache = list_to_set (tree_paths t) →
  ∃ new, add_descendants cache initial (list_to_set initial) [] =
      (list_to_set new ∪ list_to_set initial, new) ∧
    (∀ x, x ∈ initial ∨ x ∈ new ↔ seed t initial x) ∧
    (∀ x, x ∈ new → x ∈ tree_paths t).
Proof.
  intros Hd. destruct (add_descendants_spec cache initial (list_to_set initial) []) as (new & Ha & Hn).
  exists new. split; [done|]. unfold seed. split; intros x; rewrite Hn.
  - split; [intros [?|[(p & Hp & Hx) _]]|intros [?|[Hx (p & Hp & Hb)]]]; [by left| |by left|].
    + apply elem_of_descendants in Hx as [Hx Hb]. right. rewrite Hd in Hx. set_solver.
    + destruct (decide (x ∈ initial)); [by left|]. right. split; [|set_solver]. exists p. split; [done|].
      apply elem_of_descendants. rewrite Hd. set_solver.
  - intros [(p & Hp & [Hx _]%elem_of_descendants) _]. rewrite Hd in Hx. set_solver.
Qed.

Lemma seeds_size t initial new :
  is_device_tree t → (∀ x, x ∈ new → x ∈ tree_paths t) →
  (size (list_to_set new ∪ list_to_set initial : gset string) ≤ length initial + length (nodes_of t))%nat.
Proof.
  intros Ht Hn. destruct (tree_paths_from t Ht) as [_ Hl]. rewrite <-Hl.
  etrans; [apply (subseteq_size _ (list_to_set (initial ++ tree_paths t))); set_solver|].
  etrans; [apply size_list_to_set_le|]. by rewrite length_app.
Qed.

Lemma log_count (names initial : list string) :
  len names ≤ usize_max →
  counted names initial =
    if info_log && overflow_checks && (len names <? len initial) then Panic else Ok (Some names).
Proof.
  intros Hmax. unfold counted. destruct info_log; [|done]. unfold usize_sub, checked. cbn [andb].
  destruct (Z.ltb_spec (len names) (len initial)).
  - rewrite bool_decide_false by lia. by destruct overflow_checks.
  - rewrite bool_decide_true by (unfold len in *; lia). by rewrite andb_false_r.
Qed.

Lemma elem_of_kept (excludes all : list string) x :
  x ∈ (if is_empty excludes then all
       else List.filter (λ d, negb (bool_decide (d ∈ excludes))) all) ↔ x ∈ all ∧ x ∉ excludes.
Proof.
  destruct (is_empty excludes) eqn:He; [destruct excludes; [set_solver|done]|].
  by rewrite list_elem_of_In, filter_In, <-list_elem_of_In, negb_true_iff, bool_decide_eq_false.
Qed.

Lemma passthrough_spec t initial excluded fuel :
  is_device_tree t → (length initial + 2 * length (nodes_of t) < fuel)%nat →
  ∃ cache pm names,
    build_optimized_node_cache (nodes_of t) = Ok cache ∧ build_phandle_map (nodes_of t) = Ok pm ∧
    find_all_passthrough_devices fuel initial excluded (nodes_of t) = counted names initial ∧
    ∀ x, x ∈ names ↔
      (∃ a, seed t initial a ∧ rtc (depends pm cache) a x) ∧ ¬ seed t (concat excluded) x ∧ x ≠ "/".
Proof.
  intros Ht Hf. destruct (node_cache_ok t Ht) as (cache & Hc & Hd).
  destruct (phandle_map_ok t Ht) as (pm & Hpm & Hsz).
  destruct (seeds_spec t cache initial Hd) as (new & Hnew & Hseed & Hin).
  set (seeds := list_to_set new ∪ list_to_set initial : gset string) in *.
  destruct (dependency_loop_spec pm cache seeds fuel _ _ _ _ (inv_init pm cache seeds))
    as (conf & deps & Hloop & Hconf & Hneed).
  { rewrite length_reverse, sorted_elements_length. pose proof (seeds_size t initial new Ht Hin) as Hss.
    pose proof (device_paths_size pm).
    assert (left_over pm seeds ≤ size (device_paths pm))%nat by (apply subseteq_size; set_solver).
    fold seeds in Hss. lia. }
  destruct (seeds_spec t cache (concat excluded) Hd) as (more & Hmore & Hex & _).
  exists cache, pm.
  set (all := initial ++ new ++ deps).
  set (kept := if is_empty (concat excluded ++ more) then all
    else List.filter (λ d, negb (bool_decide (d ∈ concat excluded ++ more))) all).
  set (names := List.filter (λ d, negb (bool_decide (d = "/"))) kept).
  exists names. split_and!; [done..| |].
  - unfold find_all_passthrough_devices. rewrite Hc. cbn [mbind outcome_bind]. rewrite Hnew, Hpm.
    cbn [mbind outcome_bind]. rewrite Hloop, Hmore. fold all. fold kept. fold names.
    done.
  - intros x. unfold names. rewrite list_elem_of_In, filter_In, <-list_elem_of_In.
    rewrite negb_true_iff, bool_decide_eq_false. unfold kept. rewrite elem_of_kept.
    rewrite <-Hex, elem_of_app. unfold all. rewrite !elem_of_app.
    assert (Hx : (x ∈ initial ∨ x ∈ new ∨ x ∈ deps) ↔ x ∈ conf) by (rewrite Hconf; unfold seeds; set_solver).
    rewrite Hx, Hneed. unfold needed. setoid_rewrite <-Hseed.
    assert (Hs : ∀ a, a ∈ seeds ↔ a ∈ initial ∨ a ∈ new) by (unfold seeds; set_solver).
    setoid_rewrite Hs. tauto.
Qed.

(** C6: The passthrough analysis computes exactly the devices that a guest needs: it
    returns, for enough fuel, the devices of the configuration, the nodes below
    them and everything that these reach through the phandles in their properties,
    directly or over any number of steps, without the excluded devices, the nodes
    below an excluded device and the root.  The work list terminates within
    [initial + 2 * nodes] steps.  The one thing that can stop it is the subtraction in
    its log message, which underflows when more devices are excluded than found. *)
Theorem passthrough_devices_exact t initial excluded fuel :
  is_device_tree t → (length initial + 2 * length (nodes_of t) < fuel)%nat →
  ∃ cache pm names,
    build_optimized_node_cache (nodes_of t) = Ok cache ∧ build_phandle_map (nodes_of t) = Ok pm ∧
    (len names ≤ usize_max →
      find_all_passthrough_devices fuel initial excluded (nodes_of t) =
        if info_log && overflow_checks && (len names <? len initial) then Panic else Ok (Some names)) ∧
    ∀ x, x ∈ names ↔
      (∃ a, seed t initial a ∧ rtc (depends pm cache) a x) ∧ ¬ seed t (concat excluded) x ∧ x ≠ "/".
Proof.
  intros Ht Hf.
  destruct (passthrough_spec t initial excluded fuel Ht Hf) as (cache & pm & names & Hc & Hp & Hfind & Hn).
  exists cache, pm, names. split_and!; [done..| |done]. intros Hmax. rewrite Hfind. by apply log_count.
Qed.
End tables.

(** ** Lists of references *)
Definition encode_refs (refs : list (Z * list Z)) : list u8 :=
  concat (map be32 (refs ≫= λ r, r.1 :: r.2)).

Lemma be_words_be32 vs :
  Forall (λ v, 0 ≤ v < 2 ^ 32) vs → be_words (concat (map be32 vs)) = vs.
Proof.
  induction 1 as [|v vs Hv _ IH]; [done|]. cbn [map concat be32 app be_words]. rewrite IH. f_equal.
  rewrite !u8_val_of, !Z.shiftr_div_pow2 by lia. change (2 ^ 32) with 4294967296 in Hv.
  change (2 ^ 24) with 16777216. change (2 ^ 16) with 65536. change (2 ^ 8) with 256.
  Z.to_euclidean_division_equations. lia.
Qed.

Lemma be32_length vs : length (concat (map be32 vs)) = (4 * length vs)%nat.
Proof. induction vs as [|v vs IH]; [done|]. cbn. rewrite IH. lia. Qed.

(** A reference to a device, with as many cells as the device asks for. *)
Definition valid_ref (prop_name : string) (pm : phandles) (r : Z * list Z) : Prop :=
  0 ≤ r.1 < 2 ^ 32 ∧ Forall (λ v, 0 ≤ v < 2 ^ 32) r.2 ∧
  ∃ path cells, pm !! r.1 = Some (path, cells) ∧
    length r.2 = get_cells_count_for_property prop_name cells.

Lemma refs_loop_valid prop_name pm refs : ∀ fuel,
  Forall (valid_ref prop_name pm) refs → (length (refs ≫= λ r, r.1 :: r.2) ≤ fuel)%nat →
  refs_loop fuel prop_name pm (refs ≫= λ r, r.1 :: r.2) = refs.
Proof.
  induction refs as [|[ph specs] refs IH]; intros fuel Hv Hf; [by destruct fuel|].
  apply Forall_cons in Hv as [(_ & _ & path & cells & Hp & Hl) Hv]. cbn [fst snd] in *.
  cbn [mbind list_bind app fst snd] in *. cbn in Hf. destruct fuel as [|fuel]; [lia|].
  cbn [refs_loop]. rewrite Hp, <-Hl. rewrite length_cons, length_app.
  rewrite (proj2 (Nat.ltb_lt _ _)) by lia. rewrite take_app_length, drop_app_length, IH; [done..|].
  rewrite length_app in Hf. unfold mbind in *. lia.
Qed.

(** Parsing a property that lists references gives the list back: a property
    made of references to devices of the tree, each followed by the number of
    cells that the device declares for this kind of property, is split into
    exactly these references and cells, and the analysis takes exactly the
    referenced devices as dependencies. *)
Theorem phandle_refs_roundtrip prop_name pm refs :
  refs ≠ [] → Forall (valid_ref prop_name pm) refs →
  parse_phandle_property_with_cells (encode_refs refs) prop_name pm = refs ∧
  parse_phandle_property (encode_refs refs) prop_name pm = omap (λ r, fst <$> pm !! r.1) refs.
Proof.
  intros Hne Hv.
  assert (Hp : parse_phandle_property_with_cells (encode_refs refs) prop_name pm = refs);
    [|unfold parse_phandle_property; by rewrite Hp].
  unfold parse_phandle_property_with_cells, encode_refs. set (vs := refs ≫= λ r, r.1 :: r.2).
  assert (Hvs : Forall (λ v, 0 ≤ v < 2 ^ 32) vs).
  { unfold vs. clear Hne. induction Hv as [|r refs (H1 & H2 & _) _ IH]; [done|]. cbn.
    apply Forall_cons. split; [done|]. by apply Forall_app. }
  assert (Hlen : length (concat (map be32 vs)) = (4 * length vs)%nat) by apply be32_length.
  destruct (is_empty (concat (map be32 vs))) eqn:He.
  { unfold vs in Hlen. destruct refs as [|r refs]; [done|]. by destruct (concat _). }
  assert ((len (concat (map be32 vs)) mod 4 =? 0) = true) as ->.
  { unfold len. rewrite Hlen, Nat2Z.inj_mul. apply Z.eqb_eq. rewrite Z.mul_comm. apply Z.mod_mul. lia. }
  cbn [orb negb]. rewrite be_words_be32 by done. by apply refs_loop_valid.
Qed.
