(* ===== verification/FdtSetup.v ===== *)
(** * Setting up a guest from device trees

    [kernel/src/vmm/fdt/parser.rs] and [mod.rs]: the CPU masks, the passthrough
    regions and the interrupts that the configuration of a guest takes from device
    trees, the cache of generated trees, and [handle_fdt_operations], which puts the
    steps together.  The methods of [AxVMConfig] that add to or read its lists are
    fields of [vm_config]. *)

From Stdlib Require Import Ascii Strings.Byte.
From S2P Require Import Prelude RustStr Disk FdtTree FdtWrite GuestMem FdtCreate FdtGuest FdtUpdate FdtDevice.

Record PassThroughDeviceConfig : Type := mkPt {
  pt_name : string;
  pt_base_gpa : Z;
  pt_base_hpa : Z;
  pt_length : Z;
  pt_irq_id : Z;
}.

Record vm_config : Type := mkVmConfig {
  vc_id : Z;
  vc_pass_through_devices : list PassThroughDeviceConfig;
  vc_excluded_devices : list (list string);
  vc_spis : list Z;
  vc_cpu_sets : list Z;
}.

Record crate_config : Type := mkCrateConfig {
  cc_id : Z;
  cc_phys_cpu_ids : option (list Z);
  cc_image_location : option string;
  cc_dtb_path : option string;
}.

Definition set_devices (l : list PassThroughDeviceConfig) (c : vm_config) : vm_config :=
  mkVmConfig (vc_id c) l (vc_excluded_devices c) (vc_spis c) (vc_cpu_sets c).
Definition set_spis (l : list Z) (c : vm_config) : vm_config :=
  mkVmConfig (vc_id c) (vc_pass_through_devices c) (vc_excluded_devices c) l (vc_cpu_sets c).
Definition set_guest_cpu_sets (l : list Z) (c : vm_config) : vm_config :=
  mkVmConfig (vc_id c) (vc_pass_through_devices c) (vc_excluded_devices c) (vc_spis c) l.

Definition add_pass_through_device (d : PassThroughDeviceConfig) (c : vm_config) : vm_config :=
  set_devices (vc_pass_through_devices c ++ [d]) c.
Definition clear_pass_through_devices (c : vm_config) : vm_config := set_devices [] c.
Definition add_pass_through_spi (v : Z) (c : vm_config) : vm_config := set_spis (vc_spis c ++ [v]) c.

(** [Fdt::find_nodes] *)
Class FindNodes : Type := find_nodes : list fdt_node → string → list fdt_node.

(** [1usize << n] *)
Definition usize_shl1 `{OverflowChecks} {E} (n : nat) : outcome E Z :=
  if (n <? 64)%nat then Ok (Z.shiftl 1 (Z.of_nat n))
  else if overflow_checks then Panic else Ok (Z.shiftl 1 (Z.of_nat (n mod 64))).

(** [iter().position(..)] *)
Fixpoint position (a : Z) (l : list Z) : option nat :=
  match l with
  | [] => None
  | b :: l => if b =? a then Some O else S <$> position a l
  end.

(** ** CPUs *)
Section cpus.
Context `{OverflowChecks} `{FindNodes}.

Fixpoint unique_addresses (addresses unique : list Z) : outcome AxError (list Z) :=
  match addresses with
  | [] => Ok unique
  | a :: addresses =>
      if bool_decide (a ∈ unique) then Panic else unique_addresses addresses (unique ++ [a])
  end.

Fixpoint cpu_masks (phys_cpu_ids unique_cpu_addresses : list Z) : outcome AxError (list Z) :=
  match phys_cpu_ids with
  | [] => Ok []
  | phys_cpu_id :: phys_cpu_ids =>
      match position phys_cpu_id unique_cpu_addresses with
      | Some cpu_index =>
          cpu_mask ← usize_shl1 cpu_index;
          rest ← cpu_masks phys_cpu_ids unique_cpu_addresses;
          mret (cpu_mask :: rest)
      | None => cpu_masks phys_cpu_ids unique_cpu_addresses
      end
  end.

Definition set_phys_cpu_sets (vm_cfg : vm_config) (fdt : list fdt_node) (crate_cfg : crate_config) :
    outcome AxError vm_config :=
  let host_cpus := find_nodes fdt "/cpus/cpu" in
  phys_cpu_ids ← unwrap (cc_phys_cpu_ids crate_cfg);
  unique_cpu_addresses ← unique_addresses (omap first_reg host_cpus) [];
  new_phys_cpu_sets ← cpu_masks phys_cpu_ids unique_cpu_addresses;
  mret (set_guest_cpu_sets new_phys_cpu_sets vm_cfg).
End cpus.

(** ** Regions *)
Definition index_text (index : nat) : string := pretty (N.of_nat index).

Definition add_device_address_config (node_name : string) (base_address size : Z) (index : nat)
    (prefix : option string) (vm_cfg : vm_config) : vm_config :=
  if size =? 0 then vm_cfg
  else
    let device_name :=
      match index, prefix with
      | O, Some p => node_name +:+ "-" +:+ p
      | O, None => node_name
      | S _, Some p => node_name +:+ "-" +:+ p +:+ "-region" +:+ index_text index
      | S _, None => node_name +:+ "-region" +:+ index_text index
      end in
    add_pass_through_device (mkPt device_name base_address base_address size 0) vm_cfg.

Definition add_pci_ranges_config (node_name : string) (range : PciRange) (index : nat)
    (vm_cfg : vm_config) : vm_config :=
  if pci_size range =? 0 then vm_cfg
  else
    let prefix :=
      match pci_space range with
      | Configuration => "config"
      | IO => "io"
      | Memory32 => "mem32"
      | Memory64 => "mem64"
      end in
    let device_name :=
      match index with
      | O => node_name +:+ "-" +:+ prefix
      | S _ => node_name +:+ "-" +:+ prefix +:+ "-region" +:+ index_text index
      end in
    add_pass_through_device
      (mkPt device_name (pci_cpu_address range) (pci_cpu_address range) (pci_size range) 0) vm_cfg.

(** [for (index, x) in l.enumerate()] *)
Fixpoint enumerate_from {A B} (index : nat) (f : nat → A → B → B) (l : list A) (b : B) : B :=
  match l with [] => b | x :: l => enumerate_from (S index) f l (f index x b) end.

Definition add_regs (node_name : string) (prefix : option string)
    (reg : option (list (Z * option Z))) (vm_cfg : vm_config) : vm_config :=
  match reg with
  | Some regs =>
      enumerate_from 0 (λ index r, add_device_address_config node_name r.1 (default 0 r.2) index prefix)
        regs vm_cfg
  | None => vm_cfg
  end.

Definition add_node_regions (node : fdt_node) (vm_cfg : vm_config) : vm_config :=
  if bool_decide (n_name node = "/") || starts_with "memory" (n_name node) then vm_cfg
  else if starts_with "pcie@" (n_name node) || str_contains "pci" (n_name node) then
    let vm_cfg :=
      match nd_pci_ranges (n_data node) with
      | Some ranges => enumerate_from 0 (λ index r, add_pci_ranges_config (n_name node) r index) ranges vm_cfg
      | None => vm_cfg
      end in
    add_regs (n_name node) (Some "ecam") (nd_reg (n_data node)) vm_cfg
  else add_regs (n_name node) None (nd_reg (n_data node)) vm_cfg.

Definition parse_passthrough_devices_address `{FdtParser} (dtb : list u8) (vm_cfg : vm_config) :
    outcome AxError vm_config :=
  let devices := vc_pass_through_devices vm_cfg in
  match devices with
  | d :: _ =>
      if negb (pt_length d =? 0) then
        Ok (enumerate_from 0
          (λ index d, add_device_address_config (pt_name d) (pt_base_gpa d) (pt_length d) index None)
          devices vm_cfg)
      else
        nodes ← unwrap (from_bytes dtb);
        mret (foldl (λ c n, add_node_regions n c) (clear_pass_through_devices vm_cfg) nodes)
  | [] =>
      nodes ← unwrap (from_bytes dtb);
      mret (foldl (λ c n, add_node_regions n c) (clear_pass_through_devices vm_cfg) nodes)
  end.

(** ** Interrupts *)

(** The loop over the cells of one interrupt. *)
Fixpoint interrupt_cells (k : nat) (cells : list Z) (vm_cfg : vm_config) : vm_config :=
  match cells with
  | [] => vm_cfg
  | v :: cells =>
      match k with
      | O => if v =? 0 then interrupt_cells 1 cells vm_cfg else vm_cfg
      | 1%nat => interrupt_cells 2 cells (add_pass_through_spi v vm_cfg)
      | _ => interrupt_cells (S k) cells vm_cfg
      end
  end.

Definition node_interrupts (node : fdt_node) (vm_cfg : vm_config) : vm_config :=
  let name := n_name node in
  if starts_with "memory" name then vm_cfg
  else if starts_with "interrupt-controller" name || starts_with "intc" name || starts_with "its" name then
    vm_cfg
  else
    match nd_interrupts (n_data node) with
    | Some interrupts => foldl (λ c i, interrupt_cells 0 i c) vm_cfg interrupts
    | None => vm_cfg
    end.

Definition parse_vm_interrupt `{FdtParser} (dtb : list u8) (vm_cfg : vm_config) :
    outcome AxError vm_config :=
  nodes ← unwrap (from_bytes dtb);
  let vm_cfg := foldl (λ c n, node_interrupts n c) vm_cfg nodes in
  mret (add_pass_through_device (mkPt "Fake Node" 0 0 2097152 0) vm_cfg).

(** ** The cache and the whole sequence *)
Record fdt_state : Type := mkFdtState {
  fs_config : vm_config;
  fs_dtb_cache : option (gmap Z (list u8));
}.

Definition put_config (c : vm_config) : st fdt_state AxError () :=
  modify (λ s, mkFdtState c (fs_dtb_cache s)).

(** The generated table of the images that are linked into the kernel. *)
Record VmImages : Type := mkVmImages {
  vi_id : Z;
  vi_kernel : list u8;
  vi_dtb : option (list u8);
  vi_bios : option (list u8);
  vi_ramdisk : option (list u8);
}.

Class MemoryImages : Type := memory_images : list VmImages.

(** [open_image_file] followed by [read_exact]; [fs] is a feature of the build. *)
Class ImageFiles : Type := {
  fs_feature : bool;
  read_image_file : string → option (list u8);
}.

Definition init_dtb_cache : st fdt_state AxError () :=
  s ← get;
  match fs_dtb_cache s with
  | Some _ => panic
  | None => put (mkFdtState (fs_config s) (Some ∅))
  end.

Definition crate_guest_fdt_with_cache (dtb_data : list u8) (crate_cfg : crate_config) :
    st fdt_state AxError () :=
  s ← get;
  cache ← lift (unwrap (fs_dtb_cache s));
  put (mkFdtState (fs_config s) (Some (<[cc_id crate_cfg := dtb_data]> cache))).

Definition get_vm_dtb_arc `{TargetArch} (dtb_cache : option (gmap Z (list u8))) (vm_id : Z) :
    outcome AxError (option (list u8)) :=
  if bool_decide (target_arch = AArch64) then
    cache ← unwrap dtb_cache;
    mret (cache !! vm_id)
  else mret None.

Section setup.
Context `{FdtWriter W H} `{FdtParser} `{OverflowChecks} `{PropU32} `{InfoLog} `{FindNodes}.
Context `{MemoryImages} `{ImageFiles} `{TargetArch}.

(** Enough for the work list of the analysis. *)
Definition analysis_fuel (names : list string) (nodes : list fdt_node) : nat :=
  S (length names + 2 * length nodes).

Definition setup_guest_fdt_from_vmm (fdt_bytes : list u8) (crate_cfg : crate_config) :
    st fdt_state AxError () :=
  fdt ← lift (unwrap (from_bytes fdt_bytes));
  s ← get;
  let names := pt_name <$> vc_pass_through_devices (fs_config s) in
  found ← lift (find_all_passthrough_devices (analysis_fuel names fdt) names
    (vc_excluded_devices (fs_config s)) fdt);
  passthrough_device_names ← lift (unwrap found);
  dtb_data ← lift (crate_guest_fdt (W:=W) (H:=H) fdt passthrough_device_names (cc_phys_cpu_ids crate_cfg));
  crate_guest_fdt_with_cache dtb_data crate_cfg.

Definition update_provided_fdt (provided_dtb host_dtb : list u8) (crate_cfg : crate_config) :
    st fdt_state AxError () :=
  provided_fdt ← lift (unwrap (from_bytes provided_dtb));
  host_fdt ← lift (unwrap (from_bytes host_dtb));
  provided_dtb_data ← lift (update_cpu_node (W:=W) (H:=H) provided_fdt host_fdt (cc_phys_cpu_ids crate_cfg));
  crate_guest_fdt_with_cache provided_dtb_data crate_cfg.

Definition get_developer_provided_dtb (vm_id : Z) (crate_cfg : crate_config) :
    outcome AxError (option (list u8)) :=
  match cc_image_location crate_cfg with
  | Some "memory" =>
      match List.find (λ v, vi_id v =? vm_id) memory_images with
      | Some vm_imags => Ok (vi_dtb vm_imags)
      | None => Ok None
      end
  | Some "fs" =>
      if fs_feature then
        match cc_dtb_path crate_cfg with
        | Some dtb_path => Some <$> unwrap (read_image_file dtb_path)
        | None => Ok None
        end
      else Panic
  | _ => Panic
  end.

Definition handle_fdt_operations (host_fdt_bytes : list u8) (crate_cfg : crate_config) :
    st fdt_state AxError () :=
  host_fdt ← lift (unwrap (from_bytes host_fdt_bytes));
  s ← get;
  c ← lift (set_phys_cpu_sets (fs_config s) host_fdt crate_cfg);
  put_config c;;
  provided ← lift (get_developer_provided_dtb (vc_id c) crate_cfg);
  match provided with
  | Some provided_dtb => update_provided_fdt provided_dtb host_fdt_bytes crate_cfg
  | None => setup_guest_fdt_from_vmm host_fdt_bytes crate_cfg
  end;;
  s ← get;
  dtb_arc ← lift (get_vm_dtb_arc (fs_dtb_cache s) (vc_id (fs_config s)));
  match dtb_arc with
  | Some dtb =>
      c ← lift (parse_passthrough_devices_address dtb (fs_config s));
      c ← lift (parse_vm_interrupt dtb c);
      put_config c
  | None => mret ()
  end.
End setup.

(** ** CPU masks *)
Lemma position_lookup a l : NoDup l → ∀ i, position a l = Some i ↔ l !! i = Some a.
Proof.
  induction 1 as [|b l Hb Hl IH]; intros i; cbn [position]; [by destruct i|].
  destruct (Z.eqb_spec b a) as [->|Hne].
  - destruct i as [|i]; cbn; [done|]. split; [done|]. intros Hi. exfalso.
    by apply Hb, list_elem_of_lookup_2 with i.
  - destruct i as [|i]; cbn.
    + split; [by destruct (position a l)|]. by intros [= ->].
    + rewrite <-IH. destruct (position a l); cbn; naive_solver.
Qed.

Lemma position_None a l : position a l = None ↔ a ∉ l.
Proof.
  induction l as [|b l IH]; cbn [position]; [set_solver|].
  destruct (Z.eqb_spec b a) as [->|Hne]; [set_solver|]. rewrite fmap_None, IH. set_solver.
Qed.

Section cpu_theorems.
Context `{OverflowChecks} `{FindNodes}.

Lemma unique_addresses_spec addresses : ∀ unique,
  NoDup unique →
  unique_addresses addresses unique =
    if bool_decide (NoDup (unique ++ addresses)) then Ok (unique ++ addresses) else Panic.
Proof.
  induction addresses as [|a addresses IH]; intros unique Hu; cbn [unique_addresses].
  { rewrite app_nil_r. by rewrite bool_decide_true. }
  case_bool_decide as Ha.
  - rewrite bool_decide_false; [done|]. intros (_ & Hd & _)%NoDup_app. by apply (Hd a); [done|left].
  - rewrite IH by (apply NoDup_app; split_and!; [done|set_solver|apply NoDup_singleton]).
    by rewrite <-app_assoc.
Qed.

(** A mask with one bit, the position of [id] in the list of CPUs. *)
Definition selects_cpu (addresses : list Z) (id mask : Z) : Prop :=
  ∀ k, Z.testbit mask (Z.of_nat k) = true ↔ addresses !! k = Some id.

Lemma shl1_testbit i k : Z.testbit (Z.shiftl 1 (Z.of_nat i)) (Z.of_nat k) = bool_decide (i = k).
Proof.
  rewrite Z.shiftl_1_l. case_bool_decide as Hik.
  - subst. apply Z.pow2_bits_true. lia.
  - apply Z.pow2_bits_false. lia.
Qed.

Lemma cpu_masks_spec ids addresses :
  NoDup addresses → (length addresses ≤ 64)%nat →
  ∃ masks, cpu_masks ids addresses = Ok masks ∧
    Forall2 (selects_cpu addresses) (filter (.∈ addresses) ids) masks.
Proof.
  intros Hnd Hl. induction ids as [|id ids (masks & Hm & Hf)]; cbn [cpu_masks]; [by exists []|].
  destruct (position id addresses) as [i|] eqn:Hp.
  - apply (position_lookup id addresses Hnd) in Hp. pose proof (lookup_lt_Some _ _ _ Hp) as Hi.
    unfold usize_shl1. rewrite (proj2 (Nat.ltb_lt _ _)) by lia. rewrite Hm.
    eexists. split; [done|]. rewrite filter_cons_True by (by eapply list_elem_of_lookup_2).
    constructor; [|done]. intros k. rewrite shl1_testbit, bool_decide_eq_true. split; [by intros <-|].
    intros Hk. by eapply NoDup_lookup.
  - apply position_None in Hp. exists masks. split; [done|]. by rewrite filter_cons_False.
Qed.

Lemma cpu_sets_ok fdt cfg cc ids (addresses := omap first_reg (find_nodes fdt "/cpus/cpu")) :
  cc_phys_cpu_ids cc = Some ids → (length addresses ≤ 64)%nat → NoDup addresses →
  ∃ masks, set_phys_cpu_sets cfg fdt cc = Ok (set_guest_cpu_sets masks cfg) ∧
    Forall2 (selects_cpu addresses) (filter (.∈ addresses) ids) masks.
Proof.
  intros Hids Hl Hnd. unfold set_phys_cpu_sets. rewrite Hids. cbn [unwrap mbind outcome_bind].
  fold addresses. rewrite unique_addresses_spec by constructor. cbn [app].
  destruct (cpu_masks_spec ids addresses Hnd Hl) as (masks & Hm & Hf). exists masks.
  rewrite bool_decide_true by done. cbn [mbind outcome_bind]. by rewrite Hm.
Qed.

(** [set_phys_cpu_sets] pins the virtual CPUs: for a host with at most 64 CPUs of
    distinct addresses, each configured id that the host has gives a mask with
    exactly one bit, the position of the CPU with that address in the device tree,
    in the order of the configuration; ids that the host does not have are left
    out; two CPUs with the same address are a panic. *)
Theorem cpu_masks_pin fdt cfg cc ids (addresses := omap first_reg (find_nodes fdt "/cpus/cpu")) :
  cc_phys_cpu_ids cc = Some ids → (length addresses ≤ 64)%nat →
  (NoDup addresses → ∃ masks,
    set_phys_cpu_sets cfg fdt cc = Ok (set_guest_cpu_sets masks cfg) ∧
    Forall2 (selects_cpu addresses) (filter (.∈ addresses) ids) masks) ∧
  (¬ NoDup addresses → set_phys_cpu_sets cfg fdt cc = Panic).
Proof.
  intros Hids Hl. split; [by apply cpu_sets_ok|]. intros Hnd. unfold set_phys_cpu_sets. rewrite Hids.
  cbn [unwrap mbind outcome_bind]. fold addresses. rewrite unique_addresses_spec by constructor. cbn [app].
  by rewrite bool_decide_false.
Qed.
End cpu_theorems.

(** ** Interrupts *)
Definition spi_of (cells : list Z) : list Z :=
  match cells with 0 :: v :: _ => [v] | _ => [] end.

Definition gic_client (node : fdt_node) : bool :=
  negb (starts_with "memory" (n_name node) || starts_with "interrupt-controller" (n_name node) ||
    starts_with "intc" (n_name node) || starts_with "its" (n_name node)).

Lemma interrupt_cells_rest cells : ∀ k c, (2 ≤ k)%nat → interrupt_cells k cells c = c.
Proof. induction cells as [|v cells IH]; intros [|[|k]] c Hk; cbn; try done; try lia. apply IH. lia. Qed.

Lemma interrupt_cells_spec cells c : interrupt_cells 0 cells c = set_spis (vc_spis c ++ spi_of cells) c.
Proof.
  destruct c as [i d e s u]. unfold set_spis; cbn.
  destruct cells as [|v cells]; cbn; [by rewrite app_nil_r|].
  destruct v; cbn; [|by rewrite app_nil_r..]. destruct cells as [|w cells]; cbn; [by rewrite app_nil_r|].
  by rewrite interrupt_cells_rest.
Qed.

Definition node_spis (node : fdt_node) : list Z :=
  if gic_client node then default [] (nd_interrupts (n_data node)) ≫= spi_of else [].

Lemma node_interrupts_spec node c : node_interrupts node c = set_spis (vc_spis c ++ node_spis node) c.
Proof.
  assert (Hnone : set_spis (vc_spis c ++ []) c = c) by (destruct c; unfold set_spis; cbn; by rewrite app_nil_r).
  unfold node_interrupts, node_spis, gic_client.
  destruct (starts_with "memory" (n_name node)); cbn [orb negb]; [done|].
  destruct (starts_with "interrupt-controller" (n_name node)); cbn [orb negb]; [done|].
  destruct (starts_with "intc" (n_name node)); cbn [orb negb]; [done|].
  destruct (starts_with "its" (n_name node)); cbn [orb negb]; [done|].
  destruct (nd_interrupts (n_data node)) as [l|]; [|done]. cbn [default]. clear Hnone. revert c.
  induction l as [|i l IH]; intros c; cbn [foldl mbind list_bind].
  - destruct c; unfold set_spis; cbn. by rewrite app_nil_r.
  - rewrite IH, interrupt_cells_spec. unfold set_spis; cbn. by rewrite <-app_assoc.
Qed.

(** The interrupts that a guest gets are the numbers of the shared peripheral
    interrupts of the nodes of its tree, those of the interrupt controllers and of
    the memory excepted. *)
Lemma vm_interrupts_exact `{FdtParser} dtb nodes c :
  from_bytes dtb = Some nodes →
  parse_vm_interrupt dtb c = Ok (add_pass_through_device (mkPt "Fake Node" 0 0 2097152 0)
    (set_spis (vc_spis c ++ (nodes ≫= node_spis)) c)).
Proof.
  intros Hn. unfold parse_vm_interrupt. rewrite Hn. cbn [unwrap mbind outcome_bind]. do 2 f_equal.
  clear Hn. revert c. induction nodes as [|n nodes IH]; intros c; cbn [foldl].
  - destruct c; unfold set_spis; cbn. by rewrite app_nil_r.
  - rewrite IH, node_interrupts_spec. unfold set_spis; cbn. by rewrite <-app_assoc.
Qed.

(** ** Regions of the configuration *)
(** A step that appends entries to the list of devices. *)
Definition adds (l : list PassThroughDeviceConfig) (g : vm_config → vm_config) : Prop :=
  ∀ c, g c = set_devices (vc_pass_through_devices c ++ l) c.

Lemma adds_none : adds [] (λ c, c).
Proof. intros c. destruct c; unfold set_devices; cbn. by rewrite app_nil_r. Qed.

Lemma adds_one d : adds [d] (add_pass_through_device d).
Proof. done. Qed.

Lemma adds_compose l l' g g' : adds l g → adds l' g' → adds (l ++ l') (λ c, g' (g c)).
Proof. intros Hg Hg' c. rewrite Hg', Hg. unfold set_devices; cbn. by rewrite <-app_assoc. Qed.

Lemma enumerate_adds {A} (f : nat → A → list PassThroughDeviceConfig)
    (g : nat → A → vm_config → vm_config) l : ∀ index,
  (∀ i d, adds (f i d) (g i d)) →
  adds (concat (imap (λ i, f (index + i)%nat) l)) (enumerate_from index g l).
Proof.
  intros index Hg. revert index. induction l as [|d l IH]; intros index c; cbn [enumerate_from].
  { apply adds_none. }
  rewrite IH, Hg. unfold set_devices; cbn. rewrite Nat.add_0_r, <-app_assoc. do 4 f_equal.
  apply imap_ext. intros i x _. cbn. by rewrite Nat.add_succ_r.
Qed.

(** The entry that is added for a device of the configuration. *)
Definition second_entry (index : nat) (d : PassThroughDeviceConfig) : list PassThroughDeviceConfig :=
  if pt_length d =? 0 then []
  else [mkPt match index with O => pt_name d | S _ => pt_name d +:+ "-region" +:+ index_text index end
    (pt_base_gpa d) (pt_base_gpa d) (pt_length d) 0].

(** When the first device of the configuration has a length, every device that has
    one is in the list twice afterwards, the second time with its guest address as
    host address. *)
Lemma configured_regions_doubled `{FdtParser} dtb d ds c :
  vc_pass_through_devices c = d :: ds → pt_length d ≠ 0 →
  parse_passthrough_devices_address dtb c =
    Ok (set_devices ((d :: ds) ++ concat (imap second_entry (d :: ds))) c).
Proof.
  intros Hd Hl. unfold parse_passthrough_devices_address. rewrite Hd.
  rewrite (proj2 (Z.eqb_neq _ _)) by done. cbn [negb]. f_equal.
  rewrite (enumerate_adds second_entry), Hd; [done|]. clear. intros i d c.
  unfold add_device_address_config, second_entry. destruct (pt_length d =? 0); [apply adds_none|].
  unfold add_pass_through_device. by destruct i.
Qed.

(** The entries that a node adds. *)
Definition node_regions (node : fdt_node) : list PassThroughDeviceConfig :=
  vc_pass_through_devices (add_node_regions node (mkVmConfig 0 [] [] [] [])).

Lemma address_adds name base size i prefix :
  ∃ l, adds l (add_device_address_config name base size i prefix).
Proof. unfold add_device_address_config. destruct (size =? 0); eexists; [apply adds_none|apply adds_one]. Qed.

Lemma pci_adds name range i : ∃ l, adds l (add_pci_ranges_config name range i).
Proof. unfold add_pci_ranges_config. destruct (_ =? 0); eexists; [apply adds_none|apply adds_one]. Qed.

Lemma enumerate_some_adds {A} (g : nat → A → vm_config → vm_config) l : ∀ index,
  (∀ i d, ∃ k, adds k (g i d)) → ∃ k, adds k (enumerate_from index g l).
Proof.
  intros index Hg. revert index. induction l as [|d l IH]; intros index; cbn [enumerate_from].
  - eexists. apply adds_none.
  - destruct (Hg index d) as [k Hk], (IH (S index)) as [k' Hk']. exists (k ++ k').
    by apply (adds_compose k k' (g index d)).
Qed.

Lemma regs_adds name prefix reg : ∃ l, adds l (add_regs name prefix reg).
Proof.
  unfold add_regs. destruct reg as [regs|]; [|eexists; apply adds_none].
  apply enumerate_some_adds. intros. apply address_adds.
Qed.

Lemma node_adds node : adds (node_regions node) (add_node_regions node).
Proof.
  assert (Hl : ∃ l, adds l (add_node_regions node)).
  { unfold add_node_regions. destruct (_ || _); [eexists; apply adds_none|].
    destruct (_ || _); [|apply regs_adds].
    destruct (regs_adds (n_name node) (Some "ecam") (nd_reg (n_data node))) as [k' Hk'].
    destruct (nd_pci_ranges (n_data node)) as [ranges|]; [|by exists k'].
    destruct (enumerate_some_adds (λ index r, add_pci_ranges_config (n_name node) r index) ranges 0) as [k Hk];
      [intros; apply pci_adds|]. exists (k ++ k'). by apply (adds_compose k k'). }
  destruct Hl as [l Hl]. unfold node_regions. by rewrite Hl.
Qed.

(** The regions of a guest: those of the configuration, doubled, when its first device
    has a length, and otherwise those of the nodes of its device tree. *)
Definition guest_regions (devices : list PassThroughDeviceConfig) (nodes : list fdt_node) :
    list PassThroughDeviceConfig :=
  match devices with
  | d :: _ => if pt_length d =? 0 then nodes ≫= node_regions else devices ++ concat (imap second_entry devices)
  | [] => nodes ≫= node_regions
  end.

Lemma regions_exact `{FdtParser} dtb nodes c :
  from_bytes dtb = Some nodes →
  parse_passthrough_devices_address dtb c =
    Ok (set_devices (guest_regions (vc_pass_through_devices c) nodes) c).
Proof.
  intros Hn. assert (Htree : ∀ ns c0, foldl (λ c n, add_node_regions n c) c0 ns =
    set_devices (vc_pass_through_devices c0 ++ (ns ≫= node_regions)) c0).
  { induction ns as [|n ns IH]; intros c0; cbn [foldl]; [apply adds_none|].
    rewrite IH, node_adds. unfold set_devices; cbn. by rewrite <-app_assoc. }
  assert (Hnodes : (ns ← unwrap (from_bytes dtb);
    mret (foldl (λ c n, add_node_regions n c) (clear_pass_through_devices c) ns)) =
    @Ok AxError _ (set_devices (nodes ≫= node_regions) c)).
  { rewrite Hn. cbn [unwrap mbind outcome_bind]. by rewrite Htree. }
  unfold guest_regions. destruct (vc_pass_through_devices c) as [|d ds] eqn:Hd.
  { unfold parse_passthrough_devices_address. by rewrite Hd. }
  destruct (Z.eqb_spec (pt_length d) 0) as [E|E].
  - unfold parse_passthrough_devices_address. by rewrite Hd, E.
  - by rewrite (configured_regions_doubled dtb d ds).
Qed.

(** ** Exclusion and selection *)
Lemma annot_good t : ∀ L anc,
  Forall is_name anc → len anc = L - 2 → Forall (λ d, is_name (nd_name d)) (labels t) →
  Forall (λ x, is_plain x.2.1 ∧ count_char "/" x.2.1 = x.1 - 1 ∧ is_name (nd_name x.2.2))
    (flat L (annot anc t)).
Proof.
  induction t as [d ts IH] using rtree_rect'; intros L anc Ha Hl Hn. cbn [labels flat annot] in *.
  apply Forall_cons in Hn as [Hd Hn].
  destruct (good_path (nd_name d :: anc)) as (Hp & _ & Hc); [by split; [|constructor]|].
  apply Forall_cons. split.
  { split_and!; [done| |done]. cbn [fst snd]. rewrite Hc. unfold len in *. cbn. lia. }
  induction IH as [|t ts Ht _ IHs]; cbn [map concat] in *; [done|]. apply Forall_app in Hn as [Hnt Hns].
  apply Forall_app. split; [|by apply IHs]. apply Ht; [by constructor| |done]. unfold len in *. cbn. lia.
Qed.

Lemma tree_node_good t L x d :
  Forall (λ d, is_name (nd_name d)) (concat (map labels (children t))) →
  (L, (x, d)) ∈ flat 1 (annot_root t) → 2 ≤ L →
  is_plain x ∧ count_char "/" x = L - 1 ∧ is_name (nd_name d).
Proof.
  intros Hn Hin HL. destruct t as [r ts]. cbn [annot_root flat children] in *.
  apply elem_of_cons in Hin as [[= ->]|Hin]; [lia|]. change (1 + 1) with 2 in Hin.
  assert (Hall : Forall (λ x, is_plain x.2.1 ∧ count_char "/" x.2.1 = x.1 - 1 ∧ is_name (nd_name x.2.2))
    (concat (map (flat 2) (map (annot []) ts)))).
  { clear -Hn. induction ts as [|t ts IH]; cbn [map concat] in *; [done|].
    apply Forall_app in Hn as [Hnt Hns]. apply Forall_app. split; [by apply annot_good|by apply IH]. }
  rewrite Forall_forall in Hall. by apply Hall in Hin.
Qed.

Lemma descendant_intro L p x r :
  p ≠ "/" → x = (p +:+ "/") +:+ r → r ≠ "" → is_plain x → count_char "/" x = L - 1 →
  is_descendant_of x L p = true.
Proof.
  intros Hp Hx Hr Hpl Hc. rewrite string_app_assoc in Hx. change ("/" +:+ r) with (String "/" r) in Hx.
  unfold is_descendant_of. rewrite !andb_true_iff. split_and!.
  - apply starts_with_app. by eexists.
  - rewrite Hx, str_len_app. apply Z.ltb_lt. unfold str_len. cbn [String.length]. lia.
  - apply orb_true_iff. right. apply bool_decide_true. rewrite Hx. apply plain_char_at. by rewrite <-Hx.
  - apply orb_true_iff. right. rewrite bool_decide_true by done. apply Z.ltb_lt.
    rewrite Hx, count_char_app in Hc. cbn [count_char] in Hc. rewrite bool_decide_true in Hc by done.
    pose proof (count_char_nonneg "/" r). lia.
Qed.

Section exclusion.
Context `{OverflowChecks} `{PropU32} `{InfoLog}.

Lemma counted_names names initial names' : Ok (Some names) = counted names' initial → names' = names.
Proof.
  unfold counted. destruct info_log; [|by intros [= ->]].
  destruct (usize_sub _ _); cbn; [|done..]. by intros [= ->].
Qed.

(** C9: Excluding a device has no effect on the guest's tree when a device above it
    is passed through: the analysis removes the excluded device from the list of
    names, and the selection puts it back, because it is below a name on the list.
    The guest is given the excluded device. *)
Theorem exclusion_is_undone t initial excluded fuel names ids p L x d :
  host_ready ids t → (length initial + 2 * length (nodes_of t) < fuel)%nat →
  find_all_passthrough_devices fuel initial excluded (nodes_of t) = Ok (Some names) →
  (L, (x, d)) ∈ flat 1 (annot_root t) → x ∈ concat excluded → p ∈ names → below p x →
  is_memory d = false → starts_with "/cpus" x = false →
  (x ∉ names) ∧ included names ids L x d = true.
Proof.
  intros (Ht & Hn & _) Hf Hfind Hin Hex Hp Hb Hm Hc.
  destruct (passthrough_spec t initial excluded fuel Ht Hf) as (cache & pm & names' & _ & _ & Hres & Hnames).
  rewrite Hfind in Hres. apply counted_names in Hres as ->.
  pose proof (proj1 (Hnames p) Hp) as (_ & _ & Hp'). split; [intros Hx; apply Hnames in Hx as (_ & Hx & _)|].
  { apply Hx. by left. }
  destruct Hb as (r & Hr & Hx). rewrite bool_decide_false in Hx by done.
  assert (HL : 2 ≤ L).
  { destruct t as [d0 ts]. cbn [annot_root flat] in Hin. apply elem_of_cons in Hin as [[= -> Hx0 ->]|Hin].
    - exfalso. rewrite Hx0 in Hx. destruct p as [|a p]; [|by destruct p].
      cbn in Hx. by destruct r.
    - change (1 + 1) with 2 in Hin. fold (flats 2 (map (annot []) ts)) in Hin.
      assert (Hlev : Forall (λ x, 2 ≤ x.1) (flats 2 (map (annot []) ts))).
      { unfold flats. generalize (map (annot []) ts). intros l. induction l as [|u l IH]; cbn [map concat]; [done|].
        apply Forall_app. split; [apply flat_levels|done]. }
      rewrite Forall_forall in Hlev. by apply Hlev in Hin. }
  destruct (tree_node_good t L x d Hn Hin HL) as (Hpl & Hcount & Hname).
  rewrite device_or_ancestor by (done || by apply name_not_root). apply orb_true_iff. left.
  apply orb_true_iff. right. apply existsb_exists. exists p. split; [by apply list_elem_of_In|].
  by apply descendant_intro with r.
Qed.
End exclusion.

(** ** A guest without a device tree of its own *)
Section generate.
Context `{FdtWriter W H} `{FdtParser} `{OverflowChecks} `{PropU32} `{InfoLog} `{FindNodes}.
Context `{MemoryImages} `{ImageFiles} `{TargetArch} `{!FdtWriterOk W H}.

(** The names that the analysis finds are plain. *)
Lemma tree_paths_plain t x :
  Forall (λ d, is_name (nd_name d)) (concat (map labels (children t))) → x ∈ tree_paths t → is_plain x.
Proof.
  intros Hn Hx. unfold tree_paths in Hx. apply list_elem_of_fmap in Hx as ([y d] & -> & Hx).
  apply list_elem_of_fmap in Hx as ([L z] & Hz & Hin). cbn in Hz. subst z.
  destruct (decide (2 ≤ L)) as [HL|HL]; [by apply (tree_node_good t L y d)|].
  destruct t as [r ts]. cbn [annot_root flat] in Hin. apply elem_of_cons in Hin as [[= -> -> ->]|Hin]; [by split|].
  exfalso. apply HL. change (1 + 1) with 2 in Hin. fold (flats 2 (map (annot []) ts)) in Hin.
  assert (Hlev : Forall (λ x, 2 ≤ x.1) (flats 2 (map (annot []) ts))).
  { unfold flats. generalize (map (annot []) ts). intros l. induction l as [|u l IH]; cbn [map concat]; [done|].
    apply Forall_app. split; [apply flat_levels|done]. }
  rewrite Forall_forall in Hlev. by apply Hlev in Hin.
Qed.

Lemma analysis_plain t initial excluded fuel :
  is_device_tree t → Forall (λ d, is_name (nd_name d)) (concat (map labels (children t))) →
  Forall is_plain initial → (length initial + 2 * length (nodes_of t) < fuel)%nat →
  ∃ names, find_all_passthrough_devices fuel initial excluded (nodes_of t) = counted names initial ∧
    Forall is_plain names.
Proof.
  intros Ht Hn Hpl Hf.
  destruct (passthrough_spec t initial excluded fuel Ht Hf) as (cache & pm & names & _ & Hpm & Hfind & Hin).
  exists names. split; [done|]. apply Forall_forall. intros x ((a & Ha & Hr) & _ & _)%Hin.
  assert (Hpa : is_plain a).
  { destruct Ha as [Ha|[Ha _]]; [|by eapply tree_paths_plain]. rewrite Forall_forall in Hpl. by apply Hpl. }
  apply rtc_inv_r in Hr as [->|(y & _ & Hy)]; [done|].
  eapply tree_paths_plain, phandle_map_paths; [done|done|done|]. by eapply dependencies_devices.
Qed.

(** The configuration that a guest ends up with. *)
Definition final_config (c : vm_config) (masks : list Z) (nodes : list fdt_node) : vm_config :=
  mkVmConfig (vc_id c) (guest_regions (vc_pass_through_devices c) nodes ++ [mkPt "Fake Node" 0 0 2097152 0])
    (vc_excluded_devices c) (vc_spis c ++ (nodes ≫= node_spis)) masks.

(** C13: For a guest that comes without a device tree, on a host tree for which C4 holds
    and whose CPUs, at most 64, have distinct addresses, [handle_fdt_operations] runs
    through, unless the subtraction in a log message of the analysis panics (C6).  In the
    cache, under the id of the guest, it leaves the part of the host's tree that the
    analysis of the configured passthrough devices and the CPUs select, if [vm_fdt] can
    write it, and the trees of the other guests stay.  The configuration gets one mask for each configured CPU that
    the host has; the interrupts of the nodes of the guest's tree in addition to those
    it had; and as regions those of these nodes, or, when the first configured device has
    a length, the configured ones twice, and in any case the fixed entry [Fake Node]. *)
Theorem fdt_generated_from_host host_bytes t cc ids s cache
    (addresses := omap first_reg (find_nodes (nodes_of t) "/cpus/cpu"))
    (initial := pt_name <$> vc_pass_through_devices (fs_config s))
    (found := find_all_passthrough_devices (analysis_fuel initial (nodes_of t)) initial
                (vc_excluded_devices (fs_config s)) (nodes_of t)) :
  target_arch = AArch64 → cc_phys_cpu_ids cc = Some ids → vc_id (fs_config s) = cc_id cc →
  fs_dtb_cache s = Some cache → from_bytes host_bytes = Some (nodes_of t) →
  get_developer_provided_dtb (cc_id cc) cc = Ok None →
  NoDup addresses → (length addresses ≤ 64)%nat → host_ready ids t → Forall is_plain initial →
  (∀ names, found = Ok (Some names) → writable (tmap wn (selected (included names ids) t))) →
  ∃ names, found = counted names initial ∧
    (counted names initial = Ok (Some names) → ∃ bytes nodes masks,
      handle_fdt_operations (W:=W) (H:=H) host_bytes cc s =
        (Ok (), mkFdtState (final_config (fs_config s) masks nodes) (Some (<[cc_id cc := bytes]> cache))) ∧
      parses_to bytes (selected (included names ids) t) ∧ from_bytes bytes = Some nodes ∧
      Forall2 (selects_cpu addresses) (filter (.∈ addresses) ids) masks).
Proof.
  intros Harch Hids Hid Hcache Hhost Hprov Hnd Hlen Ht Hpl Hw.
  destruct (analysis_plain t initial (vc_excluded_devices (fs_config s)) (analysis_fuel initial (nodes_of t)))
    as (names & Hfind & Hplain); [by destruct Ht|by destruct Ht as (_ & ? & _)|done|unfold analysis_fuel; lia|].
  exists names. split; [done|]. intros Hcnt. rewrite Hcnt in Hfind. specialize (Hw names Hfind).
  unfold found, initial in Hfind.
  destruct (cpu_sets_ok (nodes_of t) (fs_config s) cc ids Hids Hlen Hnd) as (masks & Hcpu & Hmasks).
  destruct (guest_fdt_spec t names ids Ht Hplain Hw) as (bytes & Hb & r & Hp & Ho).
  eexists bytes, _, masks. split_and!; [|by exists r|exact Hp|done].
  unfold handle_fdt_operations. erewrite bind_run by (unfold lift; by rewrite Hhost).
  erewrite bind_run by done. erewrite bind_run by (unfold lift; by rewrite Hcpu).
  erewrite bind_run by done. cbn [vc_id set_guest_cpu_sets]. rewrite Hid.
  erewrite bind_run by (unfold lift; by rewrite Hprov).
  cbn beta iota. erewrite bind_run.
  2: { unfold setup_guest_fdt_from_vmm. erewrite bind_run by (unfold lift; by rewrite Hhost).
       erewrite bind_run by done. cbn [fs_config set_guest_cpu_sets vc_pass_through_devices vc_excluded_devices].
       erewrite bind_run by (unfold lift; by rewrite Hfind).
       erewrite bind_run by done. erewrite bind_run by (unfold lift; by rewrite Hids, Hb).
       unfold crate_guest_fdt_with_cache. erewrite bind_run by done. cbn [fs_dtb_cache].
       erewrite bind_run by (unfold lift; by rewrite Hcache). done. }
  cbn beta. erewrite bind_run by done. erewrite bind_run.
  2: { unfold lift, get_vm_dtb_arc. rewrite bool_decide_true by done. cbn [fs_config fs_dtb_cache unwrap vc_id set_guest_cpu_sets].
       rewrite Hid. cbn [mbind outcome_bind]. rewrite lookup_insert_eq. done. }
  cbn beta iota. cbn [fs_config]. erewrite bind_run by (unfold lift; by rewrite (regions_exact _ _ _ Hp)).
  erewrite bind_run by (unfold lift; by rewrite (vm_interrupts_exact _ _ _ Hp)).
  unfold put_config, modify. cbn. done.
Qed.
End generate.
