(* ===== verification/FdtExamples.v ===== *)
(** * Device trees: a small writer and example trees

    A writer that records its calls and a parser that reads them back satisfy the
    laws of [FdtWrite.FdtWriterOk]; the theorems on guest trees are applied to
    small host trees. *)

From Stdlib Require Import Ascii Strings.Byte.
From S2P Require Import Prelude RustStr Disk FdtTree FdtWrite GuestMem FdtCreate FdtGuest FdtUpdate FdtDevice FdtSetup.

Module ToyFdt.

(** ** A writer of tokens *)
Definition str_bytes (s : string) : list u8 :=
  u8_of (str_len s) :: String.list_byte_of_string s.

Definition call_bytes (c : wcall) : list u8 :=
  match c with
  | WBegin name => x01 :: str_bytes name
  | WProp name v => x03 :: str_bytes name ++ u8_of (len (encode v)) :: encode v
  | WEnd => [x02]
  end.

#[export] Instance toy_writer : FdtWriter (list wcall) () := {|
  writer_new := Some [];
  begin_node w name := Some (w ++ [WBegin name], ());
  property w name raw := Some (w ++ [WProp name (VRaw raw)]);
  property_string w name s := Some (w ++ [WProp name (VStr s)]);
  property_array_u32 w name l := Some (w ++ [WProp name (VU32s l)]);
  end_node w _ := Some (w ++ [WEnd]);
  finish w := Some (w ≫= call_bytes);
|}.

(** ** Its parser *)
Definition take_counted (bs : list u8) : option (list u8 * list u8) :=
  match bs with
  | [] => None
  | n :: bs => Some (take (Z.to_nat (u8_val n)) bs, drop (Z.to_nat (u8_val n)) bs)
  end.

Definition to_string (bs : list u8) : string := String.string_of_list_byte bs.

(** The properties that follow. *)
Fixpoint read_props (fuel : nat) (bs : list u8) : option (list fdt_prop * list u8) :=
  match fuel, bs with
  | S fuel, x03 :: bs =>
      '(name, bs) ← take_counted bs;
      '(raw, bs) ← take_counted bs;
      '(ps, bs) ← read_props fuel bs;
      Some (mkProp (to_string name) raw :: ps, bs)
  | _, _ => Some ([], bs)
  end.

Fixpoint read_nodes (fuel : nat) (level : Z) (bs : list u8) : option (list fdt_node) :=
  match fuel, bs with
  | _, [] => Some []
  | S fuel, x01 :: bs =>
      '(name, bs) ← take_counted bs;
      '(ps, bs) ← read_props fuel bs;
      let name := if is_empty name then "/" else to_string name in
      rest ← read_nodes fuel (level + 1) bs;
      Some (mkNode (level + 1) (mkData name ps None None None) :: rest)
  | S fuel, x02 :: bs => read_nodes fuel (level - 1) bs
  | _, _ => None
  end.

#[export] Instance toy_parser : FdtParser := {|
  from_bytes bs := read_nodes (length bs) 0 bs;
  prop_str p := to_string (take (length (pr_raw p) - 1) (pr_raw p));
|}.

(** The nodes that are read back. *)
Definition read_back (d : wnode) : node_data :=
  mkData (if bool_decide (d.1 = "") then "/" else d.1)
    ((λ '(n, v), mkProp n (encode v)) <$> d.2) None None None.

Lemma toy_emits cs w k p m :
  depth (length k) cs = Some m →
  ∃ s, emits (W:=list wcall) (H:=()) cs (mkWriting w k p) s ∧ fdt_writer s = w ++ cs.
Proof.
  revert w k. induction cs as [|c cs IH]; intros w k Hd.
  { eexists. split; [apply emits_nil|]. cbn. by rewrite app_nil_r. }
  change (w ++ c :: cs) with (w ++ [c] ++ cs). rewrite app_assoc.
  destruct c as [name|name v|]; cbn in Hd.
  - destruct (IH (w ++ [WBegin name]) (() :: k) Hd) as (s & Hs & Hw). exists s. split; [|done].
    apply emits_cons. by eexists.
  - destruct (IH (w ++ [WProp name v]) k Hd) as (s & Hs & Hw). exists s. split; [|done].
    apply emits_cons. eexists. split; [|exact Hs]. by destruct v.
  - destruct k as [|[] k]; [done|]. destruct (IH (w ++ [WEnd]) k Hd) as (s & Hs & Hw). exists s.
    split; [|done]. apply emits_cons. by eexists.
Qed.

#[export] Program Instance toy_ok : FdtWriterOk (list wcall) () := {|
  writable t :=
    from_bytes (ser t ≫= call_bytes) = Some (nodes_of (tmap read_back t)) ∧
    tmap outline (tmap read_back t) = tmap written t;
|}.
Next Obligation.
  intros t [Hp Ho]. destruct (toy_emits (ser t) [] [] 0 0 (depth_ser 0 t)) as (s & Hs & Hw).
  exists [], s, (ser t ≫= call_bytes), (tmap read_back t). split_and!; [done..| |done|done].
  cbn. by rewrite Hw.
Qed.
End ToyFdt.

Module FdtWitnesses.
Import ToyFdt.
#[local] Instance checks : OverflowChecks := true.
#[local] Instance one_slice : ImageRegions := λ _ _ size, Ok [(4096, size)].
#[local] Instance simple_align_down : AlignDown := λ a n, a - a mod n.

Definition node (name : string) (ps : list fdt_prop) (reg : option (list (Z * option Z))) : node_data :=
  mkData name ps reg None None.

Definition leaf (name : string) (reg : option (list (Z * option Z))) : rtree node_data :=
  RNode (node name [mkProp "status" [x6f; x6b; x00]] reg) [].

(** A host with two CPUs, two devices on a bus and a memory. *)
Definition host : rtree node_data :=
  RNode (node "/" [mkProp "model" [x61; x00]] None)
    [RNode (node "cpus" [] None) [leaf "cpu@0" (Some [(0, None)]); leaf "cpu@1" (Some [(1, None)])];
     RNode (node "soc" [] None) [leaf "uart@1000" (Some [(4096, Some 256)]); leaf "eth@2000" None];
     leaf "memory@40000000" None].

(** What a guest with the serial port and the first CPU gets. *)
Definition guest : rtree node_data :=
  RNode (node "/" [mkProp "model" [x61; x00]] None)
    [RNode (node "cpus" [] None) [leaf "cpu@0" (Some [(0, None)])];
     RNode (node "soc" [] None) [leaf "uart@1000" (Some [(4096, Some 256)])]].

Ltac plain := repeat split; vm_compute; congruence.
Ltac each t := repeat first [apply Forall_nil; exact I|apply Forall_cons; split; [t|]].

Lemma host_tree : is_device_tree host.
Proof. split_and!; [reflexivity|each ltac:(vm_compute; congruence)|each ltac:(vm_compute; congruence)]. Qed.

Lemma host_named : Forall (λ d, is_name (nd_name d)) (concat (map labels (children host))).
Proof. each plain. Qed.

Lemma host_regs : Forall (cpu_regs_ok [0]) (flat 1 (annot_root host)).
Proof. each ltac:(intros Hl; vm_compute in Hl; congruence). Qed.

Lemma build_node_path_exact_witness :
  build_node_path (nodes_of host) 5 = Ok "/soc/uart@1000".
Proof.
  destruct (build_node_path_exact host 5 (mkNode 3 (label (leaf "uart@1000" (Some [(4096, Some 256)])))))
    as (path & Hp & Hb); [exact host_tree|reflexivity|].
  rewrite Hb. vm_compute in Hp. injection Hp as <-. reflexivity.
Defined.

Lemma guest_fdt_prunes_host_witness :
  ∃ bytes, crate_guest_fdt (W:=list wcall) (H:=()) (nodes_of host) ["/soc/uart@1000"] (Some [0]) = Ok bytes ∧
    parses_to bytes guest.
Proof.
  apply (guest_fdt_prunes_host host ["/soc/uart@1000"] [0]).
  - split_and!; [exact host_tree|exact host_named|reflexivity|exact host_regs].
  - each plain.
  - split; vm_compute; reflexivity.
Defined.

Definition mc_root : node_data := node "/" [] None.
Definition mc_dev : node_data := node "uart@1000" [] None.
Definition mc_node : node_data := node "memory-controller@2c00000" [] None.
Definition mc_child : node_data := node "emc@2c60000" [] None.

Lemma child_of_memory_is_reparented_witness :
  ∃ bytes, crate_guest_fdt (W:=list wcall) (H:=())
      (nodes_of (RNode mc_root [RNode mc_dev []; RNode mc_node [RNode mc_child []]]))
      ["/uart@1000"; "/memory-controller@2c00000"] (Some [0]) = Ok bytes ∧
    parses_to bytes (RNode mc_root [RNode mc_dev [RNode mc_child []]]).
Proof.
  apply (child_of_memory_is_reparented mc_root mc_dev mc_node mc_child).
  - split_and!; [reflexivity|each ltac:(vm_compute; congruence)|each ltac:(vm_compute; congruence)].
  - reflexivity.
  - reflexivity.
  - reflexivity.
  - split; vm_compute; reflexivity.
Defined.

(** A CPU with a cache, and one without. *)
Definition cache : node_data := node "l1@1" [] (Some [(1, None)]).
Definition cpu0 : node_data := node "cpu@0" [] (Some [(0, None)]).
Definition cpu1 : node_data := node "cpu@1" [] (Some [(1, None)]).
Definition cpus : node_data := node "cpus" [] None.

Lemma child_of_cpu_is_reparented_witness :
  ∃ bytes, crate_guest_fdt (W:=list wcall) (H:=())
      (nodes_of (RNode mc_root [RNode cpus [RNode cpu1 []; RNode cpu0 [RNode cache []]]])) [] (Some [1]) = Ok bytes ∧
    parses_to bytes (RNode mc_root [RNode cpus [RNode cpu1 [RNode cache []]]]).
Proof.
  apply (child_of_cpu_is_reparented mc_root cpus cpu1 cpu0 cache).
  - split_and!; [reflexivity|each ltac:(vm_compute; congruence)|each ltac:(vm_compute; congruence)].
  - reflexivity.
  - reflexivity.
  - reflexivity.
  - reflexivity.
  - split; vm_compute; reflexivity.
Defined.

(** With the CPU that is not selected first, the levels do not add up in the end, and
    generating the tree panics. *)
Lemma child_of_cpu_panics :
  crate_guest_fdt (W:=list wcall) (H:=())
    (nodes_of (RNode mc_root [RNode cpus [RNode cpu0 [RNode cache []]; RNode cpu1 []]])) [] (Some [1]) = Panic.
Proof. vm_compute. reflexivity. Qed.

(** The bytes of a tree with [chosen], and the guest that gets them. *)
Definition cached : rtree node_data :=
  RNode (node "/" [] None)
    [RNode (node "chosen" [mkProp "bootargs" (encode (VStr "a ro b")); mkProp "linux,initrd-start" [x01]] None) [];
     RNode (node "memory@0" [] None) []; RNode (node "soc" [] None) []].

Definition cached_bytes : list u8 := ser (tmap wn cached) ≫= call_bytes.

Definition g : GuestMem.guest :=
  mkGuest [mkRegion (1024 * MB) (256 * MB) true] (1024 * MB) None None None 0 0 (λ _, x00).

(** The cached tree has a memory controller with a node below it. *)
Definition mc_tree : rtree node_data := RNode mc_root [RNode mc_dev []; RNode mc_node [RNode mc_child []]].
Definition mc_bytes : list u8 := ser (tmap wn mc_tree) ≫= call_bytes.

Lemma update_reparents_child_of_memory_witness :
  ∃ bytes, updated_fdt (W:=list wcall) (H:=()) mc_bytes (g_memory_regions g) = Ok bytes ∧
    parses_to_written bytes
      (written_tree (g_memory_regions g) mc_tree [RNode (un mc_dev) [RNode (un mc_child) []]]).
Proof.
  apply (update_reparents_child_of_memory (g_memory_regions g) mc_bytes mc_root mc_dev mc_node mc_child).
  - vm_compute. reflexivity.
  - split_and!; [reflexivity|each ltac:(vm_compute; congruence)|each ltac:(vm_compute; congruence)].
  - reflexivity.
  - reflexivity.
  - reflexivity.
  - split; vm_compute; reflexivity.
Defined.

(** What [update_fdt] writes, and where. *)
Definition final_bytes : list u8 := ser (updated_tree (g_memory_regions g) cached) ≫= call_bytes.
Definition final_addr : Z := 1278 * MB.

Lemma final_bytes_eq :
  updated_fdt (W:=list wcall) (H:=()) cached_bytes (g_memory_regions g) = Ok final_bytes.
Proof. vm_compute. reflexivity. Qed.

Lemma update_fdt_installs_witness :
  parses_to_written final_bytes (updated_tree (g_memory_regions g) cached) ∧
  ∃ m, update_fdt (W:=list wcall) (H:=()) cached_bytes g =
      (Ok (), set_memory m (set_dtb_load_gpa final_addr g)) ∧
    read_regions m [(4096, len final_bytes)] = final_bytes.
Proof.
  destruct (update_fdt_installs (W:=list wcall) (H:=()) cached_bytes cached g) as (bytes & Hb & Hp & Hload).
  - vm_compute. reflexivity.
  - split_and!; [|reflexivity|by vm_compute].
    split_and!; [reflexivity|each ltac:(vm_compute; congruence)|each ltac:(vm_compute; congruence)].
  - split; vm_compute; reflexivity.
  - rewrite final_bytes_eq in Hb. injection Hb as <-. split; [exact Hp|].
    destruct (Hload final_addr [(4096, len final_bytes)]) as (m & Hm & Hr & _).
    + reflexivity.
    + reflexivity.
    + split_and!; [vm_compute; congruence|by apply Forall_nil|done].
    + reflexivity.
    + vm_compute. congruence.
    + exists m. split; [exact Hm|exact Hr].
Defined.

(** A tree that the developer provided, with CPUs of its own. *)
Definition provided : rtree node_data :=
  RNode (node "/" [] None) [RNode (node "cpus" [] None) [leaf "cpu@7" None]; leaf "virtio@0" None].

Lemma update_cpu_node_grafts_witness :
  ∃ bytes, update_cpu_node (W:=list wcall) (H:=()) (nodes_of provided) (nodes_of host) (Some [0]) = Ok bytes ∧
    parses_to bytes (RNode (node "/" [] None)
      [leaf "virtio@0" None; RNode (node "cpus" [] None) [leaf "cpu@0" (Some [(0, None)])]]).
Proof.
  apply (update_cpu_node_grafts provided host [0]).
  - split_and!; [split_and!; [reflexivity|each ltac:(vm_compute; congruence)..]|each plain|reflexivity|each ltac:(exact I)].
  - split_and!; [exact host_tree|exact host_named|reflexivity|exact host_regs].
  - split; vm_compute; reflexivity.
Defined.

(** ** Passthrough devices *)
#[local] Instance be_u32 : PropU32 := λ p, match be_words (pr_raw p) with v :: _ => v | [] => 0 end.
#[local] Instance logs_info : InfoLog := true.
#[local] Instance by_prefix : FindNodes := λ nodes _,
  List.filter (λ n, starts_with "cpu@" (n_name n)) nodes.

(** A serial port that uses a clock. *)
Definition clocked : rtree node_data :=
  RNode (node "/" [] None)
    [RNode (node "clk" [mkProp "phandle" (be32 7); mkProp "#clock-cells" (be32 1)] None) [];
     RNode (node "soc" [] None)
       [RNode (node "uart@1000" [mkProp "clocks" (be32 7 ++ be32 3)] None) []; leaf "eth@2000" None]].

Lemma clocked_tree : is_device_tree clocked.
Proof. split_and!; [reflexivity|each ltac:(vm_compute; congruence)..]. Qed.

Lemma clocked_ready ids : host_ready ids clocked.
Proof.
  split_and!; [exact clocked_tree|each plain|reflexivity|].
  each ltac:(intros Hl Hc; vm_compute in Hc; congruence).
Qed.

Definition found : list string := ["/soc"; "/soc/uart@1000"; "/clk"].

Lemma found_eq :
  find_all_passthrough_devices 20 ["/soc"] [["/soc/eth@2000"]] (nodes_of clocked) = Ok (Some found).
Proof. vm_compute. reflexivity. Qed.

Lemma passthrough_devices_exact_witness :
  ∃ cache pm names,
    build_optimized_node_cache (nodes_of clocked) = Ok cache ∧ build_phandle_map (nodes_of clocked) = Ok pm ∧
    (len names ≤ usize_max →
      find_all_passthrough_devices 20 ["/soc"] [["/soc/eth@2000"]] (nodes_of clocked) =
        if info_log && overflow_checks && (len names <? len ["/soc"]) then Panic else Ok (Some names)) ∧
    ∀ x, x ∈ names ↔
      (∃ a, seed clocked ["/soc"] a ∧ rtc (depends pm cache) a x) ∧
      ¬ seed clocked (concat [["/soc/eth@2000"]]) x ∧ x ≠ "/".
Proof.
  apply (passthrough_devices_exact clocked ["/soc"] [["/soc/eth@2000"]] 20); [exact clocked_tree|].
  vm_compute. lia.
Defined.

Definition clocks : phandles := {[7 := ("/clk", {["#clock-cells" := 1]})]}.

Lemma phandle_refs_roundtrip_witness :
  parse_phandle_property_with_cells (encode_refs [(7, [3]); (7, [4])]) "clocks" clocks = [(7, [3]); (7, [4])] ∧
  parse_phandle_property (encode_refs [(7, [3]); (7, [4])]) "clocks" clocks = ["/clk"; "/clk"].
Proof.
  apply (phandle_refs_roundtrip "clocks" clocks [(7, [3]); (7, [4])]); [done|].
  each ltac:(split_and!; [cbn; lia|cbn; lia|by apply Forall_singleton|];
    exists "/clk", {["#clock-cells" := 1]}; split; vm_compute; reflexivity).
Defined.

(** The configuration of a guest on the host with two CPUs. *)
Definition cfg : vm_config :=
  mkVmConfig 1 [mkPt "/soc/uart@1000" 0 0 0 0] [] [] [].
Definition cc : crate_config := mkCrateConfig 1 (Some [0]) (Some "memory") None.

Lemma cpu_masks_pin_witness :
  ∃ masks, set_phys_cpu_sets cfg (nodes_of host) cc = Ok (set_guest_cpu_sets masks cfg) ∧
    Forall2 (selects_cpu [0; 1]) [0] masks.
Proof.
  destruct (cpu_masks_pin (nodes_of host) cfg cc [0]) as [Hok _]; [reflexivity|vm_compute; lia|].
  destruct Hok as (masks & Hm & Hf).
  - apply (bool_decide_unpack (NoDup [0; 1])). vm_compute. exact I.
  - exists masks. split; [exact Hm|exact Hf].
Defined.

Lemma exclusion_is_undone_witness :
  ("/soc/eth@2000" ∉ found) ∧ included found [0] 3 "/soc/eth@2000" (label (leaf "eth@2000" None)) = true.
Proof.
  apply (exclusion_is_undone clocked ["/soc"] [["/soc/eth@2000"]] 20 found [0] "/soc").
  - exact (clocked_ready [0]).
  - vm_compute. lia.
  - exact found_eq.
  - apply list_elem_of_lookup_2 with 4%nat. reflexivity.
  - apply list_elem_of_lookup_2 with O. reflexivity.
  - apply list_elem_of_lookup_2 with O. reflexivity.
  - exists "eth@2000". split; [discriminate|reflexivity].
  - reflexivity.
  - reflexivity.
Defined.

#[local] Instance no_images : MemoryImages := [mkVmImages 1 [] None None None].
#[local] Instance no_files : ImageFiles := {| fs_feature := false; read_image_file _ := None |}.
#[local] Instance on_aarch64 : TargetArch := AArch64.

Definition host_bytes : list u8 := ser (tmap wn host) ≫= call_bytes.

(** The host's tree as it is parsed. *)
Definition parsed_host : rtree node_data := tmap (read_back ∘ wn) host.

Lemma fdt_generated_from_host_witness :
  ∃ bytes nodes masks,
    handle_fdt_operations (W:=list wcall) (H:=()) host_bytes cc (mkFdtState cfg (Some ∅)) =
      (Ok (), mkFdtState (final_config cfg masks nodes) (Some (<[1 := bytes]> ∅))) ∧
    parses_to bytes (selected (included ["/soc/uart@1000"] [0]) parsed_host).
Proof.
  assert (Hfound : find_all_passthrough_devices (analysis_fuel ["/soc/uart@1000"] (nodes_of parsed_host))
    ["/soc/uart@1000"] [] (nodes_of parsed_host) = Ok (Some ["/soc/uart@1000"])) by (vm_compute; reflexivity).
  destruct (fdt_generated_from_host host_bytes parsed_host cc [0] (mkFdtState cfg (Some ∅)) ∅)
    as (names & Hn & Hrun).
  - reflexivity.
  - reflexivity.
  - reflexivity.
  - reflexivity.
  - vm_compute. reflexivity.
  - reflexivity.
  - apply (bool_decide_unpack _). vm_compute. exact I.
  - vm_compute. lia.
  - split_and!; [split_and!; [reflexivity|each ltac:(vm_compute; congruence)..]|each plain|reflexivity|].
    each ltac:(intros Hl; vm_compute in Hl; congruence).
  - each plain.
  - intros names Hn. assert (Some names = Some ["/soc/uart@1000"]) as [= ->].
    { enough (E : @Ok AxError _ (Some names) = Ok (Some ["/soc/uart@1000"])) by (by injection E as ->).
      rewrite <- Hfound. symmetry. exact Hn. }
    split; vm_compute; reflexivity.
  - assert (Hc : counted names ["/soc/uart@1000"] = Ok (Some ["/soc/uart@1000"])) by (rewrite <- Hfound; symmetry; exact Hn).
    pose proof (counted_names ["/soc/uart@1000"] ["/soc/uart@1000"] names (eq_sym Hc)) as ->.
    destruct (Hrun Hc) as (bytes & nodes & masks & Hh & Hp & _).
    exists bytes, nodes, masks. split; [exact Hh|exact Hp].
Defined.
End FdtWitnesses.
