(* ===== verification/Images.v ===== *)
(** * Loading the images of a guest

    [kernel/src/vmm/images/mod.rs]: the loader copies the kernel and, where the
    configuration has them, the BIOS, the ramdisk and the device tree into the memory
    of a guest, from images linked into the hypervisor or from files.  The
    addresses are read from the configuration when loading starts. *)

From Stdlib Require Import Strings.Byte.
From S2P Require Import Prelude RustStr Disk FdtTree FdtWrite GuestMem FdtCreate FdtSetup FdtExamples.

Record ImageLoader : Type := mkLoader {
  il_id : Z;
  il_image_location : option string;
  il_kernel_path : string;
  il_bios_path : option string;
  il_ramdisk_path : option string;
  il_kernel_load_gpa : Z;
  il_bios_load_gpa : option Z;
  il_dtb_load_gpa : option Z;
  il_ramdisk_load_gpa : option Z;
}.

(** The addresses of the configuration of the guest. *)
Definition set_load_addresses (g : guest) (l : ImageLoader) : ImageLoader :=
  mkLoader (il_id l) (il_image_location l) (il_kernel_path l) (il_bios_path l) (il_ramdisk_path l)
    (g_kernel_load_gpa g) (g_bios_load_gpa g) (g_dtb_load_gpa g) (g_ramdisk_load_gpa g).

(** [File::open] and [metadata]. *)
Class FileSystem : Type := {
  open_file : string → option (list u8);
  has_metadata : string → bool;
}.

Section images.
Context `{FdtWriter W H} `{FdtParser} `{OverflowChecks} `{ImageRegions} `{AlignDown}.
Context `{MemoryImages} `{TargetArch} `{FileSystem} `{ImageFiles}.
Context (dtb_cache : option (gmap Z (list u8))).

(** The end of both variants: the device tree of the cache, on [aarch64]. *)
Definition load_dtb (loader : ImageLoader) : st guest AxError () :=
  dtb_arc ← lift (get_vm_dtb_arc dtb_cache (il_id loader));
  match dtb_arc with
  | Some dtb =>
      if bool_decide (target_arch = AArch64) then update_fdt (W:=W) (H:=H) dtb else mret ()
  | None => mret ()
  end.

(** ** From memory *)
Definition load_optional (buffer : option (list u8)) (gpa : option Z) : st guest AxError () :=
  match buffer with
  | Some buffer =>
      gpa ← lift (unwrap gpa);
      expecting (load_vm_image_from_memory buffer gpa)
  | None => mret ()
  end.

Definition load_vm_images_from_memory (loader : ImageLoader) : st guest AxError () :=
  vm_imags ← lift (unwrap (List.find (λ v, vi_id v =? il_id loader) memory_images));
  expecting (load_vm_image_from_memory (vi_kernel vm_imags) (il_kernel_load_gpa loader));;
  load_dtb loader;;
  load_optional (vi_bios vm_imags) (il_bios_load_gpa loader);;
  load_optional (vi_ramdisk vm_imags) (il_ramdisk_load_gpa loader).

(** ** From files *)
Definition open_image_file (file_name : string) : outcome AxError (list u8 * Z) :=
  match open_file file_name with
  | Some file => if has_metadata file_name then Ok (file, len file) else Err Io
  | None => Err NotFound
  end.

(** [read_exact] into each region in turn; a region that it cannot fill is left with
    what there was. *)
Fixpoint fill_regions (file : list u8) (regions : list (Z * Z)) (m : Z → u8) :
    outcome AxError () * (Z → u8) :=
  match regions with
  | [] => (Ok (), m)
  | (region, region_len) :: regions =>
      if len file <? region_len then (Err Io, write_bytes m region file)
      else
        fill_regions (drop (Z.to_nat region_len) file) regions
          (write_bytes m region (take (Z.to_nat region_len) file))
  end.

Definition load_vm_image (image_path : string) (image_load_gpa : Z) : st guest AxError () :=
  '(image_file, image_size) ← lift (open_image_file image_path);
  g ← get;
  image_load_regions ← lift (get_image_load_region g image_load_gpa image_size);
  let '(r, m) := fill_regions image_file image_load_regions (g_memory g) in
  put (set_memory m g);;
  lift r.

Definition load_optional_file (path : option string) (gpa : option Z) : st guest AxError () :=
  match path with
  | Some path =>
      match gpa with
      | Some gpa => load_vm_image path gpa
      | None => throw NotFound
      end
  | None => mret ()
  end.

Definition load_vm_images_from_filesystem (loader : ImageLoader) : st guest AxError () :=
  load_vm_image (il_kernel_path loader) (il_kernel_load_gpa loader);;
  load_optional_file (il_bios_path loader) (il_bios_load_gpa loader);;
  load_optional_file (il_ramdisk_path loader) (il_ramdisk_load_gpa loader);;
  load_dtb loader.

Definition load (loader : ImageLoader) : st guest AxError () :=
  g ← get;
  let loader := set_load_addresses g loader in
  match il_image_location loader with
  | Some "memory" => load_vm_images_from_memory loader
  | Some "fs" => if fs_feature then load_vm_images_from_filesystem loader else panic
  | _ => panic
  end.
End images.

(** ** What the loader leaves in memory *)

(** The slices depend on how the guest is mapped, not on what is stored, or on where its
    device tree is to go. *)
Class ImageRegionsOk `{ImageRegions} : Prop := {
  regions_of_mapping m g a n : get_image_load_region (set_memory m g) a n = get_image_load_region g a n;
  regions_of_tree d g a n : get_image_load_region (set_dtb_load_gpa d g) a n = get_image_load_region g a n;
}.

(** Slices that fit an image and do not overlap. *)
Definition fits (image : list u8) (rs : list (Z * Z)) : Prop :=
  disjoint_regions rs ∧ total rs = len image ∧ len image ≤ usize_max.

Definition apart_regions (rs rs' : list (Z * Z)) : Prop := Forall (λ r, Forall (apart r) rs') rs.

Lemma apart_regions_out rs rs' a :
  apart_regions rs rs' → (∃ r, r ∈ rs ∧ in_region a r) → Forall (λ r, ¬ in_region a r) rs'.
Proof.
  intros Ha (r & Hr & Hin). unfold apart_regions in Ha. rewrite Forall_forall in Ha. specialize (Ha r Hr).
  eapply Forall_impl; [exact Ha|]. intros r' Hap Hin'. unfold apart, in_region in *. lia.
Qed.

Lemma read_regions_ext m m' rs :
  (∀ a, (∃ r, r ∈ rs ∧ in_region a r) → m a = m' a) → read_regions m rs = read_regions m' rs.
Proof.
  intros Hm. unfold read_regions. induction rs as [|r rs IH]; cbn [map concat]; [done|].
  rewrite IH by (intros a (r' & Hr' & Hin); apply Hm; exists r'; split; [by right|done]). f_equal.
  apply read_bytes_ext. intros a Ha. apply Hm. exists r. split; [by left|done].
Qed.

Section load_theorems.
Context `{FdtWriter W H} `{FdtParser} `{OverflowChecks} `{ImageRegions} `{AlignDown}.
Context `{MemoryImages} `{TargetArch} `{FileSystem} `{ImageFiles} `{!ImageRegionsOk}.

(** Loading one image, in the middle of others. *)
Lemma load_one image addr rs g0 m :
  get_image_load_region g0 addr (len image) = Ok rs → fits image rs →
  ∃ m', load_vm_image_from_memory image addr (set_memory m g0) = (Ok (), set_memory m' g0) ∧
    read_regions m' rs = image ∧
    (∀ rs', apart_regions rs' rs → read_regions m' rs' = read_regions m rs').
Proof.
  intros Hr (Hd & Ht & Hmax).
  destruct (load_image_spec image addr rs (set_memory m g0)) as (m' & Hl & Hread & Hout);
    [by rewrite regions_of_mapping|done..|].
  exists m'. split_and!; [done| |].
  - rewrite Hread, Ht. unfold len. rewrite Nat2Z.id, firstn_all, drop_ge; [by rewrite app_nil_r|].
    pose proof (read_regions_len (g_memory (set_memory m g0)) rs Hd) as Hlen. unfold len in *. lia.
  - intros rs' Hap. apply read_regions_ext. intros a Ha. apply Hout. by eapply apart_regions_out.
Qed.

(** An optional image, its slices, and that it got there. *)
Definition placed (g : guest) (image : option (list u8)) (gpa : option Z) (rs : list (Z * Z)) : Prop :=
  match image with
  | Some image => ∃ a, gpa = Some a ∧ get_image_load_region g a (len image) = Ok rs ∧ fits image rs
  | None => rs = []
  end.

Lemma load_optional_one g m image gpa rs :
  placed g image gpa rs →
  ∃ m', load_optional image gpa (set_memory m g) = (Ok (), set_memory m' g) ∧
    read_regions m' rs = default [] image ∧
    (∀ rs', apart_regions rs' rs → read_regions m' rs' = read_regions m rs').
Proof.
  destruct image as [image|]; cbn [placed default].
  - intros (a & -> & Hr & Hf). destruct (load_one image a rs g m Hr Hf) as (m' & Hl & Hread & Hout).
    exists m'. split_and!; [|done..]. unfold load_optional. erewrite bind_run by done.
    unfold expecting. by rewrite Hl.
  - intros ->. exists m. by split_and!.
Qed.

(** The device tree that the cache has for the guest: on [aarch64] the bytes that
    [update_fdt] makes of it, the address it chooses for them, which it records in the
    guest, and their slices.  Other guests get none. *)
Definition tree_placed (g : guest) (dtb : option (list u8)) (bytes : list u8) (rs : list (Z * Z)) (g' : guest) : Prop :=
  match dtb with
  | Some fdt =>
      if bool_decide (target_arch = AArch64) then
        updated_fdt (W:=W) (H:=H) fdt (g_memory_regions g) = Ok bytes ∧
        ∃ a, calculate_dtb_load_addr (len bytes) g = (Ok a, g') ∧
          get_image_load_region g a (len bytes) = Ok rs ∧ fits bytes rs
      else bytes = [] ∧ rs = [] ∧ g' = g
  | None => bytes = [] ∧ rs = [] ∧ g' = g
  end.

(** The address does not depend on what is stored, and only it is recorded. *)
Lemma dtb_load_addr_set_memory n g g' a m :
  calculate_dtb_load_addr n g = (Ok a, g') →
  calculate_dtb_load_addr n (set_memory m g) = (Ok a, set_memory m g') ∧ g' = set_dtb_load_gpa a g.
Proof.
  unfold calculate_dtb_load_addr. st_run. destruct g as [regions k b d rd e cpu mem]. simpl.
  destruct (head regions) as [mr|]; simpl; [|done].
  destruct d as [d|], (mr_identical mr); simpl;
    repeat (destruct (usize_add _ _); simpl; [|done..]; destruct (usize_sub _ _); simpl; [|done..]);
    by intros [= <- <-].
Qed.

Lemma load_dtb_one dtb_cache loader g m dtb bytes rs g' :
  get_vm_dtb_arc dtb_cache (il_id loader) = Ok dtb → tree_placed g dtb bytes rs g' →
  ∃ m', load_dtb (W:=W) (H:=H) dtb_cache loader (set_memory m g) = (Ok (), set_memory m' g') ∧
    read_regions m' rs = bytes ∧
    (∀ rs', apart_regions rs' rs → read_regions m' rs' = read_regions m rs') ∧
    (∀ a n, get_image_load_region g' a n = get_image_load_region g a n).
Proof.
  intros Hc Ht. unfold load_dtb. erewrite bind_run by (unfold lift; by rewrite Hc).
  destruct dtb as [fdt|]; unfold tree_placed in Ht; [destruct (bool_decide _)|];
    [|destruct Ht as (-> & -> & ->); by exists m..].
  destruct Ht as (Hb & a & Ha & Hr & Hf).
  destruct (dtb_load_addr_set_memory _ _ _ _ m Ha) as [Ha' ->].
  destruct (load_one bytes a rs (set_dtb_load_gpa a g) m) as (m' & Hl & Hread & Hkeep); [by rewrite regions_of_tree|done|].
  exists m'. split_and!; [|done|done|intros; apply regions_of_tree].
  unfold update_fdt. erewrite bind_run by done. replace (g_memory_regions (set_memory m g)) with (g_memory_regions g) by by destruct g.
  erewrite bind_run by (unfold lift; by rewrite Hb). erewrite bind_run by exact Ha'.
  unfold expecting. by rewrite Hl.
Qed.

Lemma placed_mapping g g' image gpa rs :
  (∀ a n, get_image_load_region g' a n = get_image_load_region g a n) →
  placed g image gpa rs → placed g' image gpa rs.
Proof. intros Hg. destruct image; [|done]. intros (a & Ha & Hr & Hf). exists a. by rewrite Hg. Qed.

(** C35: Loading from memory installs every image of the guest: when the slices that
    [axvm] gives for the kernel, the device tree, the BIOS and the ramdisk do not overlap,
    the load succeeds and leaves each of them, whole and unchanged, in its slices; the
    later copies do not disturb the earlier ones.  The device tree is, on [aarch64], what
    [update_fdt] makes of the cached one, at the address that is then recorded in the
    guest; a guest without a cached tree, or on another architecture, gets none.  Of the
    guest nothing but that address and the memory changes. *)
Theorem images_installed dtb_cache loader g images dtb bytes g' rk rd rb rr :
  il_image_location loader = Some "memory" →
  List.find (λ v, vi_id v =? il_id loader) memory_images = Some images →
  get_vm_dtb_arc dtb_cache (il_id loader) = Ok dtb →
  get_image_load_region g (g_kernel_load_gpa g) (len (vi_kernel images)) = Ok rk →
  fits (vi_kernel images) rk → tree_placed g dtb bytes rd g' →
  placed g (vi_bios images) (g_bios_load_gpa g) rb → placed g (vi_ramdisk images) (g_ramdisk_load_gpa g) rr →
  apart_regions rk rd → apart_regions rk rb → apart_regions rk rr →
  apart_regions rd rb → apart_regions rd rr → apart_regions rb rr →
  ∃ m, load (W:=W) (H:=H) dtb_cache loader g = (Ok (), set_memory m g') ∧
    read_regions m rk = vi_kernel images ∧ read_regions m rd = bytes ∧
    read_regions m rb = default [] (vi_bios images) ∧ read_regions m rr = default [] (vi_ramdisk images).
Proof.
  intros Hloc Hfind Hdtb Hk Hfk Ht Hb Hr Hkd Hkb Hkr Hdb Hdr Hbr.
  assert (Hg : g = set_memory (g_memory g) g) by by destruct g.
  destruct (load_one _ _ _ g (g_memory g) Hk Hfk) as (m1 & Hl1 & Hread1 & _). rewrite <-Hg in Hl1.
  destruct (load_dtb_one _ (set_load_addresses g loader) g m1 _ _ _ _ Hdtb Ht) as (md & Hld & Hreadd & Hkeepd & Hsame).
  apply (placed_mapping g g' _ _ _ Hsame) in Hb, Hr.
  destruct (load_optional_one g' md _ _ _ Hb) as (m2 & Hl2 & Hread2 & Hkeep2).
  destruct (load_optional_one g' m2 _ _ _ Hr) as (m3 & Hl3 & Hread3 & Hkeep3).
  exists m3. split_and!; [|by rewrite Hkeep3, Hkeep2, Hkeepd|by rewrite Hkeep3, Hkeep2|by rewrite Hkeep3|done].
  unfold load. erewrite bind_run by done. cbn [set_load_addresses il_image_location]. rewrite Hloc.
  unfold load_vm_images_from_memory. erewrite bind_run by (unfold lift; cbn [set_load_addresses il_id]; by rewrite Hfind).
  erewrite bind_run by (unfold expecting; cbn [set_load_addresses il_kernel_load_gpa]; by rewrite Hl1).
  erewrite bind_run by exact Hld. cbn [set_load_addresses il_bios_load_gpa il_ramdisk_load_gpa].
  erewrite bind_run by exact Hl2. exact Hl3.
Qed.
End load_theorems.

Module ImagesExamples.
Import ToyFdt.
#[local] Instance checks : OverflowChecks := true.
(** Guest memory is one slice of host memory. *)
#[local] Instance direct : ImageRegions := λ _ a n, Ok [(a, n)].
#[local] Instance direct_ok : ImageRegionsOk.
Proof. done. Qed.
#[local] Instance simple_align_down : AlignDown := λ a n, a - a mod n.
#[local] Instance on_aarch64 : TargetArch := AArch64.
#[local] Instance no_files : FileSystem := {| open_file _ := None; has_metadata _ := false |}.
#[local] Instance no_image_files : ImageFiles := {| fs_feature := false; read_image_file _ := None |}.
#[local] Instance linked : MemoryImages := [mkVmImages 1 [x01; x02; x03] None None (Some [x04; x05])].
(** A guest with 256 MB of memory and a cached device tree. *)
Definition g : guest := mkGuest [mkRegion (1024 * MB) (256 * MB) true] (1024 * MB) None None (Some (1100 * MB)) 0 0 (λ _, x00).
Definition cache : gmap Z (list u8) := {[1 := FdtWitnesses.cached_bytes]}.

Definition loader : ImageLoader :=
  mkLoader 1 (Some "memory") "" None None 0 None None None.

Lemma fits_one (image : list u8) a : len image ≤ usize_max → fits image [(a, len image)].
Proof.
  intros Hi. split_and!; [|unfold total; cbn; lia|done]. cbn. split_and!; [unfold len; lia|by apply Forall_nil|done].
Qed.

Ltac apart_slices :=
  repeat first [apply Forall_nil_2 | apply Forall_cons; split]; unfold apart; vm_compute; intuition congruence.

Lemma images_installed_witness :
  ∃ m, load (W:=list wcall) (H:=()) (Some cache) loader g =
      (Ok (), set_memory m (set_dtb_load_gpa FdtWitnesses.final_addr g)) ∧
    read_regions m [(1024 * MB, 3)] = [x01; x02; x03] ∧
    read_regions m [(FdtWitnesses.final_addr, len FdtWitnesses.final_bytes)] = FdtWitnesses.final_bytes ∧
    read_regions m [] = [] ∧ read_regions m [(1100 * MB, 2)] = [x04; x05].
Proof.
  apply (images_installed (W:=list wcall) (H:=()) (Some cache) loader g
    (mkVmImages 1 [x01; x02; x03] None None (Some [x04; x05])) (Some FdtWitnesses.cached_bytes)).
  - reflexivity.
  - reflexivity.
  - reflexivity.
  - reflexivity.
  - apply (fits_one [x01; x02; x03]). vm_compute. congruence.
  - split; [apply FdtWitnesses.final_bytes_eq|]. exists FdtWitnesses.final_addr.
    split_and!; [reflexivity|reflexivity|]. apply fits_one. vm_compute. congruence.
  - reflexivity.
  - exists (1100 * MB). split_and!; [reflexivity|reflexivity|]. apply (fits_one [x04; x05]). vm_compute. congruence.
  - apart_slices.
  - apart_slices.
  - apart_slices.
  - apart_slices.
  - apart_slices.
  - apart_slices.
Defined.
End ImagesExamples.
