(* ===== verification/Timer.v ===== *)
(** * Timers

    [kernel/src/vmm/timer.rs]: every CPU has a list of timers, a timer has a token
    from a global counter and a callback, and [check_events] runs the callbacks that
    are due.  The list belongs to the crate [timer_list] and is a class with the laws
    of its documentation; the callbacks are parameters that may use the timers. *)

From Stdlib Require Import Sorting.Sorted.
From S2P Require Import Prelude.

(** [TimerList]: [set], [cancel] and [expire_one]. *)
Class TimerList (T E : Type) : Type := {
  tl_new : T;
  tl_set : Z → E → T → T;
  tl_cancel : (E → bool) → T → T;
  tl_expire_one : Z → T → option (Z * E) * T;
}.

(** [expire_one] takes the earliest event whose deadline has passed. *)
Class TimerListOk (T E : Type) `{TimerList T E} : Type := {
  tl_events : T → list (Z * E);
  tl_new_events : tl_events tl_new = [];
  tl_set_events : ∀ d e t, tl_events (tl_set d e t) ≡ₚ (d, e) :: tl_events t;
  tl_cancel_events : ∀ c t, tl_events (tl_cancel c t) ≡ₚ List.filter (λ x, negb (c x.2)) (tl_events t);
  tl_expire_none : ∀ now t t', tl_expire_one now t = (None, t') →
    tl_events t' = tl_events t ∧ Forall (λ x, now < x.1) (tl_events t);
  tl_expire_some : ∀ now t d e t', tl_expire_one now t = (Some (d, e), t') →
    tl_events t ≡ₚ (d, e) :: tl_events t' ∧ d ≤ now ∧ Forall (λ x, d ≤ x.1) (tl_events t');
}.

Record VmmTimerEvent (F : Type) : Type := mkEvent {
  te_token : Z;
  te_callback : F;
}.
Arguments mkEvent {F} _ _.
Arguments te_token {F} _.
Arguments te_callback {F} _.

Section timer.
Context {T F : Type} `{TimerList T (VmmTimerEvent F)}.

(** [fired] records the callbacks that were run, with their time. *)
Record timers : Type := mkTimers {
  tm_token : Z;
  tm_lists : gmap Z T;
  tm_fired : list (Z * Z * Z);
}.

Definition set_list (cpu : Z) (t : T) (s : timers) : timers :=
  mkTimers (tm_token s) (<[cpu := t]> (tm_lists s)) (tm_fired s).

(** The list of a CPU; it has to be initialised. *)
Definition current_list (cpu : Z) : st timers AxError T :=
  s ← get;
  lift (unwrap (tm_lists s !! cpu)).

(** [init_once] panics when it is called again. *)
Definition init_percpu (cpu : Z) : st timers AxError () :=
  s ← get;
  match tm_lists s !! cpu with
  | Some _ => panic
  | None => put (set_list cpu tl_new s)
  end.

Definition register_timer (cpu deadline : Z) (handler : F) : st timers AxError Z :=
  timers ← current_list cpu;
  s ← get;
  let token := tm_token s in
  let event := mkEvent token handler in
  put (mkTimers (wrap64 (token + 1)) (<[cpu := tl_set deadline event timers]> (tm_lists s)) (tm_fired s));;
  mret token.

Definition cancel_timer (cpu token : Z) : st timers AxError () :=
  timers ← current_list cpu;
  modify (set_list cpu (tl_cancel (λ event, te_token event =? token) timers)).

(** [wall_time] gives a new reading at every round; [callback] is what a handler
    does with the timers. *)
Section check.
Context (wall_time : nat → Z) (callback : F → Z → timers → timers).

Fixpoint check_loop (fuel round : nat) (cpu : Z) : st timers AxError bool :=
  match fuel with
  | O => mret false
  | S fuel =>
      timers ← current_list cpu;
      let now := wall_time round in
      let '(event, timers) := tl_expire_one now timers in
      modify (set_list cpu timers);;
      match event with
      | Some (deadline, event) =>
          modify (λ s, callback (te_callback event) now
            (mkTimers (tm_token s) (tm_lists s) (tm_fired s ++ [(te_token event, deadline, now)])));;
          check_loop fuel (S round) cpu
      | None => mret true
      end
  end.

Definition check_events (fuel : nat) (cpu : Z) : st timers AxError bool := check_loop fuel 0 cpu.
End check.
End timer.
Arguments timers : clear implicits.

(** ** Theorems *)
Section timer_theorems.
Context {T F : Type} `{TimerListOk T (VmmTimerEvent F)}.

(** The tokens and deadlines of the timers of a CPU. *)
Definition pending (cpu : Z) (s : timers T) : list (Z * Z) :=
  match tm_lists s !! cpu with
  | Some t => (λ x, (te_token x.2, x.1)) <$> tl_events t
  | None => []
  end.

Definition initialised (cpu : Z) (s : timers T) : Prop := is_Some (tm_lists s !! cpu).

Lemma current_list_run cpu (s : timers T) t :
  tm_lists s !! cpu = Some t → current_list cpu s = (Ok t, s).
Proof. intros Ht. unfold current_list, mbind, st_bind, get, lift. by rewrite Ht. Qed.

(** Registering several timers; [jobs] are CPUs, deadlines and handlers. *)
Fixpoint register_all (jobs : list (Z * Z * F)) : st (timers T) AxError (list Z) :=
  match jobs with
  | [] => mret []
  | (cpu, deadline, handler) :: jobs =>
      token ← register_timer cpu deadline handler;
      tokens ← register_all jobs;
      mret (token :: tokens)
  end.

Lemma register_run cpu deadline handler s :
  initialised cpu s →
  ∃ s', register_timer cpu deadline handler s = (Ok (tm_token s), s') ∧
    tm_token s' = wrap64 (tm_token s + 1) ∧
    pending cpu s' ≡ₚ (tm_token s, deadline) :: pending cpu s ∧
    (∀ c, initialised c s → initialised c s') ∧ (∀ c, c ≠ cpu → pending c s' = pending c s) ∧
    tm_fired s' = tm_fired s.
Proof.
  intros [t Ht]. unfold register_timer. erewrite bind_run by by apply current_list_run.
  erewrite bind_run by done. eexists. split; [done|]. unfold pending, initialised. cbn.
  rewrite lookup_insert_eq, Ht. split_and!; [done| | | |done].
  - rewrite tl_set_events. done.
  - intros c Hc. destruct (decide (c = cpu)) as [->|Hne]; [by rewrite lookup_insert_eq; eexists|].
    by rewrite lookup_insert_ne.
  - intros c Hc. by rewrite lookup_insert_ne.
Qed.

(** The tokens of timers are unique: any sequence of fewer than [2 ^ 64]
    registrations, on any CPUs, returns consecutive tokens, so that no two timers
    have the same. *)
Theorem timer_tokens_unique jobs : ∀ s,
  Forall (λ j, initialised j.1.1 s) jobs → 0 ≤ tm_token s → tm_token s + Z.of_nat (length jobs) < 2 ^ 64 →
  ∃ s', register_all jobs s = (Ok (seqZ (tm_token s) (Z.of_nat (length jobs))), s').
Proof.
  induction jobs as [|[[cpu deadline] handler] jobs IH]; intros s Hi Hpos Hn; [by eexists|].
  apply Forall_cons in Hi as [Hc Hi]. cbn [fst] in Hc.
  destruct (register_run cpu deadline handler s Hc) as (s1 & Hr & Ht & _ & Hk & _).
  rewrite wrap64_id in Ht by (unfold in_usize, usize_max; cbn [length] in Hn; lia).
  destruct (IH s1) as [s2 Hs2].
  - eapply Forall_impl; [exact Hi|]. intros j. apply Hk.
  - lia.
  - rewrite Ht. cbn [length] in Hn. lia.
  - exists s2. cbn [register_all]. erewrite bind_run by exact Hr. erewrite bind_run by exact Hs2.
    cbn [length]. rewrite Ht. rewrite (seqZ_cons (tm_token s)) by lia.
    replace (Z.pred (Z.of_nat (S (length jobs)))) with (Z.of_nat (length jobs)) by lia. done.
Qed.

(** [cancel_timer] cancels on the CPU it runs on: there the timer with the token
    is gone and the others stay; a timer that was registered on another CPU is not
    cancelled, although the token says which timer is meant, and it stays due. *)
Theorem cancel_is_local cpu token s :
  initialised cpu s →
  ∃ s', cancel_timer cpu token s = (Ok (), s') ∧
    (∀ d, (token, d) ∉ pending cpu s') ∧
    (∀ k d, k ≠ token → (k, d) ∈ pending cpu s' ↔ (k, d) ∈ pending cpu s) ∧
    (∀ c, c ≠ cpu → pending c s' = pending c s).
Proof.
  intros [t Ht]. unfold cancel_timer. erewrite bind_run by by apply current_list_run.
  eexists. split; [done|]. unfold pending. cbn. rewrite lookup_insert_eq, Ht.
  assert (Hin : ∀ k d, (k, d) ∈ (λ x, (te_token x.2, x.1)) <$>
      tl_events (tl_cancel (λ event, te_token event =? token) t) ↔
    k ≠ token ∧ (k, d) ∈ (λ x, (te_token x.2, x.1)) <$> tl_events t).
  { intros k d. rewrite tl_cancel_events, !list_elem_of_fmap. split.
    - intros ([d' e] & [= -> ->] & Hx). apply list_elem_of_In, filter_In in Hx as [Hx Hc].
      cbn in Hc. apply negb_true_iff, Z.eqb_neq in Hc. split; [done|]. exists (d', e).
      split; [done|]. by apply list_elem_of_In.
    - intros (Hk & [d' e] & [= -> ->] & Hx). exists (d', e). split; [done|].
      apply list_elem_of_In, filter_In. split; [by apply list_elem_of_In|].
      cbn. by apply negb_true_iff, Z.eqb_neq. }
  split_and!.
  - intros d Hd. by apply Hin in Hd as [? _].
  - intros k d Hk. rewrite Hin. tauto.
  - intros c Hc. by rewrite lookup_insert_ne.
Qed.

Section check_theorems.
Context (wall_time : nat → Z) (callback : F → Z → timers T → timers T).

(** The timers of a CPU that are due by [horizon]. *)
Definition due_by (horizon cpu : Z) (s : timers T) : list (Z * Z) :=
  filter (λ x, x.2 ≤ horizon) (pending cpu s).

(** Handlers that, run at a reading of the clock, register timers only for after [horizon],
    and cancel none. *)
Definition look_ahead (horizon cpu : Z) : Prop := ∀ f r s,
  initialised cpu s →
  let s1 := callback f (wall_time r) s in
  initialised cpu s1 ∧ tm_fired s1 = tm_fired s ∧
  ∃ added, pending cpu s1 ≡ₚ added ++ pending cpu s ∧ Forall (λ x, horizon < x.2) added.

(** What the loop did: [fired] are the tokens, deadlines and times of the callbacks
    that ran, [added] the timers that these registered. *)
Record checked_events (horizon cpu : Z) (round : nat) (s s' : timers T) (fired : list (Z * Z * Z))
    (added : list (Z * Z)) : Prop := {
  ce_fired : tm_fired s' = tm_fired s ++ fired;
  ce_once : fired.*1 ++ pending cpu s' ≡ₚ added ++ pending cpu s;
  ce_added : Forall (λ x, horizon < x.2) added;
  ce_none_added : (∀ f now s, callback f now s = s) → added = [];
  ce_due : Forall (λ x, x.1.2 ≤ x.2) fired;
  ce_near : Forall (λ x, x.1.2 ≤ horizon) fired;
  ce_order : StronglySorted Z.le (fired.*1.*2);
  ce_rest : Forall (λ x, wall_time (round + length fired) < x.2) (pending cpu s');
}.

Lemma due_by_far horizon cpu s s1 l :
  pending cpu s1 ≡ₚ l ++ pending cpu s → Forall (λ x, horizon < x.2) l → due_by horizon cpu s1 ≡ₚ due_by horizon cpu s.
Proof.
  intros Hp Hl. unfold due_by. rewrite Hp, filter_app. clear Hp. induction Hl as [|x l Hx Hl IH]; [done|].
  rewrite filter_cons_False by lia. apply IH.
Qed.

(** A round that takes an event: the state before its handler runs, and that after it. *)
Lemma check_round fuel round cpu s t d e t' :
  tm_lists s !! cpu = Some t → tl_expire_one (wall_time round) t = (Some (d, e), t') →
  ∃ s1, initialised cpu s1 ∧ pending cpu s ≡ₚ (te_token e, d) :: pending cpu s1 ∧ d ≤ wall_time round ∧
    Forall (λ x, d ≤ x.2) (pending cpu s1) ∧ tm_fired s1 = tm_fired s ++ [(te_token e, d, wall_time round)] ∧
    check_loop wall_time callback (S fuel) round cpu s =
      check_loop wall_time callback fuel (S round) cpu (callback (te_callback e) (wall_time round) s1).
Proof.
  intros Ht Hx. destruct (tl_expire_some _ _ _ _ _ Hx) as (Hperm & Hd & Hmin).
  exists (mkTimers (tm_token s) (<[cpu := t']> (tm_lists s)) (tm_fired s ++ [(te_token e, d, wall_time round)])).
  unfold initialised, pending. cbn. rewrite lookup_insert_eq, Ht, Hperm. split_and!; [by eexists|done|done| |done|].
  - by apply Forall_fmap.
  - cbn [check_loop]. erewrite bind_run by by apply current_list_run. rewrite Hx. done.
Qed.

Lemma check_loop_spec horizon cpu fuel : look_ahead horizon cpu → ∀ round s,
  initialised cpu s → (length (due_by horizon cpu s) < fuel)%nat →
  (∀ r, (r ≤ round + length (due_by horizon cpu s))%nat → wall_time r ≤ horizon) →
  ∃ s' fired added, check_loop wall_time callback fuel round cpu s = (Ok true, s') ∧
    checked_events horizon cpu round s s' fired added.
Proof.
  intros Hcb. induction fuel as [|fuel IH]; intros round s [t Ht] Hf Hw; [lia|].
  destruct (tl_expire_one (wall_time round) t) as [[[d e]|] t'] eqn:Hx.
  - destruct (check_round fuel round cpu s t d e t' Ht Hx) as (s1 & Hi & Hp & Hd & Hmin & Hfd & ->).
    destruct (Hcb (te_callback e) round s1 Hi) as (Hi2 & Hf2 & l & Hp2 & Hl).
    set (s2 := callback _ _ s1) in *. assert (Hnow : wall_time round ≤ horizon) by (apply Hw; lia).
    assert (Hlen : length (due_by horizon cpu s) = S (length (due_by horizon cpu s2))).
    { rewrite (due_by_far horizon cpu s1 s2 l) by done. unfold due_by. rewrite Hp, filter_cons_True by (cbn; lia). done. }
    destruct (IH (S round) s2) as (s' & fired & added & Hrun & [H1 H2 H3 H3' H4 H5 H6 H7]); [done|lia| |].
    { intros r Hr. apply Hw. lia. }
    exists s', ((te_token e, d, wall_time round) :: fired), (added ++ l). split; [done|]. split.
    + by rewrite H1, Hf2, Hfd, <- app_assoc.
    + cbn. rewrite H2, Hp, Hp2, <- app_assoc. by rewrite !(Permutation_middle).
    + by apply Forall_app.
    + intros Hleave. rewrite (H3' Hleave). unfold s2 in Hp2. rewrite Hleave in Hp2.
      apply Permutation_length in Hp2. rewrite length_app in Hp2. destruct l; [done|]. cbn in Hp2. lia.
    + by apply Forall_cons.
    + apply Forall_cons. split; [cbn; lia|done].
    + cbn. constructor; [done|]. apply Forall_fmap, Forall_forall. intros x Hin.
      assert (Hin' : x ∈ added ++ l ++ pending cpu s1) by (rewrite <- Hp2, <- H2; set_solver).
      rewrite !elem_of_app in Hin'. rewrite Forall_forall in H3, Hl, Hmin. cbn.
      destruct Hin' as [Hin'|[Hin'|Hin']]; [apply H3 in Hin'|apply Hl in Hin'|by apply Hmin]; lia.
    + cbn [length]. by rewrite Nat.add_succ_r.
  - destruct (tl_expire_none _ _ _ Hx) as [Hev Hrest]. cbn [check_loop].
    erewrite bind_run by by apply current_list_run. rewrite Hx. erewrite bind_run by done.
    exists (set_list cpu t' s), [], []. split; [done|].
    assert (Hp : pending cpu (set_list cpu t' s) = pending cpu s).
    { unfold pending. cbn. by rewrite lookup_insert_eq, Ht, Hev. }
    split; [by rewrite app_nil_r|by rewrite Hp|done|done|done|done|constructor|].
    rewrite Hp, Nat.add_0_r. unfold pending. rewrite Ht. apply Forall_fmap. exact Hrest.
Qed.

(** C27: [check_events] runs exactly the timers that are due.  When the handlers register
    timers only for after a time [horizon] that the clock does not pass during the call,
    and cancel none on this CPU: it ends after one round more than there are timers due
    by then, at most; each timer, old or registered meanwhile, is either run, once, not
    before its deadline and in the order of the deadlines, or it stays in the list, and
    those that stay were not due at the last look at the clock.  When the handlers leave
    the timers alone, these are the old ones only. *)
Theorem check_events_exact horizon fuel cpu s :
  look_ahead horizon cpu → initialised cpu s → (length (due_by horizon cpu s) < fuel)%nat →
  (∀ r, (r ≤ length (due_by horizon cpu s))%nat → wall_time r ≤ horizon) →
  ∃ s' fired added, check_events wall_time callback fuel cpu s = (Ok true, s') ∧
    checked_events horizon cpu 0 s s' fired added.
Proof. intros Hcb Hi Hf Hw. by apply check_loop_spec. Qed.
End check_theorems.

(** A handler that registers its timer again for the present keeps [check_events] in its
    loop for ever: however many rounds it is given, it has not ended. *)
Lemma rearming_never_ends wall_time cpu fuel :
  (∀ r, wall_time r ≤ wall_time (S r)) → ∀ round s k d,
  (k, d) ∈ pending cpu s → d ≤ wall_time round →
  ∃ s', check_loop wall_time (λ f now s, (register_timer cpu now f s).2) fuel round cpu s = (Ok false, s').
Proof.
  intros Hw. induction fuel as [|fuel IH]; intros round s k d Hin Hd; [by eexists|].
  destruct (tm_lists s !! cpu) as [t|] eqn:Ht; [|unfold pending in Hin; rewrite Ht in Hin; set_solver].
  destruct (tl_expire_one (wall_time round) t) as [[[d' e]|] t'] eqn:Hx.
  - destruct (check_round wall_time (λ f now s, (register_timer cpu now f s).2) fuel round cpu s t d' e t' Ht Hx)
      as (s1 & Hi & _ & _ & _ & _ & ->).
    destruct (register_run cpu (wall_time round) (te_callback e) s1 Hi) as (s2 & -> & _ & Hp & _). cbn [snd].
    apply (IH (S round) s2 (tm_token s1) (wall_time round)); [rewrite Hp; set_solver|apply Hw].
  - destruct (tl_expire_none _ _ _ Hx) as [_ Hrest]. exfalso. unfold pending in Hin. rewrite Ht in Hin.
    apply list_elem_of_fmap in Hin as (y & [= -> ->] & Hy). rewrite Forall_forall in Hrest.
    specialize (Hrest y Hy). cbn in *. lia.
Qed.
End timer_theorems.

(** ** A list of timers *)
Module ListTimers.
Section list_timers.
Context {E : Type}.

Fixpoint insert (d : Z) (e : E) (l : list (Z * E)) : list (Z * E) :=
  match l with
  | [] => [(d, e)]
  | x :: l => if d <? x.1 then (d, e) :: x :: l else x :: insert d e l
  end.

Lemma insert_perm d e l : insert d e l ≡ₚ (d, e) :: l.
Proof.
  induction l as [|x l IH]; cbn; [done|]. destruct (d <? x.1); [done|]. rewrite IH. apply Permutation_swap.
Qed.

(** The earliest event first. *)
Definition sorted_list : Type := {l : list (Z * E) | StronglySorted Z.le l.*1}.

Lemma insert_sorted d e l : StronglySorted Z.le l.*1 → StronglySorted Z.le (insert d e l).*1.
Proof.
  induction l as [|x l IH]; cbn; intros Hs; [repeat constructor|].
  apply StronglySorted_inv in Hs as [Hs Hx]. destruct (Z.ltb_spec d x.1); cbn.
  - constructor; [by constructor|]. constructor; [lia|]. eapply Forall_impl; [exact Hx|]. cbn. lia.
  - constructor; [by apply IH|]. rewrite insert_perm. cbn. by constructor.
Qed.

Lemma filter_sorted (c : Z * E → bool) l :
  StronglySorted Z.le l.*1 → StronglySorted Z.le (List.filter c l).*1.
Proof.
  induction l as [|x l IH]; cbn; intros Hs; [done|]. apply StronglySorted_inv in Hs as [Hs Hx].
  destruct (c x); [|by apply IH]. cbn. constructor; [by apply IH|]. rewrite Forall_forall in Hx |- *.
  intros y (z & -> & Hz)%list_elem_of_fmap. apply Hx, list_elem_of_fmap. exists z. split; [done|].
  apply list_elem_of_In, filter_In in Hz as [Hz _]. by apply list_elem_of_In.
Qed.

Definition expire_first (now : Z) (t : sorted_list) : option (Z * E) * sorted_list :=
  match t with
  | exist _ [] _ => (None, t)
  | exist _ (x :: l) Hs =>
      if x.1 <=? now then (Some x, exist _ l (proj1 (StronglySorted_inv Hs))) else (None, t)
  end.

#[export] Instance sorted_timers : TimerList sorted_list E := {|
  tl_new := exist _ [] (SSorted_nil Z.le);
  tl_set d e t := exist _ (insert d e (proj1_sig t)) (insert_sorted d e _ (proj2_sig t));
  tl_cancel c t :=
    exist _ (List.filter (λ x, negb (c x.2)) (proj1_sig t)) (filter_sorted _ _ (proj2_sig t));
  tl_expire_one := expire_first;
|}.

#[export] Program Instance sorted_timers_ok : TimerListOk sorted_list E := {| tl_events t := proj1_sig t |}.
Next Obligation. done. Qed.
Next Obligation. intros d e t. apply insert_perm. Qed.
Next Obligation. done. Qed.
Next Obligation.
  intros now [[|x l] Hs] t'; cbn; [by intros [= <-]|].
  destruct (Z.leb_spec x.1 now) as [|Hlt]; [done|]. intros [= <-]. split; [done|]. cbn in Hs.
  apply StronglySorted_inv in Hs as [_ Hx]. constructor; [done|].
  apply (proj1 (Forall_fmap fst (Z.le x.1) l)) in Hx. eapply Forall_impl; [exact Hx|]. cbn. lia.
Qed.
Next Obligation.
  intros now [[|x l] Hs] d e t'; cbn; [done|]. destruct (Z.leb_spec x.1 now); [|done].
  intros [= -> <-]. cbn in *. split_and!; [done|done|]. apply StronglySorted_inv in Hs as [_ Hx].
  by apply (proj1 (Forall_fmap fst (Z.le d) l)) in Hx.
Qed.
End list_timers.
End ListTimers.

Module TimerExamples.
Import ListTimers.

Definition T : Type := sorted_list (E:=VmmTimerEvent nat).

(** Two CPUs; on the first one a timer for 10 and one for 30. *)
Definition empty : timers T := mkTimers 0 {[0 := tl_new; 1 := tl_new]} [].
Definition start : timers T := (register_all [(0, 30, 7%nat); (0, 10, 8%nat)] empty).2.

Lemma timer_tokens_unique_witness :
  ∃ s', register_all [(0, 30, 7%nat); (0, 10, 8%nat)] empty = (Ok [0; 1], s').
Proof.
  apply (timer_tokens_unique [(0, 30, 7%nat); (0, 10, 8%nat)] empty).
  - apply Forall_cons. split; [by eexists|]. apply Forall_cons. split; [by eexists|by apply Forall_nil].
  - vm_compute. congruence.
  - vm_compute. congruence.
Defined.

Lemma cancel_is_local_witness :
  ∃ s', cancel_timer 1 0 start = (Ok (), s') ∧ (∀ d, (0, d) ∉ pending 1 s') ∧
    pending 0 s' = [(1, 10); (0, 30)].
Proof.
  destruct (cancel_is_local 1 0 start) as (s' & Hc & Hgone & _ & Hother); [by eexists|].
  exists s'. split; [exact Hc|]. split; [exact Hgone|]. rewrite Hother by discriminate. reflexivity.
Defined.

Definition clock (round : nat) : Z := 25 + Z.of_nat round.

(** A handler that registers a timer for 50 after the present. *)
Definition again (f : nat) (now : Z) : timers T → timers T := λ s, (register_timer 0 (now + 50) f s).2.

Lemma check_events_exact_witness :
  ∃ s' fired added, check_events clock again 3 0 start = (Ok true, s') ∧
    checked_events clock again 40 0 0 start s' fired added.
Proof.
  apply (check_events_exact clock again); [|by eexists|vm_compute; lia|].
  - intros f r s Hi. unfold again.
    destruct (register_run 0 (clock r + 50) f s Hi) as (s' & -> & _ & Hp & Hk & _ & Hfd). split_and!; [by apply Hk|done|].
    exists [(tm_token s, clock r + 50)]. split; [done|]. repeat constructor. unfold clock. cbn. lia.
  - intros r Hr. assert (length (due_by 40 0 start) = 2%nat) as E by vm_refl. rewrite E in Hr. unfold clock. lia.
Defined.
End TimerExamples.
