(* ===== verification/Gic.v ===== *)
(** * Virtual interrupts on aarch64 ([kernel/src/hal/arch/aarch64])

    Injecting an interrupt into the running guest through the list registers of the
    interrupt controller ([mod.rs]), the check of the hardware before virtualization
    is enabled, and the registers that the virtual controller reads ([api.rs]).

    The list registers of a GICv3 are the field [gich_lr]; which of them the
    hardware reports as empty is a function of them, a parameter with the documented
    law that an empty register holds no interrupt.  The drivers of the controllers
    (crate [arm_gic_driver]) are a class. *)

From S2P Require Import Prelude.

(** ** List registers *)

Inductive LrState : Type := LrInvalid | LrPending | LrActive | LrPendingActive.

#[global] Instance LrState_eq_dec : EqDecision LrState.
Proof. solve_decision. Defined.

Record ListReg : Type := mkLr {
  lr_vintid : Z;
  lr_state : LrState;
  lr_group : bool;
}.

(** [ICH_VTR_EL2.ListRegs], the list registers, and [ICH_HCR_EL2.En]. *)
Record gich : Type := mkGich {
  gich_listregs : Z;
  gich_lr : Z → ListReg;
  gich_en : bool;
}.

(** [ICH_ELRSR_EL2.Status]: a bit for every list register. *)
Class ElrStatus : Type := elrsr : (Z → ListReg) → Z.

(** A register whose bit is set holds no interrupt. *)
Class ElrStatusOk `{!ElrStatus} : Prop :=
  elrsr_empty : ∀ lr i, Z.testbit (elrsr lr) i = true → lr_state (lr i) = LrInvalid.

Definition matches_any (lr : ListReg) (l : list LrState) : bool := bool_decide (lr_state lr ∈ l).

Definition upd_lr (i : Z) (v : ListReg) (lr : Z → ListReg) : Z → ListReg :=
  λ j, if bool_decide (j = i) then v else lr j.

Section gicv3.
Context `{!ElrStatus}.

(** The first loop, over the registers [i], ..., [i + n - 1]: a register that holds
    the interrupt is passed over like any other. *)
Fixpoint find_free (elsr : Z) (lr : Z → ListReg) (vector : Z) (i : Z) (n : nat) (free_lr : Z) : Z :=
  match n with
  | O => free_lr
  | S n =>
      if bool_decide (Z.land (Z.shiftl 1 i) elsr > 0) then
        find_free elsr lr vector (i + 1) n (if bool_decide (free_lr = -1) then i else free_lr)
      else
        let lr_val := lr i in
        if bool_decide (lr_vintid lr_val = vector) && matches_any lr_val [LrPending; LrActive]
        then find_free elsr lr vector (i + 1) n free_lr
        else find_free elsr lr vector (i + 1) n free_lr
  end.

(** The second loop. *)
Fixpoint find_inactive (lr : Z → ListReg) (i : Z) (n : nat) (free_lr : Z) : Z :=
  match n with
  | O => free_lr
  | S n => if matches_any (lr i) [LrInvalid] then i else find_inactive lr (i + 1) n free_lr
  end.

(** The value that is written: the identifier has 32 bits. *)
Definition pending_lr (vector : Z) : ListReg :=
  mkLr (Z.land vector (2 ^ 32 - 1)) LrPending true.

Definition inject_interrupt_gic_v3 (vector : Z) : st gich () () :=
  g ← get;
  let elsr := elrsr (gich_lr g) in
  let lr_num := Z.to_nat (gich_listregs g + 1) in
  let free_lr := find_free elsr (gich_lr g) vector 0 lr_num (-1) in
  free_lr ← (if bool_decide (free_lr = -1) then
               let free_lr := find_inactive (gich_lr g) 0 lr_num (-1) in
               if bool_decide (free_lr = -1) then panic else mret free_lr
             else mret free_lr);
  modify (λ g, mkGich (gich_listregs g) (upd_lr free_lr (pending_lr vector) (gich_lr g)) (gich_en g));;
  g ← get;
  if negb (gich_en g) then put (mkGich (gich_listregs g) (gich_lr g) true) else mret ().
End gicv3.

(** ** The drivers *)

(** [VirtualInterruptConfig::software(..)] of the driver for version 2. *)
Record VirtualInterrupt : Type := mkVirt {
  virt_id : Z;
  virt_state : LrState;
}.

(** The driver for version 2 over a state [D], and the registers of both versions. *)
Class GicDriver (D : Type) : Type := {
  v2_hypervisor_interface : D → bool;
  v2_enable : D → D;
  v2_set_virtual_interrupt : Z → VirtualInterrupt → D → D;
  v2_virtual_interrupt : D → Z → option VirtualInterrupt;
  typer_raw : D → Z;
  iidr_raw : D → Z;
  gicd_addr : D → Z;
  gicr_addr : D → Z;
}.

(** The interrupt controller that the driver framework has, if any. *)
Inductive intc (D : Type) : Type :=
| GicV2 (d : D)
| GicV3 (d : D) (g : gich)
| OtherIntc.
Arguments GicV2 {D}.
Arguments GicV3 {D}.
Arguments OtherIntc {D}.

Section driver.
Context {D : Type} `{!GicDriver D} `{!ElrStatus}.
Abbreviation M := (st (option (intc D)) ()).

Definition inject_interrupt (irq : Z) : M () := λ s,
  match s with
  | None => (Panic, s)
  | Some (GicV2 d) =>
      if negb (v2_hypervisor_interface d) then (Panic, s) else
      (Ok (), Some (GicV2 (v2_set_virtual_interrupt 0 (mkVirt irq LrPending) (v2_enable d))))
  | Some (GicV3 d g) => let '(r, g') := inject_interrupt_gic_v3 irq g in (r, Some (GicV3 d g'))
  | Some OtherIntc => (Panic, s)
  end.

Definition read_vgicd_typer : M Z := s ← get;
  match s with
  | Some (GicV2 d) | Some (GicV3 d _) => mret (typer_raw d)
  | _ => panic
  end.

Definition read_vgicd_iidr : M Z := s ← get;
  match s with
  | Some (GicV2 d) | Some (GicV3 d _) => mret (iidr_raw d)
  | _ => panic
  end.

Definition get_host_gicd_base (virt_to_phys : Z → Z) : M Z := s ← get;
  match s with
  | Some (GicV2 d) | Some (GicV3 d _) => mret (virt_to_phys (gicd_addr d))
  | _ => panic
  end.

Definition get_host_gicr_base (virt_to_phys : Z → Z) : M Z := s ← get;
  match s with
  | Some (GicV3 d _) => mret (virt_to_phys (gicr_addr d))
  | _ => panic
  end.
End driver.

(** ** The check of the hardware *)

(** [ID_AA64MMFR0_EL1.PARange] *)
Inductive PARange : Type :=
| Bits_32 | Bits_36 | Bits_40 | Bits_42 | Bits_44 | Bits_48 | Bits_52.

Definition pa_bits (r : option PARange) : Z :=
  match r with
  | Some Bits_32 => 32 | Some Bits_36 => 36 | Some Bits_40 => 40 | Some Bits_42 => 42
  | Some Bits_44 => 44 | Some Bits_48 => 48 | Some Bits_52 => 52
  | None => 32
  end.

Definition hardware_check (ept_level_4 : bool) (r : option PARange) : outcome () () :=
  let level := if bool_decide (44 ≤ pa_bits r) then 4 else 3 in
  if ept_level_4 then if bool_decide (level < 4) then Panic else Ok ()
  else if bool_decide (level > 3) then Panic else Ok ().

(** * Theorems *)

(** What the driver for version 2 documents about its list registers. *)
Class GicDriverOk (D : Type) `{!GicDriver D} : Prop := {
  v2_set_same d n x : v2_virtual_interrupt (v2_set_virtual_interrupt n x d) n = Some x;
  v2_set_other d n m x :
    m ≠ n → v2_virtual_interrupt (v2_set_virtual_interrupt n x d) m = v2_virtual_interrupt d m;
  v2_enable_same d n : v2_virtual_interrupt (v2_enable d) n = v2_virtual_interrupt d n;
  v2_enable_interface d : v2_hypervisor_interface (v2_enable d) = v2_hypervisor_interface d;
  v2_set_interface d n x :
    v2_hypervisor_interface (v2_set_virtual_interrupt n x d) = v2_hypervisor_interface d;
}.

Lemma land_bit i e : 0 ≤ i → bool_decide (Z.land (Z.shiftl 1 i) e > 0) = Z.testbit e i.
Proof.
  intros Hi. rewrite Z.shiftl_1_l.
  assert (He : Z.land (2 ^ i) e = if Z.testbit e i then 2 ^ i else 0).
  { apply Z.bits_inj'. intros n Hn. rewrite Z.land_spec, Z.pow2_bits_eqb by done.
    destruct (Z.eqb_spec i n) as [->|Hne]; simpl.
    - destruct (Z.testbit e n) eqn:E; [by rewrite Z.pow2_bits_true|by rewrite Z.bits_0].
    - destruct (Z.testbit e i); [by rewrite Z.pow2_bits_false|by rewrite Z.bits_0]. }
  rewrite He. pose proof (Z.pow_pos_nonneg 2 i ltac:(lia) Hi).
  destruct (Z.testbit e i); [apply bool_decide_true|apply bool_decide_false]; lia.
Qed.

(** The first loop ignores the interrupt: it keeps the first register whose bit is set. *)
Lemma find_free_found elsr lr v i n k : k ≠ -1 → find_free elsr lr v i n k = k.
Proof.
  intros Hk. revert i. induction n as [|n IH]; intros i; simpl; [done|].
  rewrite (bool_decide_false (k = -1)) by done.
  destruct (bool_decide _); [done|]. by destruct (_ && _).
Qed.

Lemma find_free_spec elsr lr v i n :
  0 ≤ i →
  let k := find_free elsr lr v i n (-1) in
  (k = -1 ∧ ∀ j, i ≤ j < i + Z.of_nat n → Z.testbit elsr j = false) ∨
  (i ≤ k < i + Z.of_nat n ∧ Z.testbit elsr k = true).
Proof.
  revert i. induction n as [|n IH]; intros i Hi; simpl; [left; split; [done|lia]|].
  rewrite land_bit by done. destruct (Z.testbit elsr i) eqn:E.
  - right. rewrite find_free_found by lia. split; [lia|done].
  - replace (if _ && _ then _ else _) with (find_free elsr lr v (i + 1) n (-1)) by by destruct (_ && _).
    destruct (IH (i + 1) ltac:(lia)) as [[-> Hno]|[Hk Hb]]; [left|right; split; [lia|done]].
    split; [done|]. intros j Hj. destruct (decide (j = i)) as [->|]; [done|]. apply Hno. lia.
Qed.

Lemma find_inactive_spec lr i n :
  let k := find_inactive lr i n (-1) in
  (k = -1 ∧ ∀ j, i ≤ j < i + Z.of_nat n → lr_state (lr j) ≠ LrInvalid) ∨
  (i ≤ k < i + Z.of_nat n ∧ lr_state (lr k) = LrInvalid).
Proof.
  revert i. induction n as [|n IH]; intros i; simpl; [left; split; [done|lia]|].
  unfold matches_any. case_bool_decide as E.
  - right. rewrite list_elem_of_singleton in E. split; [lia|done].
  - destruct (IH (i + 1)) as [[-> Hno]|[Hk Hb]]; [left|right; split; [lia|done]].
    split; [done|]. intros j Hj. destruct (decide (j = i)) as [->|]; [|apply Hno; lia].
    intros Hs. apply E. rewrite Hs. by left.
Qed.

Section theorems.
Context `{!ElrStatus} `{!ElrStatusOk}.

(** The registers below [gich_listregs g + 1] that hold no interrupt. *)
Definition free_register (g : gich) (i : Z) : Prop :=
  0 ≤ i ≤ gich_listregs g ∧ lr_state (gich_lr g i) = LrInvalid.

Lemma inject_spec g v :
  0 ≤ gich_listregs g →
  (∃ k, free_register g k ∧
     inject_interrupt_gic_v3 v g =
     (Ok (), mkGich (gich_listregs g) (upd_lr k (pending_lr v) (gich_lr g)) true)) ∨
  ((∀ k, ¬ free_register g k) ∧ inject_interrupt_gic_v3 v g = (Panic, g)).
Proof.
  intros Hn. set (n := Z.to_nat (gich_listregs g + 1)).
  assert (Hlr : Z.of_nat n = gich_listregs g + 1) by lia.
  set (free := find_free (elrsr (gich_lr g)) (gich_lr g) v 0 n (-1)).
  set (inactive := find_inactive (gich_lr g) 0 n (-1)).
  assert (inject_interrupt_gic_v3 v g =
    if bool_decide (free = -1) && bool_decide (inactive = -1) then (Panic, g)
    else (Ok (), mkGich (gich_listregs g)
      (upd_lr (if bool_decide (free = -1) then inactive else free) (pending_lr v) (gich_lr g)) true)) as ->.
  { unfold inject_interrupt_gic_v3, mbind, st_bind, get. fold n free inactive.
    destruct (bool_decide (free = -1)); [destruct (bool_decide (inactive = -1))|]; [done|..];
      unfold modify, put, mret, st_ret; cbn; by destruct (gich_en g). }
  pose proof (find_free_spec (elrsr (gich_lr g)) (gich_lr g) v 0 n ltac:(lia)) as Hfree.
  pose proof (find_inactive_spec (gich_lr g) 0 n) as Hinactive.
  cbv zeta in Hfree, Hinactive. fold free in Hfree. fold inactive in Hinactive.
  destruct Hfree as [[Hf Hno]|[Hk Hb]].
  - rewrite bool_decide_true by done.
    destruct Hinactive as [[Hi Hno']|[Hk Hs]]; [right|left].
    + rewrite bool_decide_true by done. split; [|done]. intros k [Hk Hs]. apply (Hno' k); [lia|done].
    + rewrite bool_decide_false by lia. eexists. split; [|done]. split; [lia|done].
  - rewrite bool_decide_false by lia. left. eexists. split; [|done].
    split; [lia|]. by apply elrsr_empty.
Qed.

(** C22: Injecting an interrupt on a GICv3 writes it, pending, to a list register that
    holds no interrupt and leaves all other registers as they are, so that no
    pending or active interrupt is lost; it panics, without a change, only when
    every list register is taken.  Afterwards the virtual interface is enabled. *)
Theorem injection_takes_free_register g v :
  0 ≤ gich_listregs g →
  (∃ k, free_register g k ∧ ∃ g',
     inject_interrupt_gic_v3 v g = (Ok (), g') ∧ gich_en g' = true ∧
     gich_listregs g' = gich_listregs g ∧ gich_lr g' k = pending_lr v ∧
     ∀ j, j ≠ k → gich_lr g' j = gich_lr g j) ∨
  ((∀ k, ¬ free_register g k) ∧ inject_interrupt_gic_v3 v g = (Panic, g)).
Proof.
  intros Hn. destruct (inject_spec g v Hn) as [(k & Hk & ->)|?]; [left|by right].
  exists k. split; [done|]. eexists. split_and!; [done..| |]; simpl; unfold upd_lr.
  - by rewrite bool_decide_true.
  - intros j Hj. by rewrite bool_decide_false.
Qed.

(** An interrupt that is already pending or active is injected a second time: when
    a list register is free, two registers hold it afterwards.  The loop that looks
    for it is meant to skip the injection and only goes on to the next register. *)
Theorem injection_duplicates g v j :
  0 ≤ gich_listregs g → 0 ≤ v < 2 ^ 32 →
  lr_vintid (gich_lr g j) = v → lr_state (gich_lr g j) ∈ [LrPending; LrActive] →
  (∃ i, free_register g i) →
  ∃ k g', k ≠ j ∧ inject_interrupt_gic_v3 v g = (Ok (), g') ∧ gich_lr g' j = gich_lr g j ∧
    lr_vintid (gich_lr g' k) = v ∧ lr_state (gich_lr g' k) = LrPending.
Proof.
  intros Hn Hv Hj Hst [i Hi].
  destruct (inject_spec g v Hn) as [(k & Hk & ->)|[Hno _]]; [|by destruct (Hno i)].
  assert (Hne : k ≠ j).
  { intros ->. destruct Hk as [_ Hk]. rewrite Hk in Hst. by rewrite !elem_of_cons, elem_of_nil in Hst; naive_solver. }
  exists k. eexists. split_and!; [done|done|..]; simpl; unfold upd_lr.
  - by rewrite bool_decide_false.
  - rewrite bool_decide_true by done. simpl. change (2 ^ 32 - 1) with (Z.ones 32).
    rewrite Z.land_ones by lia. by apply Z.mod_small.
  - by rewrite bool_decide_true.
Qed.
End theorems.

(** On a GICv2 every interrupt goes to list register 0: injecting a second one
    before the guest has taken the first replaces it, and no register holds the
    first any more that did not hold it before. *)
Theorem gicv2_injection_overwrites {D} `{!GicDriver D} `{!GicDriverOk D} `{!ElrStatus} (d : D) a b :
  v2_hypervisor_interface d = true → a ≠ b →
  ∃ d', (inject_interrupt a;; inject_interrupt b) (Some (GicV2 d)) = (Ok (), Some (GicV2 d')) ∧
    v2_virtual_interrupt d' 0 = Some (mkVirt b LrPending) ∧
    ∀ n x, v2_virtual_interrupt d' n = Some x → virt_id x = a →
      v2_virtual_interrupt d n = Some x.
Proof.
  intros Hd Hab. unfold mbind, st_bind, inject_interrupt. rewrite Hd. simpl.
  rewrite v2_set_interface, v2_enable_interface, Hd. simpl. eexists. split_and!; [done|apply v2_set_same|].
  intros n x Hx Ha. destruct (decide (n = 0)) as [->|Hn].
  - rewrite v2_set_same in Hx. injection Hx as <-. done.
  - by rewrite v2_set_other, v2_enable_same, v2_set_other, v2_enable_same in Hx.
Qed.

(** The check passes exactly when the build and the hardware agree. *)
Lemma hardware_check_exact ept_level_4 r :
  hardware_check ept_level_4 r = Ok () ↔ ept_level_4 = bool_decide (44 ≤ pa_bits r).
Proof. by destruct ept_level_4, r as [[]|]. Qed.

(** ** Examples *)
Module GicExamples.

#[local] Instance sixteen : ElrStatus := λ lr,
  fold_left (λ acc i, if bool_decide (lr_state (lr i) = LrInvalid) then Z.lor acc (2 ^ i) else acc)
    (seqZ 0 16) 0.

Lemma fold_bits (p : Z → bool) l acc j :
  (∀ i, i ∈ l → 0 ≤ i) →
  Z.testbit (fold_left (λ acc i, if p i then Z.lor acc (2 ^ i) else acc) l acc) j = true →
  Z.testbit acc j = true ∨ p j = true.
Proof.
  revert acc. induction l as [|i l IH]; intros acc Hl Hj; simpl in *; [by left|].
  destruct (IH _ ltac:(intros; apply Hl; by right) Hj) as [H|]; [|by right].
  destruct (p i) eqn:Hp; [|by left]. rewrite Z.lor_spec, orb_true_iff in H.
  destruct H as [H|H]; [by left|right].
  rewrite Z.pow2_bits_eqb in H by (apply Hl; by left). apply Z.eqb_eq in H as ->. done.
Qed.

#[local] Instance sixteen_ok : ElrStatusOk.
Proof.
  intros lr i Hi. apply (fold_bits (λ i, bool_decide (lr_state (lr i) = LrInvalid))) in Hi as [Hi|Hi].
  - by rewrite Z.bits_0 in Hi.
  - by apply bool_decide_eq_true in Hi.
  - intros k Hk. apply elem_of_seqZ in Hk. lia.
Qed.

(** Four registers; the first holds interrupt 27. *)
Definition four : gich :=
  mkGich 3 (λ i, if bool_decide (i = 0) then mkLr 27 LrPending true else mkLr 0 LrInvalid false) false.

Lemma injection_takes_free_register_witness :
  0 ≤ gich_listregs four ∧
  ((∃ k, free_register four k ∧ ∃ g',
     inject_interrupt_gic_v3 33 four = (Ok (), g') ∧ gich_en g' = true ∧
     gich_listregs g' = gich_listregs four ∧ gich_lr g' k = pending_lr 33 ∧
     ∀ j, j ≠ k → gich_lr g' j = gich_lr four j) ∨
   ((∀ k, ¬ free_register four k) ∧ inject_interrupt_gic_v3 33 four = (Panic, four))).
Proof. split; [done|]. apply (injection_takes_free_register four 33). done. Defined.

Lemma injection_duplicates_witness :
  ∃ k g', k ≠ 0 ∧ inject_interrupt_gic_v3 27 four = (Ok (), g') ∧ gich_lr g' 0 = gich_lr four 0 ∧
    lr_vintid (gich_lr g' k) = 27 ∧ lr_state (gich_lr g' k) = LrPending.
Proof.
  apply (injection_duplicates four 27 0); [done|done|done|by left|].
  exists 1. split; [simpl; lia|done].
Defined.

(** A driver whose state is its list registers. *)
#[local] Instance lrs_driver : GicDriver (gmap Z VirtualInterrupt) := {|
  v2_hypervisor_interface _ := true;
  v2_enable d := d;
  v2_set_virtual_interrupt n x d := <[n := x]> d;
  v2_virtual_interrupt d n := d !! n;
  typer_raw _ := 0; iidr_raw _ := 0; gicd_addr _ := 0x8000000; gicr_addr _ := 0x80a0000;
|}.

#[local] Instance lrs_driver_ok : GicDriverOk (gmap Z VirtualInterrupt).
Proof.
  split; intros; simpl; [by rewrite lookup_insert_eq|by rewrite lookup_insert_ne|done..].
Qed.

Lemma gicv2_injection_overwrites_witness :
  ∃ d', (inject_interrupt 27;; inject_interrupt 33) (Some (GicV2 (D := gmap Z VirtualInterrupt) ∅)) =
      (Ok (), Some (GicV2 d')) ∧
    v2_virtual_interrupt d' 0 = Some (mkVirt 33 LrPending) ∧
    ∀ n x, v2_virtual_interrupt d' n = Some x → virt_id x = 27 →
      v2_virtual_interrupt (D := gmap Z VirtualInterrupt) ∅ n = Some x.
Proof. apply (gicv2_injection_overwrites (D := gmap Z VirtualInterrupt) ∅ 27 33); done. Defined.
End GicExamples.
