(* ===== verification/Boot.v ===== *)
(** * Bringing up the processors ([modules/axruntime/src], [kernel/src/hal/mod.rs])

    The primary processor starts the others one by one and waits for each of them
    ([mp.rs]); all meet at a barrier before the program runs ([lib.rs]); then
    virtualization is enabled on every core by a task pinned to it ([hal/mod.rs]).
    Processors are interleaved by a step relation whose steps are the atomic
    operations on the shared counters.  Also here: the number of processors, the
    memory given to the allocator, and the periodic timer. *)

From S2P Require Import Prelude RustStr.

(** ** The number of processors *)

(** [smp]: the variable [AXVISOR_SMP] of the build. *)
Definition smp (axvisor_smp : option string) : option Z := s ← axvisor_smp; parse_usize s.

(** [platform] is the number the platform reports. *)
Definition cpu_count `{!TargetArch} (platform : Z) (axvisor_smp : option string) : Z :=
  let cpu_count := match target_arch with X86_64 | AArch64 => platform | _ => 1 end in
  match smp axvisor_smp with
  | Some n => n `min` cpu_count
  | None => cpu_count
  end.

(** ** Starting the secondary processors *)

Definition MAX_CPU_NUM : Z := 8.

(** Where the primary processor is: in the loop of [start_secondary_cpus] at CPU [i],
    waiting for the CPU it has started, before the increment of [INITED_CPUS], at the
    barrier, in [main]; or it has panicked. *)
Inductive primary_pc : Type :=
| PLoop (i logic_cpu_id : Z)
| PWait (i logic_cpu_id : Z)
| PInit
| PBarrier
| PMain
| PPanic.

(** A secondary processor in [rust_main_secondary]: before the increment of
    [ENTERED_CPUS], before that of [INITED_CPUS], at the barrier, and idle. *)
Inductive secondary_pc : Type := SBooted | SEntered | SBarrier | SIdle.

#[global] Instance secondary_pc_eq_dec : EqDecision secondary_pc.
Proof. solve_decision. Defined.
#[global] Instance primary_pc_eq_dec : EqDecision primary_pc.
Proof. solve_decision. Defined.

(** A started processor with the number of the boot stack it was given. *)
Record secondary : Type := mkSec { sec_cpu : Z; sec_stack : Z; sec_pc : secondary_pc }.

Record machine : Type := mkMachine {
  entered_cpus : Z;
  inited_cpus : Z;
  primary : primary_pc;
  secondaries : list secondary;
}.

Definition boot_start : machine := mkMachine 1 0 (PLoop 0 0) [].

Definition goto (p : primary_pc) (m : machine) : machine :=
  mkMachine (entered_cpus m) (inited_cpus m) p (secondaries m).

Section boot.
(** The number of processors, and the one that runs [rust_main]. *)
Context (count primary_id : Z).

(** Indexing [SECONDARY_BOOT_STACK], which has [MAX_CPU_NUM - 1] stacks, panics out of
    range. *)
Definition start_secondary_cpu (i logic : Z) (m : machine) : machine :=
  if bool_decide (logic < MAX_CPU_NUM - 1) then
    mkMachine (entered_cpus m) (inited_cpus m) (PWait i (logic + 1))
      (secondaries m ++ [mkSec i logic SBooted])
  else goto PPanic m.

(** One step of the primary processor; a spin loop that does not end stays put. *)
Definition primary_step (m : machine) : machine :=
  match primary m with
  | PLoop i logic =>
      if bool_decide (i < count) then
        if bool_decide (i ≠ primary_id) && bool_decide (logic < count - 1)
        then start_secondary_cpu i logic m
        else goto (PLoop (i + 1) logic) m
      else goto PInit m
  | PWait i logic =>
      if bool_decide (entered_cpus m ≤ logic) then m else goto (PLoop (i + 1) logic) m
  | PInit => mkMachine (entered_cpus m) (inited_cpus m + 1) PBarrier (secondaries m)
  | PBarrier => if bool_decide (inited_cpus m = count) then goto PMain m else m
  | PMain | PPanic => m
  end.

Definition set_sec_pc (k : nat) (pc : secondary_pc) (m : machine) : list secondary :=
  alter (λ x, mkSec (sec_cpu x) (sec_stack x) pc) k (secondaries m).

(** One step of the [k]-th processor that was started. *)
Definition secondary_step (k : nat) (m : machine) : machine :=
  match sec_pc <$> secondaries m !! k with
  | Some SBooted =>
      mkMachine (entered_cpus m + 1) (inited_cpus m) (primary m) (set_sec_pc k SEntered m)
  | Some SEntered =>
      mkMachine (entered_cpus m) (inited_cpus m + 1) (primary m) (set_sec_pc k SBarrier m)
  | Some SBarrier =>
      if bool_decide (inited_cpus m = count)
      then mkMachine (entered_cpus m) (inited_cpus m) (primary m) (set_sec_pc k SIdle m) else m
  | Some SIdle | None => m
  end.

(** The processors in any order; only steps that change something count. *)
Inductive boot_step : relation machine :=
| primary_moves m : primary_step m ≠ m → boot_step m (primary_step m)
| secondary_moves k m : secondary_step k m ≠ m → boot_step m (secondary_step k m).
End boot.

(** ** Enabling virtualization on all cores *)

(** A task of [enable_virtualization]: not yet run, done, or it panicked because
    pinning it, or setting up or enabling the core, failed. *)
Inductive core_task : Type := NotRun | Enabled | CoreFailed.

#[global] Instance core_task_eq_dec : EqDecision core_task.
Proof. solve_decision. Defined.

Record virt_state : Type := mkVirt {
  cores_enabled : Z;
  core_tasks : list core_task;
  virt_returned : bool;
}.

Definition enable_start (cpu_count : nat) : virt_state := mkVirt 0 (replicate cpu_count NotRun) false.

Section virtualization.
(** Whether affinity, [percpu.init] and [percpu.hardware_enable] succeed on a core. *)
Context (enable_core : nat → bool) (cpu_count : nat).

Definition core_step (k : nat) (s : virt_state) : virt_state :=
  match core_tasks s !! k with
  | Some NotRun =>
      if enable_core k then mkVirt (cores_enabled s + 1) (<[k := Enabled]> (core_tasks s)) (virt_returned s)
      else mkVirt (cores_enabled s) (<[k := CoreFailed]> (core_tasks s)) (virt_returned s)
  | _ => s
  end.

(** [while CORES.load(..) != cpu_count { yield_now() }] *)
Definition waiter_step (s : virt_state) : virt_state :=
  if bool_decide (cores_enabled s = Z.of_nat cpu_count)
  then mkVirt (cores_enabled s) (core_tasks s) true else s.

Inductive virt_step : relation virt_state :=
| core_runs k s : virt_step s (core_step k s)
| waiter_runs s : virt_step s (waiter_step s).
End virtualization.

(** ** The memory of the allocator *)

Record MemRegion : Type := mkRegion {
  r_paddr : Z;
  r_size : Z;
  r_name : string;
  r_free : bool;
}.

(** What is called: [axalloc::global_init] and [axalloc::global_add_memory]. *)
Inductive alloc_call : Type :=
| GlobalInit (vaddr size : Z)
| GlobalAdd (vaddr size : Z).

(** The first loop, from the state [max_region_size], [max_region_paddr],
    [use_next_free] to the chosen address. *)
Fixpoint choose_region (l : list MemRegion) (max_size max_paddr : Z) (use_next_free : bool) : Z :=
  match l with
  | [] => max_paddr
  | r :: l =>
      if bool_decide (r_name r = ".bss") then choose_region l max_size max_paddr true
      else if r_free r then
        if use_next_free then r_paddr r
        else if bool_decide (r_size r > max_size) then choose_region l (r_size r) (r_paddr r) use_next_free
        else choose_region l max_size max_paddr use_next_free
      else choose_region l max_size max_paddr use_next_free
  end.

Section allocator.
Context (phys_to_virt : Z → Z).

(** The second loop stops at the first match; the third goes over all regions. *)
Definition init_calls (l : list MemRegion) (max_paddr : Z) : list alloc_call :=
  match List.find (λ r, r_free r && bool_decide (r_paddr r = max_paddr)) l with
  | Some r => [GlobalInit (phys_to_virt (r_paddr r)) (r_size r)]
  | None => []
  end.

Definition add_calls (l : list MemRegion) (max_paddr : Z) : list alloc_call :=
  omap (λ r, if r_free r && bool_decide (r_paddr r ≠ max_paddr)
             then Some (GlobalAdd (phys_to_virt (r_paddr r)) (r_size r)) else None) l.

(** The calls that are made when none of them fails. *)
Definition init_allocator (l : list MemRegion) : list alloc_call :=
  let max_region_paddr := choose_region l 0 0 false in
  init_calls l max_region_paddr ++ add_calls l max_region_paddr.
End allocator.

(** ** The periodic timer *)

(** [update_timer] at time [now_ns] with the deadline stored before: the deadline that
    is programmed and the one that is stored. *)
Definition update_timer `{!OverflowChecks} (interval now_ns deadline : Z) : outcome () (Z * Z) :=
  deadline ← (if bool_decide (deadline ≤ now_ns) then usize_add now_ns interval else Ok deadline);
  next ← usize_add deadline interval;
  Ok (deadline, next).

(** * Theorems on booting *)

Definition has_entered (x : secondary) : bool := negb (bool_decide (sec_pc x = SBooted)).
Definition has_inited (x : secondary) : bool := bool_decide (sec_pc x ∈ [SBarrier; SIdle]).

Definition primary_inited (p : primary_pc) : bool :=
  match p with PBarrier | PMain => true | _ => false end.

Definition count_if {A} (f : A → bool) (l : list A) : Z :=
  Z.of_nat (length (filter (λ x, f x = true) l)).

Definition b2z (b : bool) : Z := if b then 1 else 0.

Lemma count_if_cons {A} (f : A → bool) x l : count_if f (x :: l) = b2z (f x) + count_if f l.
Proof. unfold count_if. rewrite filter_cons. destruct (f x); simpl; lia. Qed.

Lemma count_if_app {A} (f : A → bool) l k : count_if f (l ++ k) = count_if f l + count_if f k.
Proof. unfold count_if. rewrite filter_app, length_app. lia. Qed.

Lemma count_if_bound {A} (f : A → bool) l : 0 ≤ count_if f l ≤ Z.of_nat (length l).
Proof. unfold count_if. pose proof (length_filter (λ x, f x = true) l). lia. Qed.

Lemma count_if_alter {A} (f : A → bool) g l k x :
  l !! k = Some x → count_if f (alter g k l) = count_if f l - b2z (f x) + b2z (f (g x)).
Proof.
  revert k. induction l as [|a l IH]; intros [|k] Hk; simpl in Hk; [done..| |].
  - injection Hk as ->. change (alter g 0%nat (x :: l)) with (g x :: l). rewrite !count_if_cons. lia.
  - change (alter g (S k) (a :: l)) with (a :: alter g k l). rewrite !count_if_cons, (IH k Hk). lia.
Qed.

(** When all are counted, each of them counts. *)
Lemma count_if_all {A} (f : A → bool) l : count_if f l = Z.of_nat (length l) → Forall (λ x, f x = true) l.
Proof.
  induction l as [|x l IH]; intros Hc; [constructor|]. rewrite count_if_cons in Hc. simpl in Hc.
  pose proof (count_if_bound f l). destruct (f x) eqn:Hf; simpl in Hc; [|lia].
  constructor; [done|]. apply IH. lia.
Qed.

#[local] Arguments count_if : simpl never.
#[local] Arguments Z.add : simpl never.

Section boot_theorems.
Context (count primary_id : Z).
Abbreviation step := (boot_step count primary_id).

(** How many of the processors below [i] the primary has to start. *)
Definition to_start (i : Z) : Z :=
  (if bool_decide (0 ≤ primary_id < i) then i - 1 else i) `min` (count - 1).

(** What the loop has done when it is at processor [i]. *)
Record started (i : Z) (m : machine) : Prop := mkStarted {
  st_cpus : NoDup (sec_cpu <$> secondaries m);
  st_range : ∀ x, x ∈ secondaries m → 0 ≤ sec_cpu x < i ∧ sec_cpu x ≠ primary_id;
  st_stacks : sec_stack <$> secondaries m = seqZ 0 (Z.of_nat (length (secondaries m)));
  st_limit : Z.of_nat (length (secondaries m)) ≤ MAX_CPU_NUM - 1;
}.

(** The number of started processors, by the place of the primary. *)
Definition at_pc (m : machine) : Prop :=
  let k := Z.of_nat (length (secondaries m)) in
  match primary m with
  | PLoop i logic =>
      0 ≤ i ≤ count ∧ logic = k ∧ started i m ∧ k = 0 `max` to_start i ∧ entered_cpus m = 1 + k
  | PWait i logic =>
      0 ≤ i < count ∧ i ≠ primary_id ∧ logic = k ∧ started (i + 1) m ∧ k = to_start i + 1 ∧
      k ≤ count - 1
  | PPanic => started count m ∧ MAX_CPU_NUM < count
  | _ => started count m ∧ k = 0 `max` (count - 1)
  end.

Definition passed (m : machine) : Prop :=
  primary m = PMain ∨ ∃ x, x ∈ secondaries m ∧ sec_pc x = SIdle.

Record boot_inv (m : machine) : Prop := mkBootInv {
  bi_entered : entered_cpus m = 1 + count_if has_entered (secondaries m);
  bi_inited : inited_cpus m = count_if has_inited (secondaries m) +
    b2z (primary_inited (primary m));
  bi_passed : passed m → inited_cpus m = count;
  bi_pc : at_pc m;
}.

Lemma started_mono i j m : started i m → i ≤ j → started j m.
Proof.
  intros [Hn Hr Hs Hl] Hij. split; [done| |done..]. intros x Hx. destruct (Hr x Hx). split; [lia|done].
Qed.

Lemma boot_inv_start : 0 ≤ count → boot_inv boot_start.
Proof.
  intros Hc. split; [done|done| |].
  - intros [?|(x & Hx & _)]; [done|]. by apply elem_of_nil in Hx.
  - unfold at_pc. simpl. split_and!; [lia|lia|done| | |done].
    + split; simpl; [constructor| |done|done]. intros x Hx. by apply elem_of_nil in Hx.
    + unfold to_start. case_bool_decide; lia.
Qed.

Lemma to_start_succ i :
  0 ≤ i → to_start (i + 1) = if bool_decide (i = primary_id) then to_start i
                           else (to_start i + 1) `min` (count - 1).
Proof. intros Hi. unfold to_start. repeat case_bool_decide; lia. Qed.

Lemma to_start_bounds i : 0 ≤ i → 1 ≤ count → 0 ≤ to_start i ≤ count - 1.
Proof. intros Hi Hc. unfold to_start. case_bool_decide; lia. Qed.

(** Moving the primary processor keeps the counters; the rest is its place. *)
Lemma inv_goto m p :
  boot_inv m → p ≠ PMain →
  primary_inited (primary m) = primary_inited p →
  primary m ≠ PMain → at_pc (goto p m) → boot_inv (goto p m).
Proof.
  intros [He Hi Hp _] Hpm Hb Hm Hat. split; simpl; [done|by rewrite <- Hb| |done].
  intros [?|Hx]; [done|]. apply Hp. by right.
Qed.

Lemma started_goto i p m : started i m ↔ started i (goto p m).
Proof. by split; intros [????]; split. Qed.

Lemma inv_start_secondary i m :
  boot_inv m → primary m = PLoop i (Z.of_nat (length (secondaries m))) → i < count →
  i ≠ primary_id → Z.of_nat (length (secondaries m)) < count - 1 →
  boot_inv (start_secondary_cpu i (Z.of_nat (length (secondaries m))) m).
Proof.
  intros Hinv Hpc Hi Hne Hlog. pose proof Hinv as [He Hin Hp Hat]. unfold at_pc in Hat.
  rewrite Hpc in Hat. destruct Hat as (Hi0 & _ & Hst & Hk & Hent).
  pose proof (to_start_bounds i ltac:(lia) ltac:(lia)) as Hts. unfold start_secondary_cpu.
  destruct (decide (Z.of_nat (length (secondaries m)) < MAX_CPU_NUM - 1)) as [Hmax|Hmax];
    [rewrite bool_decide_true by done|rewrite bool_decide_false by done].
  - split; simpl.
    + rewrite count_if_app, He. change (count_if has_entered [mkSec _ _ SBooted]) with 0. lia.
    + rewrite count_if_app, Hin, Hpc. change (count_if has_inited [mkSec _ _ SBooted]) with 0. simpl. lia.
    + intros [?|(x & Hx & Hidle)]; [done|]. apply Hp. right. apply elem_of_app in Hx as [Hx|Hx]; [by exists x|].
      apply list_elem_of_singleton in Hx as ->. done.
    + unfold at_pc. simpl. rewrite length_app. simpl. destruct Hst as [Hn Hr Hs Hl].
      split_and!; [lia|lia|done|lia| |lia|lia]. split; simpl.
      * rewrite fmap_app. apply NoDup_app. split_and!; [done| |apply NoDup_singleton].
        intros c Hc Hc'. apply list_elem_of_singleton in Hc' as ->. simpl in Hc.
        apply list_elem_of_fmap in Hc as (x & Hx & Hx'). destruct (Hr x Hx'). simpl in *. lia.
      * intros x Hx. apply elem_of_app in Hx as [Hx|Hx]; [destruct (Hr x Hx); split; [lia|done]|].
        apply list_elem_of_singleton in Hx as ->. simpl. split; [lia|done].
      * rewrite fmap_app, Hs, length_app. simpl. rewrite Nat2Z.inj_add, seqZ_app by lia. done.
      * rewrite length_app. simpl. lia.
  - apply inv_goto; [done|done|by rewrite Hpc|by rewrite Hpc|]. unfold at_pc. simpl.
    split; [by apply started_goto, started_mono with i; [|lia]|]. unfold MAX_CPU_NUM in *. lia.
Qed.

Lemma inv_primary m : boot_inv m → boot_inv (primary_step count primary_id m).
Proof.
  intros Hinv. pose proof Hinv as [He Hin Hp Hat]. unfold primary_step, at_pc in *.
  destruct (primary m) as [i logic|i logic| | | |] eqn:Hpc; [| | | |done..].
  - destruct Hat as (Hi & -> & Hst & Hk & Hent).
    case_bool_decide as Hic.
    + pose proof (to_start_bounds i ltac:(lia) ltac:(lia)) as Hts.
      case_bool_decide as Hip; simpl; [case_bool_decide as Hlog|].
      * by apply inv_start_secondary.
      * apply inv_goto; [done|done|by rewrite Hpc..|]. unfold at_pc. simpl.
        rewrite (to_start_succ i), bool_decide_false by (done || lia).
        split_and!; [lia..|by apply started_goto, started_mono with i; [|lia]|lia|lia].
      * apply inv_goto; [done|done|by rewrite Hpc..|]. unfold at_pc. simpl.
        rewrite (to_start_succ i), bool_decide_true by
          (destruct (decide (i = primary_id)); (done || lia || tauto)).
        split_and!; [lia..|by apply started_goto, started_mono with i; [|lia]|lia|lia].
    + assert (i = count) as -> by lia. apply inv_goto; [done|done|by rewrite Hpc..|]. unfold at_pc. simpl.
      split; [by apply started_goto|]. rewrite Hk. unfold to_start. case_bool_decide; lia.
  - destruct Hat as (Hi & Hne & -> & Hst & Hk & Hc). case_bool_decide as Hw; [done|].
    pose proof (count_if_bound has_entered (secondaries m)).
    apply inv_goto; [done|done|by rewrite Hpc..|]. unfold at_pc. simpl.
    rewrite (to_start_succ i), bool_decide_false by (done || lia).
    pose proof (to_start_bounds i ltac:(lia) ltac:(lia)).
    split_and!; [lia..|by apply started_goto|lia|lia].
  - split; simpl; [done|rewrite Hin; simpl; lia| |].
    + intros [?|Hx]; [done|]. exfalso. pose proof (count_if_bound has_inited (secondaries m)).
      rewrite Hp in Hin by by right. simpl in Hin. destruct Hat as [_ Hk].
      destruct Hx as (x & Hx & _). apply list_elem_of_In in Hx. destruct (secondaries m); [done|]. simpl in *. lia.
    + unfold at_pc. simpl. by destruct Hat as [[????] ?]; split.
  - case_bool_decide as Hc; [|done]. split; simpl; [done|done|by intros|].
    unfold at_pc. simpl. by destruct Hat as [[????] ?]; split.
Qed.

(** A step of a secondary processor changes its place only. *)
Lemma started_alter i e n p k pc m :
  started i m → started i (mkMachine e n p (set_sec_pc k pc m)).
Proof.
  intros [Hn Hr Hs Hl]. unfold set_sec_pc.
  assert (Hf : ∀ {A} (f : secondary → A), (∀ x, f (mkSec (sec_cpu x) (sec_stack x) pc) = f x) →
    f <$> alter (λ x, mkSec (sec_cpu x) (sec_stack x) pc) k (secondaries m) = f <$> secondaries m).
  { intros A f Hf. apply list_eq. intros j. rewrite !list_lookup_fmap, list_lookup_alter.
    destruct (decide (k = j)) as [->|]; [|by rewrite ?list_lookup_alter_ne].
    destruct (secondaries m !! j); simpl; [by rewrite Hf|done]. }
  split; simpl; rewrite ?length_alter; [by rewrite Hf| |by rewrite Hf|done].
  intros x [j Hj]%list_elem_of_lookup_1.
  assert (Hcpu : sec_cpu x ∈ sec_cpu <$> secondaries m).
  { rewrite <- (Hf _ sec_cpu) by done. apply list_elem_of_fmap. exists x. split; [done|].
    by eapply list_elem_of_lookup_2. }
  apply list_elem_of_fmap in Hcpu as (y & -> & Hy). by apply Hr.
Qed.

Lemma at_pc_bound m : at_pc m → Z.of_nat (length (secondaries m)) ≤ 0 `max` (count - 1).
Proof.
  unfold at_pc. destruct (primary m); try lia.
  - intros (_ & _ & _ & -> & _). unfold to_start. lia.
  - intros [[_ _ _ Hl] Hc]. unfold MAX_CPU_NUM in *. lia.
Qed.

Lemma set_sec_length k pc m : length (set_sec_pc k pc m) = length (secondaries m).
Proof. apply length_alter. Qed.

Lemma set_sec_idle k pc m :
  (∃ x, x ∈ set_sec_pc k pc m ∧ sec_pc x = SIdle) →
  pc = SIdle ∨ ∃ x, x ∈ secondaries m ∧ sec_pc x = SIdle.
Proof.
  intros (x & [j Hj]%list_elem_of_lookup_1 & Hx). unfold set_sec_pc in Hj.
  rewrite list_lookup_alter in Hj. destruct (decide (k = j)) as [->|].
  - apply fmap_Some in Hj as (y & _ & ->). by left.
  - right. exists x. split; [by eapply list_elem_of_lookup_2|done].
Qed.

Lemma inv_secondary k m : boot_inv m → boot_inv (secondary_step count k m).
Proof.
  intros Hinv. pose proof Hinv as [He Hin Hp Hat]. unfold secondary_step.
  destruct (secondaries m !! k) as [x|] eqn:Hk; simpl; [|done].
  assert (Hkeep : ∀ e n pc, at_pc m → (∀ i l, primary m = PLoop i l → e = entered_cpus m) →
    at_pc (mkMachine e n (primary m) (set_sec_pc k pc m))).
  { intros e n pc Hm Hloop. unfold at_pc in *. cbv zeta in *. cbn [primary secondaries entered_cpus].
    rewrite !set_sec_length.
    destruct (primary m) as [i l|i l| | | |]; [rewrite (Hloop i l eq_refl)|..];
      destruct_and?; split_and?; auto using started_alter. }
  assert (Hcnt : ∀ f pc, count_if f (set_sec_pc k pc m) = count_if f (secondaries m) -
    b2z (f x) + b2z (f (mkSec (sec_cpu x) (sec_stack x) pc)))
    by (intros; unfold set_sec_pc; by rewrite (count_if_alter _ _ _ _ _ Hk)).
  destruct x as [c sk []]; simpl in *.
  - split; cbn [entered_cpus inited_cpus primary secondaries].
    + rewrite Hcnt, He. change (b2z (has_entered (mkSec c sk SBooted))) with 0.
      change (b2z (has_entered (mkSec c sk SEntered))) with 1. lia.
    + rewrite Hcnt, Hin. change (b2z (has_inited _)) with 0. lia.
    + intros [Hpm|Hx]; [apply Hp; by left|]. apply set_sec_idle in Hx as [?|?]; [done|]. apply Hp. by right.
    + apply Hkeep; [done|]. intros i l Hl. exfalso. unfold at_pc in Hat. rewrite Hl in Hat.
      destruct Hat as (_ & _ & _ & _ & Hent). rewrite He in Hent.
      assert (Hall : count_if has_entered (secondaries m) = Z.of_nat (length (secondaries m))) by lia.
      apply count_if_all in Hall. rewrite Forall_lookup in Hall. by specialize (Hall _ _ Hk).
  - split; cbn [entered_cpus inited_cpus primary secondaries].
    + rewrite Hcnt, He. change (b2z (has_entered _)) with 1. lia.
    + rewrite Hcnt, Hin. change (b2z (has_inited (mkSec c sk SEntered))) with 0.
      change (b2z (has_inited (mkSec c sk SBarrier))) with 1. lia.
    + intros Hps. exfalso. assert (inited_cpus m = count) as Hc.
      { apply Hp. destruct Hps as [?|Hx]; [by left|]. apply set_sec_idle in Hx as [?|?]; [done|by right]. }
      pose proof (at_pc_bound m Hat) as Hb. pose proof (Hcnt has_inited SBarrier) as Hx.
      pose proof (count_if_bound has_inited (set_sec_pc k SBarrier m)) as Hbd.
      rewrite set_sec_length in Hbd.
      change (b2z (has_inited (mkSec c sk SEntered))) with 0 in Hx.
      change (b2z (has_inited (mkSec c sk SBarrier))) with 1 in Hx.
      apply lookup_lt_Some in Hk. unfold b2z in Hin. destruct (primary_inited _); lia.
    + by apply Hkeep.
  - case_bool_decide as Hc; [|done]. split; cbn [entered_cpus inited_cpus primary secondaries].
    + rewrite Hcnt, He. change (b2z (has_entered _)) with 1. lia.
    + rewrite Hcnt, Hin. change (b2z (has_inited _)) with 1. lia.
    + done.
    + by apply Hkeep.
  - done.
Qed.

Lemma boot_inv_step m m' : boot_inv m → step m m' → boot_inv m'.
Proof. intros Hm Hs. revert Hm. destruct Hs; [apply inv_primary|apply inv_secondary]. Qed.

Lemma inv_reachable m : 0 ≤ count → rtc step boot_start m → boot_inv m.
Proof.
  intros Hc Hr. assert (Hm : boot_inv boot_start) by by apply boot_inv_start.
  revert Hm. generalize boot_start, Hr. clear Hr. intros a Hr.
  induction Hr as [|x y z Hs _ IH]; [done|]. intros Hx. by eapply IH, boot_inv_step.
Qed.

Lemma started_at m : at_pc m → started count m.
Proof.
  unfold at_pc. destruct (primary m); cbv zeta; intros H; destruct_and?; try done;
    eapply started_mono; [done|lia|done|lia].
Qed.

(** Behind the barrier everybody has arrived. *)
Lemma passed_all m :
  0 ≤ count → boot_inv m → passed m →
  primary_inited (primary m) = true ∧ Z.of_nat (length (secondaries m)) = count - 1 ∧
  Forall (λ x, has_inited x = true) (secondaries m).
Proof.
  intros Hc [_ Hin Hp Hat] Hps. specialize (Hp Hps). pose proof (at_pc_bound m Hat) as Hb.
  pose proof (count_if_bound has_inited (secondaries m)) as Hbd.
  assert (1 ≤ count).
  { destruct Hps as [Hpm|(x & Hx & _)].
    - rewrite Hpm in Hin. simpl in Hin. lia.
    - apply list_elem_of_In in Hx. destruct (secondaries m); [done|]. simpl in *. lia. }
  unfold b2z in Hin. destruct (primary_inited _); [|lia].
  split_and!; [done|lia|]. apply count_if_all. lia.
Qed.

(** Every step makes progress. *)
Definition is_idle (x : secondary) : bool := bool_decide (sec_pc x = SIdle).

Definition primary_weight (p : primary_pc) : Z :=
  match p with
  | PLoop i _ => 8 * (count - i) + 3
  | PWait i _ => 8 * (count - i) - 1
  | PInit => 2
  | PBarrier => 1
  | PMain | PPanic => 0
  end.

Definition boot_weight (m : machine) : Z :=
  primary_weight (primary m) + 3 * Z.of_nat (length (secondaries m)) -
  count_if has_entered (secondaries m) - count_if has_inited (secondaries m) -
  count_if is_idle (secondaries m).

Lemma boot_weight_nonneg m : boot_inv m → 0 ≤ boot_weight m.
Proof.
  intros [_ _ _ Hat]. unfold boot_weight.
  pose proof (count_if_bound has_entered (secondaries m)).
  pose proof (count_if_bound has_inited (secondaries m)).
  pose proof (count_if_bound is_idle (secondaries m)).
  unfold at_pc in Hat. destruct (primary m); cbv zeta in Hat; simpl; lia.
Qed.

Lemma primary_progress m :
  boot_inv m → primary_step count primary_id m ≠ m →
  boot_weight (primary_step count primary_id m) < boot_weight m.
Proof.
  intros [_ _ _ Hat] Hne. unfold boot_weight, primary_step, at_pc in *. cbv zeta in Hat.
  destruct (primary m) as [i l|i l| | | |] eqn:Hpc; [..|done|done].
  - destruct (bool_decide (i < count)) eqn:Hi; [|simpl; apply bool_decide_eq_false in Hi; lia].
    apply bool_decide_eq_true in Hi. destruct (_ && _); [|simpl; lia].
    unfold start_secondary_cpu. destruct (bool_decide (l < MAX_CPU_NUM - 1)); simpl; [|lia].
    rewrite length_app, !count_if_app. change (count_if _ [mkSec i l SBooted]) with 0. simpl. lia.
  - destruct (bool_decide _); [done|]. simpl. lia.
  - simpl. lia.
  - destruct (bool_decide _); [|done]. simpl. lia.
Qed.

Lemma secondary_progress k m :
  secondary_step count k m ≠ m → boot_weight (secondary_step count k m) < boot_weight m.
Proof.
  intros Hne. unfold boot_weight, secondary_step in *.
  destruct (secondaries m !! k) as [x|] eqn:Hk; simpl in *; [|done].
  assert (Hcnt : ∀ f pc, count_if f (set_sec_pc k pc m) = count_if f (secondaries m) -
    b2z (f x) + b2z (f (mkSec (sec_cpu x) (sec_stack x) pc)))
    by (intros; unfold set_sec_pc; by rewrite (count_if_alter _ _ _ _ _ Hk)).
  destruct x as [c sk []]; simpl in *; [| |destruct (bool_decide _); [|done]|done];
    cbn [primary secondaries]; rewrite !set_sec_length, !Hcnt; unfold has_entered, has_inited, is_idle; simpl; lia.
Qed.

Lemma step_progress m m' : boot_inv m → step m m' → boot_weight m' < boot_weight m.
Proof. intros Hm Hs. revert Hm. destruct Hs; intros; [by apply primary_progress|by apply secondary_progress]. Qed.

Lemma boot_bounded j m :
  0 ≤ count → nsteps step j boot_start m → Z.of_nat j ≤ 8 * count + 3.
Proof.
  intros Hc Hj.
  assert (Hgen : ∀ a, boot_inv a → nsteps step j a m → boot_inv m ∧ Z.of_nat j + boot_weight m ≤ boot_weight a).
  { clear Hj. revert m. induction j as [|j IH]; intros m a Ha Hj.
    - inversion Hj; subst. split; [done|lia].
    - inversion Hj as [|? ? b ? Hs Hr]; subst. pose proof (boot_inv_step _ _ Ha Hs) as Hb.
      destruct (IH _ _ Hb Hr) as [Hm Hle]. pose proof (step_progress _ _ Ha Hs). split; [done|lia]. }
  destruct (Hgen boot_start (boot_inv_start Hc) Hj) as [Hm Hle].
  pose proof (boot_weight_nonneg m Hm).
  assert (boot_weight boot_start = 8 * (count - 0) + 3 + 3 * 0 - 0 - 0 - 0) by done. lia.
Qed.

Lemma count_if_missing {A} (f : A → bool) l :
  count_if f l < Z.of_nat (length l) → ∃ k x, l !! k = Some x ∧ f x = false.
Proof.
  induction l as [|x l IH]; [done|]. rewrite count_if_cons. simpl. intros Hlt.
  destruct (f x) eqn:Hf; simpl in Hlt.
  - destruct IH as (k & y & Hk & Hy); [lia|]. by exists (S k), y.
  - by exists 0%nat, x.
Qed.

Lemma secondary_can_move k x m :
  secondaries m !! k = Some x → sec_pc x ≠ SIdle → (sec_pc x = SBarrier → inited_cpus m = count) →
  step m (secondary_step count k m).
Proof.
  intros Hk Hx Hb. apply secondary_moves. intros Heq.
  assert (Hsec : secondaries (secondary_step count k m) !! k = Some x) by by rewrite Heq.
  unfold secondary_step in Hsec, Heq. rewrite Hk in *. simpl in *.
  destruct (sec_pc x) eqn:Hpc; [| |rewrite bool_decide_true in * by auto|done];
    simpl in Hsec; unfold set_sec_pc in Hsec;
    rewrite list_lookup_alter, decide_True, Hk in Hsec by done; simpl in Hsec;
    injection Hsec as Hsec; rewrite <- Hsec in Hpc; done.
Qed.

(** C17: The barrier of the boot holds for every order of the processors: when the
    primary is in [main] or some secondary idles, the primary and all [count - 1]
    other processors have finished their initialisation.  No processor was started
    twice, none shares its boot stack with another, and the primary is not among
    them. *)
Theorem boot_barrier m :
  0 ≤ count → rtc step boot_start m → passed m →
  primary_inited (primary m) = true ∧ Z.of_nat (length (secondaries m)) = count - 1 ∧
  (∀ x, x ∈ secondaries m → sec_pc x = SBarrier ∨ sec_pc x = SIdle) ∧
  NoDup (sec_cpu <$> secondaries m) ∧ NoDup (sec_stack <$> secondaries m) ∧
  (∀ x, x ∈ secondaries m → 0 ≤ sec_cpu x < count ∧ sec_cpu x ≠ primary_id).
Proof.
  intros Hc Hr Hp. pose proof (inv_reachable m Hc Hr) as Hinv.
  destruct (passed_all m Hc Hinv Hp) as (Hpi & Hlen & Hall).
  destruct (started_at m (bi_pc _ Hinv)) as [Hn Hrange Hs _].
  split_and!; [done|done| |done|rewrite Hs; apply NoDup_seqZ|done].
  intros x Hx. rewrite Forall_forall in Hall. specialize (Hall x Hx).
  unfold has_inited in Hall. apply bool_decide_eq_true in Hall.
  rewrite !elem_of_cons, elem_of_nil in Hall. naive_solver.
Qed.

(** While the boot is not complete, some processor can move. *)
Lemma boot_moves m :
  1 ≤ count ≤ MAX_CPU_NUM → rtc step boot_start m →
  (∃ m', step m m') ∨
  (primary m = PMain ∧ Z.of_nat (length (secondaries m)) = count - 1 ∧
   Forall (λ x, sec_pc x = SIdle) (secondaries m)).
Proof.
  intros Hc Hr.
  pose proof (inv_reachable m ltac:(lia) Hr) as Hinv. pose proof Hinv as [He Hin Hp Hat].
  assert (Hsec : ∀ f, count_if f (secondaries m) < Z.of_nat (length (secondaries m)) →
    (∀ x, f x = false → sec_pc x ≠ SIdle ∧ (sec_pc x = SBarrier → inited_cpus m = count)) →
    ∃ m', step m m').
  { intros f Hf Hx. destruct (count_if_missing f _ Hf) as (k & x & Hk & Hfx).
    destruct (Hx x Hfx). eexists. by eapply secondary_can_move. }
  assert (Hprim : primary_step count primary_id m ≠ m → ∃ m', step m m')
    by (intros; eexists; by apply primary_moves).
  unfold at_pc, primary_step in *. cbv zeta in Hat.
  destruct (primary m) as [i l|i l| | | |] eqn:Hpc.
  - left. apply Hprim. intros Heq. assert (Hq : primary m = PLoop i l) by done.
    rewrite <- Heq in Hq at 1. unfold start_secondary_cpu in Hq.
    repeat case_bool_decide; simpl in Hq; simplify_eq; lia.
  - left. destruct (decide (entered_cpus m ≤ l)).
    + apply (Hsec has_entered); [lia|]. intros x. unfold has_entered. by destruct (sec_pc x).
    + apply Hprim. rewrite bool_decide_false by done. intros Heq.
      assert (Hq : primary m = PWait i l) by done. by rewrite <- Heq in Hq.
  - left. apply Hprim. intros Heq. assert (Hq : primary m = PInit) by done. by rewrite <- Heq in Hq.
  - left. destruct (decide (inited_cpus m = count)) as [Hall|Hall].
    + apply Hprim. rewrite bool_decide_true by done. intros Heq.
      assert (Hq : primary m = PBarrier) by done. by rewrite <- Heq in Hq.
    + apply (Hsec has_inited); [pose proof (count_if_bound has_inited (secondaries m)); simpl in Hin; lia|].
      intros x. unfold has_inited. by destruct (sec_pc x).
  - pose proof (Hp (or_introl Hpc)) as Hall.
    pose proof (count_if_bound is_idle (secondaries m)) as Hb.
    destruct (decide (count_if is_idle (secondaries m) = Z.of_nat (length (secondaries m)))) as [Hi|Hi].
    + right. split_and!; [done|lia|]. apply count_if_all in Hi. eapply Forall_impl; [exact Hi|].
      intros x Hx. by apply bool_decide_eq_true in Hx.
    + left. apply (Hsec is_idle); [lia|]. intros x Hx. by apply bool_decide_eq_false in Hx.
  - destruct Hat as [_ Hm]. lia.
Qed.

(** C18: With one to eight processors the boot completes: however the processors are
    interleaved there are at most [8 * count + 3] steps, and while the primary is not
    in [main] with all others idle, some processor can move, so that no spin loop
    waits for ever. *)
Theorem boot_completes m j :
  1 ≤ count ≤ MAX_CPU_NUM → nsteps step j boot_start m →
  Z.of_nat j ≤ 8 * count + 3 ∧
  ((∃ m', step m m') ∨
   (primary m = PMain ∧ Z.of_nat (length (secondaries m)) = count - 1 ∧
    Forall (λ x, sec_pc x = SIdle) (secondaries m))).
Proof.
  intros Hc Hj. split; [by apply (boot_bounded j m); [lia|]|]. apply boot_moves; [done|]. by eapply rtc_nsteps_2.
Qed.

(** With no processor configured ([AXVISOR_SMP=0]) or with more than eight, the
    boot never gets past the barrier: in the first case the primary waits for a
    count of zero that it has already exceeded, in the second it runs out of boot
    stacks. *)
Theorem boot_limited m :
  0 ≤ count → count = 0 ∨ MAX_CPU_NUM < count → rtc step boot_start m → ¬ passed m.
Proof.
  intros Hc Hlim Hr Hp. pose proof (inv_reachable m Hc Hr) as Hinv.
  destruct (passed_all m Hc Hinv Hp) as (_ & Hlen & _).
  destruct (started_at m (bi_pc _ Hinv)) as [_ _ _ Hl]. unfold MAX_CPU_NUM in *. lia.
Qed.
End boot_theorems.

(** ** Virtualization *)

Section virtualization_theorem.
Context (enable_core : nat → bool) (cpu_count : nat).

Definition core_done (t : core_task) : bool := bool_decide (t = Enabled).

Record virt_inv (s : virt_state) : Prop := mkVirtInv {
  vi_length : length (core_tasks s) = cpu_count;
  vi_count : cores_enabled s = count_if core_done (core_tasks s);
  vi_done : virt_returned s = true → Forall (λ t, core_done t = true) (core_tasks s);
  vi_real : ∀ k, core_tasks s !! k = Some Enabled → enable_core k = true;
}.

Lemma virt_inv_start : virt_inv (enable_start cpu_count).
Proof.
  split; simpl; [apply length_replicate| |done|].
  - induction cpu_count as [|n IH]; [done|]. simpl. rewrite count_if_cons, <- IH. done.
  - intros k Hk. by apply lookup_replicate in Hk as [? _].
Qed.

Lemma virt_inv_core k s : virt_inv s → virt_inv (core_step enable_core k s).
Proof.
  intros Hinv. destruct Hinv as [Hl Hc Hd Hr] eqn:Hinv'. clear Hinv'. unfold core_step.
  destruct (core_tasks s !! k) as [[]|] eqn:Hk; [|done..].
  assert (Hno : virt_returned s = true → False).
  { intros Ht. specialize (Hd Ht). rewrite Forall_lookup in Hd. by specialize (Hd _ _ Hk). }
  assert (Hcnt : ∀ t, count_if core_done (<[k := t]> (core_tasks s)) =
    count_if core_done (core_tasks s) + b2z (core_done t)).
  { intros t. replace (<[k := t]> (core_tasks s)) with (alter (λ _, t) k (core_tasks s)).
    - rewrite (count_if_alter _ _ _ _ _ Hk). unfold core_done at 2. simpl. lia.
    - apply list_eq. intros j. rewrite list_lookup_alter.
      destruct (decide (k = j)) as [->|]; [rewrite Hk, list_lookup_insert_eq by (by eapply lookup_lt_Some); done|].
      by rewrite list_lookup_insert_ne. }
  assert (Hreal : ∀ t j, (t = Enabled → enable_core k = true) →
    <[k := t]> (core_tasks s) !! j = Some Enabled → enable_core j = true).
  { intros t j Ht Hj. apply list_lookup_insert_Some in Hj as [(-> & -> & _)|[_ Hj]]; [by apply Ht|by apply Hr]. }
  destruct (enable_core k) eqn:Hen; split; simpl; rewrite ?length_insert, ?Hcnt;
    [done|rewrite Hc; done|by intros ?%Hno| |done|rewrite Hc; simpl; lia|by intros ?%Hno|];
    intros j; by apply Hreal.
Qed.

(** [enable_virtualization] returns only when the task of every core has run
    through and the core is enabled, in whatever order the tasks run; a core that
    fails keeps it from returning. *)
Theorem virtualization_on_all_cores s :
  rtc (virt_step enable_core cpu_count) (enable_start cpu_count) s → virt_returned s = true →
  length (core_tasks s) = cpu_count ∧ ∀ k, (k < cpu_count)%nat →
    core_tasks s !! k = Some Enabled ∧ enable_core k = true.
Proof.
  intros Hr Hret. assert (Hinv : virt_inv s).
  { pose proof virt_inv_start as Hs. revert Hs. clear Hret. generalize (enable_start cpu_count), Hr. clear Hr.
    intros a Hr. induction Hr as [|x y z Hs _ IH]; [done|]. intros Hx. apply IH. clear IH.
    destruct Hs as [k ?|?]; [by apply virt_inv_core|]. destruct Hx as [Hl Hc Hd Hre].
    unfold waiter_step. case_bool_decide as Hall; [|by split]. split; simpl; [done|done| |done].
    intros _. apply count_if_all. rewrite <- Hc, Hl. done. }
  destruct Hinv as [Hl _ Hd Hre]. split; [done|]. intros k Hk.
  destruct (core_tasks s !! k) as [t|] eqn:Ht; [|apply lookup_ge_None in Ht; lia].
  specialize (Hd Hret). rewrite Forall_lookup in Hd. specialize (Hd _ _ Ht).
  apply bool_decide_eq_true in Hd as ->. split; [done|by apply Hre].
Qed.
End virtualization_theorem.

(** ** Memory for the allocator *)

Abbreviation free_regions := (filter (λ r, r_free r = true)).

(** The first loop keeps the address it starts with or takes that of a free region. *)
Lemma choose_region_or l ms mp nx :
  choose_region l ms mp nx = mp ∨
  ∃ r, r ∈ l ∧ r_free r = true ∧ r_paddr r = choose_region l ms mp nx.
Proof.
  revert ms mp nx. induction l as [|r l IH]; intros ms mp nx; simpl; [by left|].
  assert (Htail : ∀ ms' mp' nx', choose_region l ms' mp' nx' = mp' ∨
    ∃ x, x ∈ r :: l ∧ r_free x = true ∧ r_paddr x = choose_region l ms' mp' nx').
  { intros ms' mp' nx'. destruct (IH ms' mp' nx') as [?|(x & ? & ?)]; [by left|].
    right. exists x. split; [by right|done]. }
  case_bool_decide; [done|]. destruct (r_free r) eqn:Hf; [|done].
  destruct nx; [right; exists r; split; [by left|done]|]. case_bool_decide; [|done].
  destruct (Htail (r_size r) (r_paddr r) false) as [->|?]; [right|by right].
  exists r. split; [by left|done].
Qed.

Lemma choose_region_free l ms mp nx :
  (∃ r, r ∈ l ∧ r_free r = true ∧ r_name r ≠ ".bss" ∧ ms < r_size r) →
  ∃ r, r ∈ l ∧ r_free r = true ∧ r_paddr r = choose_region l ms mp nx.
Proof.
  revert ms mp nx. induction l as [|r l IH]; intros ms mp nx (x & Hx & Hf & Hn & Hs).
  { by apply elem_of_nil in Hx. }
  assert (Htail : x ∈ l → ∀ mp' nx',
    ∃ y, y ∈ r :: l ∧ r_free y = true ∧ r_paddr y = choose_region l ms mp' nx').
  { intros Hx' mp' nx'. destruct (IH ms mp' nx') as (y & ? & ?); [by exists x|].
    exists y. split; [by right|done]. }
  simpl. case_bool_decide as Hbss.
  { apply elem_of_cons in Hx as [->|Hx]; [done|]. by apply Htail. }
  destruct (r_free r) eqn:Hr.
  - destruct nx; [exists r; split; [by left|done]|]. case_bool_decide as Hbig.
    + destruct (choose_region_or l (r_size r) (r_paddr r) false) as [->|(y & ? & ?)].
      * exists r. split; [by left|done].
      * exists y. split; [by right|done].
    + apply Htail. apply elem_of_cons in Hx as [->|Hx]; [lia|done].
  - apply Htail. apply elem_of_cons in Hx as [->|Hx]; [congruence|done].
Qed.

Section regions.
Context (p2v : Z → Z) (p : Z).

Definition add_region (r : MemRegion) : alloc_call := GlobalAdd (p2v (r_paddr r)) (r_size r).

Lemma init_calls_cons r l :
  init_calls p2v (r :: l) p =
  if r_free r && bool_decide (r_paddr r = p) then [GlobalInit (p2v (r_paddr r)) (r_size r)]
  else init_calls p2v l p.
Proof. unfold init_calls. simpl. by destruct (r_free r && _). Qed.

Lemma add_calls_cons r l :
  add_calls p2v (r :: l) p =
  (if r_free r && bool_decide (r_paddr r ≠ p) then [add_region r] else []) ++ add_calls p2v l p.
Proof. unfold add_calls. simpl. by destruct (r_free r && _). Qed.

Lemma add_calls_all l :
  (∀ y, y ∈ l → r_free y = true → r_paddr y ≠ p) → add_calls p2v l p = add_region <$> free_regions l.
Proof.
  induction l as [|y l IH]; intros Hall; [done|]. rewrite add_calls_cons, filter_cons.
  rewrite IH by (intros z ??; apply Hall; [by right|done]).
  destruct (r_free y) eqn:Hy; simpl; [|done]. by rewrite bool_decide_true by (apply Hall; [by left|done]).
Qed.

(** Taking out the region with address [p], of which there is one. *)
Lemma split_region l r0 :
  NoDup (r_paddr <$> free_regions l) → r0 ∈ l → r_free r0 = true → r_paddr r0 = p →
  init_calls p2v l p = [GlobalInit (p2v p) (r_size r0)] ∧
  ∃ rest, add_calls p2v l p = add_region <$> rest ∧ r0 :: rest ≡ₚ free_regions l.
Proof.
  intros Hnd Hin Hf Hp. revert Hnd Hin. induction l as [|r l IH]; intros Hnd Hin.
  { by apply elem_of_nil in Hin. }
  rewrite init_calls_cons, add_calls_cons. rewrite filter_cons in *.
  destruct (r_free r) eqn:Hr; simpl in *.
  2: { apply elem_of_cons in Hin as [->|Hin]; [congruence|]. by apply IH. }
  apply NoDup_cons in Hnd as [Hni Hnd].
  assert (Hone : ∀ y, y ∈ l → r_free y = true → r_paddr y ≠ r_paddr r).
  { intros y Hy Hfy Hyp. destruct Hni. apply list_elem_of_fmap. exists y.
    split; [done|]. by apply list_elem_of_filter. }
  destruct (decide (r_paddr r = p)) as [Hrp|Hrp].
  - assert (r = r0) as ->.
    { apply elem_of_cons in Hin as [|Hin]; [done|]. destruct (Hone r0 Hin Hf). congruence. }
    rewrite bool_decide_true, bool_decide_false by tauto. rewrite Hrp. split; [done|].
    exists (free_regions l). split; [|done]. apply add_calls_all. by rewrite <- Hrp.
  - rewrite bool_decide_false, bool_decide_true by done.
    apply elem_of_cons in Hin as [->|Hin]; [done|].
    destruct (IH Hnd Hin) as (-> & rest & -> & Hperm). split; [done|].
    exists (r :: rest). split; [done|]. rewrite <- Hperm. constructor.
Qed.
End regions.

(** Every free region of memory is given to the allocator exactly once: the first
    call initialises it with one of them and every other free region is added after
    it, provided that they start at different addresses and one of them is not
    empty. *)
Theorem allocator_gets_free_memory p2v l :
  NoDup (r_paddr <$> free_regions l) →
  (∃ r, r ∈ l ∧ r_free r = true ∧ r_name r ≠ ".bss" ∧ 0 < r_size r) →
  ∃ r0 rest, init_allocator p2v l =
      GlobalInit (p2v (r_paddr r0)) (r_size r0) :: (add_region p2v <$> rest) ∧
    r0 :: rest ≡ₚ free_regions l.
Proof.
  intros Hnd Hex. destruct (choose_region_free l 0 0 false Hex) as (r0 & Hin & Hf & Hp).
  destruct (split_region p2v _ l r0 Hnd Hin Hf Hp) as (Hi & rest & Ha & Hperm).
  exists r0, rest. split; [|done]. unfold init_allocator. rewrite Hi, Ha, Hp. done.
Qed.

(** ** The timer *)

(** The periodic timer is never programmed for the past and does not drift: at
    time [now] the deadline that is programmed lies after [now], at most an interval
    before the one that is stored; a tick that comes before the stored deadline
    programs exactly that one, and a later tick starts afresh from its own time. *)
Theorem timer_does_not_drift `{!OverflowChecks} interval now deadline :
  0 < interval → 0 ≤ now → 0 ≤ deadline → now `max` deadline + 4 * interval ≤ usize_max →
  ∃ d, update_timer interval now deadline = Ok (d, d + interval) ∧ now < d ∧ deadline ≤ d ∧
    ∀ now', d ≤ now' → now' + 2 * interval ≤ usize_max →
      update_timer interval now' (d + interval) =
      Ok (if bool_decide (now' < d + interval) then (d + interval, d + interval + interval)
          else (now' + interval, now' + interval + interval)).
Proof.
  intros Hi Hn Hd Hmax. assert (Hrun : ∀ a b, 0 ≤ a → 0 ≤ b → a `max` b + 2 * interval ≤ usize_max →
    update_timer interval a b = Ok (if bool_decide (a < b) then (b, b + interval)
                                    else (a + interval, a + interval + interval))).
  { intros a b Ha Hb Hab. unfold update_timer. repeat case_bool_decide; try lia; unfold usize_add; orun;
      rewrite !checked_ok by (unfold in_usize; lia); orun; [|done]. by rewrite checked_ok by (unfold in_usize; lia). }
  exists (if bool_decide (now < deadline) then deadline else now + interval).
  rewrite Hrun by lia. case_bool_decide; (split_and!; [done|lia|lia|]); intros now' Hnow Hmax';
    apply Hrun; lia.
Qed.

(** ** Examples *)
Module BootExamples.

#[local] Instance secondary_eq_dec : EqDecision secondary.
Proof. solve_decision. Defined.
#[local] Instance machine_eq_dec : EqDecision machine.
Proof. solve_decision. Defined.

(** Running the processors in a given order; [None] is the primary. *)
Definition run_one (count primary_id : Z) (m : machine) (k : option nat) : machine :=
  match k with
  | None => primary_step count primary_id m
  | Some k => secondary_step count k m
  end.

Lemma run_steps count primary_id l m :
  rtc (boot_step count primary_id) m (fold_left (run_one count primary_id) l m).
Proof.
  revert m. induction l as [|k l IH]; intros m; [done|]. simpl. etrans; [|apply IH].
  destruct (decide (run_one count primary_id m k = m)) as [->|Hne]; [done|].
  apply rtc_once. destruct k; by constructor.
Qed.

(** Two processors, and the second one boots the first. *)
Definition order : list (option nat) :=
  [None; Some 0%nat; None; None; None; None; Some 0%nat; None; Some 0%nat].
Definition booted : machine := fold_left (run_one 2 1) order boot_start.

Lemma boot_barrier_witness :
  passed booted ∧
  primary_inited (primary booted) = true ∧ Z.of_nat (length (secondaries booted)) = 1 ∧
  (∀ x, x ∈ secondaries booted → sec_pc x = SBarrier ∨ sec_pc x = SIdle) ∧
  NoDup (sec_cpu <$> secondaries booted) ∧ NoDup (sec_stack <$> secondaries booted) ∧
  (∀ x, x ∈ secondaries booted → 0 ≤ sec_cpu x < 2 ∧ sec_cpu x ≠ 1).
Proof.
  assert (Hp : passed booted) by (right; exists (mkSec 0 0 SIdle); split; [by left|done]).
  split; [exact Hp|]. apply (boot_barrier 2 1 booted); [lia|apply run_steps|exact Hp].
Defined.

Lemma boot_completes_witness :
  Z.of_nat 1 ≤ 8 * 2 + 3 ∧
  ((∃ m', boot_step 2 1 (primary_step 2 1 boot_start) m') ∨
   (primary (primary_step 2 1 boot_start) = PMain ∧
    Z.of_nat (length (secondaries (primary_step 2 1 boot_start))) = 1 ∧
    Forall (λ x, sec_pc x = SIdle) (secondaries (primary_step 2 1 boot_start)))).
Proof.
  apply (boot_completes 2 1 (primary_step 2 1 boot_start) 1); [unfold MAX_CPU_NUM; lia|].
  apply nsteps_once, primary_moves. discriminate.
Defined.

Lemma boot_limited_witness :
  ¬ passed (fold_left (run_one 0 0) [None; None; None] boot_start).
Proof. apply (boot_limited 0 0); [lia|by left|apply run_steps]. Defined.

Definition all_enabled : virt_state :=
  waiter_step 2 (core_step (λ _, true) 0 (core_step (λ _, true) 1 (enable_start 2))).

Lemma virtualization_on_all_cores_witness :
  length (core_tasks all_enabled) = 2%nat ∧ ∀ k, (k < 2)%nat →
    core_tasks all_enabled !! k = Some Enabled ∧ true = true.
Proof.
  apply (virtualization_on_all_cores (λ _, true) 2 all_enabled); [|done].
  eapply rtc_l; [apply (core_runs _ _ 1)|]. eapply rtc_l; [apply (core_runs _ _ 0)|].
  apply rtc_once, waiter_runs.
Defined.

Definition regions : list MemRegion :=
  [mkRegion 0 0x200000 "reserved" false; mkRegion 0x200000 0x1000 ".text" false;
   mkRegion 0x201000 0x1000 ".bss" false; mkRegion 0x202000 0x100000 "free memory" true;
   mkRegion 0x40000000 0x40000000 "free memory" true].

Lemma allocator_gets_free_memory_witness :
  ∃ r0 rest, init_allocator (Z.add 0x1000000000) regions =
      GlobalInit (0x1000000000 + r_paddr r0) (r_size r0) :: (add_region (Z.add 0x1000000000) <$> rest) ∧
    r0 :: rest ≡ₚ free_regions regions.
Proof.
  apply (allocator_gets_free_memory (Z.add 0x1000000000) regions).
  - apply (bool_decide_unpack _). vm_compute. exact I.
  - exists (mkRegion 0x202000 0x100000 "free memory" true).
    split_and!; [right; right; right; by left|done|done|done].
Defined.

Lemma timer_does_not_drift_witness :
  let H : OverflowChecks := true in
  ∃ d, update_timer 10 105 100 = Ok (d, d + 10) ∧ 105 < d ∧ 100 ≤ d ∧
    ∀ now', d ≤ now' → now' + 2 * 10 ≤ usize_max →
      update_timer 10 now' (d + 10) =
      Ok (if bool_decide (now' < d + 10) then (d + 10, d + 10 + 10) else (now' + 10, now' + 10 + 10)).
Proof. intros H. apply (timer_does_not_drift 10 105 100); unfold usize_max; lia. Defined.
End BootExamples.
