(* ===== verification/Devspace.v ===== *)
(** * The development workspace ([xtask/src/devspace.rs])

    [cargo xtask devspace start] clones the repositories of some dependencies as
    submodules and directs cargo to them by a section of [.cargo/config.toml];
    [stop] undoes both.  The files, git and the encoding of the saved state are the
    class [Workspace]; [cargo metadata] is the list of packages it reports. *)

From Stdlib Require Import Ascii.
From S2P Require Import Prelude RustStr Command.

(** ** Text *)

Definition nl : string := newline.
Definition crlf : string := of_bytes [13; 10].

Fixpoint str_drop (n : nat) (s : string) : string :=
  match n, s with S n, String _ s => str_drop n s | _, _ => s end.

(** [s.split(c).next()] for a one-byte character. *)
Definition before_char (c : ascii) (s : string) : string :=
  match split_at_char c s with Some (p, _) => p | None => s end.

(** [s.trim_end_matches(p)] for a non-empty string; the fuel is the length. *)
Definition strip_suffix (p s : string) : option string :=
  if ends_with p s then Some (String.substring 0 (String.length s - String.length p) s) else None.

Fixpoint trim_end_str (fuel : nat) (p s : string) : string :=
  match fuel with
  | O => s
  | S fuel => match strip_suffix p s with Some s' => trim_end_str fuel p s' | None => s end
  end.

Definition trim_end_matches (p s : string) : string := trim_end_str (String.length s) p s.

Fixpoint replace_char (a b : ascii) (s : string) : string :=
  match s with
  | "" => ""
  | String c s => String (if bool_decide (c = a) then b else c) (replace_char a b s)
  end.

(** ** Paths of Unix *)

(** [path.components()]: the root, and the names; empty names and [.] are skipped,
    a leading [.] is kept. *)
Definition components (path : string) : list string :=
  let parts := split_char "/"%char "" path in
  let keep := filter (λ c, c ≠ "" ∧ c ≠ ".") in
  if starts_with "/" path then "/" :: keep parts
  else match parts with
       | c :: rest => if bool_decide (c = ".") then "." :: keep rest else keep parts
       | [] => []
       end.

(** [a.join(b)] *)
Definition path_join (a b : string) : string :=
  if starts_with "/" b then b
  else if bool_decide (a = "") || ends_with "/" a then a +:+ b
  else a +:+ "/" +:+ b.

(** ** Data *)

Record Package : Type := mkPackage {
  pkg_name : string;
  pkg_source : option string;
  pkg_repository : option string;
  pkg_manifest_path : string;
}.

Record DevRepo : Type := mkRepo {
  repo_name : string;
  repo_git_url : string;
  repo_source : string;
  repo_dest : string;
}.

Record PatchSpec : Type := mkSpec {
  spec_source : string;
  spec_crate : string;
  spec_path : string;
}.

(** The modules by name, with their paths, and the source and crate of each patch. *)
Record DevspaceState : Type := mkDevspace {
  ds_modules : gmap string string;
  ds_patches : list (string * string);
}.

Definition CRATES_IO_SOURCE_KEY : string := "crates-io".
Definition CRATES_IO_INDEX : string := "registry+https://github.com/rust-lang/crates.io-index".
Definition PATCH_BEGIN_MARKER : string := "# >>> devspace patches >>>".
Definition PATCH_END_MARKER : string := "# <<< devspace patches <<<".
Definition STATE_DIR : string := ".devspace".
Definition STATE_FILE : string := ".devspace/state.json".
Definition CONFIG : string := ".cargo/config.toml".

Definition DEVSPACE_REPOS : list string :=
  ["arm_vcpu"; "arm_vgic"; "axaddrspace"; "axdevice_base"; "x86_vcpu"; "x86_vlapic"].

Definition DEVSPACE_REPO_OVERRIDES : list (string * string) :=
  [("axdevice_base", "https://github.com/arceos-hypervisor/axdevice_base.git")].

(** ** Sources *)

Definition normalize_source (raw : string) : option string :=
  match strip_prefix "git+" raw with
  | Some trimmed =>
      let no_fragment := before_char "#"%char trimmed in
      let no_query := before_char "?"%char no_fragment in
      let without_git := trim_end_matches ".git" no_query in
      Some (trim_end "/"%char without_git)
  | None => if bool_decide (raw = CRATES_IO_INDEX) then Some CRATES_IO_SOURCE_KEY else None
  end.

Definition extract_git_url (raw : string) : option string :=
  trimmed ← strip_prefix "git+" raw;
  Some (before_char "#"%char (before_char "?"%char trimmed)).

Definition repo_lookup_key (source crate_name : string) : string := source +:+ "::" +:+ crate_name.

Definition is_git (p : Package) : bool :=
  match pkg_source p with Some s => starts_with "git+" s | None => false end.

(** One crate of [resolve_dev_repos]. *)
Definition resolve_repo (packages : list Package) (crate_name : string) : outcome string DevRepo :=
  let override_url := assoc_get crate_name DEVSPACE_REPO_OVERRIDES in
  match filter (λ p, pkg_name p = crate_name) packages with
  | [] => Err ("crate " +:+ crate_name +:+ " not found in workspace metadata")
  | first :: _ as found =>
      let pkg := default first (List.find is_git found) in
      source_raw ← ok_or (pkg_source pkg) ("crate " +:+ crate_name +:+ " has no source information");
      '(patch_source, git_url) ←
        (if starts_with "git+" source_raw then
           normalized ← ok_or (normalize_source source_raw)
             ("crate " +:+ crate_name +:+ " has unsupported source " +:+ source_raw);
           git_url ← ok_or (extract_git_url source_raw)
             ("crate " +:+ crate_name +:+ " has unsupported source " +:+ source_raw);
           Ok (normalized, git_url)
         else if bool_decide (source_raw = CRATES_IO_INDEX) then
           match pkg_repository pkg, override_url with
           | Some url, _ => Ok (CRATES_IO_SOURCE_KEY, url)
           | None, Some url => Ok (CRATES_IO_SOURCE_KEY, url)
           | None, None => Err ("crate " +:+ crate_name +:+
                                " is from crates.io but missing repository metadata")
           end
         else Err ("crate " +:+ crate_name +:+ " uses unsupported source " +:+ source_raw));
      Ok (mkRepo crate_name git_url patch_source ("modules/" +:+ crate_name))
  end.

(** [collect] of results stops at the first error. *)
Fixpoint collect {E A B} (f : A → outcome E B) (l : list A) : outcome E (list B) :=
  match l with
  | [] => Ok []
  | x :: l => y ← f x; ys ← collect f l; Ok (y :: ys)
  end.

Definition resolve_dev_repos (packages : list Package) : outcome string (list DevRepo) :=
  collect (resolve_repo packages) DEVSPACE_REPOS.

(** ** Patches *)

(** A later repository replaces an earlier one with the same key. *)
Definition build_repo_lookup (repos : list DevRepo) : gmap string DevRepo :=
  fold_left (λ m r, <[repo_lookup_key (repo_source r) (repo_name r) := r]> m) repos ∅.

Fixpoint position_of (x : string) (l : list string) : option nat :=
  match l with
  | [] => None
  | y :: l => if bool_decide (y = x) then Some O else S <$> position_of x l
  end.

Definition manifest_relative_path (path : string) : option string :=
  let comps := components path in
  idx ← position_of "checkouts" comps;
  if bool_decide (length comps ≤ idx + 3)%nat then None
  else Some (fold_left path_join (drop (idx + 3) comps) "").

(** [rel.pop()]: the path without its last component. *)
Definition path_pop (rel : string) : string :=
  let comps := components rel in
  fold_left path_join (take (length comps - 1) comps) "".

Definition manifest_relative_dir (path : string) : option string :=
  path_pop <$> manifest_relative_path path.

Definition to_unix_path (path : string) : string := replace_char (ascii_of_byte 92) "/"%char path.

Definition package_patch_spec (repo_map : gmap string DevRepo) (pkg : Package) : option PatchSpec :=
  source_raw ← pkg_source pkg;
  normalized ← normalize_source source_raw;
  repo ← repo_map !! repo_lookup_key normalized (pkg_name pkg);
  let local_path := match manifest_relative_dir (pkg_manifest_path pkg) with
                    | Some subdir => path_join (repo_dest repo) subdir
                    | None => repo_dest repo
                    end in
  Some (mkSpec (repo_source repo) (pkg_name pkg) (to_unix_path local_path)).

(** A [BTreeMap] with pairs of strings as keys, sorted; [or_insert] keeps the first. *)
Definition key_compare (a b : string * string) : comparison :=
  match String.compare a.1 b.1 with Eq => String.compare a.2 b.2 | c => c end.

Fixpoint specs_or_insert (s : PatchSpec) (l : list PatchSpec) : list PatchSpec :=
  match l with
  | [] => [s]
  | t :: l' =>
      match key_compare (spec_source s, spec_crate s) (spec_source t, spec_crate t) with
      | Eq => l
      | Lt => s :: l
      | Gt => t :: specs_or_insert s l'
      end
  end.

Definition has_key (source name : string) (l : list PatchSpec) : bool :=
  existsb (λ s, bool_decide (spec_source s = source) && bool_decide (spec_crate s = name)) l.

Definition compute_patch_specs (packages : list Package) (repos : list DevRepo)
  : outcome string (list PatchSpec) :=
  let repo_map := build_repo_lookup repos in
  let specs := fold_left (λ l p, match package_patch_spec repo_map p with
                                 | Some s => specs_or_insert s l
                                 | None => l
                                 end) packages [] in
  match List.find (λ r, negb (has_key (repo_source r) (repo_name r) specs)) repos with
  | Some r => Err ("Failed to prepare patch for crate " +:+ repo_name r +:+
                   " (source: " +:+ repo_source r +:+ ")")
  | None => Ok specs
  end.

(** ** The section of the configuration *)

Definition group_specs (specs : list PatchSpec) : list (string * list (string * string)) :=
  fold_left (λ g s,
    assoc_insert (spec_source s)
      (assoc_insert (spec_crate s) (spec_path s) (default [] (assoc_get (spec_source s) g))) g)
    specs [].

Definition render_crate (c : string * string) : string :=
  c.1 +:+ " = { path = " +:+ dquote +:+ c.2 +:+ dquote +:+ " }" +:+ nl.

Definition render_group (g : string * list (string * string)) : string :=
  "[patch." +:+ dquote +:+ g.1 +:+ dquote +:+ "]" +:+ nl +:+ str_concat (render_crate <$> g.2).

Definition render_devspace_section (specs : list PatchSpec) : string :=
  PATCH_BEGIN_MARKER +:+ nl +:+ "# Managed by `cargo xtask devspace`" +:+ nl +:+
  str_join nl (render_group <$> group_specs specs) +:+ nl +:+ PATCH_END_MARKER +:+ nl.

Definition strip_devspace_section (contents : string) : string * bool :=
  match find_str PATCH_BEGIN_MARKER contents with
  | Some (before, from) =>
      match find_str PATCH_END_MARKER from with
      | Some (_, at_end) =>
          let tail := str_drop (String.length PATCH_END_MARKER) at_end in
          let tail := match strip_prefix crlf tail with
                      | Some t => t
                      | None => default tail (strip_prefix nl tail)
                      end in
          (before +:+ tail, true)
      | None => (contents, false)
      end
  | None => (contents, false)
  end.

(** A text that is not empty is made to end with an empty line. *)
Definition pad_config (contents : string) : string :=
  let contents := if negb (str_is_empty contents) && negb (ends_with nl contents)
                  then contents +:+ nl else contents in
  if negb (str_is_empty contents) && negb (ends_with (nl +:+ nl) contents)
  then contents +:+ nl else contents.

(** The new contents that [apply_patches] writes. *)
Definition patched_config (contents : string) (specs : list PatchSpec) : string :=
  let contents := pad_config (strip_devspace_section contents).1 in
  let contents := contents +:+ render_devspace_section specs in
  if negb (ends_with nl contents) then contents +:+ nl else contents.

(** ** The workspace

    Existence, reading and writing of files, directories, git (whether the command
    could be run, and whether it succeeded), and the encoding of the state as JSON. *)
Class Workspace (W : Type) : Type := {
  ws_exists : string → W → bool;
  ws_read : string → st W () string;
  ws_write : string → string → st W () ();
  ws_create_dir_all : string → st W () ();
  ws_remove_dir_all : string → st W () ();
  ws_git : list string → st W () bool;
  state_encode : DevspaceState → string;
  state_decode : string → option DevspaceState;
}.

Section commands.
Context {W : Type} `{!Workspace W}.
Abbreviation M := (st W string).

(** [m.with_context(msg)?] *)
Definition context {A} (msg : string) (m : st W () A) : M A := λ w,
  match m w with
  | (Ok a, w') => (Ok a, w')
  | (Err _, w') => (Err msg, w')
  | (Panic, w') => (Panic, w')
  end.

Definition quoted_path (p : string) : string := dquote +:+ p +:+ dquote.

Definition exists_path (p : string) : M bool := gets (ws_exists p).

Definition run_git (args : list string) : M () :=
  ok ← context ("Failed to run git " +:+ str_join " " args) (ws_git args);
  if (ok : bool) then mret () else throw ("git command failed: git " +:+ str_join " " args).

(** [let _ = run_git(..)] *)
Definition try_git (args : list string) : M () := _ ← attempt (run_git args); mret ().

Definition add_module (repo : DevRepo) (state : DevspaceState) : DevspaceState :=
  mkDevspace (<[repo_name repo := repo_dest repo]> (ds_modules state)) (ds_patches state).

(** The state is threaded: it is a mutable reference, and what was added before an
    error is lost with it when the caller returns. *)
Fixpoint ensure_submodules (repos : list DevRepo) (state : DevspaceState) : M DevspaceState :=
  match repos with
  | [] => mret state
  | repo :: repos =>
      present ← exists_path (repo_dest repo);
      if (present : bool) then ensure_submodules repos state else
      run_git ["submodule"; "add"; "--force"; repo_git_url repo; repo_dest repo];;
      run_git ["submodule"; "update"; "--init"; "--recursive"; repo_dest repo];;
      ensure_submodules repos (add_module repo state)
  end.

Definition remove_module (path : string) : M () :=
  try_git ["submodule"; "deinit"; "-f"; "--"; path];;
  let git_modules_dir := path_join ".git/modules" path in
  there ← exists_path git_modules_dir;
  (if (there : bool) then
     context ("Failed to remove " +:+ quoted_path git_modules_dir) (ws_remove_dir_all git_modules_dir)
   else mret ());;
  there ← exists_path path;
  if (there : bool) then
    try_git ["rm"; "-f"; "--"; path];;
    there ← exists_path path;
    if (there : bool) then context ("Failed to remove " +:+ path) (ws_remove_dir_all path) else mret ()
  else mret ().

Fixpoint remove_all (paths : list string) : M () :=
  match paths with [] => mret () | p :: paths => remove_module p;; remove_all paths end.

Definition remove_submodules (modules : gmap string string) : M () :=
  remove_all (map_to_list modules).*2.

Definition apply_patches (specs : list PatchSpec) : M () :=
  if is_empty specs then mret () else
  there ← exists_path CONFIG;
  contents ← (if (there : bool) then context ("Failed to read " +:+ quoted_path CONFIG) (ws_read CONFIG)
              else mret "");
  context ("Failed to write " +:+ quoted_path CONFIG) (ws_write CONFIG (patched_config contents specs)).

Definition remove_patches : M () :=
  there ← exists_path CONFIG;
  if negb there then mret () else
  original ← context ("Failed to read " +:+ quoted_path CONFIG) (ws_read CONFIG);
  let '(cleaned, removed) := strip_devspace_section original in
  if (removed : bool) then context ("Failed to write " +:+ quoted_path CONFIG) (ws_write CONFIG cleaned)
  else mret ().

Definition load_state : M DevspaceState :=
  there ← exists_path STATE_FILE;
  if negb there then mret (mkDevspace ∅ []) else
  contents ← context ("Failed to read " +:+ quoted_path STATE_FILE) (ws_read STATE_FILE);
  lift (ok_or (state_decode contents) ("Failed to parse " +:+ quoted_path STATE_FILE)).

Definition save_state (state : DevspaceState) : M () :=
  context "Failed to create devspace state dir" (ws_create_dir_all STATE_DIR);;
  context "Failed to write devspace state" (ws_write STATE_FILE (state_encode state)).

(** [start], with the packages that [cargo metadata] reports. *)
Definition start (packages : list Package) : M () :=
  repos ← lift (resolve_dev_repos packages);
  state ← load_state;
  state ← ensure_submodules repos state;
  save_state state;;
  specs ← lift (compute_patch_specs packages repos);
  apply_patches specs;;
  save_state (mkDevspace (ds_modules state) ((λ s, (spec_source s, spec_crate s)) <$> specs)).

Definition stop : M () :=
  state ← load_state;
  (if negb (is_empty (ds_patches state)) then remove_patches else mret ());;
  (if bool_decide (ds_modules state ≠ ∅) then remove_submodules (ds_modules state) else mret ());;
  save_state (mkDevspace ∅ []).
End commands.

(** * Theorems *)

(** ** Searching text *)

Fixpoint has_char (c : ascii) (s : string) : bool :=
  match s with "" => false | String a s => bool_decide (a = c) || has_char c s end.

Lemma string_app_cons a s t : String a s +:+ t = String a (s +:+ t).
Proof. done. Qed.

Lemma nl_app s : nl +:+ s = String "010" s.
Proof. done. Qed.

Lemma has_char_app c s t : has_char c (s +:+ t) = has_char c s || has_char c t.
Proof.
  induction s as [|a s IH]; [done|]. rewrite string_app_cons. simpl. by rewrite IH, orb_assoc.
Qed.

Lemma starts_with_cons a p b s :
  starts_with (String a p) (String b s) = bool_decide (a = b) && starts_with p s.
Proof. unfold starts_with. simpl. by destruct (bool_decide (a = b)). Qed.

Lemma starts_with_extend p s t : starts_with p s = true → starts_with p (s +:+ t) = true.
Proof.
  intros [q ->]%starts_with_app. apply starts_with_app. exists (q +:+ t). apply string_app_assoc.
Qed.

Lemma find_str_cons p a s :
  find_str p (String a s) =
  if starts_with p (String a s) then Some ("", String a s)
  else '(before, from) ← find_str p s; Some (String a before, from).
Proof. done. Qed.

Lemma find_str_here p s : starts_with p s = true → find_str p s = Some ("", s).
Proof. intros Hs. destruct s; simpl in *; by rewrite Hs. Qed.

Lemma find_str_prefix p s t : find_str p (s +:+ t) = None → find_str p s = None.
Proof.
  induction s as [|a s IH]; intros H.
  - simpl. destruct (starts_with p "") eqn:E; [|done].
    by rewrite (find_str_here p ("" +:+ t) (starts_with_extend p "" t E)) in H.
  - rewrite string_app_cons, find_str_cons in *. destruct (starts_with p (String a s)) eqn:E.
    { by rewrite <- string_app_cons, (starts_with_extend _ _ t E) in H. }
    destruct (starts_with p (String a (s +:+ t))); [done|].
    destruct (find_str p (s +:+ t)) as [[]|] eqn:Ef; [done|]. by rewrite IH.
Qed.

(** A pattern without the separator is found on one side of it. *)
Lemma starts_with_sep c p s t :
  has_char c p = false → starts_with p (s +:+ String c t) = true → starts_with p s = true.
Proof.
  revert s. induction p as [|a p IH]; intros s Hp Hs; [apply starts_with_app; by exists s|].
  simpl in Hp. apply orb_false_iff in Hp as [Ha Hp]. destruct s as [|b s].
  - change ("" +:+ String c t) with (String c t) in Hs. rewrite starts_with_cons, Ha in Hs. done.
  - rewrite string_app_cons, starts_with_cons in *. apply andb_true_iff in Hs as [-> Hs]. simpl. by apply IH.
Qed.

Lemma find_str_sep c p s t :
  has_char c p = false → p ≠ "" → find_str p s = None →
  find_str p (s +:+ String c t) = '(before, from) ← find_str p t; Some (s +:+ String c before, from).
Proof.
  intros Hp Hne. induction s as [|a s IH]; intros Hs.
  - change ("" +:+ String c t) with (String c t). rewrite find_str_cons.
    destruct (starts_with p (String c t)) eqn:E; [|done].
    change (String c t) with ("" +:+ String c t) in E. apply starts_with_sep in E; [|done].
    by destruct p.
  - rewrite string_app_cons, find_str_cons in *. destruct (starts_with p (String a s)) eqn:E; [done|].
    destruct (starts_with p (String a (s +:+ String c t))) eqn:E'.
    { rewrite <- string_app_cons in E'. apply starts_with_sep in E'; [congruence|done]. }
    destruct (find_str p s) as [[]|] eqn:Ef; [done|]. rewrite IH by done.
    by destruct (find_str p t) as [[]|].
Qed.

(** What is found consists of characters of the text. *)
Lemma find_str_chars p s c : has_char c p = true → has_char c s = false → find_str p s = None.
Proof.
  intros Hp. induction s as [|a s IH]; intros Hs.
  - simpl. destruct (starts_with p "") eqn:E; [|done]. apply starts_with_app in E as [q Hq].
    destruct p; [done|]. by rewrite string_app_cons in Hq.
  - rewrite find_str_cons. destruct (starts_with p (String a s)) eqn:E.
    + apply starts_with_app in E as [q Hq]. rewrite Hq, has_char_app, Hp in Hs. done.
    + simpl in Hs. apply orb_false_iff in Hs as [_ Hs]. by rewrite IH.
Qed.

Lemma ends_with_refl p : ends_with p p = true.
Proof. destruct p; simpl; [done|by rewrite bool_decide_true]. Qed.

Lemma ends_with_split p s : ends_with p s = true → ∃ q, s = q +:+ p.
Proof.
  induction s as [|a s IH]; simpl; rewrite orb_true_iff, bool_decide_eq_true.
  - intros [->|]; [by exists ""|done].
  - intros [->|Hs]; [by exists ""|]. destruct (IH Hs) as [q ->]. by exists (String a q).
Qed.

(** ** The section *)

(** None of the texts of a patch has the character [<] of the closing marker. *)
Definition spec_clean (s : PatchSpec) : bool :=
  negb (has_char "<" (spec_source s)) && negb (has_char "<" (spec_crate s)) &&
  negb (has_char "<" (spec_path s)).

Definition no_lt (s : string) : Prop := has_char "<" s = false.
Definition group_clean (g : string * list (string * string)) : Prop :=
  no_lt g.1 ∧ Forall (λ c, no_lt c.1 ∧ no_lt c.2) g.2.

Lemma assoc_insert_Forall {B} (P : string * B → Prop) k b l :
  P (k, b) → Forall P l → Forall P (assoc_insert k b l).
Proof.
  intros Hk. induction 1 as [|[k' b'] l Hx Hl IH]; simpl; [by repeat constructor|].
  destruct (String.compare k k'); by repeat constructor.
Qed.

Lemma assoc_get_Forall {B} (P : string * B → Prop) k b l :
  Forall P l → assoc_get k l = Some b → P (k, b).
Proof.
  induction 1 as [|[k' b'] l Hx Hl IH]; simpl; [done|]. case_bool_decide; [|done].
  intros [= ->]. by subst.
Qed.

Lemma group_specs_clean specs : Forall (λ s, spec_clean s = true) specs → Forall group_clean (group_specs specs).
Proof.
  unfold group_specs. intros Hs. assert (Hnil : Forall group_clean []) by constructor. revert Hnil.
  generalize (@nil (string * list (string * string))) as g.
  induction Hs as [|s specs Hc Hs IH]; intros g Hg; simpl; [done|]. apply IH.
  unfold spec_clean in Hc. rewrite !andb_true_iff, !negb_true_iff in Hc. destruct Hc as [[Hsrc Hcr] Hpa].
  apply assoc_insert_Forall; [|done]. split; [done|]. simpl. apply assoc_insert_Forall; [done|].
  destruct (assoc_get (spec_source s) g) as [cs|] eqn:Eg; simpl; [|constructor].
  by apply (assoc_get_Forall group_clean _ _ _ Hg) in Eg as [_ Hcs].
Qed.

Lemma no_lt_concat l : Forall no_lt l → no_lt (str_concat l).
Proof.
  induction 1 as [|s l Hs Hl IH]; [done|]. unfold no_lt in *. simpl. by rewrite has_char_app, Hs.
Qed.

Lemma no_lt_join sep l : no_lt sep → Forall no_lt l → no_lt (str_join sep l).
Proof.
  intros Hsep. induction 1 as [|s l Hs Hl IH]; [done|]. unfold no_lt in *. destruct l; [done|].
  change (str_join sep (s :: s0 :: l)) with (s +:+ sep +:+ str_join sep (s0 :: l)).
  by rewrite !has_char_app, Hs, Hsep.
Qed.

Lemma render_group_clean g : group_clean g → no_lt (render_group g).
Proof.
  intros [Hg Hc]. unfold no_lt, render_group. rewrite !has_char_app, Hg.
  assert (Hl : no_lt (str_concat (render_crate <$> g.2))).
  { apply no_lt_concat, Forall_fmap. eapply Forall_impl; [exact Hc|]. intros c [H1 H2].
    unfold compose, no_lt, render_crate in *. by rewrite !has_char_app, H1, H2. }
  by rewrite Hl.
Qed.

Lemma find_end_in_section specs :
  Forall (λ s, spec_clean s = true) specs →
  ∃ b, find_str PATCH_END_MARKER (render_devspace_section specs) = Some (b, PATCH_END_MARKER +:+ nl).
Proof.
  intros Hs. unfold render_devspace_section.
  assert (Hbody : no_lt (str_join nl (render_group <$> group_specs specs))).
  { apply no_lt_join; [done|]. apply Forall_fmap. eapply Forall_impl; [by apply group_specs_clean|].
    apply render_group_clean. }
  set (body := str_join nl _) in *.
  rewrite !nl_app.
  rewrite (find_str_sep "010") by done.
  rewrite (find_str_sep "010") by done.
  rewrite (find_str_sep "010"); [|done|done|by apply (find_str_chars _ _ "<")].
  rewrite find_str_here by (apply starts_with_extend, starts_with_refl). eauto.
Qed.

Lemma ends_with_nl_app s : ends_with nl (s +:+ nl) = true.
Proof. apply ends_with_app. Qed.

Lemma ends_with_suffix p q s : ends_with (p +:+ q) s = true → ends_with q s = true.
Proof. intros [t ->]%ends_with_split. rewrite <- string_app_assoc. apply ends_with_app. Qed.

(** Padding adds newlines, at most two; the result is empty or ends with two. *)
Lemma pad_config_cases c :
  (c = "" ∧ pad_config c = "") ∨
  (∃ d, c = d +:+ nl +:+ nl ∧ pad_config c = c) ∨
  (∃ d, c = d +:+ nl ∧ pad_config c = c +:+ nl) ∨
  pad_config c = (c +:+ nl) +:+ nl.
Proof.
  unfold pad_config. destruct (str_is_empty c) eqn:Ee; [left; by destruct c|]. right. simpl.
  destruct (ends_with nl c) eqn:E1; simpl.
  - rewrite Ee. simpl. destruct (ends_with (nl +:+ nl) c) eqn:E2; simpl.
    + left. apply ends_with_split in E2 as [d ->]. by exists d.
    + right; left. apply ends_with_split in E1 as [d ->]. by exists d.
  - right; right. assert (Hc : str_is_empty (c +:+ nl) = false) by by destruct c.
    rewrite Hc. simpl. destruct (ends_with (nl +:+ nl) (c +:+ nl)) eqn:E2; [|done].
    apply ends_with_split in E2 as [d Hd]. rewrite <- string_app_assoc in Hd.
    assert (Hinj : ∀ u v, u +:+ nl = v +:+ nl → u = v).
    { clear. induction u as [|a u IH]; intros [|b v] H; [done|..].
      - change ("" +:+ nl) with (String "010" "") in H. rewrite string_app_cons in H.
        injection H as _ H. by destruct v.
      - change ("" +:+ nl) with (String "010" "") in H. rewrite string_app_cons in H.
        injection H as _ H. by destruct u.
      - rewrite !string_app_cons in H. injection H as -> H. f_equal. by apply IH. }
    apply Hinj in Hd. by rewrite Hd, ends_with_app in E1.
Qed.

Lemma pad_config_tail c : ∃ t, pad_config c = c +:+ t ∧ t ∈ [""; nl; nl +:+ nl].
Proof.
  destruct (pad_config_cases c) as [[-> ->]|[(d & _ & ->)|[(d & _ & ->)| ->]]].
  - exists "". split; [done|by left].
  - exists "". split; [by rewrite string_app_nil_r|by left].
  - exists nl. split; [done|right; by left].
  - exists (nl +:+ nl). split; [by rewrite string_app_assoc|right; right; by left].
Qed.

Lemma pad_config_idemp c : pad_config (pad_config c) = pad_config c.
Proof.
  assert (Hdone : ∀ s, str_is_empty s = true ∨ ends_with (nl +:+ nl) s = true → pad_config s = s).
  { intros s [Hs|Hs]; [by destruct s|]. unfold pad_config.
    rewrite (ends_with_suffix nl nl s Hs), andb_false_r, Hs.
    by rewrite andb_false_r. }
  apply Hdone. destruct (pad_config_cases c) as [[_ ->]|[(d & -> & ->)|[(d & -> & ->)| ->]]];
    [by left|right..].
  - apply ends_with_app.
  - rewrite string_app_assoc. apply ends_with_app.
  - rewrite string_app_assoc. apply ends_with_app.
Qed.

Lemma find_begin_nl d :
  find_str PATCH_BEGIN_MARKER d = None → find_str PATCH_BEGIN_MARKER (d +:+ nl) = None.
Proof.
  intros Hd. rewrite <- (string_app_nil_r nl), nl_app. by rewrite (find_str_sep "010").
Qed.

Lemma find_begin_padded c sect :
  find_str PATCH_BEGIN_MARKER c = None → starts_with PATCH_BEGIN_MARKER sect = true →
  find_str PATCH_BEGIN_MARKER (pad_config c +:+ sect) = Some (pad_config c, sect).
Proof.
  intros Hc Hs.
  assert (Hline : ∀ d, find_str PATCH_BEGIN_MARKER d = None →
    find_str PATCH_BEGIN_MARKER ((d +:+ nl) +:+ sect) = Some (d +:+ nl, sect)).
  { intros d Hd. rewrite string_app_assoc, nl_app, (find_str_sep "010") by done.
    by rewrite (find_str_here _ sect Hs). }
  destruct (pad_config_cases c) as [[-> ->]|[(d & Hd & ->)|[(d & Hd & ->)| ->]]].
  - by apply find_str_here.
  - rewrite Hd, <- string_app_assoc. apply Hline. rewrite Hd, <- string_app_assoc in Hc.
    by eapply find_str_prefix.
  - by apply Hline.
  - by apply Hline, find_begin_nl.
Qed.

Lemma strip_padded c specs :
  find_str PATCH_BEGIN_MARKER c = None → Forall (λ s, spec_clean s = true) specs →
  strip_devspace_section (pad_config c +:+ render_devspace_section specs) = (pad_config c, true).
Proof.
  intros Hc Hs. unfold strip_devspace_section. rewrite find_begin_padded; [|done|].
  2: { unfold render_devspace_section. apply starts_with_extend, starts_with_refl. }
  destruct (find_end_in_section specs Hs) as [b ->].
  change (str_drop (String.length PATCH_END_MARKER) (PATCH_END_MARKER +:+ nl)) with nl.
  change (strip_prefix crlf nl) with (@None string). change (strip_prefix nl nl) with (Some "").
  cbn [default]. by rewrite string_app_nil_r.
Qed.

Lemma strip_none c : find_str PATCH_BEGIN_MARKER c = None → strip_devspace_section c = (c, false).
Proof. intros Hc. unfold strip_devspace_section. by rewrite Hc. Qed.

Lemma patched_config_eq c specs :
  patched_config c specs = pad_config (strip_devspace_section c).1 +:+ render_devspace_section specs.
Proof.
  unfold patched_config. cbv zeta. set (p := pad_config _).
  assert (ends_with nl (p +:+ render_devspace_section specs) = true) as ->; [|done].
  unfold render_devspace_section. rewrite <- !string_app_assoc. apply ends_with_app.
Qed.

Lemma patched_config_clean c specs :
  find_str PATCH_BEGIN_MARKER c = None →
  patched_config c specs = pad_config c +:+ render_devspace_section specs.
Proof. intros Hc. by rewrite patched_config_eq, strip_none. Qed.

(** C37: Patching a configuration that is already patched is the same as patching the
    original: the old section is replaced, whatever patches it held, and the text
    around it does not grow. *)
Theorem repatching_replaces c old new :
  find_str PATCH_BEGIN_MARKER c = None → Forall (λ s, spec_clean s = true) old →
  patched_config (patched_config c old) new = patched_config c new.
Proof.
  intros Hc Hs. rewrite (patched_config_clean c old), (patched_config_clean c new) by done.
  rewrite patched_config_eq, strip_padded by done. cbn [fst]. by rewrite pad_config_idemp.
Qed.

(** ** Starting and stopping *)

(** The contents of the two files that are managed. *)
Class WorkspaceView (W : Type) : Type := ws_text : W → string → option string.

Definition texts {W} `{!WorkspaceView W} (w : W) : option string * option string :=
  (ws_text w CONFIG, ws_text w STATE_FILE).

(** Directories of submodules. *)
Definition module_dir (p : string) : Prop :=
  starts_with "modules/" p = true ∨ starts_with ".git/modules/" p = true.

(** The two files can be read and written, nothing else changes them, and a state
    that has been encoded can be decoded. *)
Class WorkspaceOk (W : Type) `{!Workspace W} `{!WorkspaceView W} : Prop := {
  exists_law w p : p ∈ [CONFIG; STATE_FILE] → ws_exists p w = bool_decide (is_Some (ws_text w p));
  read_law w p t : p ∈ [CONFIG; STATE_FILE] → ws_text w p = Some t →
    ∃ w', ws_read p w = (Ok t, w') ∧ texts w' = texts w;
  write_config_law w t :
    ∃ w', ws_write CONFIG t w = (Ok (), w') ∧ texts w' = (Some t, ws_text w STATE_FILE);
  write_state_law w t :
    ∃ w', ws_write STATE_FILE t w = (Ok (), w') ∧ texts w' = (ws_text w CONFIG, Some t);
  git_law args : keeps (λ _, True) texts (ws_git args);
  mkdir_law p : keeps (λ _, True) texts (ws_create_dir_all p);
  rmdir_law p : module_dir p → keeps (λ _, True) texts (ws_remove_dir_all p);
  decode_law x : state_decode (state_encode x) = Some x;
}.

Section start_stop.
Context {W : Type} `{!Workspace W} `{!WorkspaceView W} `{!WorkspaceOk W}.
Abbreviation quiet := (keeps (λ _, True) (texts (W := W))).

Lemma quiet_context {A} msg (m : st W () A) : quiet m → quiet (context msg m).
Proof. intros Hm w _. specialize (Hm w I). unfold context. by destruct (m w) as [[]]. Qed.

Lemma quiet_attempt {A} (m : st W string A) : quiet m → quiet (attempt (E' := string) m).
Proof. intros Hm w _. specialize (Hm w I). unfold attempt. by destruct (m w) as [[]]. Qed.

Lemma quiet_exists p : quiet (exists_path p).
Proof. apply keeps_gets. Qed.

Lemma quiet_run_git args : quiet (run_git args).
Proof.
  apply keeps_bind; [apply quiet_context, git_law|]. intros []; [apply keeps_ret|apply keeps_throw].
Qed.

Lemma quiet_try_git args : quiet (try_git args).
Proof. apply keeps_bind; [apply quiet_attempt, quiet_run_git|intros; apply keeps_ret]. Qed.

Lemma quiet_remove_module p : starts_with "modules/" p = true → quiet (remove_module p).
Proof.
  intros Hp. assert (Hg : module_dir (path_join ".git/modules" p)).
  { right. apply starts_with_app in Hp as [t ->]. unfold path_join. apply starts_with_app.
    by exists ("modules/" +:+ t). }
  apply keeps_bind; [apply quiet_try_git|intros _].
  apply keeps_bind; [apply quiet_exists|intros b].
  apply keeps_bind; [destruct b; [by apply quiet_context, rmdir_law|apply keeps_ret]|intros _].
  apply keeps_bind; [apply quiet_exists|intros []; [|apply keeps_ret]].
  apply keeps_bind; [apply quiet_try_git|intros _].
  apply keeps_bind; [apply quiet_exists|intros []; [|apply keeps_ret]].
  apply quiet_context, rmdir_law. by left.
Qed.

Lemma quiet_remove_all l : Forall (λ p, starts_with "modules/" p = true) l → quiet (remove_all l).
Proof.
  induction 1 as [|p l Hp _ IH]; simpl; [apply keeps_ret|].
  apply keeps_bind; [by apply quiet_remove_module|done].
Qed.

Definition modules_ok (st : DevspaceState) : Prop :=
  map_Forall (λ _ p, starts_with "modules/" p = true) (ds_modules st).

Lemma quiet_remove_submodules st : modules_ok st → quiet (remove_submodules (ds_modules st)).
Proof.
  intros Hm. apply quiet_remove_all, Forall_forall. intros p Hp.
  apply list_elem_of_fmap in Hp as ([k x] & -> & Hx). apply elem_of_map_to_list in Hx. by eapply Hm.
Qed.

Lemma ensure_submodules_spec repos st w st' w' :
  Forall (λ r, starts_with "modules/" (repo_dest r) = true) repos → modules_ok st →
  ensure_submodules repos st w = (Ok st', w') →
  texts w' = texts w ∧ modules_ok st' ∧ ds_patches st' = ds_patches st.
Proof.
  intros Hr. revert st w. induction Hr as [|r repos Hd _ IH]; intros st w Hst He.
  { by injection He as <- <-. }
  simpl in He. apply st_bind_ok in He as (b & w1 & Hb & He).
  pose proof (keeps_run _ _ _ _ _ _ (quiet_exists _) I Hb) as H1. destruct b.
  { destruct (IH _ _ Hst He) as (H2 & ?). by rewrite H2. }
  apply st_bind_ok in He as (? & w2 & Hg1 & He). apply st_bind_ok in He as (? & w3 & Hg2 & He).
  pose proof (keeps_run _ _ _ _ _ _ (quiet_run_git _) I Hg1) as H2.
  pose proof (keeps_run _ _ _ _ _ _ (quiet_run_git _) I Hg2) as H3.
  destruct (IH (add_module r st) w3) as (H4 & H5 & H6); [|done|].
  - intros k p. unfold add_module. simpl. rewrite lookup_insert_Some. intros [[_ <-]|[_ Hp]]; [done|by eapply Hst].
  - split_and!; [congruence|done|done].
Qed.

Lemma save_state_spec st w :
  (∃ w', save_state st w = (Ok (), w') ∧ texts w' = (ws_text w CONFIG, Some (state_encode st))) ∨
  ∃ e w', save_state st w = (e, w') ∧ e ≠ Ok () ∧ texts w' = texts w.
Proof.
  pose proof (mkdir_law STATE_DIR w I) as Hm. unfold save_state, mbind, st_bind, context.
  destruct (ws_create_dir_all STATE_DIR w) as [[[]|[]|] w1]; simpl in Hm;
    [left|right; eexists _, _; (split; [reflexivity|by split])..].
  destruct (write_state_law w1 (state_encode st)) as (w2 & Hw & Ht). exists w2.
  rewrite Hw. split; [done|]. rewrite Ht. unfold texts in Hm. congruence.
Qed.

Lemma load_state_fresh w :
  ws_text w STATE_FILE = None → load_state w = (Ok (mkDevspace ∅ []), w).
Proof.
  intros Hn. unfold load_state, exists_path. st_run. rewrite exists_law by (right; by left).
  by rewrite Hn.
Qed.

Lemma load_state_saved w st :
  ws_text w STATE_FILE = Some (state_encode st) →
  ∃ w', load_state w = (Ok st, w') ∧ texts w' = texts w.
Proof.
  intros Hs. destruct (read_law w STATE_FILE _ ltac:(right; by left) Hs) as (w' & Hr & Ht).
  exists w'. split; [|done]. unfold load_state, exists_path. st_run.
  rewrite exists_law by (right; by left). rewrite Hs. simpl. unfold context. rewrite Hr.
  by rewrite decode_law.
Qed.

Lemma apply_patches_spec specs w :
  specs ≠ [] → ∃ w', apply_patches specs w = (Ok (), w') ∧
    texts w' = (Some (patched_config (default "" (ws_text w CONFIG)) specs), ws_text w STATE_FILE).
Proof.
  intros Hne. unfold apply_patches. destruct specs as [|x specs]; [done|]. simpl.
  unfold exists_path. st_run. rewrite exists_law by by left.
  destruct (ws_text w CONFIG) as [c|] eqn:Hc; simpl.
  - destruct (read_law w CONFIG c ltac:(by left) Hc) as (w1 & Hr & Ht). unfold context at 1. rewrite Hr.
    destruct (write_config_law w1 (patched_config c (x :: specs))) as (w2 & Hw & Ht2).
    exists w2. unfold context. rewrite Hw. split; [done|]. rewrite Ht2. unfold texts in Ht. congruence.
  - destruct (write_config_law w (patched_config "" (x :: specs))) as (w2 & Hw & Ht2).
    exists w2. unfold context. by rewrite Hw.
Qed.

Lemma remove_patches_spec w c specs :
  find_str PATCH_BEGIN_MARKER c = None → Forall (λ s, spec_clean s = true) specs →
  ws_text w CONFIG = Some (patched_config c specs) →
  ∃ w', remove_patches w = (Ok (), w') ∧ texts w' = (Some (pad_config c), ws_text w STATE_FILE).
Proof.
  intros Hc Hs Hw. destruct (read_law w CONFIG _ ltac:(by left) Hw) as (w1 & Hr & Ht).
  destruct (write_config_law w1 (pad_config c)) as (w2 & Hw2 & Ht2). exists w2.
  unfold remove_patches, exists_path. st_run. rewrite exists_law by by left. rewrite Hw. simpl.
  unfold context at 1. rewrite Hr, patched_config_clean, strip_padded by done. unfold context. rewrite Hw2.
  split; [done|]. rewrite Ht2. unfold texts in Ht. congruence.
Qed.

Lemma resolve_repos_dest packages repos :
  resolve_dev_repos packages = Ok repos →
  repos ≠ [] ∧ Forall (λ r, starts_with "modules/" (repo_dest r) = true) repos.
Proof.
  unfold resolve_dev_repos. intros Hr.
  assert (Hdest : ∀ n r, resolve_repo packages n = Ok r → starts_with "modules/" (repo_dest r) = true).
  { intros n r. unfold resolve_repo. destruct (filter _ packages); [done|].
    intros H. apply outcome_bind_ok in H as (src & _ & H). apply outcome_bind_ok in H as ([ps url] & _ & H).
    injection H as <-. simpl. apply starts_with_app. by exists n. }
  assert (Hall : ∀ l rs, collect (resolve_repo packages) l = Ok rs →
    length rs = length l ∧ Forall (λ r, starts_with "modules/" (repo_dest r) = true) rs).
  { induction l as [|n l IH]; intros rs H; simpl in H; [by injection H as <-|].
    apply outcome_bind_ok in H as (r & H1 & H). apply outcome_bind_ok in H as (rs' & H2 & H).
    injection H as <-. destruct (IH _ H2). simpl. split; [lia|]. constructor; [by eapply Hdest|done]. }
  destruct (Hall _ _ Hr) as [Hl Hf]. split; [|done]. by intros ->.
Qed.

Lemma compute_specs_nonempty packages repos specs :
  compute_patch_specs packages repos = Ok specs → repos ≠ [] → specs ≠ [].
Proof. unfold compute_patch_specs. intros H Hr ->. destruct repos; [done|]. simpl in H. case_match; [done|].
  injection H as H. rewrite H in *. done. Qed.

Lemma start_spec packages w w1 :
  ws_text w STATE_FILE = None → start packages w = (Ok (), w1) →
  ∃ repos specs st, resolve_dev_repos packages = Ok repos ∧
    compute_patch_specs packages repos = Ok specs ∧ ds_patches st ≠ [] ∧ modules_ok st ∧
    texts w1 = (Some (patched_config (default "" (ws_text w CONFIG)) specs), Some (state_encode st)).
Proof.
  intros Hfresh Hs. unfold start in Hs. apply st_bind_ok in Hs as (repos & wa & Ha & Hs).
  unfold lift in Ha. injection Ha as Hrepos <-.
  rewrite (bind_run _ _ _ _ _ (load_state_fresh w Hfresh)) in Hs.
  apply st_bind_ok in Hs as (st1 & wb & Hb & Hs).
  destruct (resolve_repos_dest _ _ Hrepos) as [Hne Hdest].
  destruct (ensure_submodules_spec _ (mkDevspace ∅ []) _ _ _ Hdest (map_Forall_empty _) Hb)
    as (Hkb & Hmod & _).
  apply st_bind_ok in Hs as ([] & wc & Hc & Hs).
  destruct (save_state_spec st1 wb) as [(wc' & Hc' & Hkc)|(e & wc' & Hc' & He & _)]; [|congruence].
  rewrite Hc' in Hc. injection Hc as ->. apply st_bind_ok in Hs as (specs & wd & Hd & Hs).
  unfold lift in Hd. injection Hd as Hspecs <-.
  pose proof (compute_specs_nonempty _ _ _ Hspecs Hne) as Hsp.
  destruct (apply_patches_spec specs wc Hsp) as (we & He & Hke).
  rewrite (bind_run _ _ _ _ _ He) in Hs. set (st2 := mkDevspace _ _) in Hs.
  destruct (save_state_spec st2 we) as [(wf & Hf & Hkf)|(e & wf & Hf & Hno & _)]; [|congruence].
  rewrite Hf in Hs. injection Hs as <-. exists repos, specs, st2.
  split_and!; [done|done|by destruct specs|done|]. rewrite Hkf. unfold texts in *.
  by injection Hke as -> _; injection Hkc as -> _; injection Hkb as -> _.
Qed.

Lemma stop_spec w c specs st :
  find_str PATCH_BEGIN_MARKER c = None → Forall (λ s, spec_clean s = true) specs →
  ds_patches st ≠ [] → modules_ok st →
  texts w = (Some (patched_config c specs), Some (state_encode st)) →
  ws_text (stop w).2 CONFIG = Some (pad_config c).
Proof.
  intros Hc Hcl Hne Hmod Hw. unfold texts in Hw. injection Hw as Hw1 Hw2.
  destruct (load_state_saved w st Hw2) as (wa & Ha & Hka). unfold stop.
  rewrite (bind_run _ _ _ _ _ Ha). cbn beta. destruct (ds_patches st) as [|x l]; [done|]. cbn [is_empty negb].
  destruct (remove_patches_spec wa c specs Hc Hcl) as (wb & Hb & Hkb); [unfold texts in Hka; congruence|].
  rewrite (bind_run _ _ _ _ _ Hb). cbn beta.
  set (rm := if bool_decide (ds_modules st ≠ ∅) then remove_submodules (ds_modules st) else mret ()).
  assert (Hq : quiet rm)
    by (unfold rm; destruct (bool_decide _); [by apply quiet_remove_submodules|apply keeps_ret]).
  specialize (Hq wb I). unfold mbind, st_bind. destruct (rm wb) as [[[]|e|] wc]; simpl in Hq;
    [|unfold texts in *; simpl; congruence..].
  destruct (save_state_spec (mkDevspace ∅ []) wc) as [(wd & -> & Hkd)|(e & wd & -> & _ & Hkd)];
    unfold texts in *; simpl; congruence.
Qed.

(** C36: Stopping undoes starting: when [start] has succeeded in a workspace that had
    not been started, [stop] brings [.cargo/config.toml] back to what it was, up to
    newlines at its end, even when removing a submodule fails on the way. *)
Theorem stop_restores_config packages w w1 r w2 :
  ws_text w STATE_FILE = None →
  find_str PATCH_BEGIN_MARKER (default "" (ws_text w CONFIG)) = None →
  (∀ repos specs, resolve_dev_repos packages = Ok repos →
     compute_patch_specs packages repos = Ok specs → Forall (λ s, spec_clean s = true) specs) →
  start packages w = (Ok (), w1) → stop w1 = (r, w2) →
  ∃ t, t ∈ [""; nl; nl +:+ nl] ∧
    ws_text w2 CONFIG = Some (default "" (ws_text w CONFIG) +:+ t).
Proof.
  intros Hfresh Hc Hclean Hstart Hstop. set (c := default "" (ws_text w CONFIG)) in *.
  destruct (pad_config_tail c) as (t & Hpad & Ht). exists t. split; [done|]. rewrite <- Hpad.
  destruct (start_spec _ _ _ Hfresh Hstart) as (repos & specs & st & Hr & Hs & Hne & Hmod & Htx).
  pose proof (stop_spec w1 c specs st Hc (Hclean _ _ Hr Hs) Hne Hmod Htx) as Hres.
  by rewrite Hstop in Hres.
Qed.
End start_stop.

(** ** Examples *)
Module DevspaceExamples.

(** States as strings of binary digits. *)
Fixpoint pos_to_str (p : positive) : string :=
  match p with xH => "" | xO p => String "0" (pos_to_str p) | xI p => String "1" (pos_to_str p) end.
Fixpoint str_to_pos (s : string) : positive :=
  match s with
  | "" => xH
  | String a s => if bool_decide (a = "0"%char) then xO (str_to_pos s) else xI (str_to_pos s)
  end.

Lemma str_to_pos_to_str p : str_to_pos (pos_to_str p) = p.
Proof. induction p; simpl; [by f_equal..|done]. Qed.

#[local] Instance state_eq_dec : EqDecision DevspaceState.
Proof. solve_decision. Defined.
#[local] Instance state_countable : Countable DevspaceState :=
  inj_countable' (λ s, (ds_modules s, ds_patches s)) (λ p, mkDevspace p.1 p.2) (λ s, match s with mkDevspace _ _ => eq_refl end).

(** A workspace of files in which git always succeeds. *)
#[local] Instance files : Workspace (gmap string string) := {|
  ws_exists p w := bool_decide (is_Some (w !! p));
  ws_read p := w ← get; lift (ok_or (w !! p) ());
  ws_write p t := modify <[p := t]>;
  ws_create_dir_all _ := mret ();
  ws_remove_dir_all _ := mret ();
  ws_git _ := mret true;
  state_encode s := pos_to_str (encode s);
  state_decode s := decode (str_to_pos s);
|}.
#[local] Instance files_view : WorkspaceView (gmap string string) := λ w p, w !! p.

#[local] Instance files_ok : WorkspaceOk (gmap string string).
Proof.
  split; simpl.
  - done.
  - intros w p t _ Hp. exists w. unfold ws_text, files_view in Hp. st_run. by rewrite Hp.
  - intros w t. eexists. split; [done|]. unfold texts, ws_text, files_view.
    by rewrite lookup_insert_eq, lookup_insert_ne.
  - intros w t. eexists. split; [done|]. unfold texts, ws_text, files_view.
    by rewrite lookup_insert_eq, lookup_insert_ne.
  - intros args. apply keeps_ret.
  - intros p. apply keeps_ret.
  - intros p _. apply keeps_ret.
  - intros x. by rewrite str_to_pos_to_str, decode_encode.
Qed.

Definition package (name : string) : Package :=
  mkPackage name (Some ("git+https://github.com/arceos-hypervisor/" +:+ name +:+ ".git?branch=main#1a2b3c"))
    None ("/home/u/.cargo/git/checkouts/" +:+ name +:+ "-0123/1a2b3c/Cargo.toml").
Definition packages : list Package := package <$> DEVSPACE_REPOS.
Definition before : gmap string string := {[ CONFIG := "[build]" +:+ nl ]}.

Lemma packages_clean repos specs :
  resolve_dev_repos packages = Ok repos → compute_patch_specs packages repos = Ok specs →
  Forall (λ s, spec_clean s = true) specs.
Proof.
  intros Hr Hs. vm_compute in Hr. injection Hr as <-. vm_compute in Hs. injection Hs as <-.
  repeat (constructor; [done|]). constructor.
Qed.

Lemma stop_restores_config_witness :
  ∃ t, t ∈ [""; nl; nl +:+ nl] ∧
    ws_text (stop (start packages before).2).2 CONFIG =
    Some (default "" (ws_text before CONFIG) +:+ t).
Proof.
  apply (stop_restores_config packages before (start packages before).2
           (stop (start packages before).2).1 (stop (start packages before).2).2).
  - reflexivity.
  - reflexivity.
  - exact packages_clean.
  - vm_compute. reflexivity.
  - by destruct (stop _).
Defined.

Definition one_spec (path : string) : list PatchSpec := [mkSpec "crates-io" "arm_vcpu" path].

Lemma repatching_replaces_witness :
  patched_config (patched_config "[build]" (one_spec "modules/a")) (one_spec "modules/b") =
  patched_config "[build]" (one_spec "modules/b").
Proof.
  apply (repatching_replaces "[build]" (one_spec "modules/a") (one_spec "modules/b"));
    [reflexivity|repeat constructor].
Defined.
End DevspaceExamples.
