(* ===== verification/Clippy.v ===== *)
(** * The clippy runner ([xtask/src/clippy.rs])

    [cargo xtask clippy] runs clippy for every target, package and feature and counts
    the results.  Running cargo is a parameter; the command lines that are run are
    recorded.  Messages are left out. *)

From Stdlib Require Import Ascii.
From S2P Require Import Prelude RustStr.

(** ** Data *)

Record ClippyArgs : Type := mkClippyArgs {
  arg_packages : option string;
  arg_targets : option string;
  continue_on_error : bool;
  dry_run : bool;
  fix_warnings : bool;
  allow_dirty : bool;
}.

Record ClippyStats : Type := mkStats {
  total_checks : Z;
  passed_checks : Z;
  failed_checks : Z;
  skipped_checks : Z;
}.

(** A package of the workspace; the features are the keys of a [BTreeMap]. *)
Record Package : Type := mkPackage {
  pkg_id : string;
  pkg_name : string;
  pkg_features : list string;
}.

Record Output : Type := mkOutput {
  out_success : bool;
  out_code : option Z;
  out_stdout : string;
  out_stderr : string;
}.

(** What running [cargo] with these arguments gives; [None] when it cannot be run. *)
Class Cargo : Type := cargo : list string → option Output.

Record runner : Type := mkRunner {
  stats : ClippyStats;
  has_errors : bool;
  runs : list (list string);
}.

Definition TARGETS : list string := ["x86_64-unknown-none"; "aarch64-unknown-none-softfloat"].
Definition PACKAGE : string := "axvisor".

Definition record_passed (s : ClippyStats) : ClippyStats :=
  mkStats (total_checks s + 1) (passed_checks s + 1) (failed_checks s) (skipped_checks s).
Definition record_failed (s : ClippyStats) : ClippyStats :=
  mkStats (total_checks s + 1) (passed_checks s) (failed_checks s + 1) (skipped_checks s).
Definition record_skipped (s : ClippyStats) : ClippyStats :=
  mkStats (total_checks s + 1) (passed_checks s) (failed_checks s) (skipped_checks s + 1).

(** ** One check *)

Section clippy.
Context `{!Cargo}.
Abbreviation M := (st runner string).

Definition upd_stats (f : ClippyStats → ClippyStats) : M () :=
  modify (λ r, mkRunner (f (stats r)) (has_errors r) (runs r)).

Definition clippy_args (target package : string) (features : list string) (fix_ allow_dirty : bool)
  : list string :=
  ["clippy"; "--target"; target; "-p"; package; "--all-targets"] ++
  (if fix_ then ["--fix"] else []) ++
  (if fix_ && allow_dirty then ["--allow-dirty"] else []) ++
  (if negb (is_empty features) then ["--features"; str_join "," features] else []) ++
  ["--"; "-D"; "warnings"].

(** [cmd.output()], which records the command line. *)
Definition run_cargo (args : list string) : M Output :=
  modify (λ r, mkRunner (stats r) (has_errors r) (runs r ++ [args]));;
  lift (ok_or (cargo args) "Failed to execute cargo clippy").

Definition run_single_clippy (target package : string) (features : list string)
    (continue_on_error fix_ allow_dirty : bool) : M () :=
  output ← run_cargo (clippy_args target package features fix_ allow_dirty);
  if out_success output then
    if negb (str_is_empty (out_stderr output)) &&
       (str_contains "warning:" (out_stderr output) || str_contains "error:" (out_stderr output))
    then throw ("Clippy output warnings or errors:" +:+ of_bytes [10] +:+ out_stderr output)
    else mret ()
  else
    let error_msg :=
      if negb (str_is_empty (out_stderr output)) then out_stderr output
      else if negb (str_is_empty (out_stdout output)) then out_stdout output
      else "clippy check failed, exit code: " +:+ pretty (default (-1) (out_code output)) in
    if continue_on_error then mret () else throw ("Clippy check failed:" +:+ of_bytes [10] +:+ error_msg).

(** One check and its account: the same code follows each of the three calls. *)
Definition check_one (args : ClippyArgs) (target package : string) (features : list string) : M () :=
  if dry_run args then upd_stats record_skipped else λ r,
  match run_single_clippy target package features (continue_on_error args) (fix_warnings args)
          (allow_dirty args) r with
  | (Ok _, r') => upd_stats record_passed r'
  | (Err e, r') =>
      (upd_stats record_failed;;
       if negb (continue_on_error args) then throw e
       else modify (λ r, mkRunner (stats r) true (runs r))) r'
  | (Panic, r') => (Panic, r')
  end.

Fixpoint each {A} (f : A → M ()) (l : list A) : M () :=
  match l with [] => mret () | x :: l => f x;; each f l end.

(** ** All checks *)

(** [s.split(',').map(trim)] as a set *)
Definition comma_set (s : string) : gset string := list_to_set (trim <$> split_char ","%char "" s).

Definition package_filter (args : ClippyArgs) : gset string :=
  match arg_packages args with Some s => comma_set s | None => {[ PACKAGE ]} end.

Definition target_selected (args : ClippyArgs) (target : string) : bool :=
  match arg_targets args with Some s => bool_decide (target ∈ comma_set s) | None => true end.

(** The names are sorted by their bytes. *)
Definition get_package_features (package : Package) : list string :=
  merge_sort (λ a b, str_leb a b)
    (filter (λ f, f ≠ "" ∧ starts_with "dep:" f = false) (pkg_features package)).

Definition workspace_members (args : ClippyArgs) (ids : list string) (packages : list Package)
  : list Package :=
  filter (λ p, pkg_name p ∈ package_filter args)
    (filter (λ p, pkg_name p ≠ "xtask")
      (omap (λ i, List.find (λ p, bool_decide (pkg_id p = i)) packages) ids)).

Definition check_package (args : ClippyArgs) (target : string) (package : Package) : M () :=
  let features := get_package_features package in
  if is_empty features then check_one args target (pkg_name package) []
  else
    each (λ feature, check_one args target (pkg_name package) [feature]) features;;
    check_one args target (pkg_name package) features.

Definition check_target (args : ClippyArgs) (members : list Package) (target : string) : M () :=
  if negb (target_selected args target) then mret ()
  else each (check_package args target) members.

(** [run_clippy] on what [cargo metadata] reports: the identifiers of the members and
    the packages. *)
Definition run_clippy (args : ClippyArgs) (ids : list string) (packages : list Package) : M () :=
  let members := workspace_members args ids packages in
  if is_empty members then throw "No matching workspace packages found" else
  put (mkRunner (mkStats 0 0 0 0) false []);;
  each (check_target args members) TARGETS;;
  r ← get;
  if has_errors r then throw "Clippy checks found errors" else mret ().
End clippy.

(** * Theorems *)

(** The checks that are asked for, in order. *)
Definition package_plan (target : string) (p : Package) : list (string * string * list string) :=
  let features := get_package_features p in
  if is_empty features then [(target, pkg_name p, [])]
  else ((λ f, (target, pkg_name p, [f])) <$> features) ++ [(target, pkg_name p, features)].

Definition plan (args : ClippyArgs) (members : list Package) : list (string * string * list string) :=
  target ← filter (λ t, target_selected args t = true) TARGETS;
  p ← members;
  package_plan target p.

Definition check_args (args : ClippyArgs) (c : string * string * list string) : list string :=
  clippy_args c.1.1 c.1.2 c.2 (fix_warnings args) (allow_dirty args).

(** Clippy ran, succeeded, and its output has no warnings. *)
Definition clean_run `{!Cargo} (cmd : list string) : Prop :=
  ∃ out, cargo cmd = Some out ∧ out_success out = true ∧
    (out_stderr out = "" ∨
     str_contains "warning:" (out_stderr out) = false ∧ str_contains "error:" (out_stderr out) = false).

Definition stats_ok (r : runner) : Prop :=
  let s := stats r in total_checks s = passed_checks s + failed_checks s + skipped_checks s.

Section theorems.
Context `{!Cargo}.
Implicit Types (r : runner) (args : ClippyArgs).
Abbreviation M := (st runner string).

Lemma each_app {A} (f : A → M ()) l k r : each f (l ++ k) r = (each f l;; each f k) r.
Proof.
  revert r. induction l as [|x l IH]; intros r; [done|]. simpl. unfold mbind, st_bind in *.
  destruct (f x r) as [[]]; [|done..]. apply IH.
Qed.

Lemma each_bind {A B} (f : B → M ()) (g : A → M ()) (h : A → list B) l r :
  (∀ x r, g x r = each f (h x) r) → each g l r = each f (l ≫= h) r.
Proof.
  intros Hg. revert r. induction l as [|x l IH]; intros r; [done|].
  change ((x :: l) ≫= h) with (h x ++ (l ≫= h)). rewrite each_app.
  change ((g x;; each g l) r = (each f (h x);; each f (l ≫= h)) r).
  unfold mbind at 1 2, st_bind at 1 2. rewrite Hg.
  destruct (each f (h x) r) as [[]]; [apply IH|done..].
Qed.

Abbreviation check args := (λ c : string * string * list string, check_one args c.1.1 c.1.2 c.2).

Lemma check_package_plan args target p r :
  check_package args target p r = each (check args) (package_plan target p) r.
Proof.
  unfold check_package, package_plan. destruct (is_empty (get_package_features p)).
  - simpl. unfold mbind, st_bind. by destruct (check_one _ _ _ _ r) as [[[]|?|]].
  - rewrite each_app. unfold mbind at 1 2, st_bind. generalize (get_package_features p) at 1 3.
    intros l. assert (Hl : ∀ r, each (λ f, check_one args target (pkg_name p) [f]) l r =
      each (check args) ((λ f, (target, pkg_name p, [f])) <$> l) r).
    { induction l as [|f l IH]; intros r'; [done|]. simpl. unfold mbind, st_bind.
      destruct (check_one _ _ _ _ r') as [[]]; [apply IH|done..]. }
    rewrite Hl. destruct (each _ _ r) as [[]]; [|done..]. simpl. unfold mbind, st_bind.
    by destruct (check_one _ _ _ _ r0) as [[[]|?|]].
Qed.

(** The nested loops run the plan. *)
Lemma targets_plan args members r :
  each (check_target args members) TARGETS r = each (check args) (plan args members) r.
Proof.
  assert (Ht : ∀ t r, check_target args members t r =
    each (check args) (if target_selected args t then members ≫= package_plan t else []) r).
  { intros t r'. unfold check_target. destruct (target_selected args t); [|done]. simpl.
    apply each_bind. intros. apply check_package_plan. }
  rewrite (each_bind (check args) _ _ TARGETS r Ht). f_equal. unfold plan.
  generalize TARGETS. intros l. induction l as [|t l IH]; [done|]. rewrite filter_cons.
  unfold mbind in *. destruct (target_selected args t) eqn:E; simpl; rewrite E.
  - f_equal. exact IH.
  - exact IH.
Qed.

Lemma check_one_stats args t p fs : pres stats_ok (check_one args t p fs).
Proof.
  intros r Hr. unfold check_one. destruct (dry_run args).
  { unfold stats_ok in *. simpl in *. lia. }
  unfold run_single_clippy, run_cargo, modify, lift, throw, mbind, st_bind, mret, st_ret. simpl.
  destruct (cargo _) as [out|]; simpl; repeat case_match; simplify_eq/=;
    unfold stats_ok in *; simpl in *; try lia.
Qed.

Lemma each_pres {A} (I : runner → Prop) (f : A → M ()) l : (∀ x, pres I (f x)) → pres I (each f l).
Proof. intros Hf. induction l; simpl; [apply pres_ret|by apply pres_bind]. Qed.

(** However the run ends, the summary adds up: every check that was counted is
    counted as exactly one of passed, failed and skipped. *)
Theorem summary_adds_up args ids packages r r' o :
  workspace_members args ids packages ≠ [] →
  run_clippy args ids packages r = (o, r') → stats_ok r'.
Proof.
  intros Hne Hrun. unfold run_clippy in Hrun.
  destruct (workspace_members _ _ _) as [|p l] eqn:E; [done|].
  change (is_empty (p :: l)) with false in Hrun. cbv iota in Hrun.
  pose proof (each_pres stats_ok (check args) (plan args (p :: l))
    (λ c, check_one_stats args _ _ _) (mkRunner (mkStats 0 0 0 0) false []) eq_refl) as Hp.
  erewrite bind_run in Hrun by done. unfold mbind, st_bind in Hrun. rewrite targets_plan in Hrun.
  destruct (each _ _ _) as [[] r1]; [|by simplify_eq/=..].
  unfold get in Hrun. destruct (has_errors r1); injection Hrun as _ <-; exact Hp.
Qed.

Lemma check_one_ok args t p fs r r' :
  dry_run args = false → continue_on_error args = false →
  check_one args t p fs r = (Ok (), r') →
  clean_run (check_args args (t, p, fs)) ∧
  r' = mkRunner (record_passed (stats r)) (has_errors r) (runs r ++ [check_args args (t, p, fs)]).
Proof.
  intros Hd Hc. unfold check_one, clean_run. rewrite Hd, Hc.
  unfold run_single_clippy, run_cargo, modify, lift, throw, mbind, st_bind, mret, st_ret. simpl.
  unfold check_args. simpl. destruct (cargo _) as [out|]; simpl; [|done].
  destruct (out_success out) eqn:Es; simpl; [|done].
  destruct (negb _ && _) eqn:E; simpl; [done|]. intros [= <-]. split; [|done].
  exists out. split_and!; [done..|]. apply andb_false_iff in E as [E|E%orb_false_iff]; [left|by right].
  apply negb_false_iff in E. by destruct (out_stderr out).
Qed.

Lemma each_check_ok args l r r' :
  dry_run args = false → continue_on_error args = false →
  each (check args) l r = (Ok (), r') →
  Forall (λ c, clean_run (check_args args c)) l ∧
  runs r' = runs r ++ (check_args args <$> l) ∧
  stats r' = mkStats (total_checks (stats r) + Z.of_nat (length l)) (passed_checks (stats r) + Z.of_nat (length l))
    (failed_checks (stats r)) (skipped_checks (stats r)).
Proof.
  intros Hd Hc. revert r. induction l as [|[[t p] fs] l IH]; intros r.
  { intros [= <-]. simpl. rewrite app_nil_r. rewrite !Z.add_0_r.
    split_and!; [constructor|done|by destruct (stats r)]. }
  intros He. apply st_bind_ok in He as ([] & r1 & H1 & (H2 & H3 & H4)%IH).
  apply check_one_ok in H1 as [H1 ->]; [|done..]. simpl in *.
  split_and!; [by constructor|by rewrite H3, <- app_assoc|]. rewrite H4. f_equal; lia.
Qed.

(** A run that is neither dry nor continued past errors and succeeds has run clippy
    once for every selected target, every selected package, each of its features alone
    and all of them together, in this order, and each of these runs succeeded and printed
    no warning and no error. *)
Theorem clippy_ok_is_clean args ids packages r r' :
  dry_run args = false → continue_on_error args = false →
  run_clippy args ids packages r = (Ok (), r') →
  runs r' = check_args args <$> plan args (workspace_members args ids packages) ∧
  Forall clean_run (runs r') ∧
  stats r' = mkStats (Z.of_nat (length (runs r'))) (Z.of_nat (length (runs r'))) 0 0.
Proof.
  intros Hd Hc Hrun. unfold run_clippy in Hrun.
  destruct (is_empty _) in Hrun; [done|].
  apply st_bind_ok in Hrun as ([] & r0 & [= <-] & Hrun).
  apply st_bind_ok in Hrun as ([] & r1 & H1 & Hrun). rewrite targets_plan in H1.
  apply each_check_ok in H1 as (H1 & H2 & H3); [|done..]. simpl in *.
  assert (r1 = r') as ->.
  { unfold mbind, st_bind, get in Hrun. destruct (has_errors r1); [done|]. by injection Hrun. }
  rewrite H2, length_fmap, H3. split_and!; [done| |done]. by apply Forall_fmap.
Qed.

Lemma check_one_continue args t p fs r :
  dry_run args = false → continue_on_error args = true →
  (∀ cmd, ∃ out, cargo cmd = Some out ∧ out_success out = false) →
  check_one args t p fs r =
  (Ok (), mkRunner (record_passed (stats r)) (has_errors r) (runs r ++ [check_args args (t, p, fs)])).
Proof.
  intros Hd Hc Hall. unfold check_one. rewrite Hd, Hc.
  unfold run_single_clippy, run_cargo, modify, lift, throw, mbind, st_bind, mret, st_ret. simpl.
  unfold check_args. simpl. destruct (Hall (clippy_args t p fs (fix_warnings args) (allow_dirty args)))
    as (out & -> & Hout). simpl. by rewrite Hout.
Qed.

Lemma each_check_continue args l r :
  dry_run args = false → continue_on_error args = true →
  (∀ cmd, ∃ out, cargo cmd = Some out ∧ out_success out = false) →
  each (check args) l r =
  (Ok (), mkRunner (mkStats (total_checks (stats r) + Z.of_nat (length l)) (passed_checks (stats r) + Z.of_nat (length l))
    (failed_checks (stats r)) (skipped_checks (stats r))) (has_errors r) (runs r ++ (check_args args <$> l))).
Proof.
  intros Hd Hc Hall. revert r. induction l as [|[[t p] fs] l IH]; intros r.
  { simpl. rewrite !Z.add_0_r, app_nil_r. by destruct r as [[]]. }
  cbn [each]. rewrite (bind_run _ _ _ _ _ (check_one_continue args t p fs r Hd Hc Hall)), IH.
  simpl. rewrite <- app_assoc. do 3 f_equal; lia.
Qed.

(** With [--continue-on-error] a failing clippy is counted as passed: when every run
    of clippy fails, the command still succeeds, and its summary shows every check as
    passed and none as failed. *)
Theorem continue_on_error_hides_failures args ids packages r :
  dry_run args = false → continue_on_error args = true →
  workspace_members args ids packages ≠ [] →
  (∀ cmd, ∃ out, cargo cmd = Some out ∧ out_success out = false) →
  ∃ r', run_clippy args ids packages r = (Ok (), r') ∧
    runs r' = check_args args <$> plan args (workspace_members args ids packages) ∧
    failed_checks (stats r') = 0 ∧ passed_checks (stats r') = Z.of_nat (length (runs r')).
Proof.
  intros Hd Hc Hne Hall. unfold run_clippy.
  destruct (workspace_members _ _ _) as [|p l] eqn:E; [done|].
  change (is_empty (p :: l)) with false. cbv iota.
  eexists. split.
  { erewrite bind_run by done. erewrite bind_run by (rewrite targets_plan; by apply each_check_continue).
    by erewrite bind_run by done. }
  simpl. rewrite length_fmap. split_and!; [done|done|lia].
Qed.
End theorems.

(** ** Examples *)
Module ClippyExamples.

Definition args (continue_ : bool) : ClippyArgs := mkClippyArgs None None continue_ false false false.
Definition packages : list Package :=
  [mkPackage "0" "xtask" []; mkPackage "1" "axvisor" ["fs"; "dep:axfs"; "ept-level-4"]].
Definition passing : Cargo := λ _, Some (mkOutput true (Some 0) "" "    Checking axvisor").
Definition failing : Cargo := λ _, Some (mkOutput false (Some 101) "" "error: unused variable").
Definition start : runner := mkRunner (mkStats 0 0 0 0) false [].

Lemma summary_adds_up_witness :
  let run := run_clippy (H:=failing) (args false) ["0"; "1"] packages start in
  stats_ok run.2 ∧ stats run.2 = mkStats 1 0 1 0.
Proof.
  split; [|by vm_compute].
  eapply (summary_adds_up (H:=failing) (args false) ["0"; "1"] packages start); [by vm_compute|].
  apply surjective_pairing.
Defined.

Lemma clippy_ok_is_clean_witness :
  let run := run_clippy (H:=passing) (args false) ["0"; "1"] packages start in
  Forall (clean_run (H:=passing)) (runs run.2) ∧ length (runs run.2) = 6%nat.
Proof.
  split; [|by vm_compute].
  apply (clippy_ok_is_clean (H:=passing) (args false) ["0"; "1"] packages start);
    [done|done|by vm_compute].
Defined.

Lemma continue_on_error_hides_failures_witness : ∃ r',
  run_clippy (H:=failing) (args true) ["0"; "1"] packages start = (Ok (), r') ∧
  failed_checks (stats r') = 0.
Proof.
  destruct (continue_on_error_hides_failures (H:=failing) (args true) ["0"; "1"] packages start)
    as (r' & H1 & _ & H2 & _); [done|done|by vm_compute|by eexists|by exists r'].
Defined.
End ClippyExamples.
