(* ===== verification/GuestImages.v ===== *)
(** * Guest images ([xtask/src/image.rs])

    [cargo xtask image] lists, downloads, verifies, unpacks and removes the prebuilt guest
    images.  The host ([Host]: the network, SHA-256, archives and the faults of the file
    system) is a parameter; the files and directories are the state.  A path is the list
    of its components; links and [..] are not resolved.  Progress and result messages are
    left out, the table of [image ls] is not. *)

From Stdlib Require Import Ascii.
From S2P Require Import Prelude RustStr Command Devspace.

Abbreviation path := (list string).

(** ** The table of images *)

Record Image : Type := mkImage {
  img_name : string;
  img_description : string;
  sha256 : string;
  img_arch : string;
}.

Definition IMAGE_URL_BASE : string :=
  "https://github.com/arceos-hypervisor/axvisor-guest/releases/download/v0.0.20/".

Definition EVM3588_ARCEOS : Image := mkImage "evm3588_arceos" "ArceOS for EVM3588 development board"
  "c9f197408f14f2cd9d3b9d2e077a9e91d233479713cb24d5280f7dc5562ae800" "aarch64".
Definition EVM3588_LINUX : Image := mkImage "evm3588_linux" "Linux for EVM3588 development board"
  "cc12be121e75b0eb6588a774106582ee7c7b279895d73558f31ce34712a8fea3" "aarch64".
Definition ORANGEPI_ARCEOS : Image := mkImage "orangepi_arceos" "ArceOS for Orange Pi development board"
  "2a95477e1e18d9ca95f666de93cd8ba53ffafb3f285fbdf4fde1e0cdfb0d8f1d" "aarch64".
Definition ORANGEPI_LINUX : Image := mkImage "orangepi_linux" "Linux for Orange Pi development board"
  "7a1fd69f10dd223988c436ea461bed15ddae4351fc7a47fb7b3fee9792afac86" "aarch64".
Definition PHYTIUMPI_ARCEOS : Image := mkImage "phytiumpi_arceos" "ArceOS for Phytium Pi development board"
  "c774824e36319f2f20575e488861a61c6ef7a5d2e5f219edd03a2c3c29ca3d05" "aarch64".
Definition PHYTIUMPI_LINUX : Image := mkImage "phytiumpi_linux" "Linux for Phytium Pi development board"
  "78a27021b76b6d20a5420938473cf92ac59dc4674d528295b75ecfabdf9bea69" "aarch64".
Definition QEMU_AARCH64_ARCEOS : Image := mkImage "qemu_aarch64_arceos" "ArceOS for QEMU aarch64 virtualization"
  "56c1f517444dcd6668f0d4bc280543d6f236728c4ec5b81e7e5b5a06cf012690" "aarch64".
Definition QEMU_AARCH64_LINUX : Image := mkImage "qemu_aarch64_linux" "Linux for QEMU aarch64 virtualization"
  "ffccd4f89ee84def89ab66e23249d30723fd4a9af7896d7ef4d6f6d75d34225b" "aarch64".
Definition QEMU_AARCH64_NIMBOS : Image := mkImage "qemu_aarch64_nimbos" "NIMBOS for QEMU aarch64 virtualization"
  "283681356af35e141bcf050dd56aa698966477289c21ac49941bb68d9a9ad1b8" "aarch64".
Definition QEMU_RISCV64_ARCEOS : Image := mkImage "qemu_riscv64_arceos" "ArceOS for QEMU riscv64 virtualization"
  "19248561c242a06a893a6a4debfc05ba5ca3e438347814c10351eecef88e54be" "riscv64".
Definition QEMU_RISCV64_LINUX : Image := mkImage "qemu_riscv64_linux" "Linux for QEMU riscv64 virtualization"
  "34a355907bf3b05ea3949207fd98aad05d91c21d3b724d345f54576ef6e12eba" "riscv64".
Definition QEMU_RISCV64_NIMBOS : Image := mkImage "qemu_riscv64_nimbos" "NIMBOS for QEMU riscv64 virtualization"
  "064f75df290905687221b2554dd4e4efc077a6a95cafcbf7f98e2181441c24e3" "riscv64".
Definition QEMU_X86_64_ARCEOS : Image := mkImage "qemu_x86_64_arceos" "ArceOS for QEMU x86_64 virtualization"
  "ee9bdd4f6ae3ef2ee807ac712b82318329eeb6d1cffdf737f98a393ad730b5d9" "x86_64".
Definition QEMU_X86_64_LINUX : Image := mkImage "qemu_x86_64_linux" "Linux for QEMU x86_64 virtualization"
  "1a27da24b02f836b259462d5c73dc550553ea708d24af299378137beedc46c51" "x86_64".
Definition QEMU_X86_64_NIMBOS : Image := mkImage "qemu_x86_64_nimbos" "NIMBOS for QEMU x86_64 virtualization"
  "55d73898f9f98fca80e15387b1e5149ba6bbf74d3631281ea1ece75de3529078" "x86_64".
Definition ROC_RK3568_PC_ARCEOS : Image := mkImage "roc-rk3568-pc_arceos" "ArceOS for ROC-RK3568-PC development board"
  "4dd2f727c2a46ff1e64632616c308c9504ef5ddb4b519acf3f69c928e4475ca7" "aarch64".
Definition ROC_RK3568_PC_LINUX : Image := mkImage "roc-rk3568-pc_linux" "Linux for ROC-RK3568-PC development board"
  "73feb8b84473603252dbadc4c81446f9a68098bd899fd524ec26f68761a35cf8" "aarch64".
Definition TAC_E400_PLC_ARCEOS : Image := mkImage "tac-e400-plc_arceos" "ArceOS for TAC-E400-PLC industrial control board"
  "a2504506c81871c84ba421a94f77028f067c5589886f37c0c389a545d7e57aeb" "aarch64".
Definition TAC_E400_PLC_LINUX : Image := mkImage "tac-e400-plc_linux" "Linux for TAC-E400-PLC industrial control board"
  "920743161a73da228e714d71f55d8ba77b91ed37092d4f80e774f4e809b34403" "aarch64".

Definition all : list Image :=
  [EVM3588_ARCEOS; EVM3588_LINUX; ORANGEPI_ARCEOS; ORANGEPI_LINUX;
   PHYTIUMPI_ARCEOS; PHYTIUMPI_LINUX; QEMU_AARCH64_ARCEOS; QEMU_RISCV64_ARCEOS;
   QEMU_X86_64_ARCEOS; QEMU_AARCH64_LINUX; QEMU_RISCV64_LINUX; QEMU_X86_64_LINUX;
   QEMU_AARCH64_NIMBOS; QEMU_RISCV64_NIMBOS; QEMU_X86_64_NIMBOS; ROC_RK3568_PC_ARCEOS;
   ROC_RK3568_PC_LINUX; TAC_E400_PLC_ARCEOS; TAC_E400_PLC_LINUX].

Definition find_by_name (name : string) : option Image :=
  List.find (λ image, bool_decide (img_name image = name)) all.

Inductive ImageCommands : Type :=
  | Ls
  | Download (image_name : string) (output_dir : option string) (no_extract : bool)
  | Rm (image_name : string).

(** ** The host *)

(** A reply: the status, the length when announced, the chunks of the body, and whether
    the body ends without an error. *)
Record Response : Type := mkResponse {
  resp_status : Z;
  resp_length : option Z;
  resp_chunks : list (list Z);
  resp_complete : bool;
}.

Record disk : Type := mkDisk {
  files : gmap path (list Z);
  dirs : gset path;
}.

Class Host : Type := {
  current_dir : option path;
  temp_dir : path;
  (* the hash function, fed piece by piece *)
  Hasher : Type;
  hasher_new : Hasher;
  hasher_update : Hasher → list Z → Hasher;
  hasher_finalize : Hasher → string;
  http_get : string → option Response;
  (* how many bytes a read gives when these are left; [None] when it fails *)
  read_some : list Z → option nat;
  can_open : path → bool;
  can_create : path → bool;
  can_mkdir : path → bool;
  can_remove : path → bool;
  can_write : path → list Z → bool;
  can_flush : path → bool;
  (* what has reached the file when the writer is dropped without a flush *)
  written_part : list Z → list Z;
  (* the files of an archive that are unpacked, and whether unpacking succeeds *)
  unpack : list Z → list (path * list Z) * bool;
}.

(** What is relied on: reads return at least a byte until the end of the file and at most
    a buffer; hashing does not depend on how the data is cut. *)
Class HostOk `{!Host} (digest : list Z → string) : Prop := {
  read_some_range rest n : read_some rest = Some n →
    (n ≤ length rest)%nat ∧ Z.of_nat n ≤ 8192 ∧ (n = 0%nat ↔ rest = []);
  hasher_cut chunks :
    hasher_finalize (foldl hasher_update hasher_new chunks) = digest (concat chunks);
}.

(** ** Paths *)

Definition is_absolute (p : path) : bool := match p with "/" :: _ => true | _ => false end.

(** [a.join(b)]: a [.] that no longer leads is no component. *)
Definition join (a b : path) : path :=
  if is_absolute b then b else if is_empty a then b else a ++ filter (λ c, c ≠ ".") b.

Definition parent (p : path) : option path :=
  match p with [] => None | [c] => if bool_decide (c = "/") then None else Some [] | _ => Some (removelast p) end.

(** The path and the paths above it. *)
Definition with_ancestors (p : path) : gset path :=
  list_to_set ((λ n, take n p) <$> seq 0 (S (length p))).

(** ** Files *)

Section image.
Context `{!Host, !OverflowChecks}.
Abbreviation M := (st disk string).

Definition exists_ (p : path) : M bool :=
  gets (λ d, bool_decide (is_Some (files d !! p)) || bool_decide (p ∈ dirs d)).

Definition open_read (p : path) : M (list Z) :=
  d ← get;
  match files d !! p with
  | Some data => if can_open p then mret data else throw "open"
  | None => throw "open"
  end.

Definition set_file (p : path) (data : list Z) : M () :=
  modify (λ d, mkDisk (<[p:=data]> (files d)) (dirs d)).

Definition remove_file (p : path) : M () :=
  d ← get;
  if bool_decide (is_Some (files d !! p)) && can_remove p
  then put (mkDisk (delete p (files d)) (dirs d)) else throw "remove_file".

Definition create_dir_all (p : path) : M () :=
  if can_mkdir p then modify (λ d, mkDisk (files d) (with_ancestors p ∪ dirs d))
  else throw "create_dir_all".

Definition remove_dir_all (p : path) : M () :=
  d ← get;
  if bool_decide (p ∈ dirs d) && can_remove p then
    put (mkDisk (filter (λ kv, ¬ p `prefix_of` kv.1) (files d)) (filter (λ q, ¬ p `prefix_of` q) (dirs d)))
  else throw "remove_dir_all".

(** Open for writing, created in its directory when absent, emptied when not. *)
Definition create_truncate (p : path) : M () :=
  d ← get;
  if bool_decide (p ∈ dirs d) || negb (bool_decide (removelast p ∈ dirs d)) || negb (can_create p)
  then throw "open" else set_file p [].

(** ** Operations *)

(** The loop reads the rest of the file; each round takes at least a byte of it. *)
Fixpoint hash_loop (fuel : nat) (hasher : Hasher) (rest : list Z) : outcome string Hasher :=
  match fuel with
  | O => Panic
  | S fuel =>
      bytes_read ← ok_or (read_some rest) "read";
      if bool_decide (bytes_read = 0%nat) then Ok hasher
      else hash_loop fuel (hasher_update hasher (take bytes_read rest)) (drop bytes_read rest)
  end.

Definition image_verify_sha256 (file_path : path) (expected_sha256 : string) : M bool :=
  file ← open_read file_path;
  hasher ← lift (hash_loop (S (length file)) hasher_new file);
  mret (bool_decide (hasher_finalize hasher = expected_sha256)).

Definition image_list : list printed :=
  [Line (pad_right 25 "Name" +:+ " " +:+ pad_right 30 "Architecture" +:+ " " +:+ pad_right 50 "Description");
   Line (str_concat (replicate 90 "-"))] ++
  ((λ i, Line (pad_right 25 (img_name i) +:+ " " +:+ pad_right 15 (img_arch i) +:+ " " +:+
               pad_right 50 (img_description i))) <$> all).

Definition tar_name (image_name : string) : path := components (image_name +:+ ".tar.gz").

Definition output_path_of (image_name : string) (output_dir : option string) : outcome string path :=
  match output_dir with
  | Some dir =>
      let p := components dir in
      if is_absolute p then Ok (join p (tar_name image_name))
      else cur ← ok_or current_dir "current_dir"; Ok (join (join cur p) (tar_name image_name))
  | None => Ok (join (join temp_dir ["axvisor"]) (tar_name image_name))
  end.

(** The percentage that is shown, a [u64] computation. *)
Definition progress (downloaded : Z) (content_length : option Z) : outcome string Z :=
  match content_length with
  | Some total => n ← usize_mul downloaded 100; if bool_decide (total = 0) then Panic else Ok (n `div` total)
  | None => Ok downloaded
  end.

(** The chunks are written to a buffered writer; [data] is what it was given so far. *)
Fixpoint stream (output_path : path) (content_length : option Z) (complete : bool) (data : list Z)
    (downloaded : Z) (chunks : list (list Z)) : M (list Z) :=
  match chunks with
  | [] => if complete then mret data else set_file output_path (written_part data);; throw "chunk"
  | chunk :: chunks =>
      if can_write output_path (data ++ chunk) then
        downloaded ← lift (usize_add downloaded (Z.of_nat (length chunk)));
        _ ← lift (progress downloaded content_length);
        stream output_path content_length complete (data ++ chunk) downloaded chunks
      else set_file output_path (written_part data);; throw "Error writing to file"
  end.

Definition fetch (image : Image) (output_path : path) : M () :=
  response ← lift (ok_or (http_get (IMAGE_URL_BASE +:+ img_name image +:+ ".tar.gz")) "get");
  if negb (bool_decide (200 ≤ resp_status response < 300)) then throw "Failed to download file: HTTP" else
  create_truncate output_path;;
  data ← stream output_path (resp_length response) (resp_complete response) [] 0 (resp_chunks response);
  if can_flush output_path then set_file output_path data
  else set_file output_path (written_part data);; throw "Error flushing file".

Definition unpack_files (dir : path) (entries : list (path * list Z)) (d : disk) : disk :=
  foldl (λ d e, mkDisk (<[dir ++ e.1 := e.2]> (files d))
                       (with_ancestors (removelast (dir ++ e.1)) ∪ dirs d)) d entries.

Definition extract_image (image_name : string) (output_path : path) : M () :=
  dir ← lift (ok_or (parent output_path) "Unable to determine parent directory of downloaded file");
  let extract_dir := join dir (components image_name) in
  create_dir_all extract_dir;;
  tar_gz ← open_read output_path;
  modify (unpack_files extract_dir (unpack tar_gz).1);;
  if (unpack tar_gz).2 then mret () else throw "unpack".

Definition download_and_extract (image : Image) (image_name : string) (output_path : path)
    (extract : bool) : M () :=
  match parent output_path with Some p => create_dir_all p | None => mret () end;;
  fetch image output_path;;
  verified ← attempt (image_verify_sha256 output_path (sha256 image));
  match verified with
  | Some true => if extract then extract_image image_name output_path else mret ()
  | Some false =>
      attempt (remove_file output_path);;
      throw "Download completed but file SHA256 verification failed"
  | _ =>
      attempt (remove_file output_path);;
      throw "Download completed but error verifying downloaded file"
  end.

Definition image_download (image_name : string) (output_dir : option string) (extract : bool) : M () :=
  image ← lift (ok_or (find_by_name image_name) "Image not found");
  output_path ← lift (output_path_of image_name output_dir);
  there ← exists_ output_path;
  if (there : bool) then
    verified ← attempt (image_verify_sha256 output_path (sha256 image));
    match verified with
    | Some true => mret ()
    | _ => attempt (remove_file output_path);;
           download_and_extract image image_name output_path extract
    end
  else download_and_extract image image_name output_path extract.

Definition image_remove (image_name : string) : M () :=
  _ ← lift (ok_or (find_by_name image_name) "Image not found");
  let dir := join temp_dir ["axvisor"] in
  let tar_file := join dir (tar_name image_name) in
  let extract_dir := join dir (components image_name) in
  tar ← exists_ tar_file;
  (if (tar : bool) then remove_file tar_file else mret ());;
  ext ← exists_ extract_dir;
  if (ext : bool) then remove_dir_all extract_dir else mret ().

Definition run_image (command : ImageCommands) : M (list printed) :=
  match command with
  | Ls => mret image_list
  | Download image_name output_dir no_extract =>
      image_download image_name output_dir (negb no_extract);; mret []
  | Rm image_name => image_remove image_name;; mret []
  end.
End image.

(** * Theorems *)

(** A path is a file or a directory, and every file and every directory is in a directory. *)
Definition disk_wf (d : disk) : Prop :=
  (∀ p, is_Some (files d !! p) → p ∉ dirs d) ∧
  (∀ p q, is_Some (files d !! p) ∨ p ∈ dirs d → q `prefix_of` p → q ≠ p → q ∈ dirs d).

(** A name of the table is a component of a path, and so is the name of its archive. *)
Lemma table_names image_name image :
  find_by_name image_name = Some image →
  img_name image = image_name ∧ components image_name = [image_name] ∧
  tar_name image_name = [image_name +:+ ".tar.gz"] ∧ image_name ≠ "." ∧
  image_name +:+ ".tar.gz" ≠ "." ∧ image_name +:+ ".tar.gz" ≠ "/" ∧
  is_absolute [image_name] = false ∧ is_absolute [image_name +:+ ".tar.gz"] = false.
Proof.
  intros H. apply find_some in H as [Hin Hn]. apply bool_decide_eq_true in Hn as <-.
  split; [done|]. apply list_elem_of_In in Hin. revert image Hin.
  apply Forall_forall. unfold all. repeat (constructor; [by vm_compute|]). constructor.
Qed.

Lemma join_name a c : is_absolute [c] = false → c ≠ "." → join a [c] = a ++ [c].
Proof.
  intros Hc Hd. unfold join. rewrite Hc. destruct a; [done|]. simpl.
  by rewrite filter_cons_True, filter_nil.
Qed.

Lemma parent_app q c : c ≠ "/" → parent (q ++ [c]) = Some q.
Proof.
  intros Hc. destruct q as [|x q]; simpl; [by rewrite bool_decide_eq_false_2|].
  destruct (q ++ [c]) eqn:E; [by destruct q|]. rewrite <- E.
  change (x :: q ++ [c]) with ((x :: q) ++ [c]). by rewrite removelast_last.
Qed.

Section theorems.
Context `{!Host, !OverflowChecks} (digest : list Z → string) `{!HostOk digest}.
Implicit Types (d : disk) (p : path).

Lemma output_path_shape image_name image out p :
  find_by_name image_name = Some image → output_path_of image_name out = Ok p →
  ∃ q, p = q ++ [image_name +:+ ".tar.gz"] ∧ parent p = Some q.
Proof.
  intros (_ & _ & Ht & _ & Hd & Hs & _ & Ha)%table_names Hp. unfold output_path_of in Hp.
  rewrite Ht in Hp.
  assert (Hj : ∀ a, ∃ q, join a [image_name +:+ ".tar.gz"] = q ++ [image_name +:+ ".tar.gz"] ∧
    parent (join a [image_name +:+ ".tar.gz"]) = Some q).
  { intros a. exists a. rewrite join_name by done. split; [done|]. by apply parent_app. }
  destruct out as [dir|]; [|by simplify_eq].
  destruct (is_absolute (components dir)); [by simplify_eq|].
  apply outcome_bind_ok in Hp as (cur & _ & [= <-]). apply Hj.
Qed.

(** The hash is that of the whole file, however the reads cut it, and the loop ends. *)
Lemma hash_loop_spec fuel hasher rest :
  (length rest < fuel)%nat →
  match hash_loop fuel hasher rest with
  | Ok h => ∃ cs, concat cs = rest ∧ h = foldl hasher_update hasher cs
  | Err _ => True
  | Panic => False
  end.
Proof.
  revert hasher rest. induction fuel as [|fuel IH]; intros hasher rest Hf; [lia|]. simpl.
  destruct (read_some rest) as [n|] eqn:Er; simpl; [|done].
  destruct (read_some_range _ _ Er) as (Hn & _ & Hz).
  case_bool_decide as E. { exists []. split; [|done]. symmetry. by apply Hz. }
  specialize (IH (hasher_update hasher (take n rest)) (drop n rest)). rewrite length_drop in IH.
  specialize (IH ltac:(lia)). destruct (hash_loop _ _ _); [|done..].
  destruct IH as (cs & Hc & ->). exists (take n rest :: cs). simpl. by rewrite Hc, take_drop.
Qed.

Lemma verify_spec p expected d :
  (image_verify_sha256 p expected d).2 = d ∧
  match (image_verify_sha256 p expected d).1 with
  | Ok b => ∃ data, files d !! p = Some data ∧ b = bool_decide (digest data = expected)
  | Err _ => True
  | Panic => False
  end.
Proof.
  unfold image_verify_sha256, open_read. unfold mbind, st_bind, get, lift, throw. simpl.
  destruct (files d !! p) as [data|] eqn:Ef; simpl; [|done]. destruct (can_open p); simpl; [|done].
  pose proof (hash_loop_spec (S (length data)) hasher_new data ltac:(lia)) as Hl.
  destruct (hash_loop (S (length data)) hasher_new data) as [h|e|] eqn:El; simpl in *; rewrite El; [|done..].
  simpl. split; [done|]. exists data. split; [done|]. destruct Hl as (cs & <- & ->).
  by rewrite (hasher_cut cs).
Qed.

Lemma attempt_verify p expected d :
  ∃ v, attempt (E':=string) (image_verify_sha256 p expected) d = (Ok v, d) ∧
    (v = Some true → ∃ data, files d !! p = Some data ∧ digest data = expected).
Proof.
  destruct (verify_spec p expected d) as [Hd Hv]. unfold attempt.
  destruct (image_verify_sha256 p expected d) as [[b|e|] d1]; simpl in *; subst; [|by eexists|done].
  eexists. split; [done|]. intros [= ->]. destruct Hv as (data & Hf & Hb). exists data. split; [done|].
  symmetry in Hb. by apply bool_decide_eq_true in Hb.
Qed.

Lemma unpack_files_other dir entries d p :
  ¬ dir `prefix_of` p → files (unpack_files dir entries d) !! p = files d !! p.
Proof.
  intros Hp. unfold unpack_files. revert d. induction entries as [|e entries IH]; intros d; [done|].
  simpl. rewrite IH. simpl. apply lookup_insert_ne. intros <-. apply Hp. by eexists.
Qed.

Lemma sibling (q : path) (c c' : string) : c ≠ c' → ¬ (q ++ [c]) `prefix_of` (q ++ [c']).
Proof. intros Hc [k Hk]. rewrite <- app_assoc in Hk. simplify_list_eq. Qed.

Lemma extract_keeps_archive image_name image q p d r d' :
  find_by_name image_name = Some image → p = q ++ [image_name +:+ ".tar.gz"] →
  extract_image image_name p d = (r, d') → files d' !! p = files d !! p.
Proof.
  intros (_ & Hc & _ & Hdot & _ & Hs & Ha & _)%table_names -> He. unfold extract_image in He.
  rewrite parent_app in He by done. unfold ok_or, create_dir_all, open_read in He. st_run.
  rewrite Hc, join_name in He by done.
  assert (Hp : ¬ (q ++ [image_name]) `prefix_of` (q ++ [image_name +:+ ".tar.gz"])).
  { apply sibling. intros E. apply (f_equal String.length) in E.
    rewrite string_app_length in E. simpl in E. lia. }
  repeat (case_match; simplify_eq/=); by rewrite ?unpack_files_other.
Qed.

Lemma download_and_extract_ok image_name image q p extract d d' :
  find_by_name image_name = Some image → p = q ++ [image_name +:+ ".tar.gz"] →
  download_and_extract image image_name p extract d = (Ok (), d') →
  ∃ data, files d' !! p = Some data ∧ digest data = sha256 image.
Proof.
  intros Hi Hp Hd. apply st_bind_ok in Hd as ([] & d1 & _ & Hd).
  apply st_bind_ok in Hd as ([] & d2 & _ & Hd). apply st_bind_ok in Hd as (v & d3 & Hv & Hd).
  destruct (attempt_verify p (sha256 image) d2) as (v' & Hv' & Ht). rewrite Hv' in Hv. simplify_eq.
  destruct v as [[]|]; [|by apply st_bind_ok in Hd as (? & ? & _ & ?)..].
  destruct (Ht eq_refl) as (data & Hf & Hs). exists data. split; [|done].
  destruct extract; [|by injection Hd as <-]. by rewrite (extract_keeps_archive _ _ _ _ _ _ _ Hi eq_refl Hd).
Qed.

(** C30: A download that succeeds leaves the archive of the image that was asked for at the
    output path, with the SHA-256 of the table, whatever was there before, whatever the
    server sent, and whether or not it was unpacked afterwards. *)
Theorem download_is_verified image_name out extract d d' :
  image_download image_name out extract d = (Ok (), d') →
  ∃ image p data, find_by_name image_name = Some image ∧ img_name image = image_name ∧
    output_path_of image_name out = Ok p ∧
    files d' !! p = Some data ∧ digest data = sha256 image.
Proof.
  intros Hd. apply st_bind_ok in Hd as (image & d0 & Hi & Hd).
  destruct (find_by_name image_name) as [image'|] eqn:Ei; [|done].
  injection Hi as -> ->. pose proof (table_names _ _ Ei) as (Hn & _).
  apply st_bind_ok in Hd as (p & d0' & Hp & Hd). injection Hp as Hp ->.
  destruct (output_path_shape _ _ _ _ Ei Hp) as (q & Hq & _).
  apply st_bind_ok in Hd as (b & d1 & Hb & Hd). injection Hb as _ ->.
  enough (∃ data, files d' !! p = Some data ∧ digest data = sha256 image) as (data & Hf & Hs).
  { by exists image, p, data. }
  destruct b; [|by eapply download_and_extract_ok]. apply st_bind_ok in Hd as (v & d2 & Hv & Hd).
  destruct (attempt_verify p (sha256 image) d1) as (v' & Hv' & Ht). rewrite Hv' in Hv. simplify_eq.
  destruct v as [[]|]; [by injection Hd as <-; apply Ht|..].
  all: apply st_bind_ok in Hd as (u & d3 & _ & Hd); by eapply download_and_extract_ok.
Qed.

(** The faults that matter to a download: none of them happens for this path, and the
    server sends an archive with these bytes. *)
Record healthy (url : string) (p q : path) (data : list Z) : Prop := {
  healthy_open : can_open p = true;
  healthy_read rest : is_Some (read_some rest);
  healthy_create : can_create p = true;
  healthy_mkdir r : can_mkdir r = true;
  healthy_remove : can_remove p = true;
  healthy_write sofar : can_write p sofar = true;
  healthy_flush : can_flush p = true;
  healthy_unpack : (unpack data).2 = true;
  healthy_server : ∃ resp, http_get url = Some resp ∧ 200 ≤ resp_status resp < 300 ∧
    resp_complete resp = true ∧ concat (resp_chunks resp) = data ∧ resp_length resp ≠ Some 0;
  healthy_size : Z.of_nat (length data) * 100 < 2 ^ 64;
}.

Lemma hash_loop_total fuel hasher rest :
  (∀ rest, is_Some (read_some rest)) → (length rest < fuel)%nat →
  ∃ h, hash_loop fuel hasher rest = Ok h.
Proof.
  intros Hr. revert hasher rest. induction fuel as [|fuel IH]; intros hasher rest Hf; [lia|]. simpl.
  destruct (Hr rest) as [n Hn]. rewrite Hn. simpl. destruct (read_some_range _ _ Hn) as (Hle & _ & Hz).
  case_bool_decide; [by eexists|]. apply IH. rewrite length_drop. lia.
Qed.

Lemma verify_total p expected data d :
  can_open p = true → (∀ rest, is_Some (read_some rest)) → files d !! p = Some data →
  image_verify_sha256 p expected d = (Ok (bool_decide (digest data = expected)), d).
Proof.
  intros Ho Hr Hf. destruct (verify_spec p expected d) as [H1 H2].
  assert (∃ b, (image_verify_sha256 p expected d).1 = Ok b) as [b Hb].
  { unfold image_verify_sha256, open_read. st_run. rewrite Hf, Ho.
    destruct (hash_loop_total (S (length data)) hasher_new data Hr) as [h Hh]; [lia|]. rewrite Hh.
    by eexists. }
  rewrite Hb in H2. destruct H2 as (data' & Hf' & ->). simplify_eq.
  by rewrite (surjective_pairing (image_verify_sha256 _ _ _)), Hb, H1.
Qed.

(** An image that was downloaded before, for instance with [--no-extract], is never
    unpacked: the command finds the verified archive, reports success and changes
    nothing, also when unpacking was asked for and there is no unpacked image. *)
Theorem existing_image_not_extracted image_name image out extract p data d :
  find_by_name image_name = Some image → output_path_of image_name out = Ok p →
  files d !! p = Some data → digest data = sha256 image →
  can_open p = true → (∀ rest, is_Some (read_some rest)) →
  image_download image_name out extract d = (Ok (), d).
Proof.
  intros Hi Hp Hf Hs Ho Hr. unfold image_download. rewrite Hi, Hp.
  do 2 (erewrite bind_run by done; cbv beta). unfold exists_. erewrite bind_run by done. cbv beta.
  rewrite bool_decide_eq_true_2 by (rewrite Hf; eauto). rewrite orb_true_l. cbv iota.
  assert (Hv : attempt (E':=string) (image_verify_sha256 p (sha256 image)) d = (Ok (Some true), d)).
  { unfold attempt. rewrite (verify_total _ _ data) by done. by rewrite bool_decide_eq_true_2. }
  by erewrite bind_run by exact Hv.
Qed.

Lemma stream_total p len data sofar n chunks d :
  (∀ sofar, can_write p sofar = true) → len ≠ Some 0 → n = Z.of_nat (length sofar) →
  data = sofar ++ concat chunks → Z.of_nat (length data) * 100 < 2 ^ 64 →
  stream p len true sofar n chunks d = (Ok data, d).
Proof.
  intros Hw Hl. revert sofar n. induction chunks as [|c chunks IH]; intros sofar n -> -> Hs.
  { by rewrite app_nil_r. }
  cbn [stream concat] in *. rewrite Hw. rewrite !length_app in Hs.
  erewrite bind_run; [|unfold lift, usize_add; rewrite checked_ok by (unfold in_usize, usize_max; lia); done].
  assert (∃ k, progress (Z.of_nat (length sofar) + Z.of_nat (length c)) len = Ok k) as [k Hk].
  { unfold progress. destruct len as [t|]; [|by eexists]. unfold usize_mul.
    rewrite checked_ok by (unfold in_usize, usize_max; lia). orun.
    rewrite bool_decide_eq_false_2 by congruence. by eexists. }
  erewrite bind_run by (unfold lift; by rewrite Hk).
  apply IH; [rewrite length_app; lia|by rewrite <- app_assoc|]. rewrite !length_app. lia.
Qed.

Lemma elem_of_ancestors p q : q ∈ with_ancestors p ↔ q `prefix_of` p.
Proof.
  unfold with_ancestors. rewrite elem_of_list_to_set, list_elem_of_fmap. split.
  - intros (n & -> & _). exists (drop n p). by rewrite take_drop.
  - intros [k ->]. exists (length q). rewrite take_app_length. split; [done|].
    apply elem_of_seq. rewrite length_app. lia.
Qed.

Definition with_file (p : path) (data : list Z) (d : disk) : disk :=
  mkDisk (<[p:=data]> (files d)) (dirs d).
Definition with_dirs (q : path) (d : disk) : disk := mkDisk (files d) (with_ancestors q ∪ dirs d).

Lemma fetch_total image p q c data d :
  healthy (IMAGE_URL_BASE +:+ img_name image +:+ ".tar.gz") p q data →
  p = q ++ [c] → p ∉ dirs d → q ∈ dirs d →
  fetch image p d = (Ok (), with_file p data d).
Proof.
  intros [? ? Hcr ? ? Hw Hfl ? (resp & Hg & Hst & Hco & Hch & Hl) Hsz] -> Hp Hq. unfold fetch. rewrite Hg.
  erewrite bind_run by done. rewrite (bool_decide_eq_true_2 _ Hst). cbv beta iota delta [negb].
  erewrite bind_run; [|unfold create_truncate; erewrite bind_run by done;
    rewrite removelast_last, Hcr, (bool_decide_eq_false_2 (_ ∈ _)), bool_decide_eq_true_2 by done; done].
  rewrite Hco. erewrite bind_run; [|by apply (stream_total _ _ data)].
  rewrite Hfl. unfold set_file, with_file, modify. simpl. by rewrite insert_insert_eq.
Qed.

Lemma extract_total image_name image q data d :
  find_by_name image_name = Some image → let p := q ++ [image_name +:+ ".tar.gz"] in
  (∀ r, can_mkdir r = true) → can_open p = true → (unpack data).2 = true → files d !! p = Some data →
  extract_image image_name p d =
  (Ok (), unpack_files (q ++ [image_name]) (unpack data).1 (with_dirs (q ++ [image_name]) d)).
Proof.
  intros (_ & Hc & _ & Hdot & _ & Hs & Ha & _)%table_names p Hmk Ho Hu Hf. unfold extract_image, p.
  rewrite parent_app by done. erewrite bind_run by done. rewrite Hc, join_name by done.
  unfold create_dir_all. rewrite Hmk. erewrite bind_run by done.
  erewrite bind_run; [|unfold open_read; erewrite bind_run by done; simpl; unfold p in *; by rewrite Hf, Ho].
  erewrite bind_run by done. by rewrite Hu.
Qed.

Lemma download_and_extract_total image_name image q data extract d :
  find_by_name image_name = Some image → let p := q ++ [image_name +:+ ".tar.gz"] in
  healthy (IMAGE_URL_BASE +:+ img_name image +:+ ".tar.gz") p q data →
  digest data = sha256 image → p ∉ dirs d →
  download_and_extract image image_name p extract d =
  (Ok (), let d1 := with_file p data (with_dirs q d) in
          if extract then unpack_files (q ++ [image_name]) (unpack data).1 (with_dirs (q ++ [image_name]) d1)
          else d1).
Proof.
  intros Hi p Hh Hs Hp. pose proof (table_names _ _ Hi) as (_ & _ & _ & _ & _ & Hsl & _).
  assert (Hpa : parent p = Some q) by by apply parent_app.
  unfold download_and_extract. rewrite Hpa.
  unfold create_dir_all. rewrite (healthy_mkdir _ _ _ _ Hh). erewrite bind_run by done.
  assert (Hpq : p ∉ dirs (with_dirs q d)).
  { simpl. rewrite elem_of_union, elem_of_ancestors. intros [[k Hk]|?]; [|done].
    apply (f_equal length) in Hk. unfold p in Hk. rewrite !length_app in Hk. simpl in Hk. lia. }
  erewrite bind_run by (eapply fetch_total; [done..| |]; simpl; [done|];
    rewrite elem_of_union, elem_of_ancestors; by left).
  erewrite bind_run; [|unfold attempt; rewrite (verify_total _ _ data);
    [by rewrite bool_decide_eq_true_2 by done|apply Hh|apply Hh|apply lookup_insert_eq]].
  destruct extract; [|done]. apply (extract_total _ image); [done|apply Hh..|apply lookup_insert_eq].
Qed.

Lemma unpack_files_in dir entries d e c :
  NoDup (entries.*1) → (e, c) ∈ entries → files (unpack_files dir entries d) !! (dir ++ e) = Some c.
Proof.
  unfold unpack_files. revert d. induction entries as [|[e1 c1] entries IH]; intros d Hnd Hin;
    [by apply not_elem_of_nil in Hin|]. simpl in *. apply NoDup_cons in Hnd as [Hnot Hnd].
  apply elem_of_cons in Hin as [[= <- <-]|Hin]; [|by apply IH].
  clear IH. assert (Hlast : ∀ l d, e ∉ l.*1 → files d !! (dir ++ e) = Some c →
    files (foldl (λ d0 e0, mkDisk (<[dir ++ e0.1:=e0.2]> (files d0))
      (with_ancestors (removelast (dir ++ e0.1)) ∪ dirs d0)) d l) !! (dir ++ e) = Some c).
  { induction l as [|[e2 c2] l IHl]; intros d1 Hn Hd; [done|]. simpl in *. apply IHl; [set_solver|].
    simpl. rewrite lookup_insert_ne; [done|]. intros E. simplify_list_eq. set_solver. }
  apply Hlast; [done|]. simpl. apply lookup_insert_eq.
Qed.

(** Whatever file is at the output path, when the server has the right archive and
    the file system does not fail the download succeeds; a file that is not the right
    archive is replaced by it, and when unpacking is asked for every file of the archive
    is then in the directory named after the image. *)
Theorem download_succeeds image_name image out extract q data d :
  find_by_name image_name = Some image → let p := q ++ [image_name +:+ ".tar.gz"] in
  output_path_of image_name out = Ok p → p ∉ dirs d →
  healthy (IMAGE_URL_BASE +:+ img_name image +:+ ".tar.gz") p q data →
  digest data = sha256 image → NoDup ((unpack data).1.*1) →
  ∃ d', image_download image_name out extract d = (Ok (), d') ∧
    (from_option digest "" (files d !! p) ≠ sha256 image →
     files d' !! p = Some data ∧
     (extract = true → ∀ e c, (e, c) ∈ (unpack data).1 → files d' !! (q ++ [image_name] ++ e) = Some c)).
Proof.
  intros Hi p Hp Hnd Hh Hs Hnodup. unfold image_download. rewrite Hi, Hp.
  do 2 (erewrite bind_run by done; cbv beta). unfold exists_. erewrite bind_run by done. cbv beta.
  rewrite (bool_decide_eq_false_2 (p ∈ dirs d)), orb_false_r by done.
  assert (Hok : ∀ d1, dirs d1 = dirs d → ∃ d', download_and_extract image image_name p extract d1 = (Ok (), d') ∧
    files d' !! p = Some data ∧ (extract = true → ∀ e c, (e, c) ∈ (unpack data).1 →
      files d' !! (q ++ [image_name] ++ e) = Some c)).
  { intros d1 Hd1. eexists. split; [apply download_and_extract_total; [done..|by rewrite Hd1]|].
    destruct extract; cbv zeta; (split; [|try done]).
    - rewrite unpack_files_other; [apply lookup_insert_eq|]. apply sibling. intros E.
      apply (f_equal String.length) in E. rewrite string_app_length in E. simpl in E. lia.
    - intros _ e c Hin. rewrite app_assoc. by apply unpack_files_in.
    - apply lookup_insert_eq. }
  destruct (files d !! p) as [old|] eqn:Ef.
  - rewrite bool_decide_eq_true_2 by eauto.
    erewrite bind_run by (unfold attempt; rewrite (verify_total _ _ old); [done|apply Hh|apply Hh|done]).
    case_bool_decide as Ed; [by eexists|]. unfold attempt at 1, remove_file. st_run.
    rewrite (bool_decide_eq_true_2 (is_Some _)) by (rewrite Ef; eauto). rewrite (healthy_remove _ _ _ _ Hh).
    cbn [andb]. destruct (Hok (mkDisk (delete p (files d)) (dirs d)) eq_refl) as (d' & Hd' & ?). by exists d'.
  - rewrite bool_decide_eq_false_2 by (by intros []). destruct (Hok d eq_refl) as (d' & Hd' & ?). by exists d'.
Qed.

End theorems.

Section removal.
Context `{!Host, !OverflowChecks}.
Implicit Types (d : disk) (p : path).

(** After an image is removed nothing of it is left in the temporary directory:
    neither its archive nor anything in the directory it was unpacked to. *)
Theorem remove_leaves_nothing image_name d d' :
  disk_wf d → image_remove image_name d = (Ok (), d') →
  let dir := join temp_dir ["axvisor"] in
  ∀ p, p = dir ++ [image_name +:+ ".tar.gz"] ∨ (dir ++ [image_name]) `prefix_of` p →
  files d' !! p = None ∧ p ∉ dirs d'.
Proof.
  intros [Hdis Hwf] Hrm dir. apply st_bind_ok in Hrm as (image & d0 & Hi & Hrm).
  destruct (find_by_name image_name) as [image'|] eqn:Ei; [|done]. injection Hi as -> ->.
  pose proof (table_names _ _ Ei) as (_ & Hc & Ht & Hdot & Htd & _ & Ha & Hta).
  cbv zeta in Hrm. fold dir in Hrm. rewrite Ht, Hc, (join_name dir _ Hta Htd), (join_name dir _ Ha Hdot) in Hrm.
  set (tar := dir ++ [image_name +:+ ".tar.gz"]) in *. set (ext := dir ++ [image_name]) in *.
  apply st_bind_ok in Hrm as (b & d1 & Hb & Hrm). injection Hb as <- ->.
  apply st_bind_ok in Hrm as ([] & d2 & H1 & Hrm).
  assert (H2 : files d2 = delete tar (files d1) ∧ dirs d2 = dirs d1 ∧ tar ∉ dirs d1).
  { destruct (decide (is_Some (files d1 !! tar))) as [Hs|Hs].
    - rewrite (bool_decide_eq_true_2 _ Hs), orb_true_l in H1. unfold remove_file in H1. erewrite bind_run in H1 by done.
      rewrite (bool_decide_eq_true_2 _ Hs) in H1. destruct (can_remove tar); [|done].
      injection H1 as <-. by eauto.
    - rewrite (bool_decide_eq_false_2 _ Hs) in H1. simpl in H1. case_bool_decide.
      { unfold remove_file in H1. erewrite bind_run in H1 by done.
        by rewrite (bool_decide_eq_false_2 _ Hs) in H1. }
      injection H1 as <-. rewrite delete_id by by apply eq_None_not_Some. done. }
  destruct H2 as (Hf2 & Hd2 & Htar).
  apply st_bind_ok in Hrm as (b & d3 & Hb & Hrm). injection Hb as <- ->.
  unfold remove_dir_all in Hrm. destruct (decide (ext ∈ dirs d3)) as [He|He].
  - rewrite (bool_decide_eq_true_2 _ He), orb_true_r in Hrm. erewrite bind_run in Hrm by done.
    rewrite (bool_decide_eq_true_2 _ He) in Hrm. destruct (can_remove ext); [|done]. injection Hrm as <-. simpl. rewrite Hf2, Hd2.
    intros p [-> |Hp]; (split; [|set_solver]); apply map_lookup_filter_None;
      [left; apply lookup_delete_eq|right; naive_solver].
  - rewrite (bool_decide_eq_false_2 _ He), orb_false_r in Hrm. case_bool_decide as Hfe.
    { erewrite bind_run in Hrm by done. by rewrite (bool_decide_eq_false_2 _ He) in Hrm. } injection Hrm as <-. rewrite Hf2, Hd2 in *.
    intros p [-> |Hp]; [split; [apply lookup_delete_eq|done]|].
    destruct (decide (ext = p)) as [<-|Hne]; [split; [by apply eq_None_not_Some|done]|].
    split; [|by eauto]. apply eq_None_not_Some. intros [c Hc']. apply lookup_delete_Some in Hc' as [_ Hc'].
    apply He. eapply Hwf; [|done..]. left. by eexists.
Qed.
End removal.

(** ** Examples *)
Module GuestImagesExamples.

(** A host whose hash is not one: every archive with the bytes 1, 2, 3 has the digest
    of the table's first image. *)
Definition toy_digest (data : list Z) : string :=
  if bool_decide (data = [1; 2; 3]) then sha256 EVM3588_ARCEOS else "0".

#[local] Instance toy : Host := {|
  current_dir := Some ["/"; "work"];
  temp_dir := ["/"; "tmp"];
  Hasher := list Z;
  hasher_new := [];
  hasher_update h l := h ++ l;
  hasher_finalize := toy_digest;
  http_get _ := Some (mkResponse 200 (Some 3) [[1; 2]; [3]] true);
  read_some rest := Some (length (take 2 rest));
  can_open _ := true;
  can_create _ := true;
  can_mkdir _ := true;
  can_remove _ := true;
  can_write _ _ := true;
  can_flush _ := true;
  written_part _ := [];
  unpack _ := ([(["kernel.bin"], [7; 7])], true);
|}.
#[local] Instance toy_checks : OverflowChecks := true.

#[local] Instance toy_ok : HostOk toy_digest.
Proof.
  split.
  - intros rest n [= <-]. destruct rest as [|a [|b rest]]; simpl; split_and!; try lia; done.
  - intros chunks. simpl. f_equal. assert (H : ∀ l, foldl (λ h l, h ++ l) l chunks = l ++ concat chunks).
    { induction chunks as [|c cs IH]; intros l; simpl; [by rewrite app_nil_r|]. by rewrite IH, app_assoc. }
    apply H.
Qed.

Definition q : path := ["/"; "tmp"; "axvisor"].
Definition p : path := q ++ ["evm3588_arceos.tar.gz"].
Definition empty_disk : disk := mkDisk ∅ {[ []; ["/"]; ["/"; "tmp"] ]}.
Definition bad_disk : disk := mkDisk {[ p := [9] ]} (with_ancestors q).
Definition good_disk : disk := mkDisk {[ p := [1; 2; 3] ]} (with_ancestors q).

Lemma download_is_verified_witness :
  let d' := (image_download "evm3588_arceos" None true bad_disk).2 in
  ∃ data, files d' !! p = Some data ∧ toy_digest data = sha256 EVM3588_ARCEOS.
Proof.
  destruct (download_is_verified toy_digest "evm3588_arceos" None true bad_disk
    (image_download "evm3588_arceos" None true bad_disk).2)
    as (image & p' & data & Hi & _ & Hp & Hf & Hs); [apply run_pair; vm_refl|].
  assert (Some image = Some EVM3588_ARCEOS) as [= ->] by (rewrite <- Hi; vm_refl).
  assert (@Ok string _ p' = Ok p) as [= ->] by (rewrite <- Hp; vm_refl).
  exact (ex_intro _ data (conj Hf Hs)).
Defined.

Lemma existing_image_not_extracted_witness :
  image_download "evm3588_arceos" None true good_disk = (Ok (), good_disk) ∧
  q ++ ["evm3588_arceos"] ∉ dirs good_disk.
Proof.
  split; [|by vm_compute].
  apply (existing_image_not_extracted toy_digest "evm3588_arceos" EVM3588_ARCEOS None true p [1; 2; 3]);
    [by vm_compute..|by eexists].
Defined.

Lemma toy_healthy : healthy (IMAGE_URL_BASE +:+ img_name EVM3588_ARCEOS +:+ ".tar.gz") p q [1; 2; 3].
Proof. split; try done. by eexists. Qed.

Lemma download_succeeds_witness : ∃ d',
  image_download "evm3588_arceos" None true bad_disk = (Ok (), d') ∧
  files d' !! (q ++ ["evm3588_arceos"; "kernel.bin"]) = Some [7; 7].
Proof.
  destruct (download_succeeds toy_digest "evm3588_arceos" EVM3588_ARCEOS None true q [1; 2; 3] bad_disk)
    as (d' & Hd & Hx);
    [by vm_compute|by vm_compute|by vm_compute|apply toy_healthy|by vm_compute|by apply NoDup_singleton|].
  exists d'. split; [done|]. destruct Hx as [_ Hx]; [by vm_compute|].
  apply (Hx eq_refl ["kernel.bin"]). by constructor.
Defined.

Lemma remove_leaves_nothing_witness :
  let d' := (image_remove "evm3588_arceos" good_disk).2 in files d' !! p = None ∧ p ∉ dirs d'.
Proof.
  apply (remove_leaves_nothing "evm3588_arceos" good_disk); [|by vm_compute|by left].
  split.
  - intros r. unfold good_disk. simpl. intros [c Hc]. apply lookup_singleton_Some in Hc as [<- _]. by vm_compute.
  - intros r s Hr Hs Hne. unfold good_disk in *. simpl in *. rewrite elem_of_ancestors in *.
    destruct Hr as [[c Hc]|Hr]; [|by etrans].
    apply lookup_singleton_Some in Hc as [<- _]. destruct Hs as [k Hk].
    destruct (decide (k = [])) as [-> |Hk'].
    { rewrite app_nil_r in Hk. by destruct Hne. }
    exists (removelast k). unfold p in Hk. apply (f_equal (removelast (A:=string))) in Hk.
    rewrite removelast_last, removelast_app in Hk by done. done.
Defined.
End GuestImagesExamples.
