(* ===== verification/BuildScript.v ===== *)
(** * Building ([xtask/src/main.rs], [tbuld.rs], [cargo.rs], [ctx.rs], [kernel/build.rs])

    The build tool chooses a board configuration, reads it, and hands the VM configuration
    files to the kernel's build script in an environment variable; the build script
    compiles their contents, and the guest images they name, into the hypervisor.  Paths
    are strings of a Unix host and files are a map from paths to contents.  TOML, the
    external tool that runs cargo, the printing of Rust syntax and the faults of the file
    system are parameters ([BuildHost]); writing the generated file does not fail. *)

From Stdlib Require Import Ascii.
From S2P Require Import Prelude RustStr Command Devspace.

(** ** Data *)

(** A TOML value: what the build script tells apart. *)
Inductive Value : Type :=
  | VString (s : string)
  | VInteger (n : Z)
  | VTable (t : list (string * Value))
  | VOther.

Abbreviation Table := (list (string * Value)).

(** The build configuration, [.build.toml]. *)
Record Config : Type := mkConfig {
  c_target : string;
  c_features : list string;
  c_log : option string;
  c_cargo_args : list string;
  c_to_bin : bool;
  c_smp : option Z;
  c_vm_configs : list string;
}.

(** What the external tool is asked to build. *)
Record Cargo : Type := mkCargo {
  cargo_target : string;
  cargo_package : string;
  cargo_features : list string;
  cargo_log : option string;
  cargo_args : list string;
  cargo_to_bin : bool;
  cargo_env : gmap string string;
}.

Record Context : Type := mkContext {
  workspace : string;
  build_dir : option string;
  bin_dir : option string;
  ctx_build_config_path : option string;  (* of the external tool *)
  build_config_path : option string;
  vmconfigs : list string;
}.

Inductive CargoRunnerKind : Type :=
  | Qemu (qemu_config : option string) (debug dtb_dump : bool)
  | Uboot (uboot_config : option string).

Inductive Arch : Type := Aarch64 | X86_64.

Record ConfigFile : Type := mkConfigFile {
  cf_path : string;
  cf_content : string;
}.

Record MemoryImage : Type := mkMemoryImage {
  mi_id : Z;
  mi_kernel : string;
  mi_dtb : option string;
  mi_bios : option string;
  mi_ramdisk : option string;
}.

(** What the build script leaves: the text of [static_vm_configs], the images of
    [get_memory_images] unless it was not generated, and the lines cargo reads. *)
Record Generated : Type := mkGenerated {
  gen_text : string;
  gen_images : option (list MemoryImage);
  gen_directives : list string;
}.

Abbreviation disk := (gmap string string).

Class BuildHost : Type := {
  env_var : string → option string;
  timestamp : string;
  can_read : string → bool;
  can_write : string → bool;
  read_error : string → string;
  canonicalize : string → option string;
  parse_table : string → option Table;
  parse_config : string → option Config;
  config_schema : string;
}.

(** ** Paths *)

Definition is_absolute (p : string) : bool := starts_with "/" p.

(** [p.parent()]; doubled separators are not kept. *)
Definition path_parent (p : string) : option string :=
  match components p with
  | [] => None
  | ["/"] => None
  | cs => Some (fold_left path_join (removelast cs) "")
  end.

(** [env::join_paths] and [env::split_paths] on Unix. *)
Definition join_paths (paths : list string) : option string :=
  if existsb (str_contains ":") paths then None else Some (str_join ":" paths).

Definition split_paths (s : string) : list string := split_char ":"%char "" s.

Definition to_lowercase (a : Arch) : string := match a with Aarch64 => "aarch64" | X86_64 => "x86_64" end.

Section build.
Context `{!BuildHost}.
Abbreviation M := (st disk string).

(** ** Files *)

Definition exists_ (p : string) : M bool := gets (λ d, bool_decide (is_Some (d !! p))).

Definition read_to_string (p : string) (d : disk) : outcome string string :=
  match d !! p with
  | Some text => if can_read p then Ok text else Err (read_error p)
  | None => Err (read_error p)
  end.

Definition write_file (p text : string) : M () :=
  if can_write p then modify (insert p text) else throw ("write " +:+ p).

Definition copy_file (a b : string) : M () :=
  d ← get; text ← lift (read_to_string a d); write_file b text.

Definition with_context {A} (c : string) (m : M A) : M A := λ d,
  match m d with (Err _, d') => (Err c, d') | r => r end.

(** ** [main.rs] *)

Definition backup_existing_config : M () :=
  there ← exists_ ".build.toml";
  if (there : bool) then
    let backup_path := ".build.toml" +:+ ".backup_" +:+ timestamp in
    with_context ("Failed to backup .build.toml to " +:+ backup_path) (copy_file ".build.toml" backup_path)
  else mret ().

Definition board_path (board_name : string) : string := "configs/board/" +:+ board_name +:+ ".toml".

Definition copy_board_config (board_name : string) : M () :=
  with_context ("Failed to copy " +:+ board_path board_name +:+ " to .build.toml")
    (copy_file (board_path board_name) ".build.toml").

Definition defconfig_command (board_name : string) : M () :=
  there ← exists_ (board_path board_name);
  if negb there then
    throw ("Board configuration '" +:+ board_name +:+
           "' not found. Available boards: qemu-aarch64, orangepi-5-plus")
  else backup_existing_config;; copy_board_config board_name.

(** ** [ctx.rs] *)

Definition new_context (current_dir : option string) : outcome string Context :=
  match current_dir with
  | Some workdir => Ok (mkContext workdir None None None None [])
  | None => Panic
  end.

Definition apply_build_args (c : Context) (build_dir bin_dir : option string) : Context :=
  mkContext (workspace c) build_dir bin_dir (ctx_build_config_path c) (build_config_path c) (vmconfigs c).

(** ** [tbuld.rs] *)

Fixpoint vm_config_paths (c : Context) (vm_configs : list string) (d : disk) : outcome string (list string) :=
  match vm_configs with
  | [] => Ok []
  | vm_config :: rest =>
      let p := if is_absolute vm_config then vm_config else path_join (workspace c) vm_config in
      if bool_decide (is_Some (d !! p)) then paths ← vm_config_paths c rest d; Ok (p :: paths)
      else Err ("VM config file '" +:+ p +:+ "' does not exist.")
  end.

Definition load_config (c : Context) : M (Cargo * Context) :=
  let config_path := default (path_join (workspace c) ".build.toml") (build_config_path c) in
  dir ← lift (unwrap (path_parent config_path));
  with_context "Failed to write schema file .build-schema.json"
    (write_file (path_join dir ".build-schema.json") config_schema);;
  config_str ← with_context ("Failed to read config file: " +:+ config_path)
                 (d ← get; lift (read_to_string config_path d));
  config ← lift (ok_or (parse_config config_str) ("Failed to parse config file: " +:+ config_path));
  let c := mkContext (workspace c) (build_dir c) (bin_dir c) (Some config_path) (build_config_path c)
             (vmconfigs c) in
  d ← get;
  paths ← lift (vm_config_paths c (c_vm_configs config ++ vmconfigs c) d);
  let env : gmap string string :=
    match c_smp config with Some smp => {[ "AXVISOR_SMP" := pretty smp ]} | None => ∅ end in
  env ← (if is_empty paths then mret env
         else value ← lift (ok_or (join_paths paths) "Failed to join VM config paths");
              mret (<["AXVISOR_VM_CONFIGS" := value]> env));
  mret (mkCargo (c_target config) "axvisor" (c_features config) (c_log config) (c_cargo_args config)
          (c_to_bin config) env, c).

(** ** [cargo.rs]: what the external tool is asked to run *)

Definition run_qemu (c : Context) (config_path : option string)
  : M ((Cargo * CargoRunnerKind) * Context) :=
  '(build_config, c) ← load_config c;
  arch ← (if str_contains "aarch64" (cargo_target build_config) then mret Aarch64
          else if str_contains "x86_64" (cargo_target build_config) then mret X86_64
          else throw ("Unsupported target architecture: " +:+ cargo_target build_config));
  let config_path := default (".qemu-" +:+ to_lowercase arch +:+ ".toml") config_path in
  there ← exists_ config_path;
  (if negb there then
     copy_file (path_join (path_join "scripts" "ostool") ("qemu-" +:+ to_lowercase arch +:+ ".toml")) config_path
   else mret ());;
  mret ((build_config, Qemu (Some config_path) false false), c).

Definition run_uboot (c : Context) (config_path : option string)
  : M ((Cargo * CargoRunnerKind) * Context) :=
  '(build_config, c) ← load_config c;
  mret ((build_config, Uboot (Some (default ".uboot.toml" config_path))), c).

(** ** [build.rs] *)

Definition get_config_paths : option (list string) := split_paths <$> env_var "AXVISOR_VM_CONFIGS".

Fixpoint read_configs (d : disk) (paths : list string) : outcome string (list ConfigFile) :=
  match paths with
  | [] => Ok []
  | p :: paths =>
      content ← match read_to_string p d with
                | Err e => Err ("Failed to read file " +:+ p +:+ ": " +:+ e)
                | r => r
                end;
      rest ← read_configs d paths;
      Ok (mkConfigFile p content :: rest)
  end.

Definition get_configs (d : disk) : outcome string (list ConfigFile) :=
  match get_config_paths with Some paths => read_configs d paths | None => Ok [] end.

Definition convert_to_absolute (configs_path path : string) : outcome string string :=
  dir ← unwrap (path_parent configs_path);
  let full := path_join dir path in
  Ok (if negb (is_absolute path) then default path (canonicalize full) else path).

Definition table_get (t : Table) (k : string) : option Value := assoc_get k t.
Definition as_table (v : Value) : option Table := match v with VTable t => Some t | _ => None end.
Definition as_integer (v : Value) : option Z := match v with VInteger n => Some n | _ => None end.
Definition as_str (v : Value) : option string := match v with VString s => Some s | _ => None end.

(** An optional path of the [kernel] table. *)
Definition optional_path (configs_path : string) (kernel : Table) (k : string)
  : outcome string (option string) :=
  match table_get kernel k ≫= as_str with
  | Some v => p ← convert_to_absolute configs_path v; Ok (Some p)
  | None => Ok None
  end.

(** The identifier, the [kernel] table and the value of [kernel_path] of a configuration
    whose image is in memory; every missing or ill-typed entry leaves the function. *)
Definition memory_kernel (config : Table) : option (Z * Table * Value) :=
  base ← table_get config "base" ≫= as_table;
  id ← table_get base "id" ≫= as_integer;
  kernel ← table_get config "kernel" ≫= as_table;
  image_location ← table_get kernel "image_location" ≫= as_str;
  if negb (bool_decide (image_location = "memory")) then None else
  kernel_path ← table_get kernel "kernel_path";
  Some (wrap64 id, kernel, kernel_path).

Definition parse_config_file (f : ConfigFile) : outcome string (option MemoryImage) :=
  config ← unwrap (parse_table (cf_content f));
  match memory_kernel config with
  | Some (id, kernel, kernel_path) =>
      s ← unwrap (as_str kernel_path);
      kernel_file ← convert_to_absolute (cf_path f) s;
      dtb ← optional_path (cf_path f) kernel "dtb_path";
      bios ← optional_path (cf_path f) kernel "bios_path";
      ramdisk ← optional_path (cf_path f) kernel "ramdisk_path";
      Ok (Some (mkMemoryImage id kernel_file dtb bios ramdisk))
  | None => Ok None
  end.

(** [v.canonicalize().unwrap()] under an option *)
Definition canonical_option (p : option string) : outcome string (option string) :=
  match p with
  | Some p => s ← unwrap (canonicalize p); Ok (Some s)
  | None => Ok None
  end.

Fixpoint generate_images (config_files : list ConfigFile) : outcome string (list MemoryImage) :=
  match config_files with
  | [] => Ok []
  | f :: rest =>
      image ← parse_config_file f;
      match image with
      | Some i =>
          kernel ← ok_or (canonicalize (mi_kernel i)) ("Path " +:+ mi_kernel i +:+ " not found");
          dtb ← canonical_option (mi_dtb i);
          bios ← canonical_option (mi_bios i);
          ramdisk ← canonical_option (mi_ramdisk i);
          images ← generate_images rest;
          Ok (mkMemoryImage (mi_id i) kernel dtb bios ramdisk :: images)
      | None => generate_images rest
      end
  end.

Definition raw_open : string := "r###" +:+ dquote.
Definition raw_close : string := dquote +:+ "###".

Definition config_literal (content : string) : string :=
  "        " +:+ raw_open +:+ content +:+ raw_close +:+ "," +:+ newline.

Definition configs_header : string := "pub fn static_vm_configs() -> Vec<&'static str> {" +:+ newline.
Definition configs_default : string := "    default_static_vm_configs()" +:+ newline.
Definition configs_vec : string := "    vec![" +:+ newline.
Definition configs_end : string := "    ]" +:+ newline.
Definition configs_footer : string := "}" +:+ newline +:+ newline.

Definition static_configs_text (contents : list string) : string :=
  configs_header +:+
  (if is_empty contents then configs_default
   else configs_vec +:+ foldr (λ c s, config_literal c +:+ s) "" contents +:+ configs_end) +:+
  configs_footer.

Definition platform_of (arch : string) : string :=
  if bool_decide (arch = "aarch64") then "aarch64-generic"
  else if bool_decide (arch = "x86_64") then "x86-qemu-q35" else "dummy".

Definition build_main (d : disk) : outcome string Generated :=
  arch ← unwrap (env_var "CARGO_CFG_TARGET_ARCH");
  out_dir ← unwrap (env_var "OUT_DIR");
  if negb (can_write (path_join out_dir "vm_configs.rs")) then Panic else
  let directives := ["cargo:rustc-cfg=platform=" +:+ dquote +:+ platform_of arch +:+ dquote;
                     "cargo:rerun-if-env-changed=AXVISOR_VM_CONFIGS"; "cargo:rerun-if-changed=build.rs"] in
  match get_configs d with
  | Ok config_files =>
      images ← generate_images config_files;
      Ok (mkGenerated (static_configs_text (cf_content <$> config_files)) (Some images)
            (directives ++ ((λ f, "cargo:rerun-if-changed=" +:+ cf_path f) <$> config_files)))
  | Err error =>
      Ok (mkGenerated (configs_header +:+ "    compile_error!(" +:+ dquote +:+ error +:+ dquote +:+ ")" +:+
                       newline +:+ configs_footer) None directives)
  | Panic => Panic
  end.
End build.

(** * Theorems *)

(** How the compiler reads the generated function back: a raw string literal ends at the
    first closing delimiter.  (The compiler also turns each CR LF of a source file into LF;
    the files here have LF alone.) *)
Fixpoint read_literals (fuel : nat) (text : string) : option (list string) :=
  match fuel with
  | O => None
  | S fuel =>
      match strip_prefix ("        " +:+ raw_open) text with
      | Some rest =>
          '(c, rest) ← find_str raw_close rest;
          rest ← strip_prefix (raw_close +:+ "," +:+ newline) rest;
          cs ← read_literals fuel rest;
          Some (c :: cs)
      | None => if bool_decide (text = configs_end +:+ configs_footer) then Some [] else None
      end
  end.

Definition read_static_configs (text : string) : option (list string) :=
  body ← strip_prefix configs_header text;
  if bool_decide (body = configs_default +:+ configs_footer) then Some []
  else rest ← strip_prefix configs_vec body; read_literals (S (String.length rest)) rest.

Lemma raw_close_no_overlap c rest a :
  starts_with raw_close (String a c) = false →
  starts_with raw_close (String a (c +:+ raw_close +:+ rest)) = false.
Proof.
  unfold starts_with, raw_close, dquote. simpl.
  destruct (bool_decide_reflect (ascii_of_byte 34 = a)) as [<-|Ha]; simpl; [|done].
  destruct c as [|b c]; [by vm_compute|]. rewrite string_app_cons.
  destruct (bool_decide_reflect ("#"%char = b)) as [<-|]; simpl; [|done].
  destruct c as [|b c]; [by vm_compute|]. rewrite string_app_cons.
  destruct (bool_decide_reflect ("#"%char = b)) as [<-|]; simpl; [|done].
  destruct c as [|b c]; [by vm_compute|]. rewrite string_app_cons.
  destruct (bool_decide_reflect ("#"%char = b)) as [<-|]; simpl; done.
Qed.

Lemma find_raw_close c rest :
  str_contains raw_close c = false →
  find_str raw_close (c +:+ raw_close +:+ rest) = Some (c, raw_close +:+ rest).
Proof.
  induction c as [|a c IH]; intros Hc.
  { change ("" +:+ raw_close +:+ rest) with (raw_close +:+ rest).
    by assert (starts_with raw_close (raw_close +:+ rest) = true) by (apply starts_with_app; by eexists). }
  cbn [str_contains] in Hc. apply orb_false_iff in Hc as [Hs Hc]. rewrite string_app_cons.
  cbn [find_str]. rewrite raw_close_no_overlap by done. by rewrite (IH Hc).
Qed.

Lemma read_literals_ok contents fuel :
  Forall (λ c, str_contains raw_close c = false) contents → (length contents < fuel)%nat →
  read_literals fuel (foldr (λ c s, config_literal c +:+ s) "" contents +:+ configs_end +:+ configs_footer) =
  Some contents.
Proof.
  revert fuel. induction contents as [|c cs IH]; intros [|fuel] Hok Hf; simpl in Hf; [lia|..|lia|].
  { by vm_compute. }
  apply Forall_cons in Hok as [Hc Hok]. cbn [foldr read_literals]. unfold config_literal at 1.
  rewrite !string_app_assoc. rewrite <- (string_app_assoc "        " raw_open), strip_prefix_app.
  rewrite find_raw_close by done. cbn [mbind option_bind].
  rewrite <- (string_app_assoc "," newline), <- (string_app_assoc raw_close ("," +:+ newline)), strip_prefix_app.
  cbn [mbind option_bind]. rewrite IH by (done || lia). done.
Qed.

Lemma literals_length contents :
  (length contents ≤ String.length (foldr (λ c s, config_literal c +:+ s) "" contents))%nat.
Proof.
  induction contents as [|c cs IH]; [done|]. cbn [foldr length]. unfold config_literal at 1.
  rewrite !string_app_length. simpl. lia.
Qed.

Lemma read_static_configs_ok contents :
  Forall (λ c, str_contains raw_close c = false) contents →
  read_static_configs (static_configs_text contents) = Some contents.
Proof.
  intros Hok. unfold read_static_configs, static_configs_text. rewrite strip_prefix_app.
  cbn [mbind option_bind]. destruct contents as [|c cs]; [done|].
  change (is_empty (c :: cs)) with false. cbv iota. rewrite !string_app_assoc.
  rewrite bool_decide_eq_false_2 by done. rewrite strip_prefix_app. cbn [mbind option_bind].
  apply read_literals_ok; [done|]. rewrite string_app_length.
  pose proof (literals_length (c :: cs)). lia.
Qed.

(** The build script compiles in exactly the VM configurations it read: as long as no
    file contains the delimiter that closes its literal, the list that the compiler reads
    from the generated function is the list of the contents, in order. *)
Theorem static_configs_roundtrip contents :
  Forall (λ c, str_contains raw_close c = false) contents →
  read_static_configs (static_configs_text contents) = Some contents.
Proof. apply read_static_configs_ok. Qed.

Lemma starts_with_char c a s : starts_with (String c "") (String a s) = false → a ≠ c.
Proof.
  intros Hs ->. assert (starts_with (String c "") (String c s) = true); [|congruence].
  apply starts_with_app. by exists s.
Qed.

Lemma split_char_app c cur s rest :
  str_contains (String c "") s = false →
  split_char c cur (s +:+ String c rest) = (cur +:+ s) :: split_char c "" rest.
Proof.
  revert cur. induction s as [|a s IH]; intros cur Hs.
  { change ("" +:+ String c rest) with (String c rest). simpl. rewrite bool_decide_eq_true_2 by done.
    by rewrite string_app_nil_r. }
  cbn [str_contains] in Hs. apply orb_false_iff in Hs as [Ha Hs]. rewrite string_app_cons. simpl.
  rewrite bool_decide_eq_false_2 by by apply starts_with_char in Ha.
  rewrite IH by done. by rewrite string_app_assoc.
Qed.

Lemma split_char_last c cur s :
  str_contains (String c "") s = false → split_char c cur s = [cur +:+ s].
Proof.
  revert cur. induction s as [|a s IH]; intros cur Hs; [by rewrite string_app_nil_r|].
  cbn [str_contains] in Hs. apply orb_false_iff in Hs as [Ha Hs]. simpl.
  rewrite bool_decide_eq_false_2 by by apply starts_with_char in Ha.
  rewrite IH by done. by rewrite string_app_assoc.
Qed.

(** The list of paths survives the environment variable. *)
Lemma split_join_paths paths value :
  paths ≠ [] → join_paths paths = Some value → split_paths value = paths.
Proof.
  unfold join_paths, split_paths. intros Hne. destruct (existsb _ _) eqn:E; [done|]. intros [= <-].
  induction paths as [|p ps IH]; [done|]. simpl in E. apply orb_false_iff in E as [Hp E].
  destruct ps as [|p' ps]; [by apply split_char_last|].
  change (str_join ":" (p :: p' :: ps)) with (p +:+ String ":"%char (str_join ":" (p' :: ps))).
  rewrite split_char_app by done. by rewrite (IH ltac:(done) E).
Qed.

(** The files of a configuration: relative paths are below the workspace. *)
Definition config_file_path (c : Context) (p : string) : string :=
  if is_absolute p then p else path_join (workspace c) p.

Section theorems.
Context `{!BuildHost}.
Implicit Types (d : disk) (c : Context).

Lemma vm_config_paths_ok c l d paths :
  vm_config_paths c l d = Ok paths → paths = config_file_path c <$> l ∧ Forall (λ p, is_Some (d !! p)) paths.
Proof.
  revert paths. induction l as [|x l IH]; intros paths Hp; simpl in Hp; [by simplify_eq|].
  case_bool_decide as E; [|done]. apply outcome_bind_ok in Hp as (ps & [-> Hall]%IH & [= <-]).
  split; [done|by constructor].
Qed.

Lemma with_context_ok {A} e (m : st disk string A) d a d' :
  with_context e m d = (Ok a, d') → m d = (Ok a, d').
Proof. unfold with_context. by destruct (m d) as [[] ?]. Qed.

Lemma read_to_string_ok p d text : read_to_string p d = Ok text → d !! p = Some text.
Proof. unfold read_to_string. destruct (d !! p); [|done]. case_match; by intros [= <-]. Qed.

Lemma load_config_ok c d cargo c' d' :
  load_config c d = (Ok (cargo, c'), d') →
  ∃ text config, d' !! default (path_join (workspace c) ".build.toml") (build_config_path c) = Some text ∧
  parse_config text = Some config ∧ cargo_env cargo !! "AXVISOR_SMP" = pretty <$> c_smp config ∧
  let paths := config_file_path c <$> (c_vm_configs config ++ vmconfigs c) in
  Forall (λ p, is_Some (d' !! p)) paths ∧
  cargo_env cargo !! "AXVISOR_VM_CONFIGS" = (if is_empty paths then None else join_paths paths) ∧
  (paths ≠ [] → is_Some (join_paths paths)).
Proof.
  unfold load_config. intros Hl. apply st_bind_ok in Hl as (dir & d0 & _ & Hl).
  apply st_bind_ok in Hl as ([] & d1 & _ & Hl). apply st_bind_ok in Hl as (text & d2 & Ht & Hl).
  apply with_context_ok, st_bind_ok in Ht as (d1' & ? & [= <- <-] & Ht). apply lift_inv in Ht as [Ht ->].
  apply st_bind_ok in Hl as (config & d3 & Hc & Hl). cbv zeta in Hl.
  destruct (parse_config text) as [config'|] eqn:Ep; [|done]. injection Hc as -> ->.
  apply st_bind_ok in Hl as (d4 & d5 & [= -> ->] & Hl). apply st_bind_ok in Hl as (paths & d6 & Hp & Hl).
  unfold lift in Hp. injection Hp as Hp ->. apply vm_config_paths_ok in Hp as [Hp Hall].
  apply st_bind_ok in Hl as (env & d7 & He & Hl). injection Hl as <- <- <-.
  cbv zeta. cbn [workspace vmconfigs cargo_env] in *.
  assert (Hp' : paths = config_file_path c <$> (c_vm_configs config ++ vmconfigs c)) by exact Hp.
  exists text, config. rewrite <- Hp'. clear Hp Hp'.
  assert (Hsmp : ∀ e : gmap string string,
    e = match c_smp config with Some smp => {[ "AXVISOR_SMP" := pretty smp ]} | None => ∅ end →
    e !! "AXVISOR_SMP" = pretty <$> c_smp config ∧ e !! "AXVISOR_VM_CONFIGS" = None).
  { intros e ->. destruct (c_smp config); [by rewrite lookup_singleton_eq|done]. }
  destruct (Hsmp _ eq_refl) as [H1 H2].
  apply read_to_string_ok in Ht. destruct (is_empty paths) eqn:Ee.
  - injection He as <- <-. split_and!; [done..|by destruct paths].
  - apply st_bind_ok in He as (value & d8 & Hv & He). injection He as <- <-.
    destruct (join_paths paths) as [v|]; [|done]. injection Hv as -> ->.
    split_and!; [done|done|by rewrite lookup_insert_ne|done|by rewrite lookup_insert_eq|by eexists].
Qed.

Lemma read_configs_ok d paths :
  (∀ p, can_read p = true) → Forall (λ p, is_Some (d !! p)) paths →
  ∃ files, read_configs d paths = Ok files ∧ Forall2 (λ p f, cf_path f = p ∧ d !! p = Some (cf_content f)) paths files.
Proof.
  intros Hr. induction 1 as [|p ps [text Ht] _ (files & Hf & Hall)]; [by exists []|]. simpl.
  unfold read_to_string. rewrite Ht, Hr. orun. rewrite Hf. orun. eexists. split; [done|]. by constructor.
Qed.

Lemma build_main_text d g files :
  get_configs d = Ok files → build_main d = Ok g → gen_text g = static_configs_text (cf_content <$> files).
Proof.
  intros Hg Hm. unfold build_main in Hm. apply outcome_bind_ok in Hm as (arch & _ & Hm).
  apply outcome_bind_ok in Hm as (out & _ & Hm). destruct (negb _); [done|]. rewrite Hg in Hm.
  apply outcome_bind_ok in Hm as (images & _ & [= <-]). done.
Qed.
End theorems.

(** C28: From the build configuration to the hypervisor: when the tool accepts a build
    configuration and the build script runs with the environment the tool sets, in which
    the files can be read and contain no closing delimiter, the hypervisor is compiled
    with the contents of exactly the VM configuration files that were named, first those
    of the build configuration and then those of the command line, in order. *)
Theorem configs_reach_the_build (tool script : BuildHost) c d cargo c' d' g :
  load_config (H:=tool) c d = (Ok (cargo, c'), d') →
  env_var (BuildHost:=script) "AXVISOR_VM_CONFIGS" = cargo_env cargo !! "AXVISOR_VM_CONFIGS" →
  (∀ p, can_read (BuildHost:=script) p = true) →
  map_Forall (λ _ content, str_contains raw_close content = false) d' →
  build_main (H:=script) d' = Ok g →
  ∃ config contents,
    (∃ text, d' !! default (path_join (workspace c) ".build.toml") (build_config_path c) = Some text ∧
       parse_config (BuildHost:=tool) text = Some config) ∧
    read_static_configs (gen_text g) = Some contents ∧
    Forall2 (λ p content, d' !! p = Some content)
      (config_file_path c <$> (c_vm_configs config ++ vmconfigs c)) contents.
Proof.
  intros Hl Henv Hr Hclose Hm. apply load_config_ok in Hl as (text & config & Ht & Hc & _ & Hall & Hv & Hj).
  set (paths := config_file_path c <$> _) in *.
  assert (∃ files, get_configs (H:=script) d' = Ok files ∧
    Forall2 (λ p f, cf_path f = p ∧ d' !! p = Some (cf_content f)) paths files) as (files & Hf & Hfs).
  { unfold get_configs, get_config_paths. rewrite Henv, Hv. destruct paths as [|p ps] eqn:Ep.
    { by exists []. }
    change (is_empty (p :: ps)) with false. cbv iota. destruct Hj as [v Hj]; [done|]. rewrite Hj. simpl.
    rewrite (split_join_paths (p :: ps) v) by done. by apply read_configs_ok. }
  exists config, (cf_content <$> files). split; [by exists text|]. rewrite (build_main_text _ _ _ Hf Hm). split.
  - apply read_static_configs_ok. apply Forall_fmap, Forall_forall. intros f Hin.
    apply list_elem_of_lookup_1 in Hin as [i Hi].
    destruct (Forall2_lookup_r _ _ _ _ _ Hfs Hi) as (p & _ & _ & Hp). by apply (Hclose p).
  - apply Forall2_fmap_r. eapply Forall2_impl; [done|]. by intros p f [_ Hp].
Qed.

Section defconfig.
Context `{!BuildHost}.
Implicit Types (d : disk).

Definition backup_path : string := ".build.toml" +:+ ".backup_" +:+ timestamp.

Lemma copy_file_ok a b d d' :
  copy_file a b d = (Ok (), d') → ∃ text, d !! a = Some text ∧ d' = <[b:=text]> d.
Proof.
  unfold copy_file, read_to_string, write_file. st_run. destruct (d !! a) as [text|]; [|done].
  destruct (can_read a); [|done]. destruct (can_write b); [|done]. intros [= <-]. by eexists.
Qed.

(** Choosing a board never loses the build configuration that was there: after the
    command succeeds [.build.toml] is the board's file, the old [.build.toml], if there
    was one, is in the backup file, and no other file has changed. *)
Theorem defconfig_keeps_old_config board d d' :
  defconfig_command board d = (Ok (), d') →
  d' !! ".build.toml" = d !! board_path board ∧ is_Some (d !! board_path board) ∧
  (is_Some (d !! ".build.toml") → d' !! backup_path = d !! ".build.toml") ∧
  (∀ p, p ≠ ".build.toml" → p ≠ backup_path → d' !! p = d !! p).
Proof.
  intros Hd. apply st_bind_ok in Hd as (b & d0 & Hb & Hd). injection Hb as <- ->.
  case_bool_decide as Hex; [|done]. cbn [negb] in Hd. apply st_bind_ok in Hd as ([] & d1 & Hbk & Hcp).
  apply with_context_ok, copy_file_ok in Hcp as (text & Ht & ->).
  assert (Hne : backup_path ≠ ".build.toml") by done.
  assert (Hbd : board_path board ≠ backup_path) by done.
  assert (H1 : (d1 = d0 ∧ ¬ is_Some (d0 !! ".build.toml")) ∨
    ∃ old, d0 !! ".build.toml" = Some old ∧ d1 = <[backup_path:=old]> d0).
  { apply st_bind_ok in Hbk as (b & d2 & Hb & Hbk). injection Hb as <- ->. case_bool_decide.
    - right. by apply with_context_ok, copy_file_ok in Hbk.
    - left. by injection Hbk as <-. }
  destruct H1 as [[-> Hno]|(old & Hold & ->)].
  - split_and!; [by rewrite lookup_insert_eq|by eexists|done|]. intros p Hp _. by rewrite lookup_insert_ne.
  - rewrite lookup_insert_ne in Ht by done.
    split_and!; [by rewrite lookup_insert_eq|by eexists| |].
    + intros _. rewrite lookup_insert_ne by done. by rewrite lookup_insert_eq.
    + intros p Hp Hb. by rewrite !lookup_insert_ne.
Qed.

(** Every VM configuration that asks for an image in memory gets one: when the build
    script succeeds, the generated table has an entry with the identifier of the
    configuration, whose kernel is the resolved path of a file that exists. *)
Theorem memory_images_generated d g files f table id kernel kernel_path :
  get_configs d = Ok files → build_main d = Ok g → f ∈ files →
  parse_table (cf_content f) = Some table → memory_kernel table = Some (id, kernel, kernel_path) →
  ∃ images i, gen_images g = Some images ∧ i ∈ images ∧ mi_id i = id ∧
    ∃ p, canonicalize p = Some (mi_kernel i).
Proof.
  intros Hg Hm Hin Ht Hk. unfold build_main in Hm. apply outcome_bind_ok in Hm as (arch & _ & Hm).
  apply outcome_bind_ok in Hm as (out & _ & Hm). destruct (negb _); [done|]. rewrite Hg in Hm.
  apply outcome_bind_ok in Hm as (images & Hi & [= <-]). exists images. simpl. clear Hg.
  revert images Hi. induction Hin as [f files|f f' files Hin IH]; intros images Hi; simpl in Hi.
  - apply outcome_bind_ok in Hi as (image & Hp & Hi). unfold parse_config_file in Hp. rewrite Ht in Hp.
    simpl in Hp. rewrite Hk in Hp.
    do 5 (apply outcome_bind_ok in Hp as (? & _ & Hp)). injection Hp as <-.
    apply outcome_bind_ok in Hi as (kernel' & Hc & Hi). do 4 (apply outcome_bind_ok in Hi as (? & _ & Hi)).
    injection Hi as <-. eexists. split_and!; [done|by left|done|]. simpl in *.
    destruct (canonicalize _) as [k|] eqn:E in Hc; [|done]. injection Hc as ->. by eexists.
  - apply outcome_bind_ok in Hi as (image & _ & Hi). destruct image as [image|].
    + do 4 (apply outcome_bind_ok in Hi as (? & _ & Hi)). apply outcome_bind_ok in Hi as (images' & Hr & [= <-]).
      destruct (IH Ht images' Hr) as (i & ? & Hin' & ?). exists i. split_and!; [done|by right|tauto..].
    + by apply IH.
Qed.
End defconfig.

(** ** Examples *)
Module BuildExamples.

Definition config : Config :=
  mkConfig "aarch64-unknown-none-softfloat" ["fs"] None [] true (Some 4) ["configs/vms/arceos.toml"].

Definition kernel_table : Table :=
  [("image_location", VString "memory"); ("kernel_path", VString "arceos.bin")].
Definition vm_table : Table := [("base", VTable [("id", VInteger 1)]); ("kernel", VTable kernel_table)].

Definition host (env : gmap string string) : BuildHost := {|
  env_var k := env !! k;
  timestamp := "20250101_120000";
  can_read _ := true;
  can_write _ := true;
  read_error p := "No such file or directory";
  canonicalize p := Some p;
  parse_table _ := Some vm_table;
  parse_config _ := Some config;
  config_schema := "{}";
|}.

Definition vm_path : string := "/ws/configs/vms/arceos.toml".
Definition files : disk :=
  {[ "/ws/.build.toml" := "target"; vm_path := "[base]"; "/tmp/linux.toml" := "[kernel]" ]}.
Definition context : Context := mkContext "/ws" None None None None ["/tmp/linux.toml"].
Definition tool : BuildHost := host ∅.
Definition loaded : outcome string (Cargo * Context) * disk := load_config (H:=tool) context files.
Definition script_env : gmap string string :=
  {[ "CARGO_CFG_TARGET_ARCH" := "aarch64"; "OUT_DIR" := "/out";
     "AXVISOR_VM_CONFIGS" := "/ws/configs/vms/arceos.toml:/tmp/linux.toml" ]}.
Definition script : BuildHost := host script_env.
Definition generated : Generated := Eval vm_compute in
  match build_main (H:=script) loaded.2 with Ok g => g | _ => mkGenerated "" None [] end.
Definition result : Cargo * Context := Eval vm_compute in
  match loaded.1 with Ok r => r | _ => (mkCargo "" "" [] None [] false ∅, context) end.

Lemma static_configs_roundtrip_witness :
  read_static_configs (static_configs_text ["[base]"; "[kernel]"]) = Some ["[base]"; "[kernel]"].
Proof. apply static_configs_roundtrip. by repeat constructor. Defined.

Lemma configs_reach_the_build_witness : ∃ contents,
  read_static_configs (gen_text generated) = Some contents ∧
  Forall2 (λ p content, loaded.2 !! p = Some content) [vm_path; "/tmp/linux.toml"] contents.
Proof.
  destruct (configs_reach_the_build tool script context files result.1 result.2 loaded.2 generated)
    as (config' & contents & (text & _ & Hc) & Hr & Hf); [apply run_pair; vm_refl|vm_refl|done| |vm_refl|].
  { apply map_Forall_to_list, Forall_forall. by vm_compute; apply Forall_forall; repeat constructor. }
  exists contents. split; [done|]. injection Hc as <-. exact Hf.
Defined.

Definition board_files : disk := {[ "configs/board/qemu-aarch64.toml" := "board"; ".build.toml" := "mine" ]}.

Lemma defconfig_keeps_old_config_witness :
  let d' := (defconfig_command (H:=tool) "qemu-aarch64" board_files).2 in
  d' !! ".build.toml.backup_20250101_120000" = Some "mine".
Proof.
  destruct (defconfig_keeps_old_config (H:=tool) "qemu-aarch64" board_files
    (defconfig_command (H:=tool) "qemu-aarch64" board_files).2) as (_ & _ & Hb & _); [apply run_pair; vm_refl|].
  exact (Hb (mk_is_Some _ "mine" eq_refl)).
Defined.

Lemma memory_images_generated_witness : ∃ images i,
  gen_images generated = Some images ∧ i ∈ images ∧ mi_id i = 1.
Proof.
  destruct (memory_images_generated (H:=script) loaded.2 generated
    [mkConfigFile vm_path "[base]"; mkConfigFile "/tmp/linux.toml" "[kernel]"]
    (mkConfigFile vm_path "[base]") vm_table 1 kernel_table (VString "arceos.bin"))
    as (images & i & Hg & Hi & Hid & _); [vm_refl|vm_refl|by left|done|vm_refl|].
  exact (ex_intro _ images (ex_intro _ i (conj Hg (conj Hi Hid)))).
Defined.
End BuildExamples.
