(* ===== verification/LinuxHeader.v ===== *)
(** * Linux image headers ([kernel/src/vmm/images/linux.rs])

    The loader looks for the header of a Linux image in the first bytes of a kernel: first
    that of an Arm64 kernel, then that of a RISC-V kernel.  The Arm64 header has the layout
    of C; the RISC-V header has no declared layout, so the offsets of its fields are
    parameters ([RiscvLayout]).  Integers are little-endian, as on the targets. *)

From Stdlib Require Import Strings.Byte.
From S2P Require Import Prelude Disk Gpt.

Inductive PageSize : Type := Unspecified | Size4K | Size16K | Size64K.

Inductive ImageArch : Type :=
  | Riscv (is_be : bool)
  | Arm64 (is_be : bool) (page_size : PageSize) (phys_placement_48bit : bool).

Record Header : Type := mkHeader {
  text_offset : Z;
  image_size : Z;
  header_arch : ImageArch;
}.

Record ARM64Header : Type := mkArm64 {
  a_code0 : Z; a_code1 : Z; a_text_offset : Z; a_image_size : Z; a_flags : Z;
  a_res2 : Z; a_res3 : Z; a_res4 : Z; a_magic : Z; a_res5 : Z;
}.

Record RiscvHeader : Type := mkRiscv {
  r_text_offset : Z; r_image_size : Z; r_flags : Z; r_magic : Z; r_magic2 : Z;
}.

(** Where the compiler puts the fields of the RISC-V header that are used. *)
Class RiscvLayout : Type := {
  off_text_offset : Z;
  off_image_size : Z;
  off_flags : Z;
  off_magic : Z;
  off_magic2 : Z;
}.

(** Both headers have 64 bytes. *)
Definition hdr_size : Z := 64.

Definition field (offset size : Z) (buffer : list u8) : Z := from_le_bytes (sub offset size buffer).

(** ** Arm64 *)

Definition ARM64_MAGIC : Z := 0x644d5241.

Definition read_arm64 (buffer : list u8) : ARM64Header :=
  mkArm64 (field 0 4 buffer) (field 4 4 buffer) (field 8 8 buffer) (field 16 8 buffer) (field 24 8 buffer)
    (field 32 8 buffer) (field 40 8 buffer) (field 48 8 buffer) (field 56 4 buffer) (field 60 4 buffer).

Definition arm64_parse (buffer : list u8) : option ARM64Header :=
  if bool_decide (len buffer < hdr_size) then None else
  let hdr := read_arm64 buffer in
  if bool_decide (a_magic hdr ≠ ARM64_MAGIC) then None else Some hdr.

Definition kernel_is_be (flags : Z) : bool := bool_decide (Z.land flags 1 ≠ 0).

Definition page_size_of (flags : Z) : PageSize :=
  match Z.land (Z.shiftr flags 1) 3 with
  | 0 => Unspecified
  | 1 => Size4K
  | 2 => Size16K
  | 3 => Size64K
  | _ => Unspecified
  end.

Definition phys_placement_48bit_of (flags : Z) : bool := bool_decide (Z.land (Z.shiftr flags 3) 1 ≠ 0).

(** ** RISC-V *)

Definition RISCV_MAGIC : Z := 0x5643534952.
Definition RISCV_MAGIC2 : Z := 0x56534905.

Section riscv.
Context `{!RiscvLayout}.

Definition read_riscv (buffer : list u8) : RiscvHeader :=
  mkRiscv (field off_text_offset 8 buffer) (field off_image_size 8 buffer) (field off_flags 8 buffer)
    (field off_magic 8 buffer) (field off_magic2 4 buffer).

Definition riscv_parse (buffer : list u8) : option RiscvHeader :=
  if bool_decide (len buffer < hdr_size) then None else
  let hdr := read_riscv buffer in
  if bool_decide (r_magic hdr ≠ RISCV_MAGIC) || bool_decide (r_magic2 hdr ≠ RISCV_MAGIC2) then None
  else Some hdr.

Definition header_parse (image : list u8) : option Header :=
  match arm64_parse image with
  | Some hdr =>
      Some (mkHeader (a_text_offset hdr) (a_image_size hdr)
        (Arm64 (kernel_is_be (a_flags hdr)) (page_size_of (a_flags hdr)) (phys_placement_48bit_of (a_flags hdr))))
  | None =>
      match riscv_parse image with
      | Some hdr => Some (mkHeader (r_text_offset hdr) (r_image_size hdr) (Riscv (kernel_is_be (r_flags hdr))))
      | None => None
      end
  end.
End riscv.

(** * Theorems *)

(** The header of an Arm64 image as the boot protocol lays it out. *)
Definition arm64_bytes (h : ARM64Header) : list u8 :=
  to_le_bytes 4 (a_code0 h) ++ to_le_bytes 4 (a_code1 h) ++ to_le_bytes 8 (a_text_offset h) ++
  to_le_bytes 8 (a_image_size h) ++ to_le_bytes 8 (a_flags h) ++ to_le_bytes 8 (a_res2 h) ++
  to_le_bytes 8 (a_res3 h) ++ to_le_bytes 8 (a_res4 h) ++ to_le_bytes 4 (a_magic h) ++ to_le_bytes 4 (a_res5 h).

Definition arm64_wf (h : ARM64Header) : Prop :=
  0 ≤ a_text_offset h < 2 ^ 64 ∧ 0 ≤ a_image_size h < 2 ^ 64 ∧ 0 ≤ a_flags h < 2 ^ 64 ∧
  0 ≤ a_magic h < 2 ^ 32.

(** The flags of an Arm64 image. *)
Definition arm64_flags (be : bool) (page : Z) (placement : bool) : Z :=
  Z.b2z be + 2 * page + 8 * Z.b2z placement.

Definition page_size_code (p : PageSize) : Z :=
  match p with Unspecified => 0 | Size4K => 1 | Size16K => 2 | Size64K => 3 end.

Lemma sub_skip (pre rest : list u8) o n : len pre ≤ o → sub o n (pre ++ rest) = sub (o - len pre) n rest.
Proof.
  intros Ho. unfold sub. f_equal. rewrite drop_app. unfold len in *.
  rewrite drop_ge by lia. simpl. f_equal. lia.
Qed.

Lemma sub_here n v rest : 0 ≤ v < 256 ^ Z.of_nat n → from_le_bytes (sub 0 (Z.of_nat n) (to_le_bytes n v ++ rest)) = v.
Proof.
  intros Hv. rewrite <- (from_to_le_bytes n v Hv) at 2. f_equal. unfold sub. simpl. rewrite drop_0.
  pose proof (to_le_bytes_len n v). unfold len in *. rewrite take_app_le by lia. apply take_ge. lia.
Qed.

Ltac skip_fields :=
  repeat (rewrite sub_skip by (rewrite to_le_bytes_len; lia); rewrite to_le_bytes_len);
  repeat match goal with |- context [sub ?e _ _] => progress (let e' := eval vm_compute in e in change e with e') end.

Lemma read_arm64_bytes h rest :
  arm64_wf h → let r := read_arm64 (arm64_bytes h ++ rest) in
  a_text_offset r = a_text_offset h ∧ a_image_size r = a_image_size h ∧ a_flags r = a_flags h ∧
  a_magic r = a_magic h.
Proof.
  intros (H1 & H2 & H3 & H4). unfold arm64_bytes, read_arm64, field. rewrite <- !app_assoc.
  cbn [a_text_offset a_image_size a_flags a_magic].
  split_and!; skip_fields; [apply (sub_here 8)|apply (sub_here 8)|apply (sub_here 8)|apply (sub_here 4)]; done.
Qed.

Lemma arm64_flags_decode be p pl k :
  0 ≤ k → let f := arm64_flags be (page_size_code p) pl + 16 * k in
  kernel_is_be f = be ∧ page_size_of f = p ∧ phys_placement_48bit_of f = pl.
Proof.
  intros Hk f. unfold kernel_is_be, page_size_of, phys_placement_48bit_of.
  rewrite !Z.shiftr_div_pow2 by lia.
  assert (H1 : ∀ x, Z.land x 1 = x mod 2 ^ 1) by (intros x; by apply (Z.land_ones x 1)).
  assert (H3 : ∀ x, Z.land x 3 = x mod 2 ^ 2) by (intros x; by apply (Z.land_ones x 2)).
  rewrite !H1, H3.
  assert (Hp : 0 ≤ page_size_code p ≤ 3) by (by destruct p).
  replace (f mod 2 ^ 1) with (Z.b2z be) by
    (unfold f, arm64_flags; destruct be, pl; simpl Z.b2z; Z.div_mod_to_equations; lia).
  replace (f / 2 ^ 1 mod 2 ^ 2) with (page_size_code p) by
    (unfold f, arm64_flags; destruct be, pl; simpl Z.b2z; Z.div_mod_to_equations; lia).
  replace (f / 2 ^ 3 mod 2 ^ 1) with (Z.b2z pl) by
    (unfold f, arm64_flags; destruct be, pl; simpl Z.b2z; Z.div_mod_to_equations; lia).
  by destruct be, pl, p.
Qed.

(** Reading back an Arm64 header gives what was written: for an image that starts
    with the header of the boot protocol, whatever follows, the parser reports the
    offset, the size, the endianness, the page size and the placement of the header. *)
Theorem arm64_header_roundtrip `{!RiscvLayout} h rest be p pl k :
  arm64_wf h → a_magic h = ARM64_MAGIC → 0 ≤ k → a_flags h = arm64_flags be (page_size_code p) pl + 16 * k →
  header_parse (arm64_bytes h ++ rest) =
  Some (mkHeader (a_text_offset h) (a_image_size h) (Arm64 be p pl)).
Proof.
  intros Hwf Hm Hk Hf. destruct (read_arm64_bytes h rest Hwf) as (H1 & H2 & H3 & H4).
  unfold header_parse, arm64_parse. rewrite bool_decide_eq_false_2.
  2:{ unfold arm64_bytes, hdr_size. rewrite !len_app, !to_le_bytes_len. pose proof (len_nonneg rest). lia. }
  cbv zeta. rewrite H4, Hm, bool_decide_eq_false_2 by tauto. rewrite H1, H2, H3, Hf.
  by destruct (arm64_flags_decode be p pl k Hk) as (-> & -> & ->).
Qed.

(** No RISC-V kernel is recognised: the second magic number of the RISC-V boot image
    header is ['RSC\005'], 0x05435352, at offset 56; with the fields laid out as in that
    header the parser finds no header in any such image. *)
Theorem riscv_header_not_recognised `{!RiscvLayout} image :
  off_magic2 = 56 → field 56 4 image = 0x05435352 → header_parse image = None.
Proof.
  intros Ho Hm. unfold header_parse, arm64_parse, riscv_parse. case_bool_decide; [done|].
  cbn [a_magic read_arm64 r_magic2 read_riscv]. rewrite Ho, Hm.
  rewrite !(bool_decide_eq_true_2 (_ ≠ _)) by done. by rewrite orb_true_r.
Qed.

(** ** Examples *)
Module HeaderExamples.

#[local] Instance c_layout : RiscvLayout := {|
  off_text_offset := 8; off_image_size := 16; off_flags := 24; off_magic := 48; off_magic2 := 56;
|}.

Definition kernel : ARM64Header := mkArm64 0x91005a4d 0x14000000 0 0x2000000 10 0 0 0 ARM64_MAGIC 0x40.

Lemma arm64_header_roundtrip_witness :
  header_parse (arm64_bytes kernel ++ [x00]) = Some (mkHeader 0 0x2000000 (Arm64 false Size4K true)).
Proof. by apply (arm64_header_roundtrip kernel [x00] false Size4K true 0). Defined.

Definition riscv_image : list u8 :=
  replicate 48 x00 ++ to_le_bytes 8 RISCV_MAGIC ++ to_le_bytes 4 0x05435352 ++ replicate 4 x00.

Lemma riscv_header_not_recognised_witness : header_parse riscv_image = None.
Proof. by apply riscv_header_not_recognised. Defined.
End HeaderExamples.
