(* ===== verification/VmCreate.v ===== *)
(** * Creating guests ([kernel/src/vmm/config.rs], [vm create] of [shell/command/vm.rs])

    The configurations of the guests come from the file system or are compiled in; each
    of them is turned into a VM: parsed, created, listed, given memory, loaded and set up.
    The VM object and the parser of configurations ([VmFactory], the [axvm] crate) and the
    files ([ConfigFiles]) are parameters.  What the device-tree and image components do is
    the interface [GuestSetup], which [GuestBoot] implements with their models.  The state
    is that of [Vmm]; the memory of the guests and the cache of device trees are in [G]. *)

From S2P Require Import Prelude RustStr Command Ivc Hvc Vmm VmCommands LinuxHeader GuestMem.

(** ** Interfaces *)

Inductive VmMemMappingType : Type := MapAlloc | MapIdentical | MapReserved.

Record VmMemConfig : Type := mkVmMem {
  vmem_gpa : Z;
  vmem_size : Z;
  vmem_map_type : VmMemMappingType;
}.

(** [AxVMCrateConfig], [AxVMConfig] and the VM object of [axvm]. *)
Class VmFactory (G : Type) : Type := {
  crate_config : Type;
  vm_config : Type;
  from_toml : string → option crate_config;
  cc_base_id : crate_config → Z;
  cc_memory_regions : crate_config → list VmMemConfig;
  config_from : crate_config → vm_config;
  config_id : vm_config → Z;
  vm_new : vm_config → st G AxError VM;
  alloc_memory_region : VM → Z → Z → option Z → st G AxError mem_region;
  map_reserved_memory_region : VM → Z → Z → option Z → st G AxError mem_region;
  vm_init : VM → st G AxError ();
}.

(** A configuration keeps its identifier, and the VM has that of its configuration. *)
Class VmFactoryOk (G : Type) `{!VmFactory G} : Prop := {
  config_from_id cc : config_id (config_from cc) = cc_base_id cc;
  vm_new_id cfg v g g' : vm_new cfg g = (Ok v, g') → vm_id v = config_id cfg;
}.

(** What the image and device-tree components do for a new guest. *)
Class GuestSetup (G : Type) `{!VmFactory G} : Type := {
  init_dtb_cache : st G AxError ();
  get_image_header : crate_config → outcome AxError (option Header);
  handle_fdt_operations : vm_config → crate_config → st G AxError vm_config;
  config_guest_address : VM → mem_region → st G AxError ();
  load_images : crate_config → VM → st G AxError ();
}.

Class GuestSetupOk (G : Type) `{!VmFactory G} `{!GuestSetup G} : Prop :=
  handle_fdt_id cfg cc cfg' g g' :
    handle_fdt_operations cfg cc g = (Ok cfg', g') → config_id cfg' = config_id cfg.

(** The files of the configurations; [None] for an entry, a file or a read that fails. *)
Class ConfigFiles : Type := {
  read_dir : string → option (list (option string));
  open_toml : string → option Z;
  read_exact : string → Z → option string;
  read_to_string : string → outcome string string;
}.

(** ** Configurations *)

Section configs.
Context `{!ConfigFiles}.

Definition config_dir : string := "/guest/vm_default".

Definition looks_valid (content : string) : bool :=
  str_contains "[base]" content && str_contains "[kernel]" content && str_contains "[devices]" content.

(** One entry of the directory: the configuration it holds, if any. *)
Definition entry_config (path_str : string) : outcome blocked (option string) :=
  if ends_with ".toml" path_str then
    file_size ← unwrap (open_toml path_str);
    if bool_decide (file_size = 0) then Ok None else
    match read_exact path_str file_size with
    | Some buffer =>
        if is_utf8 buffer then Ok (if looks_valid buffer then Some buffer else None) else Panic
    | None => Ok None
    end
  else Ok None.

Fixpoint entry_configs (entries : list (option string)) : outcome blocked (list string) :=
  match entries with
  | [] => Ok []
  | None :: entries => entry_configs entries
  | Some p :: entries =>
      c ← entry_config p;
      configs ← entry_configs entries;
      Ok (match c with Some c => c :: configs | None => configs end)
  end.

Definition filesystem_vm_configs : outcome blocked (list string) :=
  match read_dir config_dir with Some entries => entry_configs entries | None => Ok [] end.

(** The configurations [init_guest_vms] uses: the compiled-in ones only when the file
    system has none. *)
Definition raw_configs (static_vm_configs : list string) : outcome blocked (list string) :=
  gvm_raw_configs ← filesystem_vm_configs;
  Ok (if is_empty gvm_raw_configs then gvm_raw_configs ++ static_vm_configs else gvm_raw_configs).
End configs.

(** ** One guest *)

(** [Layout::from_size_align(size, align)] for a power of two. *)
Definition layout_ok (size align : Z) : bool := bool_decide (size ≤ 2 ^ 63 - align).

Section create.
Context {F G : Type} `{!PagingHandler F} `{!GuestVM G} `{!HyperCallCodes}.
Context `{!AxVm} `{!OverflowChecks} `{!TargetArch}.
Context `{!VmFactory G} `{!GuestSetup G} `{!ConfigFiles}.

Abbreviation state := (vmm_state (hvc_state F G)).
Abbreviation M := (st state blocked).

Definition MB : Z := 1024 * 1024.
Definition ALIGN : Z := 2 * MB.

Definition with_guests (g : G) (s : state) : state := upd_hvc (λ h, (h.1, g)) s.

(** A call whose failure is unwrapped. *)
Definition guest_do {A} (m : st G AxError A) : M A := λ s,
  let '(r, g) := m (hvc s).2 in (expect r, with_guests g s).

(** The memory of one region of the configuration. *)
Definition alloc_region (v : VM) (memory : VmMemConfig) : M mem_region :=
  if negb (layout_ok (vmem_size memory) ALIGN) then panic else
  guest_do match vmem_map_type memory with
  | MapAlloc => alloc_memory_region v (vmem_size memory) ALIGN (Some (vmem_gpa memory))
  | MapIdentical => alloc_memory_region v (vmem_size memory) ALIGN None
  | MapReserved => map_reserved_memory_region v (vmem_size memory) ALIGN (Some (vmem_gpa memory))
  end.

Definition add_region_size (n : Z) (v : VM) : VM :=
  mkVM (vm_id v) (vm_name v) (vm_status v) (vcpu_list v) (vcpu_affinities_pcpu_ids v)
    (memory_region_sizes v ++ [n]).

Fixpoint vm_alloc_memorys (l : Z) (regions : list VmMemConfig) : M (list mem_region) :=
  match regions with
  | [] => mret []
  | memory :: regions =>
      v ← deref l;
      r ← alloc_region v memory;
      store l (add_region_size (mr_size r) v);;
      rs ← vm_alloc_memorys l regions;
      mret (r :: rs)
  end.

(** The new object: at a place no VM is at and no task refers to. *)
Definition new_ref (v : VM) : M Z :=
  s ← get;
  let l := fresh (dom (heap s) ∪ list_to_set ((λ p, t_vm p.2) <$> map_to_list (tasks s)) ∪
                  list_to_set ((map_to_list (vms s)).*2) : gset Z) in
  store l v;; mret l.

Definition init_guest_vm (raw_cfg : string) : M (outcome AxError Z) :=
  vm_create_config ← lift (unwrap (from_toml raw_cfg));
  lift (expect (get_image_header vm_create_config));;
  vm_config ← (if bool_decide (target_arch = AArch64)
               then guest_do (handle_fdt_operations (config_from vm_create_config) vm_create_config)
               else mret (config_from vm_create_config));
  v ← guest_do (vm_new vm_config);
  l ← new_ref v;
  push_vm l;;
  regions ← vm_alloc_memorys l (cc_memory_regions vm_create_config);
  v ← deref l;
  main_mem ← lift (unwrap (head regions));
  guest_do (config_guest_address v main_mem);;
  guest_do (load_images vm_create_config v);;
  guest_do (vm_init v);;
  store l (set_vm_status Loaded v);;
  drop_vm l;;
  mret (Ok (vm_id v)).

(** [init_guest_vms]; a failure would be logged. *)
Fixpoint init_each (configs : list string) : M () :=
  match configs with
  | [] => mret ()
  | raw_cfg :: configs => init_guest_vm raw_cfg;; init_each configs
  end.

Definition init_guest_vms (static_vm_configs : list string) : M () :=
  (if bool_decide (target_arch = AArch64) then guest_do init_dtb_cache else mret ());;
  configs ← lift (raw_configs static_vm_configs);
  init_each configs.

(** ** [vm create] *)

Definition create_one (config_path : string) : M () :=
  println ("Creating VM from config: " +:+ config_path);;
  match read_to_string config_path with
  | Ok raw_cfg =>
      r ← init_guest_vm raw_cfg;
      match r with
      | Ok id => println ("✓ Successfully created " +:+ vm_tag id +:+ " from config: " +:+ config_path)
      | _ => println ("✗ Failed to create VM from " +:+ config_path +:+
                      ": Configuration error or panic occurred")
      end
  | Err e => println ("✗ Failed to read config file " +:+ config_path +:+ ": " +:+ e)
  | Panic => panic
  end.

(** [args] is printed in its [Debug] form, with the strings quoted as they are. *)
Definition vm_create (cmd : ParsedCommand) : M () :=
  let args := positional_args cmd in
  println ("Positional args: [" +:+ str_join ", " (quoted <$> args) +:+ "]");;
  if is_empty args then
    println "Error: No VM configuration file specified";;
    println "Usage: vm create [CONFIG_FILE]"
  else
    initial ← get_vm_list;
    for_each args create_one;;
    final ← get_vm_list;
    created_count ← lift (usize_sub (Z.of_nat (length final)) (Z.of_nat (length initial)));
    if bool_decide (0 < created_count) then
      println ("Successfully created " +:+ pretty created_count +:+ " VM(s)");;
      println "Use 'vm start <VM_ID>' to start the created VMs."
    else println "No VMs were created.".
End create.

(** * Theorems *)

Section theorems.
Context {F G : Type} `{!PagingHandler F} `{!GuestVM G} `{!HyperCallCodes}.
Context `{!AxVm} `{!OverflowChecks} `{!TargetArch}.
Context `{!VmFactory G} `{!VmFactoryOk G} `{!GuestSetup G} `{!GuestSetupOk G} `{!ConfigFiles}.

Abbreviation state := (vmm_state (hvc_state F G)).
Implicit Types (s : state).

#[local] Ltac vmm_fields :=
  cbv beta iota delta [with_guests upd_hvc upd_heap upd_vms heap vms queue wqs tasks next_wq running_vm_count
    hvc trace out fst snd].

Lemma upd_heap_id s f : f (heap s) = heap s → upd_heap f s = s.
Proof. intros Hf. unfold upd_heap. rewrite Hf. by destruct s. Qed.

Lemma upd_heap_twice s f g : upd_heap f (upd_heap g s) = upd_heap (λ h, f (g h)) s.
Proof. done. Qed.

Lemma upd_heap_ext s f g : f (heap s) = g (heap s) → upd_heap f s = upd_heap g s.
Proof. intros Hf. unfold upd_heap. by rewrite Hf. Qed.

Definition add_sizes (ns : list Z) (v : VM) : VM := fold_left (λ v n, add_region_size n v) ns v.

Lemma add_sizes_keep ns v : vm_id (add_sizes ns v) = vm_id v.
Proof. unfold add_sizes. revert v. induction ns as [|n ns IH]; intros v; [done|]. simpl. by rewrite IH. Qed.

Lemma add_sizes_vcpus ns v : vcpu_list (add_sizes ns v) = vcpu_list v.
Proof. unfold add_sizes. revert v. induction ns as [|n ns IH]; intros v; [done|]. simpl. by rewrite IH. Qed.

(** The virtual CPUs are those of an object that [axvm] has created. *)
Definition made (v : VM) : Prop := ∃ cfg g g' v0, vm_new cfg g = (Ok v0, g') ∧ vcpu_list v = vcpu_list v0.

Lemma add_sizes_sizes ns v : memory_region_sizes (add_sizes ns v) = memory_region_sizes v ++ ns.
Proof.
  unfold add_sizes. revert v. induction ns as [|n ns IH]; intros v; simpl; [by rewrite app_nil_r|].
  rewrite IH. simpl. by rewrite <- app_assoc.
Qed.

Lemma deref_inv l s v s' : deref l s = (Ok v, s') → heap s !! l = Some v ∧ s' = s.
Proof.
  unfold deref. st_run. destruct (heap s !! l); [|done]. by intros [= -> ->].
Qed.

Lemma guest_do_ok {A} (m : st G AxError A) s x s' :
  guest_do m s = (Ok x, s') → ∃ g, m (hvc s).2 = (Ok x, g) ∧ s' = with_guests g s.
Proof.
  unfold guest_do. destruct (m (hvc s).2) as [[y|e|] g]; [|done..]. intros [= -> <-]. by exists g.
Qed.

Lemma alloc_region_ok v memory s x s' :
  alloc_region v memory s = (Ok x, s') → ∃ g, s' = with_guests g s.
Proof.
  unfold alloc_region. destruct (negb _); [done|]. intros (g & _ & ->)%guest_do_ok. by exists g.
Qed.

Lemma vm_alloc_memorys_ok l regions s v rs s' :
  heap s !! l = Some v → vm_alloc_memorys l regions s = (Ok rs, s') →
  ∃ g, s' = with_guests g (upd_heap <[l := add_sizes (mr_size <$> rs) v]> s).
Proof.
  revert s v rs. induction regions as [|m regions IH]; intros s v rs Hv Ha.
  { injection Ha as <- <-. exists (hvc s).2. symmetry. rewrite upd_heap_id; [|by apply insert_id].
    unfold with_guests, upd_hvc. destruct s as [??????? [] ? ?]. done. }
  apply st_bind_ok in Ha as (w & s1 & [Hw ->]%deref_inv & Ha). rewrite Hv in Hw. injection Hw as <-.
  apply st_bind_ok in Ha as (r & s4 & [g1 ->]%alloc_region_ok & Ha).
  apply st_bind_ok in Ha as ([] & s5 & [= <-] & Ha). apply st_bind_ok in Ha as (rs' & s6 & Ha & [= <- <-]).
  eapply IH in Ha as [g ->]; [|simpl; apply lookup_insert_eq]. exists g.
  vmm_fields. by rewrite insert_insert_eq.
Qed.

(** The place of a new object. *)
Definition is_new s (l : Z) : Prop :=
  heap s !! l = None ∧ map_Forall (λ _ t, t_vm t ≠ l) (tasks s) ∧ map_Forall (λ _ l', l' ≠ l) (vms s).

Lemma new_ref_ok s v l s' :
  new_ref v s = (Ok l, s') → is_new s l ∧ s' = upd_heap <[l := v]> s.
Proof.
  unfold new_ref. intros Hn. apply st_bind_ok in Hn as (s1 & s2 & [= <- <-] & Hn).
  apply st_bind_ok in Hn as ([] & s3 & [= <-] & [= <- <-]). split; [|done].
  match goal with |- is_new _ (fresh ?X) => pose proof (is_fresh X) as Hf; set (l := fresh X) in * end.
  rewrite !elem_of_union, !elem_of_list_to_set in Hf. split_and!.
  - apply not_elem_of_dom. tauto.
  - intros tid t Ht El. apply Hf. left. right. apply list_elem_of_fmap. exists (tid, t).
    split; [done|]. by apply elem_of_map_to_list.
  - intros id l' Hl El. apply Hf. right. apply list_elem_of_fmap. exists (id, l').
    split; [done|]. by apply elem_of_map_to_list.
Qed.

(** What a successful call does to the state, in the two cases of [push_vm]. *)
Definition created s (l : Z) (v : VM) s' : Prop :=
  match vms s !! vm_id v with
  | None => ∃ g, s' = with_guests g (upd_heap <[l := v]> (upd_vms <[vm_id v := l]> s))
  | Some _ => ∃ g, s' = with_guests g s
  end.

Lemma drop_vm_new s l v :
  is_new s l → strong_count s l 0 = 0 → drop_vm l (upd_heap <[l := v]> s) = (Ok (), s).
Proof.
  intros (Hl & _ & _) Hc. unfold drop_vm, modify. f_equal.
  change (strong_count (upd_heap <[l:=v]> s) l 0) with (strong_count s l 0).
  rewrite Hc, bool_decide_eq_true_2 by done. rewrite upd_heap_twice. apply upd_heap_id.
  by apply delete_insert_id.
Qed.

Lemma filter_none {A} (P : A → Prop) `{∀ x, Decision (P x)} l : (∀ x, x ∈ l → ¬ P x) → filter P l = [].
Proof.
  intros Hl. destruct (filter P l) as [|x k] eqn:E; [done|]. exfalso.
  assert (x ∈ filter P l) as [HP Hx]%list_elem_of_filter by (rewrite E; by left). by apply (Hl x).
Qed.

Lemma strong_count_new s l : is_new s l → strong_count s l 0 = 0.
Proof.
  intros (_ & Ht & Hv). unfold strong_count. rewrite !filter_none; [done|..].
  - intros [tid t] Hin%elem_of_map_to_list. simpl. unfold holds_vm. intros [El _]%bool_decide_unpack.
    by apply (Ht tid t).
  - intros [id l'] Hin%elem_of_map_to_list. simpl. by apply (Hv id l').
Qed.

Lemma strong_count_listed s l id : vms s !! id = Some l → strong_count s l 0 ≠ 0.
Proof.
  intros Hl. unfold strong_count. destruct (filter (λ p, p.2 = l) (map_to_list (vms s))) eqn:E.
  - exfalso. apply (not_elem_of_nil (id, l)). rewrite <- E. apply list_elem_of_filter.
    split; [done|]. by apply elem_of_map_to_list.
  - simpl length. lia.
Qed.

Lemma push_vm_run l s v :
  heap s !! l = Some v →
  push_vm l s = (Ok (), match vms s !! vm_id v with Some _ => s | None => upd_vms <[vm_id v := l]> s end).
Proof.
  intros Hl. unfold push_vm, deref, push_vm_id. st_run. rewrite Hl. simpl. by destruct (vms s !! vm_id v).
Qed.

(** The new object, after the configuration and the device trees. *)
Lemma new_vm_ok cc s v s' :
  (vm_config ← (if bool_decide (target_arch = AArch64)
                then guest_do (handle_fdt_operations (config_from cc) cc)
                else mret (config_from cc)); guest_do (vm_new vm_config)) s = (Ok v, s') →
  vm_id v = cc_base_id cc ∧ made v ∧ ∃ g, s' = with_guests g s.
Proof.
  intros Hn. apply st_bind_ok in Hn as (cfg & s1 & Hc & (g & Hv & ->)%guest_do_ok).
  assert (made v) by (by exists cfg, (hvc s1).2, g, v).
  rewrite (vm_new_id _ _ _ _ Hv), <- config_from_id. case_bool_decide.
  - apply guest_do_ok in Hc as (g1 & Hc & ->). rewrite (handle_fdt_id _ _ _ _ _ Hc). by eauto.
  - injection Hc as <- <-. by eauto.
Qed.

(** The last steps: the status is set and the reference of the call is given up. *)
Lemma finish_ok l v s0 g w s' :
  is_new s0 l → vm_id v = vm_id w →
  drop_vm l (upd_heap <[l := v]> (with_guests g (upd_heap <[l := w]>
    match vms s0 !! vm_id w with Some _ => s0 | None => upd_vms <[vm_id w := l]> s0 end))) = (Ok (), s') →
  created s0 l v s'.
Proof.
  intros Hnew Hid Hdrop. unfold created. rewrite Hid. destruct (vms s0 !! vm_id w) as [l0|].
  - exists g. erewrite (upd_heap_ext _ _ (λ _, <[l := v]> (heap s0))) in Hdrop by (simpl; by rewrite insert_insert_eq).
    change (upd_heap (λ _, <[l:=v]> (heap s0)) (with_guests g (upd_heap <[l:=w]> s0)))
      with (upd_heap <[l := v]> (with_guests g s0)) in Hdrop.
    rewrite (drop_vm_new (with_guests g s0)) in Hdrop; [by injection Hdrop|done|].
    exact (strong_count_new s0 l Hnew).
  - exists g. unfold drop_vm, modify in Hdrop. rewrite bool_decide_eq_false_2 in Hdrop.
    + injection Hdrop as <-. vmm_fields. by rewrite insert_insert_eq.
    + apply (strong_count_listed _ _ (vm_id w)). simpl. apply lookup_insert_eq.
Qed.

Lemma init_guest_vm_ok raw s r s' :
  init_guest_vm raw s = (Ok r, s') →
  ∃ cc l v, from_toml raw = Some cc ∧ is_new s l ∧ r = Ok (vm_id v) ∧ vm_status v = Loaded ∧
    vm_id v = cc_base_id cc ∧ made v ∧ created s l v s'.
Proof.
  unfold init_guest_vm. intros Hi. apply st_bind_ok in Hi as (cc & s1 & Hcc & Hi).
  destruct (from_toml raw) as [cc'|]; [|done]. injection Hcc as -> <-.
  apply st_bind_ok in Hi as (h & s2 & Hh & Hi). injection Hh as _ <-.
  apply st_bind_ok in Hi as (cfg & s3 & Hc & Hi). apply st_bind_ok in Hi as (v & s4 & Hv & Hi).
  destruct (new_vm_ok cc s v s4) as (Hid & Hmade & g & ->); [by rewrite (bind_run _ _ _ _ _ Hc)|].
  apply st_bind_ok in Hi as (l & s5 & [Hnew ->]%new_ref_ok & Hi).
  apply st_bind_ok in Hi as ([] & s6 & Hp & Hi).
  rewrite (push_vm_run _ _ v) in Hp by (simpl; apply lookup_insert_eq).
  change (vms (upd_heap <[l := v]> (with_guests g s))) with (vms s) in Hp. injection Hp as <-.
  apply st_bind_ok in Hi as (rs & s7 & Ha & Hi).
  apply (vm_alloc_memorys_ok _ _ _ v) in Ha as [g' ->];
    [|by destruct (vms s !! vm_id v); apply lookup_insert_eq].
  apply st_bind_ok in Hi as (v1 & s8 & [Hv1 ->]%deref_inv & Hi).
  simpl in Hv1. rewrite lookup_insert_eq in Hv1. injection Hv1 as <-.
  apply st_bind_ok in Hi as (mm & s9 & Hm & Hi). injection Hm as _ <-.
  apply st_bind_ok in Hi as ([] & s10 & (g1 & _ & ->)%guest_do_ok & Hi).
  apply st_bind_ok in Hi as ([] & s11 & (g2 & _ & ->)%guest_do_ok & Hi).
  apply st_bind_ok in Hi as ([] & s12 & (g3 & _ & ->)%guest_do_ok & Hi).
  apply st_bind_ok in Hi as ([] & s13 & [= <-] & Hi).
  apply st_bind_ok in Hi as ([] & s14 & Hdrop & [= <- <-]).
  exists cc, l, (set_vm_status Loaded (add_sizes (mr_size <$> rs) v)).
  split_and!; [done|exact Hnew|done|done|simpl; by rewrite add_sizes_keep| |].
  { unfold made in *. simpl. by rewrite add_sizes_vcpus. }
  apply (finish_ok l _ s g3 v); [exact Hnew|simpl; by rewrite add_sizes_keep|]. rewrite <- Hdrop. f_equal.
  destruct (vms s !! vm_id v); vmm_fields; by rewrite !insert_insert_eq.
Qed.

Lemma created_counts s l v s' : is_new s l → created s l v s' → counts_ok s → counts_ok s'.
Proof.
  intros (Hl & Ht & _) Hc Hok. unfold created in Hc.
  destruct (vms s !! vm_id v); destruct Hc as [g ->]; [done|].
  intros id q Hq. rewrite (Hok id q Hq). do 3 f_equal. unfold loop_tasks. simpl. f_equal.
  apply map_filter_ext. intros tid l' Hl'. simpl. rewrite lookup_omap in Hl'.
  destruct (tasks s !! tid) as [t|] eqn:Et; [|done]. simpl in Hl'. unfold loop_vm in Hl'.
  destruct (in_loop (t_pc t)); simplify_eq/=. rewrite fmap_insert, lookup_insert_ne; [done|].
  intros El. by apply (Ht tid t Et).
Qed.

(** C20: A guest that is created is added and nothing else is touched: the call returns the
    identifier of the configuration, leaves tasks, queues and channels as they were, and
    keeps the invariant on the counters of running virtual CPUs.  When that identifier
    was not taken, one VM, which is Loaded, is listed under it, and every other VM is as
    it was; otherwise the list and the VMs have not changed. *)
Theorem creation_adds_vm raw s r s' :
  counts_ok s → init_guest_vm raw s = (Ok r, s') →
  ∃ cc, from_toml raw = Some cc ∧ r = Ok (cc_base_id cc) ∧ counts_ok s' ∧
    tasks s' = tasks s ∧ queue s' = queue s ∧ (hvc s').1 = (hvc s).1 ∧
    match vms s !! cc_base_id cc with
    | None => ∃ l v, heap s !! l = None ∧ heap s' = <[l := v]> (heap s) ∧
        vms s' = <[cc_base_id cc := l]> (vms s) ∧ vm_id v = cc_base_id cc ∧ vm_status v = Loaded
    | Some _ => heap s' = heap s ∧ vms s' = vms s
    end.
Proof.
  intros Hok Hi. apply init_guest_vm_ok in Hi as (cc & l & v & Hcc & Hnew & -> & Hst & Hid & _ & Hc).
  exists cc. rewrite <- Hid. split; [done|]. split; [done|]. split; [by eapply created_counts|].
  unfold created in Hc. destruct (vms s !! vm_id v) eqn:E; destruct Hc as [g ->]; [by split_and!|].
  split_and!; [done..|]. exists l, v. by destruct Hnew.
Qed.

(** A second guest with an identifier that is taken is reported as created: [vm
    create] prints its success message, but neither the list nor any VM has changed, and
    its last line says that no VM was created. *)
Theorem duplicate_reported_created cmd p raw cc s s' :
  positional_args cmd = [p] → read_to_string p = Ok raw → from_toml raw = Some cc →
  is_Some (vms s !! cc_base_id cc) → vm_create cmd s = (Ok (), s') →
  vms s' = vms s ∧ heap s' = heap s ∧
  out s' = out s ++ ["Positional args: [" +:+ quoted p +:+ "]"; "Creating VM from config: " +:+ p;
                     "✓ Successfully created " +:+ vm_tag (cc_base_id cc) +:+ " from config: " +:+ p;
                     "No VMs were created."].
Proof.
  intros Hargs Hread Hcc Hin Hc. unfold vm_create in Hc. rewrite Hargs in Hc.
  apply st_bind_ok in Hc as ([] & s1 & [= <-] & Hc). change (is_empty [p]) with false in Hc. cbv iota in Hc.
  apply st_bind_ok in Hc as (initial & s2 & [= <- <-] & Hc).
  apply st_bind_ok in Hc as ([] & s3 & Hone & Hc).
  cbn [for_each] in Hone. apply st_bind_ok in Hone as ([] & s4 & Hone & [= <-]).
  apply st_bind_ok in Hone as ([] & s5 & [= <-] & Hone). rewrite Hread in Hone.
  apply st_bind_ok in Hone as (r & s6 & Hi & Hone).
  apply init_guest_vm_ok in Hi as (cc' & l & v & Hcc' & _ & -> & _ & Hv & _ & Hcr). simplify_eq.
  unfold created in Hcr. rewrite Hv in *. cbn [vms upd_out] in Hcr.
  destruct Hin as [l0 Hl0]. rewrite Hl0 in Hcr. destruct Hcr as [g ->]. injection Hone as <-.
  apply st_bind_ok in Hc as (final & s7 & [= <- <-] & Hc). unfold usize_sub in Hc.
  cbn [vms upd_out with_guests upd_hvc] in Hc.
  rewrite Z.sub_diag, checked_ok in Hc by (unfold in_usize, usize_max; lia).
  apply st_bind_ok in Hc as (k & s8 & [= <- <-] & Hc). rewrite bool_decide_eq_false_2 in Hc by lia.
  injection Hc as <-. simpl. split_and!; [done|done|]. by rewrite <- !app_assoc.
Qed.

(** A configuration that cannot be parsed stops the hypervisor: [vm create] on a file
    that can be read but is no VM configuration panics instead of reporting the failure. *)
Theorem bad_config_panics cmd p raw rest s :
  positional_args cmd = p :: rest → read_to_string p = Ok raw → from_toml raw = None →
  (vm_create cmd s).1 = Panic.
Proof.
  intros Hargs Hread Hcc. unfold vm_create. rewrite Hargs. erewrite bind_run by done.
  change (is_empty (p :: rest)) with false. cbv iota. erewrite bind_run by done.
  assert (Hone : ∀ s, (create_one p s).1 = Panic).
  { intros s0. unfold create_one. erewrite bind_run by done. rewrite Hread.
    unfold init_guest_vm. rewrite Hcc. done. }
  cbn [for_each]. unfold mbind, st_bind. specialize (Hone (upd_out (λ o, o ++
    ["Positional args: [" +:+ str_join ", " (quoted <$> p :: rest) +:+ "]"]) s)).
  by destruct (create_one p _) as [[] ?].
Qed.

Lemma entry_config_no_err q e : entry_config q ≠ Err e.
Proof.
  unfold entry_config. destruct (ends_with _ _); [|done]. destruct (open_toml q) as [n|]; [|done]. simpl.
  case_bool_decide; [done|]. destruct (read_exact q n); [|done]. by destruct (is_utf8 _).
Qed.

(** One bad file in the directory of VM configurations stops the boot: when some
    [.toml] file there cannot be opened, or is not empty and not UTF-8 text, the
    hypervisor panics before it creates any guest. *)
Theorem bad_config_file_stops_boot entries p static s :
  read_dir config_dir = Some entries → Some p ∈ entries → ends_with ".toml" p = true →
  open_toml p = None ∨
    (∃ n text, open_toml p = Some n ∧ n ≠ 0 ∧ read_exact p n = Some text ∧ is_utf8 text = false) →
  ∃ g, init_guest_vms static s = (Panic, with_guests g s).
Proof.
  intros Hdir Hin Htoml Hbad.
  assert (Hp : entry_config p = Panic).
  { unfold entry_config. rewrite Htoml. destruct Hbad as [-> |(n & text & -> & Hn & Hr & Hu)]; [done|].
    orun. simpl. by rewrite bool_decide_eq_false_2, Hr, Hu by done. }
  assert (Hall : entry_configs entries = Panic).
  { apply list_elem_of_split in Hin as (l1 & l2 & ->). clear Hdir.
    induction l1 as [|[q|] l1 IH]; simpl; [by rewrite Hp| |done].
    destruct (entry_config q) as [|e|] eqn:E; simpl; [by rewrite IH| |done].
    by destruct (entry_config_no_err q e). }
  assert (Hw : s = with_guests (hvc s).2 s) by by destruct s as [??????? [] ? ?].
  unfold init_guest_vms, raw_configs, filesystem_vm_configs. rewrite Hdir, Hall.
  unfold mbind, st_bind. case_bool_decide; [|by exists (hvc s).2; rewrite <- Hw].
  unfold guest_do. destruct (init_dtb_cache (hvc s).2) as [[] g]; by exists g.
Qed.
End theorems.

(** ** Examples *)
Module CreateExamples.

#[local] Existing Instances VmExamples.demo_vm VmExamples.demo_codes VmExamples.demo_checks VmExamples.demo_arch.

(** A configuration is its text; [vm1] and [vm2] describe VMs, anything else is not parsed. *)
#[local] Instance factory : VmFactory Demo.guests := {|
  crate_config := Z;
  vm_config := Z;
  from_toml raw := if bool_decide (raw = "vm1") then Some 1
                   else if bool_decide (raw = "vm2") then Some 2 else None;
  cc_base_id id := id;
  cc_memory_regions _ := [mkVmMem 0x40000000 0x10000000 MapAlloc];
  config_from id := id;
  config_id id := id;
  vm_new id := mret (mkVM id "guest" Loading VmExamples.vcpus [] []);
  alloc_memory_region _ size _ gpa := mret (mkRegion (default 0 gpa) size (bool_decide (gpa = None)));
  map_reserved_memory_region _ size _ gpa := mret (mkRegion (default 0 gpa) size false);
  vm_init _ := mret ();
|}.

#[local] Instance factory_ok : VmFactoryOk Demo.guests.
Proof. split; [done|]. by intros cfg v g g' [= <- _]. Qed.

#[local] Instance setup : GuestSetup Demo.guests := {|
  init_dtb_cache := mret ();
  get_image_header _ := Ok None;
  handle_fdt_operations cfg _ := mret cfg;
  config_guest_address _ _ := mret ();
  load_images _ _ := mret ();
|}.

#[local] Instance setup_ok : GuestSetupOk Demo.guests.
Proof. by intros cfg cc cfg' g g' [= <- _]. Qed.

#[local] Instance files : ConfigFiles := {|
  read_dir _ := Some [Some "/guest/vm_default/broken.toml"];
  open_toml _ := Some 2;
  read_exact _ _ := Some (of_bytes [255; 254]);
  read_to_string p := Ok p;
|}.

Definition s0 : VmExamples.dstate := VmExamples.s_loaded.
Definition create (p : string) : ParsedCommand := mkParsed ["vm"; "create"] ∅ ∅ [p].

Lemma s0_counts : counts_ok s0.
Proof. intros id q Hq. simpl in Hq. by apply lookup_empty_Some in Hq. Qed.

Lemma creation_adds_vm_witness :
  let run := init_guest_vm "vm2" s0 in
  run.1 = Ok (Ok 2) ∧ ∃ l v, vms run.2 = <[2 := l]> (vms s0) ∧ heap run.2 !! l = Some v ∧ vm_status v = Loaded.
Proof.
  destruct (creation_adds_vm "vm2" s0 (Ok 2) (init_guest_vm "vm2" s0).2 s0_counts)
    as (cc & Hcc & _ & _ & _ & _ & _ & Hx); [apply run_pair; vm_refl|]. split; [vm_refl|].
  assert (Some cc = Some (2 : @crate_config _ factory)) as [= ->] by (rewrite <- Hcc; vm_refl).
  destruct Hx as (l & v & _ & Hh & Hv & _ & Hs).
  exists l, v. split; [exact Hv|]. split; [|exact Hs]. rewrite Hh. apply lookup_insert_eq.
Defined.

Lemma duplicate_reported_created_witness :
  let s' := (vm_create (create "vm1") s0).2 in
  vms s' = vms s0 ∧ "✓ Successfully created VM[1] from config: vm1" ∈ out s' ∧ "No VMs were created." ∈ out s'.
Proof.
  destruct (duplicate_reported_created (create "vm1") "vm1" "vm1" (1 : @crate_config _ factory) s0
    (vm_create (create "vm1") s0).2) as (Hv & _ & Ho); [done|done|vm_refl|by eexists|apply run_pair; vm_refl|].
  split; [exact Hv|]. rewrite Ho. change (vm_tag (cc_base_id (1 : @crate_config _ factory))) with "VM[1]".
  split; apply elem_of_app; right; repeat constructor.
Defined.

Lemma bad_config_panics_witness : (vm_create (create "notes.txt") s0).1 = Panic.
Proof. by apply (bad_config_panics (create "notes.txt") "notes.txt" "notes.txt" []). Defined.

Lemma bad_config_file_stops_boot_witness : ∃ g, init_guest_vms ["vm2"] s0 = (Panic, with_guests g s0).
Proof.
  apply (bad_config_file_stops_boot [Some "/guest/vm_default/broken.toml"] "/guest/vm_default/broken.toml");
    [done|by left|by vm_compute|]. right. by exists 2, (of_bytes [255; 254]).
Defined.
End CreateExamples.
