(* ===== verification/GuestBoot.v ===== *)
(** * Setting up a new guest ([kernel/src/vmm/images/mod.rs], [fdt/mod.rs], [config.rs])

    The interface [GuestSetup] of [VmCreate], implemented with the models of the
    components behind it: the device trees ([FdtSetup]), the load addresses ([GuestMem]),
    the loader ([Images]) and the Linux headers ([LinuxHeader]).  Also here:
    [get_image_header] and [kernal_read].

    The state of [axvm] holds the memory and the configuration of each VM and is reached
    through [AxvmState]; so is the cache of device trees, a static of the hypervisor. *)

From Stdlib Require Import Strings.Byte.
From S2P Require Import Prelude RustStr Disk FdtTree FdtWrite GuestMem FdtCreate FdtGuest FdtUpdate FdtDevice.
From S2P Require Import FdtSetup FdtExamples Images LinuxHeader.
From S2P Require Import Command Ivc Hvc Vmm VmCommands VmCreate.

(** What the components see of the configurations: [AxVMCrateConfig] with the paths of
    the images, and the part of [AxVMConfig] that the device-tree code changes. *)
Class ConfigViews (G : Type) `{!VmFactory G} : Type := {
  cc_fdt : VmCreate.crate_config → FdtSetup.crate_config;
  cc_kernel_path : VmCreate.crate_config → string;
  cc_bios_path : VmCreate.crate_config → option string;
  cc_ramdisk_path : VmCreate.crate_config → option string;
  cfg_fdt : VmCreate.vm_config → FdtSetup.vm_config;
  set_cfg_fdt : FdtSetup.vm_config → VmCreate.vm_config → VmCreate.vm_config;
}.

Class ConfigViewsOk (G : Type) `{!VmFactory G} `{!ConfigViews G} : Prop := {
  cfg_fdt_id cfg : vc_id (cfg_fdt cfg) = config_id cfg;
  set_cfg_fdt_id c cfg : config_id (set_cfg_fdt c cfg) = vc_id c;
}.

(** The VM as the loader sees it, and the cache. *)
Class AxvmState (G : Type) : Type := {
  guest_of : VM → G → guest;
  set_guest : VM → guest → G → G;
  dtb_cache : G → option (gmap Z (list u8));
  set_dtb_cache : option (gmap Z (list u8)) → G → G;
}.

(** What is stored is read back. *)
Class AxvmStateOk (G : Type) `{!AxvmState G} : Prop := {
  dtb_cache_set c g : dtb_cache (set_dtb_cache c g) = c;
  dtb_cache_set_guest v gu g : dtb_cache (set_guest v gu g) = dtb_cache g;
}.

(** The cache belongs to the hypervisor: the functions of [axvm] do not touch it. *)
Class CacheApart (G : Type) `{!VmFactory G} `{!AxvmState G} : Prop := {
  vm_new_cache cfg g : dtb_cache (vm_new cfg g).2 = dtb_cache g;
  alloc_cache v n a p g : dtb_cache (alloc_memory_region v n a p g).2 = dtb_cache g;
  map_reserved_cache v n a p g : dtb_cache (map_reserved_memory_region v n a p g).2 = dtb_cache g;
  vm_init_cache v g : dtb_cache (vm_init v g).2 = dtb_cache g;
}.

Section boot.
Context {G : Type} `{!VmFactory G} `{!ConfigViews G} `{!AxvmState G}.
Context {W T : Type} `{!FdtWriter W T} `{!FdtParser} `{!OverflowChecks} `{!PropU32} `{!InfoLog} `{!FindNodes}.
Context `{!MemoryImages} `{!ImageFiles} `{!FileSystem} `{!ImageRegions} `{!AlignDown} `{!TargetArch}.
Context `{!RiscvLayout}.

(** The device tree of the host, as the boot loader left it. *)
Context (host_fdt_bytes : list u8).

(** ** The header of the kernel image *)

Definition with_memory_image {R} (config : VmCreate.crate_config) (func : list u8 → R) : outcome AxError R :=
  vm_imags ← unwrap (List.find (λ v, vi_id v =? cc_id (cc_fdt config)) memory_images);
  mret (func (vi_kernel vm_imags)).

Definition kernal_read (config : VmCreate.crate_config) (read_size : Z) : outcome AxError (list u8) :=
  match open_file (cc_kernel_path config) with
  | Some file => if len file <? read_size then Err NotFound else Ok (take (Z.to_nat read_size) file)
  | None => Err NotFound
  end.

Definition image_header (config : VmCreate.crate_config) : outcome AxError (option Header) :=
  match cc_image_location (cc_fdt config) with
  | Some "memory" => with_memory_image config header_parse
  | Some "fs" =>
      if fs_feature then
        match kernal_read config hdr_size with
        | Ok data => Ok (header_parse data)
        | Err _ => Ok None
        | Panic => Panic
        end
      else Panic
  | _ => Panic
  end.

(** ** The steps on the state of [axvm] *)

Definition on_guest {A} (v : VM) (m : st guest AxError A) : st G AxError A := λ g,
  let '(r, gu) := m (guest_of v g) in (r, set_guest v gu g).

Definition on_fdt {A} (cfg : FdtSetup.vm_config) (m : st fdt_state AxError A) :
    st G AxError FdtSetup.vm_config := λ g,
  let '(r, s) := m (mkFdtState cfg (dtb_cache g)) in (_ ← r; Ok (fs_config s), set_dtb_cache (fs_dtb_cache s) g).

(** [init_dtb_cache] does not look at a configuration. *)
Definition no_config : FdtSetup.vm_config := mkVmConfig 0 [] [] [] [].

(** [ImageLoader::new]; the addresses are filled in by [load]. *)
Definition loader_new (config : VmCreate.crate_config) : ImageLoader :=
  mkLoader (cc_id (cc_fdt config)) (cc_image_location (cc_fdt config)) (cc_kernel_path config)
    (cc_bios_path config) (cc_ramdisk_path config) 0 None None None.

Definition fdt_operations (cfg : VmCreate.vm_config) (config : VmCreate.crate_config) :
    st G AxError VmCreate.vm_config :=
  c ← on_fdt (cfg_fdt cfg)
        (FdtSetup.handle_fdt_operations (W:=W) (H:=T) host_fdt_bytes (cc_fdt config));
  mret (set_cfg_fdt c cfg).

#[global] Instance guest_boot : GuestSetup G := {|
  VmCreate.init_dtb_cache := on_fdt no_config FdtSetup.init_dtb_cache;; mret ();
  get_image_header := image_header;
  VmCreate.handle_fdt_operations := fdt_operations;
  VmCreate.config_guest_address v main_mem := on_guest v (GuestMem.config_guest_address main_mem);
  load_images config v := λ g, on_guest v (Images.load (W:=W) (H:=T) (dtb_cache g) (loader_new config)) g;
|}.
End boot.

(** * Theorems *)

(** ** The identifier of the configuration *)

Lemma enumerate_from_id {A} (f : nat → A → FdtSetup.vm_config → FdtSetup.vm_config) l n c :
  (∀ i x c, vc_id (f i x c) = vc_id c) → vc_id (enumerate_from n f l c) = vc_id c.
Proof.
  intros Hf. revert n c. induction l as [|x l IH]; intros n c; simpl; [done|]. by rewrite IH, Hf.
Qed.

Lemma foldl_id {A} (f : FdtSetup.vm_config → A → FdtSetup.vm_config) l c :
  (∀ c x, vc_id (f c x) = vc_id c) → vc_id (foldl f c l) = vc_id c.
Proof. intros Hf. revert c. induction l as [|x l IH]; intros c; simpl; [done|]. by rewrite IH, Hf. Qed.

Lemma add_address_id name a n i p c : vc_id (add_device_address_config name a n i p c) = vc_id c.
Proof. unfold add_device_address_config. by destruct (n =? 0). Qed.

Lemma add_regs_id name p reg c : vc_id (add_regs name p reg c) = vc_id c.
Proof. destruct reg; simpl; [|done]. apply enumerate_from_id. intros. apply add_address_id. Qed.

Lemma add_node_regions_id node c : vc_id (add_node_regions node c) = vc_id c.
Proof.
  unfold add_node_regions. destruct (_ || _); [done|]. destruct (_ || _); rewrite add_regs_id; [|done].
  destruct (nd_pci_ranges _); [|done]. apply enumerate_from_id. intros i r c'.
  unfold add_pci_ranges_config. by destruct (pci_size r =? 0).
Qed.

Lemma interrupt_cells_id k cells c : vc_id (interrupt_cells k cells c) = vc_id c.
Proof.
  revert k c. induction cells as [|v cells IH]; intros k c; simpl; [done|].
  destruct k as [|[|k]]; [destruct (v =? 0); by rewrite ?IH|by rewrite IH|by rewrite IH].
Qed.

Lemma node_interrupts_id node c : vc_id (node_interrupts node c) = vc_id c.
Proof.
  unfold node_interrupts. destruct (starts_with _ _); [done|]. destruct (_ || _); [done|].
  destruct (nd_interrupts _); [|done]. apply foldl_id. intros. apply interrupt_cells_id.
Qed.

Section ids.
Context `{!FdtParser} `{!OverflowChecks} `{!FindNodes}.

Lemma parse_addresses_id dtb c c' :
  parse_passthrough_devices_address dtb c = Ok c' → vc_id c' = vc_id c.
Proof.
  assert (Hnodes : ∀ nodes, vc_id (foldl (λ c n, add_node_regions n c) (clear_pass_through_devices c) nodes) = vc_id c).
  { intros nodes. rewrite foldl_id; [done|]. intros. apply add_node_regions_id. }
  unfold parse_passthrough_devices_address.
  destruct (vc_pass_through_devices c) as [|d ds]; [|destruct (negb _)].
  - intros (nodes & _ & [= <-])%outcome_bind_ok. apply Hnodes.
  - intros [= <-]. rewrite enumerate_from_id; intros; apply add_address_id.
  - intros (nodes & _ & [= <-])%outcome_bind_ok. apply Hnodes.
Qed.

Lemma parse_interrupts_id dtb c c' : parse_vm_interrupt dtb c = Ok c' → vc_id c' = vc_id c.
Proof.
  intros (nodes & _ & [= <-])%outcome_bind_ok. simpl. apply foldl_id. intros. apply node_interrupts_id.
Qed.

Lemma set_phys_cpu_sets_id c fdt cc c' : set_phys_cpu_sets c fdt cc = Ok c' → vc_id c' = vc_id c.
Proof.
  by intros (? & _ & (? & _ & (? & _ & [= <-])%outcome_bind_ok)%outcome_bind_ok)%outcome_bind_ok.
Qed.
End ids.

(** ** The device tree of the guest *)

Section fdt.
Context {W T : Type} `{!FdtWriter W T} `{!FdtParser} `{!OverflowChecks} `{!PropU32} `{!InfoLog} `{!FindNodes}.
Context `{!MemoryImages} `{!ImageFiles} `{!TargetArch}.

(** A step that puts a tree into the cache under an identifier. *)
Definition caches (id : Z) (m : st fdt_state AxError ()) : Prop := ∀ s s', m s = (Ok (), s') →
  fs_config s' = fs_config s ∧
  ∃ cache dtb, fs_dtb_cache s = Some cache ∧ fs_dtb_cache s' = Some (<[id := dtb]> cache).

Lemma cached_dtb dtb cc : caches (cc_id cc) (crate_guest_fdt_with_cache dtb cc).
Proof.
  intros s s' Hc. apply st_bind_ok in Hc as (s1 & s2 & [= <- <-] & Hc).
  apply st_bind_ok in Hc as (cache & s3 & [Hcache ->]%lift_inv & [= <-]).
  destruct (fs_dtb_cache s) as [c|]; [|done]. injection Hcache as ->. split; [done|]. by exists cache, dtb.
Qed.

Lemma setup_from_vmm_caches bytes cc : caches (cc_id cc) (setup_guest_fdt_from_vmm (W:=W) (H:=T) bytes cc).
Proof.
  intros s s' Hs. apply st_bind_ok in Hs as (fdt & s1 & [_ ->]%lift_inv & Hs).
  apply st_bind_ok in Hs as (s2 & s3 & [= <- <-] & Hs).
  do 3 (apply st_bind_ok in Hs as (? & ? & [_ ->]%lift_inv & Hs)). by eapply cached_dtb.
Qed.

Lemma update_provided_caches dtb bytes cc :
  caches (cc_id cc) (update_provided_fdt (W:=W) (H:=T) dtb bytes cc).
Proof.
  intros s s' Hs. do 3 (apply st_bind_ok in Hs as (? & ? & [_ ->]%lift_inv & Hs)). by eapply cached_dtb.
Qed.

Lemma handle_fdt_operations_ok bytes cc s s' :
  FdtSetup.handle_fdt_operations (W:=W) (H:=T) bytes cc s = (Ok (), s') →
  vc_id (fs_config s') = vc_id (fs_config s) ∧
  ∃ cache dtb, fs_dtb_cache s = Some cache ∧ fs_dtb_cache s' = Some (<[cc_id cc := dtb]> cache).
Proof.
  intros Hs. apply st_bind_ok in Hs as (fdt & s1 & [_ ->]%lift_inv & Hs).
  apply st_bind_ok in Hs as (s2 & s3 & [= <- <-] & Hs).
  apply st_bind_ok in Hs as (c & s4 & [Hc%set_phys_cpu_sets_id ->]%lift_inv & Hs).
  apply st_bind_ok in Hs as ([] & s5 & [= <-] & Hs).
  apply st_bind_ok in Hs as (provided & s6 & [_ ->]%lift_inv & Hs).
  apply st_bind_ok in Hs as ([] & s7 & Hp & Hs).
  assert (fs_config s7 = c ∧
    ∃ cache dtb, fs_dtb_cache s = Some cache ∧ fs_dtb_cache s7 = Some (<[cc_id cc := dtb]> cache)) as [E Hcache].
  { destruct provided; [apply update_provided_caches in Hp|apply setup_from_vmm_caches in Hp]; exact Hp. }
  apply st_bind_ok in Hs as (s8 & s9 & [= <- <-] & Hs).
  apply st_bind_ok in Hs as (dtb_arc & s10 & [_ ->]%lift_inv & Hs).
  destruct dtb_arc as [dtb|]; [|injection Hs as <-; by rewrite E].
  apply st_bind_ok in Hs as (c1 & s11 & [Hc1%parse_addresses_id ->]%lift_inv & Hs).
  apply st_bind_ok in Hs as (c2 & s12 & [Hc2%parse_interrupts_id ->]%lift_inv & [= <-]).
  split; [simpl; congruence|exact Hcache].
Qed.
End fdt.

Section theorems.
Context {G : Type} `{!VmFactory G} `{!ConfigViews G} `{!ConfigViewsOk G} `{!AxvmState G} `{!AxvmStateOk G}.
Context {W T : Type} `{!FdtWriter W T} `{!FdtParser} `{!OverflowChecks} `{!PropU32} `{!InfoLog} `{!FindNodes}.
Context `{!MemoryImages} `{!ImageFiles} `{!FileSystem} `{!ImageRegions} `{!AlignDown} `{!TargetArch}.
Context `{!RiscvLayout} (host_fdt_bytes : list u8).

Lemma fdt_operations_ok cfg cc cfg' g g' :
  fdt_operations (W:=W) (T:=T) host_fdt_bytes cfg cc g = (Ok cfg', g') →
  config_id cfg' = config_id cfg ∧
  ∃ cache dtb, dtb_cache g = Some cache ∧ dtb_cache g' = Some (<[cc_id (cc_fdt cc) := dtb]> cache).
Proof.
  intros Hf. apply st_bind_ok in Hf as (c & g1 & Ho & [= <- <-]). unfold on_fdt in Ho.
  destruct (FdtSetup.handle_fdt_operations _ _ _) as [[[]|e|] s] eqn:E; [|done..].
  injection Ho as <- <-. apply handle_fdt_operations_ok in E as [Hid Hc].
  rewrite set_cfg_fdt_id, dtb_cache_set, Hid. simpl. by rewrite cfg_fdt_id.
Qed.

(** The components keep what creating a guest relies on. *)
#[global] Instance guest_boot_ok : GuestSetupOk G (GuestSetup0:=guest_boot (W:=W) (T:=T) host_fdt_bytes).
Proof. intros cfg cc cfg' g g' [Hid _]%fdt_operations_ok. exact Hid. Qed.

(** The rest of the creation leaves the cache alone. *)
Context {F : Type} `{!CacheApart G}.
Abbreviation state := (vmm_state (hvc_state F G)).
Definition cache_of (s : state) : option (gmap Z (list u8)) := dtb_cache (hvc s).2.
Abbreviation quiet m := (keeps (λ _, True) cache_of m).

Lemma quiet_guest_do {A} (m : st G AxError A) :
  (∀ g, dtb_cache (m g).2 = dtb_cache g) → quiet (guest_do m).
Proof.
  intros Hm s _. unfold guest_do, cache_of. specialize (Hm (hvc s).2). by destruct (m (hvc s).2).
Qed.

Lemma quiet_on_guest {A} v (m : st guest AxError A) : quiet (guest_do (on_guest v m)).
Proof.
  apply quiet_guest_do. intros g. unfold on_guest. destruct (m (guest_of v g)). apply dtb_cache_set_guest.
Qed.

Lemma quiet_place {A} l (m : VM → st state blocked A) : (∀ v, quiet (m v)) → quiet (v ← deref l; m v).
Proof.
  intros Hm. apply keeps_bind; [|done]. intros s _. unfold deref. st_run. by destruct (heap s !! l).
Qed.

Lemma quiet_alloc l regions : quiet (vm_alloc_memorys l regions).
Proof.
  induction regions as [|m regions IH]; simpl; [apply keeps_ret|]. apply quiet_place. intros v.
  apply keeps_bind.
  - unfold alloc_region. destruct (negb _); [by intros s _|]. apply quiet_guest_do. intros g.
    destruct (vmem_map_type m); [apply alloc_cache|apply alloc_cache|apply map_reserved_cache].
  - intros r. apply keeps_bind; [by apply keeps_modify|]. intros []. apply keeps_bind; [done|].
    intros rs. apply keeps_ret.
Qed.

Lemma quiet_push l : quiet (push_vm l).
Proof.
  unfold push_vm. apply quiet_place. intros v s _. unfold push_vm_id. st_run. by destruct (vms s !! vm_id v).
Qed.

(** What follows the device trees in [init_guest_vm]. *)
Lemma quiet_rest cfg cc :
  quiet (v ← guest_do (vm_new cfg); l ← new_ref v; push_vm l;;
         regions ← vm_alloc_memorys l (cc_memory_regions cc);
         v ← deref l; main_mem ← lift (unwrap (head regions));
         guest_do (on_guest v (GuestMem.config_guest_address main_mem));;
         guest_do (λ g, on_guest v (Images.load (W:=W) (H:=T) (dtb_cache g) (loader_new cc)) g);;
         guest_do (vm_init v);; store l (set_vm_status Loaded v);; drop_vm l;; mret (@Ok AxError _ (vm_id v))).
Proof.
  apply keeps_bind; [apply quiet_guest_do, vm_new_cache|intros v].
  apply keeps_bind; [by intros s _|intros l]. apply keeps_bind; [apply quiet_push|intros []].
  apply keeps_bind; [apply quiet_alloc|intros rs]. apply quiet_place. intros w.
  apply keeps_bind; [apply keeps_lift|intros mm]. apply keeps_bind; [apply quiet_on_guest|intros []].
  apply keeps_bind.
  { apply quiet_guest_do. intros g. unfold on_guest. destruct (Images.load _ _ _). apply dtb_cache_set_guest. }
  intros []. apply keeps_bind; [apply quiet_guest_do, vm_init_cache|intros []].
  apply keeps_bind; [by apply keeps_modify|intros []]. apply keeps_bind; [|intros []; apply keeps_ret].
  intros s _. unfold drop_vm, modify, cache_of. simpl. by case_bool_decide.
Qed.

(** C21: On [aarch64] a guest that is created has a device tree of its own: the call puts one
    tree into the cache, under the identifier of the configuration, where the loader looks
    for it, and the trees of all other guests are what they were. *)
Theorem creation_caches_tree raw s r s' :
  target_arch = AArch64 →
  init_guest_vm (GuestSetup0:=guest_boot (W:=W) (T:=T) host_fdt_bytes) raw s = (Ok r, s') →
  ∃ cc cache dtb, from_toml raw = Some cc ∧ cache_of s = Some cache ∧
    cache_of s' = Some (<[cc_id (cc_fdt cc) := dtb]> cache) ∧
    get_vm_dtb_arc (cache_of s') (cc_id (cc_fdt cc)) = Ok (Some dtb).
Proof.
  intros Harch Hi. unfold init_guest_vm in Hi. apply st_bind_ok in Hi as (cc & s1 & [Hcc ->]%lift_inv & Hi).
  destruct (from_toml raw) as [cc'|]; [|done]. injection Hcc as ->.
  apply st_bind_ok in Hi as (h & s2 & [_ ->]%lift_inv & Hi).
  rewrite bool_decide_true in Hi by done.
  apply st_bind_ok in Hi as (cfg & s3 & (g & Hf & ->)%guest_do_ok & Hi).
  apply fdt_operations_ok in Hf as (_ & cache & dtb & Hc & Hc').
  pose proof (quiet_rest cfg cc (with_guests g s) I) as Hq.
  assert (Hs : cache_of s' = Some (<[cc_id (cc_fdt cc) := dtb]> cache)).
  { rewrite <- Hc'. change (dtb_cache g) with (cache_of (with_guests g s)). rewrite <- Hq.
    exact (f_equal (λ p, cache_of p.2) (eq_sym Hi)). }
  exists cc, cache, dtb. split_and!; [done|done|done|]. unfold get_vm_dtb_arc. rewrite bool_decide_true, Hs by done.
  simpl. by rewrite lookup_insert_eq.
Qed.
End theorems.

(** ** Examples *)
Module BootGuestExamples.
Import ToyFdt.

#[local] Instance checks : OverflowChecks := true.
#[local] Instance on_aarch64 : TargetArch := AArch64.
#[local] Instance be_u32 : PropU32 := λ p, match be_words (pr_raw p) with v :: _ => v | [] => 0 end.
#[local] Instance logs_info : InfoLog := true.
#[local] Instance cpu_nodes : FindNodes := λ nodes _, filter (λ n, starts_with "cpu@" (n_name n) = true) nodes.
#[local] Instance one_slice : ImageRegions := λ _ a size, Ok [(a, size)].
#[local] Instance simple_align_down : AlignDown := λ a n, a - a mod n.
#[local] Instance linked : MemoryImages := [mkVmImages 1 [x01; x02] None None None].
#[local] Instance no_image_files : ImageFiles := {| fs_feature := false; read_image_file _ := None |}.
#[local] Instance no_files : FileSystem := {| open_file _ := None; has_metadata _ := false |}.
#[local] Instance c_layout : RiscvLayout :=
  {| off_text_offset := 8; off_image_size := 16; off_flags := 24; off_magic := 48; off_magic2 := 56 |}.

(** One guest and the cache. *)
Definition world : Type := option (gmap Z (list u8)) * guest.

#[local] Instance factory : VmFactory world := {|
  VmCreate.crate_config := FdtSetup.crate_config;
  VmCreate.vm_config := FdtSetup.vm_config;
  from_toml raw := if bool_decide (raw = "vm1") then Some FdtWitnesses.cc else None;
  cc_base_id := cc_id;
  cc_memory_regions _ := [mkVmMem 0x40000000 0x10000000 MapAlloc];
  config_from cc := mkVmConfig (cc_id cc) (vc_pass_through_devices FdtWitnesses.cfg) [] [] [];
  config_id := vc_id;
  vm_new c := mret (mkVM (vc_id c) "guest" Loading VmExamples.vcpus [] []);
  alloc_memory_region _ size _ gpa g :=
    let r := mkRegion (default 0 gpa) size (bool_decide (gpa = None)) in
    (Ok r, (g.1, mkGuest [r] 0x40200000 None None None 0 0 (g_memory g.2)));
  map_reserved_memory_region _ size _ gpa := mret (mkRegion (default 0 gpa) size false);
  vm_init _ := mret ();
|}.

#[local] Instance views : ConfigViews world := {|
  cc_fdt cc := cc;
  cc_kernel_path _ := "";
  cc_bios_path _ := None;
  cc_ramdisk_path _ := None;
  cfg_fdt c := c;
  set_cfg_fdt c _ := c;
|}.

#[local] Instance views_ok : ConfigViewsOk world.
Proof. done. Qed.

#[local] Instance axvm : AxvmState world := {|
  guest_of _ g := g.2;
  set_guest _ gu g := (g.1, gu);
  dtb_cache g := g.1;
  set_dtb_cache c g := (c, g.2);
|}.

#[local] Instance axvm_ok : AxvmStateOk world.
Proof. done. Qed.

#[local] Instance apart : CacheApart world.
Proof. done. Qed.

Definition s0 : vmm_state (hvc_state () world) :=
  mkVmm ∅ ∅ ∅ ∅ ∅ 0 0 (mkIvc ∅ () ∅, (Some ∅, mkGuest [] 0 None None None 0 0 (λ _, x00))) [] [].

Definition run := init_guest_vm (GuestSetup0:=guest_boot (W:=list wcall) (T:=()) FdtWitnesses.host_bytes) "vm1" s0.

Lemma creation_caches_tree_witness : ∃ dtb, cache_of run.2 = Some {[1 := dtb]}.
Proof.
  assert (Hrun : run.1 = Ok (Ok 1)) by vm_refl.
  destruct (creation_caches_tree (W:=list wcall) (T:=()) FdtWitnesses.host_bytes "vm1" s0 (Ok 1) run.2)
    as (cc & cache & dtb & Hcc & Hc & Hc' & _); [reflexivity|by apply run_pair|].
  assert (Some cc = Some (FdtWitnesses.cc : @VmCreate.crate_config _ factory)) as [= ->] by (rewrite <- Hcc; vm_refl).
  injection Hc as <-. exists dtb. exact Hc'.
Defined.
End BootGuestExamples.
