(* ===== verification/VmShow.v ===== *)
(** * The information commands and the command tree of the shell
      ([kernel/src/shell/command/vm.rs], [build_command_tree] of [mod.rs])

    [vm help] and [vm show], and the tree that connects the names of all commands with
    their handlers.  What [vm show] reads of a VM beyond the state of [Vmm] comes from the
    accessors of the VM object ([VmInfo]). *)

From Stdlib Require Import Ascii.
From S2P Require Import Prelude RustStr Command Ivc Hvc Vmm VmCommands VmCreate.

(** ** What is shown of a VM *)

Record RegionInfo : Type := mkRegionInfo {
  ri_gpa : Z;
  ri_hva : Z;
  ri_size : Z;
  needs_dealloc : bool;
  is_identical : bool;
}.

Record PassThroughDevice : Type := mkPtDevice {
  pt_name : string;
  pt_base_gpa : Z;
  pt_base_hpa : Z;
  pt_length : Z;
}.

(** Accessors of the VM object, its configuration and its devices; [interrupt_mode] and
    [emu_devices] give the [Debug] form. *)
Class VmInfo : Type := {
  ept_root : VM → Z;
  memory_regions : VM → list RegionInfo;
  bsp_entry : VM → Z;
  ap_entry : VM → Z;
  interrupt_mode : VM → string;
  dtb_load_gpa : VM → option Z;
  kernel_load_gpa : VM → Z;
  pass_through_devices : VM → list PassThroughDevice;
  pass_through_addresses : VM → list (Z * Z);
  pass_through_spis : VM → list Z;
  emu_devices : VM → list string;
  mmio_dev_count : VM → Z;
  sys_reg_dev_count : VM → Z;
  as_str_with_icon : VMStatus → string;
}.

(** [{:#x}] of a [usize]: at most sixteen digits. *)
Definition hex_char (d : Z) : ascii :=
  default "0"%char (String.get (Z.to_nat d) "0123456789abcdef").

Fixpoint hex_from (fuel : nat) (n : Z) (acc : string) : string :=
  match fuel with
  | O => acc
  | S fuel =>
      let acc := String (hex_char (n mod 16)) acc in
      if bool_decide (n < 16) then acc else hex_from fuel (n / 16) acc
  end.

Definition hex (n : Z) : string := "0x" +:+ hex_from 16 n "".

Definition vcpu_state_name (x : VCpuState) : string :=
  match x with
  | VFree => "Free" | VRunning => "Running" | VBlocked => "Blocked"
  | VInvalid => "Invalid" | VCreated => "Created" | VReady => "Ready"
  end.

(** The [BTreeMap] of the states. *)
Definition state_counts (l : list VCpu) : list (string * Z) :=
  fold_left (λ m c,
    let k := vcpu_state_name (vcpu_state c) in
    assoc_insert k (default 0 (assoc_get k m) + 1) m) l [].

Section show.
Context {F G : Type} `{!PagingHandler F} `{!GuestVM G} `{!HyperCallCodes}.
Context `{!AxVm} `{!OverflowChecks} `{!TargetArch} `{!StatusText} `{!VmInfo}.

Abbreviation state := (vmm_state (hvc_state F G)).
Abbreviation M := (st state blocked).

Fixpoint print_lines (l : list string) : M () :=
  match l with [] => mret () | x :: l => println x;; print_lines l end.

(** ** [vm help] *)

Definition vm_help_lines : list string :=
    ["VM - virtual machine management";
     "";
     "Most commonly used vm commands:";
     "  create    Create a new virtual machine";
     "  start     Start a virtual machine";
     "  stop      Stop a virtual machine";
     "  suspend   Suspend (pause) a running virtual machine";
     "  resume    Resume a suspended virtual machine";
     "  restart   Restart a virtual machine";
     "  delete    Delete a virtual machine";
     "";
     "Information commands:";
     "  list      Show table of all VMs";
     "  show      Show VM details (requires VM_ID)";
     "            - Default: basic information";
     "            - --full: complete detailed information";
     "            - --config: show configuration";
     "            - --stats: show statistics";
     "";
     "Use 'vm <command> --help' for more information on a specific command."].

Definition vm_help (cmd : ParsedCommand) : M () := print_lines vm_help_lines.

(** ** [vm show] *)

(** The lines both views start with after their title. *)
Definition show_head (v : VM) : M Z :=
  print_lines
    ["  VM ID:     " +:+ pretty (vm_id v);
     "  Name:      " +:+ vm_name v;
     "  Status:    " +:+ as_str_with_icon (vm_status v);
     "  VCPUs:     " +:+ pretty (vcpu_num v)];;
  mem ← lift (total_memory v);
  println ("  Memory:    " +:+ format_memory_size mem);;
  mret mem.

(** The entry points, the interrupt mode and the device tree of the configuration. *)
Definition show_entries (v : VM) : M () :=
  print_lines
    ["  BSP Entry:      " +:+ hex (bsp_entry v);
     "  AP Entry:       " +:+ hex (ap_entry v);
     "  Interrupt Mode: " +:+ interrupt_mode v];;
  match dtb_load_gpa v with
  | Some a => println ("  DTB Address:    " +:+ hex a)
  | None => mret ()
  end.

Definition basic_hint (id : Z) (status : VMStatus) : list string :=
  match status with
  | Suspended => [""; "  ℹ VM is paused. Use 'vm resume " +:+ pretty id +:+ "' to continue."]
  | Stopped => [""; "  ℹ VM is stopped. Use 'vm delete " +:+ pretty id +:+ "' to clean up."]
  | Loaded => [""; "  ℹ VM is ready. Use 'vm start " +:+ pretty id +:+ "' to boot."]
  | _ => []
  end.

Definition basic_details (id : Z) (show_config show_stats : bool) (l : Z) : M () :=
  v ← deref l;
  print_lines ["VM Details: " +:+ pretty id; ""];;
  mem ← show_head v;
  print_lines (basic_hint id (vm_status v));;
  print_lines ([""; "VCPU Summary:"] ++
    ((λ p, "  " +:+ p.1 +:+ ": " +:+ pretty p.2) <$> state_counts (vcpu_list v)) ++
    [""; "Memory Summary:";
     "  Total Regions: " +:+ pretty (Z.of_nat (length (memory_regions v)));
     "  Total Size:    " +:+ format_memory_size mem]);;
  (if show_config then print_lines [""; "Configuration:"];; show_entries v else mret ());;
  (if show_stats then
     print_lines [""; "Device Summary:";
                  "  MMIO Devices:   " +:+ pretty (mmio_dev_count v);
                  "  SysReg Devices: " +:+ pretty (sys_reg_dev_count v)]
   else mret ());;
  print_lines [""; "Use 'vm show " +:+ pretty id +:+ " --full' for detailed information"].

Definition show_vm_basic_details (id : Z) (show_config show_stats : bool) : M () :=
  r ← with_vm id (basic_details id show_config show_stats);
  match r with
  | Some _ => mret ()
  | None => println ("✗ " +:+ vm_tag id +:+ " not found")
  end.

Definition full_hint (id : Z) (status : VMStatus) : list string :=
  match status with
  | Suspended => ["    ℹ VM is paused, VCpu tasks are waiting. Use 'vm resume " +:+ pretty id +:+ "' to continue."]
  | Stopping => ["    ℹ VM is shutting down, VCpu tasks are exiting."]
  | Stopped => ["    ℹ VM is stopped, all VCpu tasks have exited. Use 'vm delete " +:+ pretty id +:+ "' to clean up."]
  | Loaded => ["    ℹ VM is ready to start. Use 'vm start " +:+ pretty id +:+ "' to boot."]
  | _ => []
  end.

Definition vcpu_line (c : VCpu) : string :=
  "  VCPU " +:+ pretty (vcpu_id c) +:+ ": " +:+ vcpu_state_name (vcpu_state c) +:+
  match phys_cpu_set c with
  | Some set => " (Affinity: " +:+ hex set +:+ ")"
  | None => " (No affinity)"
  end.

Definition region_line (i : nat) (r : RegionInfo) : string :=
  "  Region " +:+ pretty (Z.of_nat i) +:+ ": GPA=" +:+ hex (ri_gpa r) +:+ " HVA=" +:+ hex (ri_hva r) +:+
  " Size=" +:+ format_memory_size (ri_size r) +:+
  " Type=" +:+ (if needs_dealloc r then "Allocated" else "Reserved") +:+
  (if is_identical r then " [identical]" else "").

(** A passed-through device; the ends of its ranges are [usize] sums. *)
Definition device_line (d : PassThroughDevice) : outcome blocked string :=
  gpa_end ← usize_add (pt_base_gpa d) (pt_length d);
  hpa_end ← usize_add (pt_base_hpa d) (pt_length d);
  Ok ("    - " +:+ pt_name d +:+ ": GPA[" +:+ hex (pt_base_gpa d) +:+ "~" +:+ hex gpa_end +:+
      "] -> HPA[" +:+ hex (pt_base_hpa d) +:+ "~" +:+ hex hpa_end +:+ "] (" +:+
      format_memory_size (pt_length d) +:+ ")").

Definition address_line (a : Z * Z) : outcome blocked string :=
  gpa_end ← usize_add a.1 a.2;
  Ok ("    - GPA[" +:+ hex a.1 +:+ "~" +:+ hex gpa_end +:+ "] (" +:+ format_memory_size a.2 +:+ ")").

Fixpoint print_each {A} (f : A → outcome blocked string) (l : list A) : M () :=
  match l with
  | [] => mret ()
  | x :: l => line ← lift (f x); println line;; print_each f l
  end.

Definition counted (n : nat) : string := pretty (Z.of_nat n).

(** The configuration in the full view. *)
Definition full_config (v : VM) : M () :=
  show_entries v;;
  println ("  Kernel GPA:     " +:+ hex (kernel_load_gpa v));;
  (if negb (is_empty (pass_through_devices v)) then
     print_lines [""; "  Passthrough Devices: (" +:+ counted (length (pass_through_devices v)) +:+ " device(s))"];;
     print_each device_line (pass_through_devices v)
   else mret ());;
  (if negb (is_empty (pass_through_addresses v)) then
     print_lines [""; "  Passthrough Memory Regions: (" +:+ counted (length (pass_through_addresses v)) +:+ " region(s))"];;
     print_each address_line (pass_through_addresses v)
   else mret ());;
  (if bool_decide (target_arch = AArch64) && negb (is_empty (pass_through_spis v)) then
     print_lines [""; "  Passthrough SPIs: [" +:+ str_join ", " (pretty <$> pass_through_spis v) +:+ "]"]
   else mret ());;
  (if negb (is_empty (emu_devices v)) then
     print_lines ([""; "  Emulated Devices: (" +:+ counted (length (emu_devices v)) +:+ " device(s))"] ++
       imap (λ idx device, "    " +:+ counted (idx + 1) +:+ ". " +:+ device) (emu_devices v))
   else mret ()).

Definition affinity_line (a : Z * option Z * Z) : string :=
  "    VCpu " +:+ pretty a.1.1 +:+ ": " +:+
  match a.1.2 with
  | Some aff => "Physical CPU mask " +:+ hex aff +:+ ", PCpu ID " +:+ pretty a.2
  | None => "No specific affinity, PCpu ID " +:+ pretty a.2
  end.

Definition full_details (id : Z) (l : Z) : M () :=
  v ← deref l;
  print_lines ["=== VM Details: " +:+ pretty id +:+ " ==="; ""; "Basic Information:"];;
  mem ← show_head v;
  println ("  EPT Root:  " +:+ hex (ept_root v));;
  print_lines (full_hint id (vm_status v));;
  print_lines ([""; "VCPU Details:";
    "  Summary: " +:+ str_join ", " ((λ p, p.1 +:+ ": " +:+ pretty p.2) <$> state_counts (vcpu_list v));
    ""] ++ (vcpu_line <$> vcpu_list v));;
  (if bool_decide (vm_status v = Suspended) then
     print_lines [""; "  Note: VCpu tasks are blocked in wait queue and will resume when VM is unpaused."]
   else mret ());;
  print_lines ([""; "Memory Regions: (" +:+ counted (length (memory_regions v)) +:+ " region(s), " +:+
                    format_memory_size mem +:+ " total)"] ++
               imap region_line (memory_regions v));;
  print_lines [""; "Configuration:"];;
  full_config v;;
  print_lines ([""; "Devices:"; "  MMIO Devices:   " +:+ pretty (mmio_dev_count v);
                "  SysReg Devices: " +:+ pretty (sys_reg_dev_count v);
                ""; "Additional Statistics:";
                "  Total Memory Regions: " +:+ counted (length (memory_regions v));
                ""; "  VCpu Affinity Details:"] ++ (affinity_line <$> vcpu_affinities_pcpu_ids v)).

Definition show_vm_full_details (id : Z) : M () :=
  r ← with_vm id (full_details id);
  match r with
  | Some _ => mret ()
  | None => println ("✗ " +:+ vm_tag id +:+ " not found")
  end.

Definition vm_show (cmd : ParsedCommand) : M () :=
  match positional_args cmd with
  | [] =>
      print_lines ["Error: No VM specified"; "Usage: vm show [OPTIONS] <VM_ID>"; ""; "Options:";
        "  -f, --full     Show full detailed information";
        "  -c, --config   Show configuration details";
        "  -s, --stats    Show statistics"; ""; "Use 'vm list' to see all VMs"]
  | vm_name :: _ =>
      match parse_usize vm_name with
      | Some id =>
          if flag_set cmd "full" then show_vm_full_details id
          else show_vm_basic_details id (flag_set cmd "config") (flag_set cmd "stats")
      | None => println ("Error: Invalid VM ID: " +:+ vm_name)
      end
  end.

(** ** The tree of the VM commands *)

Context `{!Scheduler state} `{!VmFactory G} `{!GuestSetup G} `{!ConfigFiles}.

Definition flag_both (name desc short : string) : FlagDef :=
  flag_with_long name (flag_with_short short (flag_new name desc)).

Definition option_both (name desc short : string) : OptionDef :=
  option_long name (option_short short (option_new name desc)).

(** A command with its usage, options and flags, in the order they are added. *)
Definition vm_command (desc usage : string) (h : ParsedCommand → M ()) (os : list OptionDef)
    (fl : list FlagDef) : CommandNode (ParsedCommand → M ()) :=
  fold_left (λ n f, with_flag f n) fl
    (fold_left (λ n o, with_option o n) os (with_usage usage (with_handler h (node_new desc)))).

Definition create_cmd := vm_command "Create a new virtual machine" "vm create [OPTIONS] <CONFIG_FILE>..." vm_create
  [option_both "name" "Virtual machine name" "n"; option_both "cpu" "Number of CPU cores" "c";
   option_both "memory" "Amount of memory" "m"]
  [flag_both "force" "Force creation without confirmation" "f"].

Definition start_cmd := vm_command "Start a virtual machine" "vm start [OPTIONS] [VM_ID...]" vm_start []
  [flag_both "detach" "Start in background" "d"; flag_both "console" "Attach to console" "c"].

Definition stop_cmd := vm_command "Stop a virtual machine" "vm stop [OPTIONS] <VM_ID>..." vm_stop []
  [flag_both "force" "Force stop" "f"; flag_both "graceful" "Graceful shutdown" "g"].

Definition restart_cmd := vm_command "Restart a virtual machine" "vm restart [OPTIONS] <VM_ID>..." vm_restart []
  [flag_both "force" "Force restart" "f"].

Definition suspend_cmd := vm_command "Suspend (pause) a running virtual machine" "vm suspend <VM_ID>..."
  vm_suspend [] [].

Definition resume_cmd := vm_command "Resume a suspended virtual machine" "vm resume <VM_ID>..." vm_resume [] [].

Definition delete_cmd := vm_command "Delete a virtual machine" "vm delete [OPTIONS] <VM_ID>" vm_delete []
  [flag_both "force" "Skip confirmation" "f"; flag_with_long "keep-data" (flag_new "keep-data" "Keep VM data")].

Definition list_cmd := vm_command "Show virtual machine lists" "vm list [OPTIONS]" vm_list
  [option_long "format" (option_new "format" "Output format (table, json)")]
  [flag_both "all" "Show all VMs including stopped ones" "a"].

Definition show_cmd := vm_command "Show detailed VM information" "vm show [OPTIONS] <VM_ID>" vm_show []
  [flag_both "full" "Show full detailed information" "f"; flag_both "config" "Show configuration details" "c";
   flag_both "stats" "Show device statistics" "s"].

(** The node [vm]; [fs] says whether the build has the feature. *)
Definition vm_node (fs : bool) : CommandNode (ParsedCommand → M ()) :=
  let n := add_subcommand "help" (with_handler vm_help (node_new "Show VM help"))
    (with_usage "vm <command> [options] [args...]"
      (with_handler vm_help (node_new "Virtual machine management"))) in
  let n := if fs then add_subcommand "start" start_cmd (add_subcommand "create" create_cmd n) else n in
  add_subcommand "show" show_cmd (add_subcommand "list" list_cmd (add_subcommand "delete" delete_cmd
    (add_subcommand "restart" restart_cmd (add_subcommand "resume" resume_cmd
      (add_subcommand "suspend" suspend_cmd (add_subcommand "stop" stop_cmd n)))))).

Definition build_vm_cmd (fs : bool) (tree : list (string * CommandNode (ParsedCommand → M ())))
  : list (string * CommandNode (ParsedCommand → M ())) :=
  assoc_insert "vm" (vm_node fs) tree.

(** * Theorems *)

(** [vm show] and [vm help] only print. *)
Definition quiet (s : state) : state := upd_out (λ _, []) s.

Lemma keeps_print_lines l : keeps (λ _, True) quiet (print_lines l).
Proof. induction l; simpl; [apply keeps_ret|]. apply keeps_bind; [by apply keeps_modify|done]. Qed.
Lemma keeps_print x : keeps (λ _, True) quiet (println (F:=F) (G:=G) x).
Proof. by apply keeps_modify. Qed.
Lemma quiet_deref l : keeps (λ _, True) quiet (deref (F:=F) (G:=G) l).
Proof. intros s _. unfold deref. st_run. by destruct (heap s !! l). Qed.
Lemma quiet_with_vm {T} id (f : Z → M T) :
  (∀ l, keeps (λ _, True) quiet (f l)) → keeps (λ _, True) quiet (with_vm id f).
Proof.
  intros Hf. apply keeps_bind; [apply keeps_gets|]. intros [l|]; [|apply keeps_ret].
  apply keeps_bind; [done|]. intros. apply keeps_ret.
Qed.
Lemma keeps_print_each {A} (f : A → outcome blocked string) l : keeps (λ _, True) quiet (print_each f l).
Proof.
  induction l; simpl; [apply keeps_ret|]. apply keeps_bind; [apply keeps_lift|intros line].
  apply keeps_bind; [apply keeps_print|done].
Qed.

Ltac quiet_step :=
  first
    [ apply keeps_ret | apply keeps_print_lines | apply keeps_print | apply quiet_deref | apply keeps_lift
    | apply keeps_print_each | apply quiet_with_vm; intros ? | apply keeps_bind; [|intros ?]
    | apply keeps_if | match goal with |- keeps _ _ (match ?x with _ => _ end) => destruct x end ].

(** [vm show] only reads: whatever its arguments and flags, and whatever it finds, the
    VMs, the list, the tasks, the queues and the hypercall state are what they were; only
    lines are added to the console. *)
Theorem vm_show_reads_only cmd s : quiet (vm_show cmd s).2 = quiet s.
Proof.
  enough (keeps (λ _, True) quiet (vm_show cmd)) as Hk by by apply Hk. clear s.
  unfold vm_show, show_vm_full_details, show_vm_basic_details. repeat quiet_step;
    unfold full_details, basic_details, full_config, show_entries, show_head; repeat quiet_step.
Qed.
End show.
