(* ===== verification/CommandTree.v ===== *)
(** * The command tree of the shell ([build_command_tree] of [shell/command/mod.rs])

    The base commands and the VM commands in one tree.  The base commands work on the
    state of the shell and the VM commands on that of the hypervisor, so a handler is one
    of the two. *)

From Stdlib Require Import Ascii.
From S2P Require Import Prelude RustStr Command BaseCmd Ivc Hvc Vmm VmCommands VmCreate VmShow.

Inductive Handler (B V : Type) : Type :=
  | BaseHandler (h : B)
  | VmHandler (h : V).
Arguments BaseHandler {B V}.
Arguments VmHandler {B V}.

(** The same node with another type of handlers. *)
Fixpoint node_map {A B} (f : A → B) (n : CommandNode A) : CommandNode B :=
  mkNode (f <$> handler n) ((λ p, (p.1, node_map f p.2)) <$> subcommands n) (description n) (usage n)
    (node_options n) (node_flags n).

Section tree.
Context {F G : Type} `{!PagingHandler F} `{!GuestVM G} `{!HyperCallCodes}.
Context `{!AxVm} `{!OverflowChecks} `{!TargetArch} `{!StatusText} `{!VmInfo}.
Context `{!Scheduler (vmm_state (hvc_state F G))} `{!VmFactory G} `{!GuestSetup G} `{!ConfigFiles}.
Context {S E D : Type} `{!StdFs S E D} `{!ErrorText} `{!BuildEnv}.

Abbreviation base_handler := (ParsedCommand → st (shell S) stop ()).
Abbreviation vm_handler := (ParsedCommand → st (vmm_state (hvc_state F G)) blocked ()).
Abbreviation node := (CommandNode (Handler base_handler vm_handler)).

(** [build_command_tree] of a build with the feature [fs]. *)
Definition build_command_tree (fuel : nat) : list (string * node) :=
  let tree := (λ p, (p.1, node_map BaseHandler p.2)) <$> build_base_cmd (F:=E) fuel [] in
  assoc_insert "vm" (node_map VmHandler (vm_node true)) tree.
End tree.

(** * Theorems *)

(** Well-formed nodes: there is a handler; every option and flag can be given, by a short
    or a long switch; no two of them share a switch or a name; the subcommands are in
    order, without duplicates, and well-formed. *)
Fixpoint ordered (l : list string) : bool :=
  match l with
  | x :: (y :: _) as l => bool_decide (String.compare x y = Lt) && ordered l
  | _ => true
  end.

Definition switches_wf {A} (n : CommandNode A) : bool :=
  bool_decide (NoDup (omap opt_short (node_options n) ++ omap flag_short (node_flags n))) &&
  bool_decide (NoDup (omap opt_long (node_options n) ++ omap flag_long (node_flags n))) &&
  bool_decide (NoDup ((opt_name <$> node_options n) ++ (flag_name <$> node_flags n))) &&
  forallb (λ o, bool_decide (is_Some (opt_short o)) || bool_decide (is_Some (opt_long o))) (node_options n) &&
  forallb (λ f, bool_decide (is_Some (flag_short f)) || bool_decide (is_Some (flag_long f))) (node_flags n).

Fixpoint node_wf {A} (n : CommandNode A) : bool :=
  bool_decide (is_Some (handler n)) && switches_wf n && ordered (subcommands n).*1 &&
  forallb (λ p, node_wf p.2) (subcommands n).

(** The commands that the text of [vm help] lists: lines that start with two blanks and a
    name. *)
Definition listed_command (line : string) : option string :=
  rest ← strip_prefix "  " line;
  if starts_with " " rest then None else head (split_char " "%char "" rest).

Section theorems.
Context {F G : Type} `{!PagingHandler F} `{!GuestVM G} `{!HyperCallCodes}.
Context `{!AxVm} `{!OverflowChecks} `{!TargetArch} `{!StatusText} `{!VmInfo}.
Context `{!Scheduler (vmm_state (hvc_state F G))} `{!VmFactory G} `{!GuestSetup G} `{!ConfigFiles}.
Context {S E D : Type} `{!StdFs S E D} `{!ErrorText} `{!BuildEnv}.

(** The command tree is well-formed: in every node of it there is a handler, every
    option and flag can be given on a command line, no two options or flags of a command
    share a short switch, a long switch or a name, and the names of the commands and
    subcommands are distinct and in order, so that looking a name up finds it. *)
Theorem command_tree_wf fuel :
  let tree := build_command_tree (F:=F) (G:=G) (S:=S) (E:=E) (D:=D) fuel in
  ordered tree.*1 = true ∧ forallb (λ p, node_wf p.2) tree = true.
Proof. by vm_compute. Qed.

(** The help of the [vm] command and the tree agree only in a build with the feature
    [fs]: there every command that the help lists exists; without it the help still
    lists [create] and [start], which do not exist, and no other command is missing. *)
Theorem vm_help_lists_commands (fs : bool) :
  filter (λ c, assoc_get c (subcommands (vm_node (F:=F) (G:=G) fs)) = None) (omap listed_command vm_help_lines) =
  if fs then [] else ["create"; "start"].
Proof. destruct fs; by vm_compute. Qed.
End theorems.
