(* ===== verification/BlockDrivers.v ===== *)
(** * Block drivers ([modules/driver/src/blk/phytium.rs], [rockchip.rs],
      [soc/rockchip/clk/rk3568-clk.rs])

    The request queues of the two SD/eMMC drivers and the clock the eMMC driver uses.  The
    cards, the host controllers and the clock unit belong to other crates ([MciCard],
    [EmmcHost], [ClockUnit]); their documented behaviour is stated by [MciCardOk] and
    [ClockUnitOk].  Probing maps registers and is not modelled. *)

From Stdlib Require Import Strings.Byte.
From S2P Require Import Prelude Disk Gpt.

(** ** Requests *)

(** A buffer: the address it is at, and its bytes. *)
Record buffer : Type := mkBuffer {
  buf_addr : Z;
  buf_data : list u8;
}.

Inductive RequestKind : Type := Read (b : buffer) | Write (b : buffer).

Record Request : Type := mkRequest {
  block_id : Z;
  kind : RequestKind;
}.

Inductive BufferError : Type :=
  | InvalidSize (expected actual : Z)
  | InvalidAlignment.

(** ** The Phytium SD card *)

Inductive MCIHostError : Type :=
  | Timeout | OutOfRange | InvalidArgument | CardDetectFailed | CardInitFailed | InvalidVoltage
  | SwitchVoltageFail | SwitchVoltage18VFail33VSuccess | TransferFailed | StopTransmissionFailed
  | WaitWriteCompleteFailed | OtherMci (code : Z).

Inductive BlkError : Type :=
  | Retry
  | NotSupported
  | NoMemory
  | OtherBuffer (e : BufferError)
  | OtherMciError (e : MCIHostError)
  | OtherText (s : string).

Definition OFFSET : Z := 0x4000000.
Definition BLOCK_SIZE : Z := 512.

(** The card: reading a block gives its words, writing replaces them. *)
Class MciCard (C : Type) : Type := {
  card_block_count : C → Z;
  card_block_size : C → Z;
  card_read_block : Z → C → outcome MCIHostError (list Z) * C;
  card_write_block : list Z → Z → C → outcome MCIHostError () * C;
}.

(** What a card holds, and what its operations do to it: a read returns the 128 words of
    the block and changes nothing, a write of 128 words stores them, blocks outside the
    card are refused, and the size of the card does not change. *)
Class MciCardOk {C} `{!MciCard C} (content : C → Z → list Z) : Prop := {
  block_count_u32 c : 0 ≤ card_block_count c < 2 ^ 32;
  read_block_ok b c ws c' : card_read_block b c = (Ok ws, c') → ws = content c b ∧ c' = c;
  write_block_ok ws b c c' : card_write_block ws b c = (Ok (), c') →
    (length ws = 128%nat → content c' b = ws) ∧ (∀ b', b' ≠ b → content c' b' = content c b') ∧
    card_block_count c' = card_block_count c;
  write_block_err ws b c e c' : card_write_block ws b c = (Err e, c') →
    (∀ b', b' ≠ b → content c' b' = content c b') ∧ card_block_count c' = card_block_count c;
  read_outside b c : card_block_count c ≤ b → card_read_block b c = (Err OutOfRange, c);
  write_outside ws b c : card_block_count c ≤ b → card_write_block ws b c = (Err OutOfRange, c);
  read_total b c c' : card_read_block b c ≠ (Panic, c');
  write_total ws b c c' : card_write_block ws b c ≠ (Panic, c');
  read_err b c e c' : card_read_block b c = (Err e, c') → c' = c;
}.

(** The words of a buffer that is aligned. *)
Fixpoint words (l : list u8) : list Z :=
  match l with
  | a :: b :: c :: d :: l => from_le_bytes [a; b; c; d] :: words l
  | _ => []
  end.

Definition word_bytes (ws : list Z) : list u8 := ws ≫= to_le_bytes 4.

(** [buffer.align_to::<u32>()] leaves nothing over at either end. *)
Definition aligned (b : buffer) : bool :=
  bool_decide (buf_addr b mod 4 = 0) && bool_decide (len (buf_data b) mod 4 = 0).

Definition map_mci_error_to_blk_error (err : MCIHostError) : BlkError :=
  match err with
  | Timeout => Retry
  | OutOfRange | InvalidArgument => OtherMciError err
  | CardDetectFailed | CardInitFailed => NotSupported
  | InvalidVoltage | SwitchVoltageFail | SwitchVoltage18VFail33VSuccess => NotSupported
  | TransferFailed | StopTransmissionFailed | WaitWriteCompleteFailed => Retry
  | _ => OtherMciError err
  end.

Definition validate_buffer (b : buffer) : outcome BlkError () :=
  if bool_decide (len (buf_data b) < BLOCK_SIZE) then Err (OtherBuffer (InvalidSize BLOCK_SIZE (len (buf_data b))))
  else if negb (aligned b) then Err (OtherBuffer InvalidAlignment)
  else Ok ().

Section phytium.
Context {C : Type} `{!MciCard C} `{!OverflowChecks}.
Abbreviation M := (st C BlkError).

Definition num_blocks : M Z := gets card_block_count.
Definition block_size : M Z := gets card_block_size.

Definition map_err {A} (m : C → outcome MCIHostError A * C) : M A := λ c,
  match m c with
  | (Ok a, c') => (Ok a, c')
  | (Err e, c') => (Err (map_mci_error_to_blk_error e), c')
  | (Panic, c') => (Panic, c')
  end.

(** The bytes of the request's buffer after the request; a write leaves them alone. *)
Definition submit_request (request : Request) : M (list u8) :=
  actual_block_id ← lift (usize_add (block_id request) (OFFSET / 512));
  let card_block := actual_block_id mod 2 ^ 32 in
  match kind request with
  | Read b =>
      lift (validate_buffer b);;
      temp_buf ← map_err (card_read_block card_block);
      let copy_len := Nat.min (length temp_buf) (length (words (buf_data b))) in
      mret (word_bytes (take copy_len temp_buf ++ drop copy_len (words (buf_data b))))
  | Write b =>
      lift (validate_buffer b);;
      map_err (card_write_block (words (buf_data b)) card_block);;
      mret (buf_data b)
  end.
End phytium.

(** ** The Rockchip eMMC *)

Inductive SdError : Type :=
  | SdTimeout | DataTimeout | Crc | DataCrc | EndBit | Index | DataEndBit | BadMessage | InvalidResponse
  | InvalidResponseType | CommandError | TransferError | DataError | CardError (status : Z) | IoError
  | NoCard | UnsupportedCard | BusPower | Acmd12Error | AdmaError | CurrentLimit | TuningFailed
  | VoltageSwitchFailed | BusWidth | SdInvalidArgument | BufferOverflow | MemoryError.

Definition maping_dev_err_to_blk_err (err : SdError) : BlkError :=
  match err with
  | SdTimeout | DataTimeout => Retry
  | Crc | DataCrc | EndBit | Index | DataEndBit | BadMessage | InvalidResponse | InvalidResponseType
  | CommandError | TransferError | DataError | CardError _ => OtherText "SD/MMC I/O error"
  | IoError => OtherText "I/O error"
  | NoCard | UnsupportedCard => NotSupported
  | BusPower | Acmd12Error | AdmaError | CurrentLimit | TuningFailed | VoltageSwitchFailed | BusWidth =>
      OtherText "SD/MMC controller error"
  | SdInvalidArgument => OtherText "Invalid argument"
  | BufferOverflow | MemoryError => NoMemory
  end.

(** The host controller; [cast_id] and [cast_count] are the conversions to the types of
    its arguments. *)
Class EmmcHost (D : Type) : Type := {
  get_block_num : D → Z;
  get_block_size : D → Z;
  cast_id : Z → Z;
  cast_count : Z → Z;
  emmc_read_blocks : Z → Z → list u8 → D → outcome SdError (list u8) * D;
  emmc_write_blocks : Z → Z → list u8 → D → outcome SdError () * D;
}.

Section rockchip.
Context {D : Type} `{!EmmcHost D}.
Abbreviation M := (st D BlkError).

(** [create_queue] hands the device over; the driver keeps nothing. *)
Definition create_queue (dev : option D) : option D * option D := (dev, None).

Definition blocks_of (b : buffer) : M Z :=
  d ← get;
  if bool_decide (get_block_size d = 0) then panic else mret (len (buf_data b) / get_block_size d).

Definition map_sd_err {A} (m : D → outcome SdError A * D) : M A := λ d,
  match m d with
  | (Ok a, d') => (Ok a, d')
  | (Err e, d') => (Err (maping_dev_err_to_blk_err e), d')
  | (Panic, d') => (Panic, d')
  end.

Definition emmc_submit_request (request : Request) : M (list u8) :=
  let id := block_id request in
  match kind request with
  | Read b =>
      blocks ← blocks_of b;
      map_sd_err (emmc_read_blocks (cast_id id) (cast_count blocks) (buf_data b))
  | Write b =>
      blocks ← blocks_of b;
      map_sd_err (emmc_write_blocks (cast_id id) (cast_count blocks) (buf_data b));;
      mret (buf_data b)
  end.
End rockchip.

(** ** The clock of the RK3568 *)

Definition MHZ : Z := 1000000.
Definition KHZ : Z := 1000.
Definition EMMC_CLK_ID : Z := 0x7c.

Inductive KError : Type := InvalidArg (name : string).
Inductive ClkError : Type := InvalidPeripheralId.

(** The clock and reset unit: the register that selects the source of the eMMC clock, and
    the codes of the sources. *)
Class ClockUnit (U : Type) : Type := {
  cru_clksel_get_cclk_emmc : U → Z;
  cru_clksel_set_cclk_emmc : Z → U → U;
  CCLK_EMMC_POS : Z;
  CCLK_EMMC_XIN_SOC0_MUX : Z;
  CCLK_EMMC_CPL_DIV_50M : Z;
  CCLK_EMMC_CPL_DIV_100M : Z;
  CCLK_EMMC_GPL_DIV_150M : Z;
  CCLK_EMMC_GPL_DIV_200M : Z;
  CCLK_EMMC_SOC0_375K : Z;
}.

(** The field has three bits, at [CCLK_EMMC_POS] of a 32-bit register. *)
Class ClockUnitOk {U} `{!ClockUnit U} : Prop := {
  pos_range : 0 ≤ CCLK_EMMC_POS;
  get_field u : 0 ≤ Z.shiftr (cru_clksel_get_cclk_emmc u) CCLK_EMMC_POS < 8;
}.

Section clock.
Context {U : Type} `{!ClockUnit U}.

Definition clk_get_rate (id : Z) : st U KError Z :=
  if bool_decide (id = EMMC_CLK_ID) then
    gets (λ u, Z.shiftr (cru_clksel_get_cclk_emmc u) CCLK_EMMC_POS)
  else throw (InvalidArg "clock_id").

(** The source of a rate, a [u32]. *)
Definition emmc_source (r : Z) : option Z :=
  if bool_decide (r = 24 * MHZ) then Some CCLK_EMMC_XIN_SOC0_MUX
  else if bool_decide (r = 52 * MHZ ∨ r = 50 * MHZ) then Some CCLK_EMMC_CPL_DIV_50M
  else if bool_decide (r = 100 * MHZ) then Some CCLK_EMMC_CPL_DIV_100M
  else if bool_decide (r = 150 * MHZ) then Some CCLK_EMMC_GPL_DIV_150M
  else if bool_decide (r = 200 * MHZ) then Some CCLK_EMMC_GPL_DIV_200M
  else if bool_decide (r = 400 * KHZ ∨ r = 375 * KHZ) then Some CCLK_EMMC_SOC0_375K
  else None.

Definition clk_set_rate (id rate : Z) : st U KError () :=
  if bool_decide (id = EMMC_CLK_ID) then
    match emmc_source (rate mod 2 ^ 32) with
    | Some src_clk => modify (cru_clksel_set_cclk_emmc src_clk)
    | None => panic
    end
  else throw (InvalidArg "clock_id").

(** [map_err(|_| ClkError::InvalidPeripheralId)] *)
Definition clk_err {A} (m : st U KError A) : st U ClkError A := λ u,
  match m u with
  | (Ok a, u') => (Ok a, u')
  | (Err _, u') => (Err InvalidPeripheralId, u')
  | (Panic, u') => (Panic, u')
  end.

(** The clock as the eMMC driver uses it. *)
Definition emmc_get_clk (id : Z) : st U ClkError Z := clk_err (clk_get_rate id).

Definition emmc_set_clk (id rate : Z) : st U ClkError Z :=
  clk_err (clk_set_rate id rate);; clk_err (clk_get_rate id).
End clock.

(** * Theorems *)

Lemma to_le_bytes_from a b c d : to_le_bytes 4 (from_le_bytes [a; b; c; d]) = [a; b; c; d].
Proof.
  assert (H : ∀ l, to_le_bytes (length l) (from_le_bytes l) = l); [|by apply (H [a; b; c; d])].
  induction l as [|x l IH]; [done|]. cbn [from_le_bytes length to_le_bytes].
  pose proof (u8_val_range x). f_equal.
  - trans (u8_of (u8_val x)); [|by destruct x]. unfold u8_of. by rewrite (Z.mul_comm 256), Z.mod_add by lia.
  - rewrite (Z.mul_comm 256), Z.div_add, Z.div_small by lia. by rewrite Z.add_0_l.
Qed.

Lemma words_bytes n l : length l = (4 * n)%nat → word_bytes (words l) = l ∧ length (words l) = n.
Proof.
  revert l. induction n as [|n IH]; intros l Hl; [by destruct l|].
  destruct l as [|a [|b [|c [|d l]]]]; simpl in Hl; try lia.
  destruct (IH l) as [H1 H2]; [lia|]. cbn [words]. unfold word_bytes in *. rewrite bind_cons.
  rewrite to_le_bytes_from, H1. simpl. by rewrite H2.
Qed.

Section theorems.
Context {C : Type} `{!MciCard C} `{!OverflowChecks} (content : C → Z → list Z) `{!MciCardOk content}.
Implicit Types (c : C).

(** The block of the card a request is about. *)
Definition card_block (id : Z) : Z := (id + 131072) mod 2 ^ 32.

Lemma submit_read id b c out c' :
  in_usize (id + 131072) → submit_request (mkRequest id (Read b)) c = (Ok out, c') →
  let ws := content c (card_block id) in
  let n := Nat.min (length ws) (length (words (buf_data b))) in
  out = word_bytes (take n ws ++ drop n (words (buf_data b))) ∧ c' = c.
Proof.
  intros Hid Hs. unfold submit_request in Hs. simpl kind in Hs. simpl block_id in Hs.
  unfold usize_add in Hs. rewrite checked_ok in Hs by done.
  apply st_bind_ok in Hs as (x & c0 & [= <- <-] & Hs). apply st_bind_ok in Hs as ([] & c1 & Hv & Hs).
  injection Hv as _ <-. apply st_bind_ok in Hs as (ws & c2 & Hr & Hs).
  unfold map_err in Hr. change ((id + OFFSET / 512) mod 2 ^ 32) with (card_block id) in Hr.
  destruct (card_read_block (card_block id) c) as [[ws'|e|] c3] eqn:E; simplify_eq.
  apply read_block_ok in E as [-> ->]. by injection Hs as <- <-.
Qed.

Lemma submit_write id b c out c' :
  in_usize (id + 131072) → submit_request (mkRequest id (Write b)) c = (Ok out, c') →
  (length (words (buf_data b)) = 128%nat → content c' (card_block id) = words (buf_data b)).
Proof.
  intros Hid Hs. unfold submit_request in Hs. simpl kind in Hs. simpl block_id in Hs.
  unfold usize_add in Hs. rewrite checked_ok in Hs by done.
  apply st_bind_ok in Hs as (x & c0 & [= <- <-] & Hs). apply st_bind_ok in Hs as ([] & c1 & Hv & Hs).
  injection Hv as _ <-. apply st_bind_ok in Hs as ([] & c2 & Hr & Hs). injection Hs as _ <-.
  unfold map_err in Hr. change ((id + OFFSET / 512) mod 2 ^ 32) with (card_block id) in Hr.
  destruct (card_write_block _ (card_block id) c) as [[[]|e|] c3] eqn:E; simplify_eq.
  by apply write_block_ok in E as [Hw _].
Qed.

(** What is written to a block of the Phytium SD card is read back: a read of a block
    into a buffer of 512 bytes, after a successful write of 512 bytes to that block,
    returns the bytes that were written. *)
Theorem sdcard_write_read id w b c c1 c2 x out :
  in_usize (id + 131072) → length (buf_data w) = 512%nat → length (buf_data b) = 512%nat →
  submit_request (mkRequest id (Write w)) c = (Ok x, c1) →
  submit_request (mkRequest id (Read b)) c1 = (Ok out, c2) →
  out = buf_data w.
Proof.
  intros Hid Hw Hb Hs Hr. destruct (words_bytes 128 (buf_data w)) as [Hww Hwl]; [done|].
  destruct (words_bytes 128 (buf_data b)) as [_ Hbl]; [done|].
  pose proof (submit_write _ _ _ _ _ Hid Hs Hwl) as Hc.
  apply submit_read in Hr as [-> _]; [|done]. rewrite Hc, Hwl, Hbl.
  by rewrite take_ge, drop_ge, app_nil_r by lia.
Qed.

(** The first 64 MiB of the SD card are out of reach: no request, successful or not,
    changes any of the first 131072 blocks of the card, as long as its block number, which
    the driver moves up by 131072 and cuts to 32 bits, is below 2^32 - 131072. *)
Theorem sdcard_reserved_area request c b :
  0 ≤ block_id request < 2 ^ 32 - 131072 → 0 ≤ b < 131072 →
  content (submit_request request c).2 b = content c b.
Proof.
  intros Hid Hb. destruct request as [id k]. simpl in Hid. unfold submit_request. simpl kind. simpl block_id.
  change (OFFSET / 512) with 131072. unfold usize_add.
  rewrite checked_ok by (unfold in_usize, usize_max; lia).
  erewrite bind_run by done. rewrite Z.mod_small by lia.
  assert (Hne : b ≠ id + 131072) by lia.
  destruct k as [buf|buf]; unfold map_err; st_run; destruct (validate_buffer buf) as [[]|e|]; simpl; try done.
  - destruct (card_read_block _ c) as [[ws|e|] c'] eqn:E; simpl.
    + by apply read_block_ok in E as [_ ->].
    + by apply read_err in E as ->.
    + by apply read_total in E.
  - destruct (card_write_block _ _ c) as [[[]|e|] c'] eqn:E; simpl.
    + apply write_block_ok in E as (_ & Ho & _). by apply Ho.
    + apply write_block_err in E as [Ho _]. by apply Ho.
    + by apply write_total in E.
Qed.

(** The last 64 MiB that the SD card announces cannot be used: the driver reports the
    size of the whole card as its number of blocks, but a request for any of the last
    131072 of these blocks, with a valid buffer, is refused as out of range. *)
Theorem sdcard_last_blocks_refused id k buf c :
  k = Read buf ∨ k = Write buf → validate_buffer buf = Ok () →
  0 ≤ id → card_block_count c - 131072 ≤ id → id + 131072 < 2 ^ 32 →
  submit_request (mkRequest id k) c = (Err (OtherMciError OutOfRange), c).
Proof.
  intros Hk Hv H0 Hid Hmax. unfold submit_request. simpl kind. simpl block_id.
  change (OFFSET / 512) with 131072. unfold usize_add.
  rewrite checked_ok by (unfold in_usize, usize_max; lia).
  erewrite bind_run by done. rewrite Z.mod_small by lia.
  destruct Hk as [-> | ->]; rewrite Hv; erewrite bind_run by done; unfold map_err; st_run.
  - rewrite read_outside; [done|lia].
  - rewrite write_outside; [done|lia].
Qed.
End theorems.

(** The eMMC clock driver of the RK3568 reports the number of the clock's source, not
    its rate: after a rate is set, the rate that is returned is less than 8. *)
Theorem clock_reports_source {U} `{!ClockUnit U} `{!ClockUnitOk} rate u r u' :
  emmc_set_clk EMMC_CLK_ID rate u = (Ok r, u') → 0 ≤ r < 8 ∧ r ≠ rate mod 2 ^ 32.
Proof.
  intros He. apply st_bind_ok in He as ([] & u1 & Hs & Hg). unfold clk_err in Hg. simpl in Hg.
  injection Hg as <- <-. pose proof (get_field u1) as Hr. split; [done|].
  unfold clk_err, clk_set_rate in Hs. rewrite bool_decide_eq_true_2 in Hs by done.
  destruct (emmc_source (rate mod 2 ^ 32)) eqn:E; [|done]. unfold emmc_source, MHZ, KHZ in E.
  intros Heq. rewrite <- Heq in E. repeat (case_bool_decide; [lia|]). done.
Qed.

(** ** Examples *)
Module DriverExamples.

(** A card with two hundred thousand blocks, as a function. *)
Definition toy_card : Type := Z → list Z.
#[local] Instance toy : MciCard toy_card := {|
  card_block_count _ := 200000;
  card_block_size _ := 512;
  card_read_block b c := if bool_decide (200000 ≤ b) then (Err OutOfRange, c) else (Ok (c b), c);
  card_write_block ws b c :=
    if bool_decide (200000 ≤ b) then (Err OutOfRange, c)
    else (Ok (), λ b', if bool_decide (b' = b) then ws else c b');
|}.
#[local] Instance toy_checks : OverflowChecks := true.

#[local] Instance toy_ok : MciCardOk (C:=toy_card) (λ c, c).
Proof.
  split; simpl; intros; repeat case_bool_decide; simplify_eq; try done; try lia.
  split_and!; [by rewrite bool_decide_eq_true_2|intros; by rewrite bool_decide_eq_false_2|done].
Qed.

Definition empty : toy_card := λ _, replicate 128 0.
Definition full (b : u8) : buffer := mkBuffer 0x1000 (replicate 512 b).
Definition written : toy_card := (submit_request (mkRequest 7 (Write (full x01))) empty).2.

Lemma sdcard_write_read_witness :
  (submit_request (mkRequest 7 (Read (full x00))) written).1 = Ok (replicate 512 x01).
Proof.
  destruct (submit_request (mkRequest 7 (Read (full x00))) written) as [[out|e|] c2] eqn:E.
  - f_equal. simpl. f_equal.
    by eapply (sdcard_write_read (λ c, c) 7 (full x01) (full x00) empty written c2 (replicate 512 x01) out).
  - exfalso. apply (f_equal fst) in E. by vm_compute in E.
  - exfalso. apply (f_equal fst) in E. by vm_compute in E.
Defined.

Lemma sdcard_reserved_area_witness :
  (submit_request (mkRequest 7 (Write (full x01))) empty).2 5 = empty 5.
Proof. by apply (sdcard_reserved_area (λ c, c) (mkRequest 7 (Write (full x01))) empty 5). Defined.

Lemma sdcard_last_blocks_refused_witness :
  submit_request (mkRequest 199999 (Read (full x00))) empty = (Err (OtherMciError OutOfRange), empty).
Proof. by apply (sdcard_last_blocks_refused (λ c, c) 199999 _ (full x00)); [left|..]. Defined.

#[local] Instance toy_cru : ClockUnit Z := {|
  cru_clksel_get_cclk_emmc u := u mod 8;
  cru_clksel_set_cclk_emmc src _ := src;
  CCLK_EMMC_POS := 0; CCLK_EMMC_XIN_SOC0_MUX := 0; CCLK_EMMC_CPL_DIV_50M := 4; CCLK_EMMC_CPL_DIV_100M := 3;
  CCLK_EMMC_GPL_DIV_150M := 2; CCLK_EMMC_GPL_DIV_200M := 1; CCLK_EMMC_SOC0_375K := 5;
|}.

#[local] Instance toy_cru_ok : ClockUnitOk (U:=Z).
Proof. split; [done|]. intros u. simpl. rewrite Z.shiftr_0_r. apply Z.mod_pos_bound. lia. Qed.

Lemma clock_reports_source_witness : ∃ r, (emmc_set_clk EMMC_CLK_ID 200000000 0).1 = Ok r ∧ r ≠ 200000000.
Proof.
  destruct (clock_reports_source 200000000 0 1 1) as [_ Hr]; [by vm_compute|]. exists 1. by split; [vm_compute|].
Defined.
End DriverExamples.
