(* ===== verification/X86Plat.v ===== *)
(** * The x86 platform ([platform/x86-qemu-q35/src])

    Time ([time.rs]), interrupts and inter-processor interrupts ([apic.rs]), memory ranges
    and address translation ([mem.rs]), the start of secondary CPUs ([mp.rs]) and the
    serial console ([console.rs]) of the QEMU Q35 platform.  Registers, the timestamp
    counter, the RTC, the table of handlers ([HandlerTable]) and rational scaling
    ([Ratio]) come from the processor and from other crates. *)

From S2P Require Import Prelude.

(** ** Time *)

Definition TIMER_FREQUENCY : Z := 4000000000.
Definition LAPIC_TICKS_PER_SEC : Z := 1000000000.
Definition NANOS_PER_SEC : Z := 1000000000.

Record time_state : Type := mkTime {
  INIT_TICK : Z;
  CPU_FREQ_MHZ : Z;
  RTC_EPOCHOFFSET_NANOS : Z;
}.

Definition time_start : time_state := mkTime 0 (TIMER_FREQUENCY / 1000000) 0.

(** [Ratio::new(num, den).mul_trunc(n)] of [int_ratio]. *)
Class Ratio : Type := mul_trunc : Z → Z → Z → Z.
Class RatioOk `{!Ratio} : Prop := mul_trunc_spec num den n : mul_trunc num den n = n * num / den.

Section time.
Context `{!OverflowChecks} `{!Ratio}.
Abbreviation R := (outcome AxError).

(** Division of [u64] values. *)
Definition u64_div (a b : Z) : R Z := if bool_decide (b = 0) then Panic else Ok (a / b).

Definition ticks_to_nanos (t : time_state) (ticks : Z) : R Z :=
  n ← usize_mul ticks 1000; u64_div n (CPU_FREQ_MHZ t).

Definition nanos_to_ticks (t : time_state) (nanos : Z) : R Z :=
  n ← usize_mul nanos (CPU_FREQ_MHZ t); u64_div n 1000.

Definition current_ticks (t : time_state) (tsc : Z) : R Z := usize_sub tsc (INIT_TICK t).

Definition epochoffset_nanos (t : time_state) : Z := RTC_EPOCHOFFSET_NANOS t.

(** The processor reports a base frequency or not, and the RTC is there or not. *)
Definition init_early (t : time_state) (freq : option Z) (tsc : Z) (unix_timestamp : option Z) : R time_state :=
  let mhz := match freq with Some f => if bool_decide (0 < f) then f else CPU_FREQ_MHZ t | None => CPU_FREQ_MHZ t end in
  let t := mkTime tsc mhz (RTC_EPOCHOFFSET_NANOS t) in
  match unix_timestamp with
  | Some secs =>
      eopch_time_nanos ← usize_mul secs 1000000000;
      ticks ← ticks_to_nanos t (INIT_TICK t);
      offset ← usize_sub eopch_time_nanos ticks;
      Ok (mkTime (INIT_TICK t) (CPU_FREQ_MHZ t) offset)
  | None => Ok t
  end.

(** The initial count of the local APIC timer. *)
Definition set_oneshot_timer (t : time_state) (tsc deadline_ns : Z) : R Z :=
  ticks ← current_ticks t tsc;
  now_ns ← ticks_to_nanos t ticks;
  if bool_decide (now_ns < deadline_ns) then
    let apic_ticks := mul_trunc LAPIC_TICKS_PER_SEC NANOS_PER_SEC (deadline_ns - now_ns) in
    if bool_decide (apic_ticks ≤ 2 ^ 32 - 1) then Ok (Z.max apic_ticks 1 mod 2 ^ 32) else Panic
  else Ok 1.

(** The wall clock of [axplat]: the monotonic time and the offset. *)
Definition wall_time_nanos (t : time_state) (tsc : Z) : R Z :=
  ticks ← current_ticks t tsc; now ← ticks_to_nanos t ticks; usize_add now (epochoffset_nanos t).
End time.

(** ** Interrupts *)

Definition APIC_TIMER_VECTOR : Z := 0xf0.
Definition APIC_SPURIOUS_VECTOR : Z := 0xf1.
Definition APIC_ERROR_VECTOR : Z := 0xf2.
Definition MAX_IRQ_COUNT : Z := 256.

Inductive IpiTarget : Type :=
  | Current (cpu_id : Z)
  | Other (cpu_id : Z)
  | AllExceptCurrent (cpu_id cpu_num : Z).

(** What the local APIC is asked to do. *)
Inductive lapic_op : Type :=
  | SendSelf (vector : Z)
  | SendIpi (vector dest : Z)
  | SendAllExcludingSelf (vector : Z)
  | SendInit (dest : Z)
  | SendSipi (page dest : Z)
  | EndOfInterrupt.

(** The table of handlers of [axplat]. *)
Class HandlerTable (T Hd : Type) : Type := {
  table_handler : T → Z → option Hd;
  register_handler : Z → Hd → T → bool * T;
  unregister_handler : Z → T → option Hd * T;
}.

(** Registering fills an empty place below the size of the table and fails otherwise;
    unregistering empties the place and returns what was there. *)
Class HandlerTableOk {T Hd} `{!HandlerTable T Hd} : Prop := {
  register_spec v h t t' ok : register_handler v h t = (ok, t') →
    if ok then table_handler t v = None ∧ table_handler t' v = Some h ∧
               (∀ w, w ≠ v → table_handler t' w = table_handler t w)
    else t' = t;
  unregister_spec v t o t' : unregister_handler v t = (o, t') →
    o = table_handler t v ∧ table_handler t' v = None ∧ (∀ w, w ≠ v → table_handler t' w = table_handler t w);
}.

Record apic (T : Type) : Type := mkApic {
  is_x2apic : bool;
  ioapic_enabled : gset Z;
  handlers : T;
  ops : list lapic_op;
}.
Arguments mkApic {T}.
Arguments is_x2apic {T}.
Arguments ioapic_enabled {T}.
Arguments handlers {T}.
Arguments ops {T}.

Definition u8_cast (n : Z) : Z := n mod 256.
Definition u32_cast (n : Z) : Z := n mod 2 ^ 32.

Section apic.
Context {T Hd : Type} `{!HandlerTable T Hd}.
Implicit Types (a : apic T).

Definition set_enable (vector : Z) (enabled : bool) a : apic T :=
  if bool_decide (vector < APIC_TIMER_VECTOR) then
    mkApic (is_x2apic a)
      (if enabled then {[ u8_cast vector ]} ∪ ioapic_enabled a else ioapic_enabled a ∖ {[ u8_cast vector ]})
      (handlers a) (ops a)
  else a.

Definition op (o : lapic_op) a : apic T := mkApic (is_x2apic a) (ioapic_enabled a) (handlers a) (ops a ++ [o]).

Definition set_handlers (t : T) a : apic T := mkApic (is_x2apic a) (ioapic_enabled a) t (ops a).

Definition raw_apic_id a (id_u8 : Z) : Z := if is_x2apic a then id_u8 else id_u8 * 2 ^ 24.

Definition register (vector : Z) (handler : Hd) a : bool * apic T :=
  let '(ok, t) := register_handler vector handler (handlers a) in
  if ok then (true, set_enable vector true (set_handlers t a)) else (false, set_handlers t a).

Definition unregister (vector : Z) a : option Hd * apic T :=
  let a := set_enable vector false a in
  let '(o, t) := unregister_handler vector (handlers a) in (o, set_handlers t a).

(** The handler that is called, if there is one; the interrupt is then acknowledged. *)
Definition handle (vector : Z) a : option Hd * option Z * apic T :=
  (table_handler (handlers a) vector, Some vector, op EndOfInterrupt a).

Definition send_ipi (irq_num : Z) (target : IpiTarget) a : apic T :=
  match target with
  | Current cpu_id => op (SendSelf (u8_cast cpu_id)) a
  | Other cpu_id => op (SendIpi (u8_cast irq_num) (u32_cast cpu_id)) a
  | AllExceptCurrent _ _ => op (SendAllExcludingSelf (u8_cast irq_num)) a
  end.

(** ** Secondary CPUs *)

Definition START_PAGE_IDX : Z := 6.

(** The two words at the end of the startup page: the stack and the entry. *)
Definition setup_startup_page (code : list Z) (stack_top entry : Z) (page : list Z) : list Z :=
  <[511%nat := entry]> (<[510%nat := stack_top]> (code ++ drop (length code) page)).

(** The startup page is prepared, then the INIT-SIPI-SIPI sequence is sent. *)
Definition start_secondary_cpu (code : list Z) (entry apic_id stack_top : Z) (page : list Z) a
  : list Z * apic T :=
  let id := raw_apic_id a (u8_cast apic_id) in
  (setup_startup_page code stack_top entry page,
   op (SendSipi START_PAGE_IDX id) (op (SendSipi START_PAGE_IDX id) (op (SendInit id) a))).
End apic.

(** ** Memory *)

Definition MMIO_RANGES : list (Z * Z) :=
  [(0xb0000000, 0x10000000); (0xfe000000, 0xc00000); (0xfec00000, 0x1000); (0xfed00000, 0x1000);
   (0xfee00000, 0x1000); (0x7000000000, 0x4000); (0x380000000000, 0x4000)].

Definition PHYS_VIRT_OFFSET : Z := 0xffff800000000000.
Definition MAX_REGIONS : nat := 16.

Inductive MemoryType : Type := Available | OtherMemory.

(** The regions of the boot loader that are RAM; the vector holds sixteen. *)
Fixpoint ram_regions (regions : list (Z * Z)) (info : list (Z * Z * MemoryType)) : outcome AxError (list (Z * Z)) :=
  match info with
  | [] => Ok regions
  | (base, length_, Available) :: info =>
      if bool_decide (length regions < MAX_REGIONS)%nat then ram_regions (regions ++ [(base, length_)]) info
      else Panic
  | (_, _, OtherMemory) :: info => ram_regions regions info
  end.

Definition mem_init (info : option (list (Z * Z * MemoryType))) : outcome AxError (list (Z * Z)) :=
  regions ← unwrap info; ram_regions [] regions.

Definition reserved_phys_ram_ranges : list (Z * Z) := [(0, 0x200000)].
Definition kernel_aspace : Z * Z := (0xffff800000000000, 0x00007ffffffff000).

Definition phys_to_virt `{!OverflowChecks} (paddr : Z) : outcome AxError Z := usize_add paddr PHYS_VIRT_OFFSET.
Definition virt_to_phys `{!OverflowChecks} (vaddr : Z) : outcome AxError Z := usize_sub vaddr PHYS_VIRT_OFFSET.

(** ** Console *)

(** The serial port: the bytes that have arrived and the bytes that were sent. *)
Record com : Type := mkCom {
  com_in : list Z;
  com_out : list Z;
}.

Definition putchar (c : Z) (s : com) : com := mkCom (com_in s) (com_out s ++ [c]).

Definition getchar (s : com) : option Z * com :=
  match com_in s with
  | [] => (None, s)
  | c :: rest => (Some c, mkCom rest (com_out s))
  end.

Definition write_bytes (bytes : list Z) (s : com) : com := fold_left (λ s c, putchar c s) bytes s.

(** The loop fills the buffer from [read_len] on; it ends after at most as many rounds as
    there is room. *)
Fixpoint read_loop (room read_len : nat) (bytes : list Z) (s : com) : nat * list Z * com :=
  match room with
  | O => (read_len, bytes, s)
  | S room =>
      match getchar s with
      | (Some c, s') => read_loop room (S read_len) (<[read_len := c]> bytes) s'
      | (None, s') => (read_len, bytes, s')
      end
  end.

Definition read_bytes (bytes : list Z) (s : com) : nat * list Z * com := read_loop (length bytes) 0 bytes s.

(** * Theorems *)

Section theorems.
Context `{!OverflowChecks} `{!Ratio} `{!RatioOk}.

Lemma ticks_to_nanos_ok t ticks :
  CPU_FREQ_MHZ t ≠ 0 → in_usize (ticks * 1000) → ticks_to_nanos t ticks = Ok (ticks * 1000 / CPU_FREQ_MHZ t).
Proof.
  intros Hf Hr. unfold ticks_to_nanos, usize_mul, u64_div. rewrite checked_ok by done. orun.
  by rewrite bool_decide_eq_false_2.
Qed.

(** The wall clock is behind by the time the machine had been up: right after the
    clock is initialised it does not show the time the RTC gave but a time that is
    earlier by all the ticks the counter had made before. *)
Theorem wall_clock_behind t freq tsc secs :
  0 < CPU_FREQ_MHZ t → 0 ≤ tsc → 0 ≤ secs →
  let mhz := match freq with Some f => if bool_decide (0 < f) then f else CPU_FREQ_MHZ t | None => CPU_FREQ_MHZ t end in
  in_usize (tsc * 1000) → in_usize (secs * 1000000000) → tsc * 1000 / mhz ≤ secs * 1000000000 →
  ∃ t', init_early t freq tsc (Some secs) = Ok t' ∧
    wall_time_nanos t' tsc = Ok (secs * 1000000000 - tsc * 1000 / mhz).
Proof.
  intros Hf Ht Hs mhz Hr1 Hr2 Hle.
  assert (Hm : 0 < mhz) by (unfold mhz; repeat case_match; try case_bool_decide; lia).
  assert (0 ≤ tsc * 1000 / mhz) by (apply Z.div_pos; lia).
  unfold init_early. fold mhz. unfold usize_mul. rewrite checked_ok by done. orun.
  rewrite ticks_to_nanos_ok by (simpl; lia || done). orun. simpl CPU_FREQ_MHZ. simpl INIT_TICK.
  unfold usize_sub. rewrite checked_ok by (unfold in_usize in *; lia). orun. eexists. split; [done|].
  unfold wall_time_nanos, current_ticks, usize_sub. simpl INIT_TICK. rewrite Z.sub_diag.
  rewrite checked_ok by (unfold in_usize, usize_max; lia). orun.
  rewrite ticks_to_nanos_ok by (simpl; unfold in_usize, usize_max; lia). orun. simpl CPU_FREQ_MHZ.
  rewrite Z.mul_0_l, Z.div_0_l by lia. unfold usize_add, epochoffset_nanos. simpl RTC_EPOCHOFFSET_NANOS.
  rewrite checked_ok by (unfold in_usize in *; lia). f_equal.
Qed.

(** What [set_oneshot_timer] does, by the distance of the deadline. *)
Lemma oneshot_set t tsc deadline :
  0 < CPU_FREQ_MHZ t → 0 ≤ tsc - INIT_TICK t → in_usize ((tsc - INIT_TICK t) * 1000) →
  let now := (tsc - INIT_TICK t) * 1000 / CPU_FREQ_MHZ t in
  set_oneshot_timer t tsc deadline =
  if bool_decide (deadline ≤ now) then Ok 1
  else if bool_decide (deadline - now < 2 ^ 32) then Ok (deadline - now) else Panic.
Proof.
  intros Hf Ht Hr now. unfold set_oneshot_timer, current_ticks, usize_sub.
  rewrite checked_ok by (unfold in_usize in *; lia). orun. rewrite ticks_to_nanos_ok by (done || lia). orun.
  fold now. rewrite mul_trunc_spec. unfold LAPIC_TICKS_PER_SEC, NANOS_PER_SEC. rewrite Z.div_mul by lia.
  repeat case_bool_decide; try lia; try done. f_equal. rewrite Z.mod_small by lia. lia.
Qed.

(** The timer is set to the deadline, unless that is far away: a deadline less than
    2^32 nanoseconds ahead is set exactly, one that has passed fires at once, and any
    other, about 4.3 seconds ahead or more, makes the hypervisor panic. *)
Theorem oneshot_timer_deadline t tsc deadline :
  0 < CPU_FREQ_MHZ t → 0 ≤ tsc - INIT_TICK t → in_usize ((tsc - INIT_TICK t) * 1000) →
  let now := (tsc - INIT_TICK t) * 1000 / CPU_FREQ_MHZ t in
  set_oneshot_timer t tsc deadline =
  if bool_decide (deadline ≤ now) then Ok 1
  else if bool_decide (deadline - now < 2 ^ 32) then Ok (deadline - now) else Panic.
Proof. apply oneshot_set. Qed.

(** Translating an address there and back gives it back, and the direct map of the
    physical memory below the size of the kernel's address space lies in that space. *)
Theorem phys_virt_roundtrip p :
  0 ≤ p < kernel_aspace.2 →
  ∃ v, phys_to_virt p = Ok v ∧ virt_to_phys v = Ok p ∧
    kernel_aspace.1 ≤ v < kernel_aspace.1 + kernel_aspace.2.
Proof.
  unfold phys_to_virt, virt_to_phys, usize_add, usize_sub, PHYS_VIRT_OFFSET. simpl. intros Hp.
  exists (p + 0xffff800000000000). rewrite !checked_ok by (unfold in_usize, usize_max; lia).
  split_and!; [done|f_equal; lia|lia..].
Qed.
End theorems.

(** The device ranges of the platform do not overlap one another or the reserved
    memory. *)
Theorem mmio_ranges_disjoint i j a b :
  i ≠ j → (MMIO_RANGES ++ reserved_phys_ram_ranges) !! i = Some a →
  (MMIO_RANGES ++ reserved_phys_ram_ranges) !! j = Some b →
  a.1 + a.2 ≤ b.1 ∨ b.1 + b.2 ≤ a.1.
Proof.
  intros Hij Ha Hb. unfold MMIO_RANGES, reserved_phys_ram_ranges in *. simpl in *.
  do 8 (destruct i as [|i]; [injection Ha as <-; do 8 (destruct j as [|j]; [try done; injection Hb as <-; simpl; lia|]); done|]).
  done.
Qed.

Section irq.
Context {T Hd : Type} `{!HandlerTable T Hd} `{!HandlerTableOk}.
Implicit Types (a : apic T).

(** An interrupt line of the I/O APIC is open only while it has a handler. *)
Definition irq_ok a : Prop :=
  ∀ v, 0 ≤ v < APIC_TIMER_VECTOR → v ∈ ioapic_enabled a → is_Some (table_handler (handlers a) v).

(** No interrupt without a handler: registering and unregistering handlers keeps it
    true that every enabled line has a handler; a registration that fails changes
    nothing, and one that succeeds enables the line. *)
Theorem irq_enabled_has_handler vector handler a :
  0 ≤ vector < 256 → irq_ok a →
  irq_ok (register vector handler a).2 ∧ irq_ok (unregister vector a).2 ∧
  ((register vector handler a).1 = false → (register vector handler a).2 = a) ∧
  ((register vector handler a).1 = true → vector < APIC_TIMER_VECTOR →
   vector ∈ ioapic_enabled (register vector handler a).2).
Proof.
  intros Hv Hok. unfold register, unregister.
  destruct (register_handler vector handler (handlers a)) as [ok t] eqn:E. apply register_spec in E.
  assert (Hc : u8_cast vector = vector) by (apply Z.mod_small; lia).
  unfold set_enable, set_handlers. rewrite Hc. split_and!.
  - destruct ok; [|by subst; destruct a]. destruct E as (_ & Hh & Ho). intros v Hr Hin.
    destruct (decide (v = vector)) as [->|Hne]; [case_bool_decide; simpl; rewrite Hh; by eexists|].
    case_bool_decide; simpl in *; rewrite Ho by done; apply Hok; set_solver.
  - case_bool_decide; simpl.
    + destruct (unregister_handler vector (handlers a)) as [o t'] eqn:E'.
      apply unregister_spec in E' as (_ & _ & Ho). simpl. intros v Hr Hin.
      simpl in *. apply elem_of_difference in Hin as [Hin Hne]. rewrite Ho by set_solver. by apply Hok.
    + destruct (unregister_handler vector (handlers a)) as [o t'] eqn:E'.
      apply unregister_spec in E' as (_ & _ & Ho). simpl. intros v Hr Hin. simpl in *.
      rewrite Ho by lia. by apply Hok.
  - destruct ok; simpl; [done|]. subst. by destruct a.
  - destruct ok; simpl; [|done]. intros _ Hlt. rewrite bool_decide_eq_true_2 by done. simpl. set_solver.
Qed.

(** An interrupt that a CPU sends to itself has the wrong vector: its vector is the
    number of the CPU, whatever interrupt was asked for; to other CPUs the interrupt that
    was asked for is sent. *)
Theorem self_ipi_wrong_vector irq_num cpu_id a :
  0 ≤ irq_num < 256 → 0 ≤ cpu_id < 256 →
  ops (send_ipi irq_num (Current cpu_id) a) = ops a ++ [SendSelf cpu_id] ∧
  ops (send_ipi irq_num (Other cpu_id) a) = ops a ++ [SendIpi irq_num cpu_id] ∧
  (∀ n, ops (send_ipi irq_num (AllExceptCurrent cpu_id n) a) = ops a ++ [SendAllExcludingSelf irq_num]).
Proof.
  intros Hi Hc. unfold send_ipi, op, u8_cast, u32_cast. simpl. rewrite !Z.mod_small by lia. done.
Qed.
End irq.

(** ** Destinations of inter-processor interrupts *)

(** The CPU that a local APIC addresses with the upper half of its interrupt command
    register: all of it as an x2APIC, its highest byte otherwise. *)
Definition icr_destination (x2apic : bool) (dest : Z) : Z :=
  if x2apic then dest else Z.land (Z.shiftr dest 24) 0xff.

Lemma raw_apic_id_destination {T} (a : apic T) id :
  0 ≤ id < 256 → icr_destination (is_x2apic a) (raw_apic_id a id) = id.
Proof.
  intros Hid. unfold icr_destination, raw_apic_id. destruct (is_x2apic a); [done|].
  rewrite Z.shiftr_div_pow2, Z.div_mul by lia. change 0xff with (Z.ones 8).
  rewrite Z.land_ones by lia. apply Z.mod_small. lia.
Qed.

(** An interrupt for another CPU is sent to the identifier as it is: without x2APIC that
    addresses CPU 0, whichever was meant. *)
Lemma ipi_to_other_misdirected {T} irq_num cpu_id (a : apic T) :
  is_x2apic a = false → 0 ≤ cpu_id < 256 →
  ∃ dest, ops (send_ipi irq_num (Other cpu_id) a) = ops a ++ [SendIpi (u8_cast irq_num) dest] ∧
    icr_destination (is_x2apic a) dest = 0.
Proof.
  intros Hx Hc. eexists. split; [done|]. unfold icr_destination, u32_cast. rewrite Hx, Z.mod_small by lia.
  by rewrite Z.shiftr_div_pow2, Z.div_small by lia.
Qed.

Lemma read_loop_spec room k bytes s :
  (room + k = length bytes)%nat → let n := Nat.min room (length (com_in s)) in
  read_loop room k bytes s =
  ((k + n)%nat, take k bytes ++ take n (com_in s) ++ drop (k + n) bytes, mkCom (drop n (com_in s)) (com_out s)).
Proof.
  revert k bytes s. induction room as [|room IH]; intros k bytes s Hl n; unfold n; cbn [read_loop].
  { simpl. rewrite Nat.add_0_r, take_drop. by destruct s. }
  destruct s as [[|c rest] o]; cbn [getchar com_in com_out].
  { simpl. by rewrite Nat.add_0_r, take_drop. }
  rewrite IH by (rewrite length_insert; lia). cbn [com_in com_out length]. rewrite <- Nat.succ_min_distr.
  replace (k + S (Nat.min room (length rest)))%nat with (S k + Nat.min room (length rest))%nat by lia.
  f_equal. f_equal. rewrite (take_S_r _ _ c) by (apply list_lookup_insert_eq; lia).
  rewrite take_insert_ge by lia. rewrite drop_insert_lt by lia. by rewrite <- app_assoc.
Qed.

(** Reading the console returns the bytes that have arrived, in order, up to the size
    of the buffer; the rest of the buffer is left as it was and nothing else is taken. *)
Theorem console_read_bytes bytes s :
  let n := Nat.min (length bytes) (length (com_in s)) in
  read_bytes bytes s = (n, take n (com_in s) ++ drop n bytes, mkCom (drop n (com_in s)) (com_out s)).
Proof. unfold read_bytes. rewrite read_loop_spec by lia. by rewrite take_0. Qed.

(** ** Examples *)
Module X86Examples.

#[local] Instance toy_checks : OverflowChecks := true.
#[local] Instance toy_ratio : Ratio := λ num den n, n * num / den.
#[local] Instance toy_ratio_ok : RatioOk.
Proof. done. Qed.

(** A machine that has been up for a second when the clock is initialised. *)
Lemma wall_clock_behind_witness : ∃ t',
  init_early time_start None 4000000000 (Some 1700000000) = Ok t' ∧
  wall_time_nanos t' 4000000000 = Ok (1700000000000000000 - 1000000000).
Proof. by apply (wall_clock_behind time_start None 4000000000 1700000000). Defined.

Lemma oneshot_timer_deadline_witness :
  set_oneshot_timer time_start 4000 5000000000 = Panic ∧ set_oneshot_timer time_start 4000 5000 = Ok 4000.
Proof.
  split.
  - by rewrite (oneshot_timer_deadline time_start 4000 5000000000).
  - by rewrite (oneshot_timer_deadline time_start 4000 5000).
Defined.

Lemma phys_virt_roundtrip_witness : ∃ v, phys_to_virt 0xb8000 = Ok v ∧ virt_to_phys v = Ok 0xb8000.
Proof. destruct (phys_virt_roundtrip 0xb8000) as (v & H1 & H2 & _); [done|by exists v]. Defined.

Lemma mmio_ranges_disjoint_witness : 0xb0000000 + 0x10000000 ≤ 0xfe000000 ∨ 0xfe000000 + 0xc00000 ≤ 0xb0000000.
Proof. by apply (mmio_ranges_disjoint 0 1 (0xb0000000, 0x10000000) (0xfe000000, 0xc00000)). Defined.

#[local] Instance toy_table : HandlerTable (gmap Z nat) nat := {|
  table_handler t v := t !! v;
  register_handler v h t :=
    if bool_decide (v < MAX_IRQ_COUNT) && bool_decide (t !! v = None) then (true, <[v := h]> t) else (false, t);
  unregister_handler v t := (t !! v, delete v t);
|}.
#[local] Instance toy_table_ok : HandlerTableOk (T:=gmap Z nat) (Hd:=nat).
Proof.
  split; simpl.
  - intros v h t t' ok. case_bool_decide; [|by intros [= <- <-]]. case_bool_decide; [|by intros [= <- <-]].
    intros [= <- <-]. split_and!; [done|apply lookup_insert_eq|]. intros. by apply lookup_insert_ne.
  - intros v t o t' [= <- <-]. split_and!; [done|apply lookup_delete_eq|]. intros. by apply lookup_delete_ne.
Qed.

Definition apic0 : apic (gmap Z nat) := mkApic true ∅ ∅ [].

Lemma irq_enabled_has_handler_witness :
  irq_ok (register 0x24 7%nat apic0).2 ∧ 0x24 ∈ ioapic_enabled (register 0x24 7%nat apic0).2.
Proof.
  destruct (irq_enabled_has_handler (T:=gmap Z nat) 0x24 7%nat apic0) as (H1 & _ & _ & H2);
    [done|intros v _ Hv; set_solver|]. split; [done|]. by apply H2.
Defined.

Lemma self_ipi_wrong_vector_witness : ops (send_ipi 0xf5 (Current 1) apic0) = [SendSelf 1].
Proof. by destruct (self_ipi_wrong_vector 0xf5 1 apic0) as [H _]. Defined.
End X86Examples.
