(* ===== verification/Hal.v ===== *)
(** * The hardware abstraction offered to the VM crates ([kernel/src/hal/mod.rs])

    The functions through which the VM, vCPU and device crates reach the hypervisor: the
    identity of the running vCPU, interrupt injection, and contiguous host memory.  The
    calls that only pass on to [axhal] are parameters of their callers and not repeated
    here; [enable_virtualization] is in [Boot].  The vCPU object ([VCpuOps]), the CPU a task
    runs on ([TaskCpu]) and the global allocator ([GlobalAllocator]) are parameters. *)

From S2P Require Import Prelude RustStr Command Ivc Hvc Vmm VmCommands.

(** [vcpu.inject_interrupt] of [axvcpu]. *)
Class VCpuOps : Type := vcpu_inject_interrupt : VCpu → Z → outcome AxError ().

(** [task.cpu_id()] of [axtask]. *)
Class TaskCpu : Type := task_cpu_id : Z → Z.

(** ** The vCPU that runs *)

Section vmm_api.
Context {F G : Type} `{!PagingHandler F} `{!GuestVM G} `{!HyperCallCodes}.
Context `{!AxVm} `{!OverflowChecks} `{!TargetArch} `{!VCpuOps} `{!TaskCpu}.

Abbreviation state := (vmm_state (hvc_state F G)).
Abbreviation M := (st state blocked).

Definition current_vm_id (current : Z) : M Z :=
  t ← task_at current; l ← task_vm t; v ← deref l; mret (vm_id v).

Definition current_vcpu_id (current : Z) : M Z :=
  t ← task_at current; l ← task_vm t; c ← vcpu_at l (t_vcpu t); mret (vcpu_id c).

Definition vcpu_resides_on (id : Z) (vcpu : nat) : M (outcome AxError Z) :=
  r ← with_vcpu_task id vcpu task_cpu_id; mret (ok_or r NotFound).

Definition inject_irq_to_vcpu (current id : Z) (vcpu : nat) (irq : Z) : M (outcome AxError ()) :=
  with_vm_and_vcpu_on_pcpu current id vcpu
    (λ _ c, match vcpu_inject_interrupt c irq with Ok _ => mret () | _ => panic end).

Definition api_vcpu_num (id : Z) : M (option Z) :=
  with_vm id (λ l, v ← deref l; mret (vcpu_num v)).

Definition active_vcpus (id : Z) : M (option Z) := panic.

Definition api_inject_interrupt (current id : Z) (vcpu : nat) (vector : Z) : M () :=
  r ← inject_irq_to_vcpu current id vcpu vector;
  match r with Ok _ => mret () | _ => panic end.

Definition notify_vcpu_timer_expired (id : Z) (vcpu : nat) : M () := panic.
End vmm_api.

(** ** Contiguous memory *)

Definition PAGE_SIZE_4K : Z := 4096.

Record Layout : Type := mkLayout {
  lay_size : Z;
  lay_align : Z;
}.

(** [Layout::from_size_align]: the alignment is a power of two and the size, rounded up to
    it, fits an [isize]. *)
Definition from_size_align (size align : Z) : option Layout :=
  if bool_decide (0 < align ∧ 2 ^ Z.log2 align = align ∧ size ≤ 2 ^ 63 - align)
  then Some (mkLayout size align) else None.

(** [a << n] of [usize] values; a shift by the width or more is an overflow. *)
Definition usize_shl {E} `{!OverflowChecks} (a n : Z) : outcome E Z :=
  if bool_decide (n < 64) then Ok (wrap64 (a * 2 ^ n))
  else if overflow_checks then Panic else Ok (wrap64 (a * 2 ^ (n mod 64))).

(** The global allocator hands out host virtual addresses. *)
Class GlobalAllocator (A : Type) : Type := {
  ga_alloc : Layout → A → outcome AxError Z * A;
  ga_dealloc : Z → Layout → A → A;
}.

Section memory_api.
Context {A : Type} `{!GlobalAllocator A} `{!OverflowChecks}.

Definition contiguous_layout (num_frames frame_align_pow2 : Z) : outcome AxError Layout :=
  size ← usize_mul num_frames PAGE_SIZE_4K;
  align ← usize_shl PAGE_SIZE_4K frame_align_pow2;
  unwrap (from_size_align size align).

(** The pointer is returned as a physical address. *)
Definition alloc_contiguous_frames (num_frames frame_align_pow2 : Z) : st A AxError (option Z) :=
  layout ← lift (contiguous_layout num_frames frame_align_pow2);
  attempt (ga_alloc layout).

Definition free_layout (num_frames : Z) : outcome AxError Layout :=
  size ← usize_mul num_frames PAGE_SIZE_4K;
  unwrap (from_size_align size PAGE_SIZE_4K).

Definition dealloc_contiguous_frames (paddr num_frames : Z) : st A AxError () :=
  layout ← lift (free_layout num_frames);
  modify (ga_dealloc paddr layout).
End memory_api.

(** * Theorems *)

Section theorems.
Context {F G : Type} `{!PagingHandler F} `{!GuestVM G} `{!HyperCallCodes}.
Context `{!AxVm} `{!OverflowChecks} `{!TargetArch} `{!VCpuOps} `{!TaskCpu}.
Implicit Types (s : vmm_state (hvc_state F G)).

(** An interrupt can only be injected into the vCPU that asks for it: when a running
    vCPU injects an interrupt into another vCPU, of its own or another VM, that has a
    task, the hypervisor panics. *)
Theorem cross_vcpu_injection_panics s current t l v c id vcpu irq q :
  tasks s !! current = Some t → t_vm t = l → heap s !! l = Some v → 0 < strong_count s l 0 →
  vcpu_list v !! t_vcpu t = Some c → (vm_id v ≠ id ∨ vcpu_id c ≠ Z.of_nat vcpu) →
  queue s !! id = Some q → is_Some (vcpu_task_list q !! vcpu) →
  (api_inject_interrupt current id vcpu irq s).1 = Panic.
Proof.
  intros Ht Hl Hv Hs Hc Hne Hq [tid Htask]. unfold api_inject_interrupt, inject_irq_to_vcpu.
  unfold with_vm_and_vcpu_on_pcpu, task_at, task_vm, deref, vcpu_at, with_vcpu_task, queue_get. st_run.
  rewrite Ht. simpl. rewrite Hl, Hv, (bool_decide_eq_true_2 (is_Some _)) by by eexists.
  rewrite (bool_decide_eq_true_2 (0 < _)) by done. simpl. unfold deref. st_run. rewrite Hv. simpl. rewrite Hc. simpl.
  rewrite (proj2 (andb_false_iff _ _)).
  - simpl. rewrite Hq. simpl. by rewrite Htask.
  - destruct Hne; [left|right]; by apply bool_decide_eq_false_2.
Qed.

(** Contiguous frames are freed with another layout than they were allocated with: the
    two layouts have the same size, but the alignment that was asked for is forgotten, so
    that they agree only for frames without a larger alignment. *)
Theorem contiguous_layouts_differ n p la lf :
  0 ≤ p < 51 → contiguous_layout n p = Ok la → free_layout n = Ok lf →
  lay_size la = lay_size lf ∧ (la = lf ↔ p = 0).
Proof.
  intros Hp Ha Hf. apply outcome_bind_ok in Ha as (size & Hs & Ha). apply outcome_bind_ok in Ha as (al & Hal & Ha).
  apply outcome_bind_ok in Hf as (size' & Hs' & Hf). rewrite Hs in Hs'. simplify_eq.
  unfold usize_shl in Hal. rewrite bool_decide_eq_true_2 in Hal by lia. injection Hal as <-.
  unfold from_size_align in *. repeat case_bool_decide; simplify_eq/=. split; [done|].
  assert (Hw : wrap64 (PAGE_SIZE_4K * 2 ^ p) = 2 ^ (12 + p)).
  { unfold wrap64, PAGE_SIZE_4K. change 4096 with (2 ^ 12). rewrite <- Z.pow_add_r by lia.
    apply Z.mod_small. split; [by apply Z.pow_nonneg|]. apply Z.pow_lt_mono_r; lia. }
  rewrite Hw. split; [|by intros ->]. intros [= Heq].
  assert (12 + p = 12); [|lia]. apply (Z.pow_inj_r 2); lia.
Qed.
End theorems.

(** ** Examples *)
Module HalExamples.

#[local] Existing Instances VmExamples.demo_vm VmExamples.demo_codes VmExamples.demo_checks VmExamples.demo_arch.
#[local] Instance inject_ok : VCpuOps := λ _ _, Ok ().
#[local] Instance on_cpu0 : TaskCpu := λ _, 0.

Definition task_of (vcpu : nat) : Task := mkTask "vcpu" None 100 vcpu PRun false.
Definition s_two : VmExamples.dstate :=
  mkVmm {[100 := set_vm_status Running VmExamples.vm1]} {[1 := 100]} {[1 := mkVMVCpus 1 0 [5; 6] 2]} ∅
    {[5 := task_of 0; 6 := task_of 1]} 1 1 Demo.start [] [].

Lemma cross_vcpu_injection_panics_witness : (api_inject_interrupt 5 1 1 33 s_two).1 = Panic.
Proof.
  apply (cross_vcpu_injection_panics s_two 5 (task_of 0) 100 (set_vm_status Running VmExamples.vm1)
    (mkVCpu 0 VFree None) 1 1 33 (mkVMVCpus 1 0 [5; 6] 2)); [done|done|done|by vm_compute|done|by right|done|].
  by exists 6.
Defined.

Lemma contiguous_layouts_differ_witness :
  contiguous_layout 8 3 = Ok (mkLayout 32768 32768) ∧ free_layout 8 = Ok (mkLayout 32768 4096) ∧
  mkLayout 32768 32768 ≠ mkLayout 32768 4096.
Proof.
  split_and!; [by vm_compute|by vm_compute|].
  destruct (contiguous_layouts_differ 8 3 (mkLayout 32768 32768) (mkLayout 32768 4096)) as [_ Hd];
    [done|by vm_compute|by vm_compute|]. intros He%Hd. done.
Defined.
End HalExamples.
