(* ===== verification/Startup.v ===== *)
(** * Starting the hypervisor ([kernel/src/main.rs], [init] and [start] of [vmm/mod.rs])

    [main] enables virtualization on every core, creates the guests of the
    configurations, gives each of them a task for its primary virtual CPU, boots them,
    waits until all have stopped and only then starts the shell.  This file composes the
    models of these parts: [Boot], [VmCreate] and [Vmm].  The tasks that are spawned are
    scheduled from the wait on; the logo is left out. *)

From Stdlib Require Import Strings.Byte.
From S2P Require Import Prelude RustStr FdtWrite GuestMem FdtSetup FdtExamples GuestBoot.
From S2P Require Import Command Ivc Hvc Vmm VmCommands VmCreate Boot.

Section main.
Context {F G : Type} `{!PagingHandler F} `{!GuestVM G} `{!HyperCallCodes}.
Context `{!AxVm} `{!OverflowChecks} `{!TargetArch}.
Context `{!VmFactory G} `{!GuestSetup G} `{!ConfigFiles}.

Abbreviation state := (vmm_state (hvc_state F G)).
Abbreviation M := (st state blocked).

(** [vmm::init] and the loop of [vmm::start]. *)
Definition boot_guests (static_vm_configs : list string) : M () :=
  init (init_guest_vms static_vm_configs);; start_boot.

(** [main] up to the call of [console_init], which it makes in the state [s']. *)
Definition main_to_shell (enable_core : nat → bool) (cpu_count : nat) (static_vm_configs : list string)
    (s s' : state) : Prop :=
  (∃ w, rtc (virt_step enable_core cpu_count) (enable_start cpu_count) w ∧ virt_returned w = true) ∧
  ∃ s1, boot_guests static_vm_configs s = (Ok (), s1) ∧ rtc task_step s1 s' ∧ all_vms_stopped s' = true.

(** The state in which [main] is entered. *)
Definition fresh_state (h : hvc_state F G) : state := mkVmm ∅ ∅ ∅ ∅ ∅ 0 0 h [] [].
End main.

(** * Theorems *)

Section startup.
Context {F G : Type} `{!PagingHandler F} `{!GuestVM G} `{!HyperCallCodes}.
Context `{!AxVm} `{!AxVmOk} `{!OverflowChecks} `{!TargetArch}.
Context `{!VmFactory G} `{!VmFactoryOk G} `{!GuestSetup G} `{!GuestSetupOk G} `{!ConfigFiles}.

Abbreviation state := (vmm_state (hvc_state F G)).
Implicit Types (s : state).

(** A loop whose body runs through and keeps an invariant on the elements it has done. *)
Lemma for_each_ok {A} (I : list A → state → Prop) (l : list A) (f : A → st state blocked ()) s :
  (∀ done x todo s, l = done ++ x :: todo → I done s → ∃ s', f x s = (Ok (), s') ∧ I (done ++ [x]) s') →
  I [] s → ∃ s', for_each l f s = (Ok (), s') ∧ I l s'.
Proof.
  intros Hstep Hs.
  enough (Hall : ∀ todo done s, l = done ++ todo → I done s → ∃ s', for_each todo f s = (Ok (), s') ∧ I l s').
  { by apply (Hall l []). }
  clear s Hs. induction todo as [|x todo IH]; intros done s Hl Hs.
  - exists s. rewrite app_nil_r in Hl. by subst.
  - destruct (Hstep _ _ _ _ Hl Hs) as (s1 & Hx & Hs1).
    destruct (IH (done ++ [x]) s1) as (s2 & Hf & Hs2); [by rewrite <- app_assoc|done|].
    exists s2. split; [|done]. simpl. by erewrite bind_run.
Qed.

(** ** After the configurations *)

(** The list after the configurations: each VM is listed under its own identifier and
    Loaded, and nothing runs. *)
Record created_ok (ids : gset Z) s : Prop := {
  created_ids id : is_Some (vms s !! id) ↔ id ∈ ids;
  created_vm id l : vms s !! id = Some l → ∃ v, heap s !! l = Some v ∧ vm_id v = id ∧ vm_status v = Loaded ∧ made v;
  created_tasks : tasks s = ∅;
  created_queue : queue s = ∅;
  created_wqs : wqs s = ∅;
  created_count : running_vm_count s = 0;
}.

Lemma fresh_created h : created_ok ∅ (fresh_state h).
Proof. split; try done. intros id. simpl. rewrite lookup_empty. set_solver. Qed.

Lemma with_guests_created ids g s : created_ok ids s → created_ok ids (with_guests g s).
Proof. intros [?????]. by split. Qed.

Lemma init_guest_vm_created ids raw s r s' :
  created_ok ids s → init_guest_vm raw s = (Ok r, s') →
  ∃ cc, from_toml raw = Some cc ∧ created_ok ({[cc_base_id cc]} ∪ ids) s'.
Proof.
  intros Hok Hi. apply init_guest_vm_ok in Hi as (cc & l & v & Hcc & Hnew & _ & Hst & Hid & Hm & Hc).
  exists cc. split; [done|]. rewrite <- Hid. unfold created in Hc. destruct Hok as [Hids Hvm Ht Hq Hw Hn].
  destruct (vms s !! vm_id v) as [l0|] eqn:E; destruct Hc as [g ->].
  - apply with_guests_created. split; try done. intros id. rewrite Hids.
    assert (vm_id v ∈ ids) by (apply Hids; eauto). set_solver.
  - apply with_guests_created. split; try done; simpl.
    + intros id. destruct (decide (id = vm_id v)) as [->|Hne].
      * rewrite lookup_insert_eq. split; [set_solver|by eexists].
      * rewrite lookup_insert_ne by done. rewrite Hids. set_solver.
    + intros id l'. destruct (decide (id = vm_id v)) as [->|Hne].
      * rewrite lookup_insert_eq. intros [= <-]. exists v. by rewrite lookup_insert_eq.
      * rewrite lookup_insert_ne by done. intros Hl. destruct (Hvm id l' Hl) as (w & Hw' & ?).
        exists w. rewrite lookup_insert_ne; [done|]. intros <-. destruct Hnew as (Hnone & _). congruence.
Qed.

(** The identifiers that a list of configurations describes. *)
Definition config_ids (raws : list string) : gset Z := list_to_set (cc_base_id <$> omap from_toml raws).

Lemma init_each_created ids raws s s' :
  created_ok ids s → init_each raws s = (Ok (), s') →
  Forall (λ raw, is_Some (from_toml raw)) raws ∧ created_ok (config_ids raws ∪ ids) s'.
Proof.
  revert ids s. induction raws as [|raw raws IH]; intros ids s Hok Hi.
  { injection Hi as <-. split; [done|]. change (config_ids []) with (∅ : gset Z). by rewrite union_empty_l_L. }
  apply st_bind_ok in Hi as (r & s1 & Hr & Hi).
  destruct (init_guest_vm_created _ _ _ _ _ Hok Hr) as (cc & Hcc & Hok1).
  destruct (IH _ _ Hok1 Hi) as [Hall Hok2]. split; [by constructor; [eexists|]|].
  unfold config_ids in *. simpl. rewrite Hcc. simpl.
  set (X := list_to_set _) in *. by replace ({[cc_base_id cc]} ∪ X ∪ ids) with (X ∪ ({[cc_base_id cc]} ∪ ids)) by set_solver.
Qed.

(** ** The tasks of the primary virtual CPUs *)

(** The VM at [l] has a queue with one task, which runs its first virtual CPU and has not
    started. *)
Definition has_primary s (l : Z) : Prop := ∃ v q tid t,
  heap s !! l = Some v ∧ queue s !! vm_id v = Some q ∧ vcpu_task_list q = [tid] ∧
  is_Some (wqs s !! wait_queue q) ∧ tasks s !! tid = Some t ∧
  t_vm t = l ∧ t_vcpu t = O ∧ t_pc t = PStart ∧ t_blocked t = false.

(** Setting up one VM, when its identifier has no queue yet. *)
Lemma setup_primary_ok l v s s' :
  heap s !! l = Some v → queue s !! vm_id v = None → setup_vm_primary_vcpu l s = (Ok (), s') →
  ∃ tid t, tasks s !! tid = None ∧ t_vm t = l ∧ t_vcpu t = O ∧ t_pc t = PStart ∧ t_blocked t = false ∧
    s' = upd_queue <[vm_id v := mkVMVCpus (vm_id v) (next_wq s) [tid] 0]>
          (upd_tasks <[tid := t]> (upd_wqs <[next_wq s := []]> (upd_next_wq Z.succ s))).
Proof.
  intros Hv Hq Hs. unfold setup_vm_primary_vcpu in Hs.
  apply st_bind_ok in Hs as (v0 & s1 & [Hv0 ->]%deref_inv & Hs). rewrite Hv in Hv0. injection Hv0 as <-.
  apply st_bind_ok in Hs as (q & s2 & Hn & Hs). unfold new_vmvcpus in Hn.
  apply st_bind_ok in Hn as (v1 & s3 & [Hv1 ->]%deref_inv & Hn). rewrite Hv in Hv1. injection Hv1 as <-.
  injection Hn as <- <-.
  apply st_bind_ok in Hs as (c & s4 & Hc & Hs). unfold vcpu_at in Hc.
  apply st_bind_ok in Hc as (v2 & s5 & [Hv2 ->]%deref_inv & [Hc ->]%lift_inv).
  apply st_bind_ok in Hs as (tid & s6 & Ha & Hs). unfold alloc_vcpu_task in Ha.
  apply st_bind_ok in Ha as (v3 & s7 & [Hv3 ->]%deref_inv & Ha). injection Ha as <- <-.
  unfold queue_insert in Hs. apply st_bind_ok in Hs as (s8 & s9 & [= <- <-] & Hs).
  apply st_bind_ok in Hs as ([] & s10 & [= <-] & Hs). cbn [queue upd_tasks upd_wqs upd_next_wq] in Hs.
  rewrite Hq in Hs. injection Hs as <-. eexists _, _. split; [apply new_task_none|].
  split_and!; [| | | |reflexivity]; done.
Qed.

Lemma setup_primary_runs l v s :
  heap s !! l = Some v → vcpu_list v ≠ [] → ∃ s', setup_vm_primary_vcpu l s = (Ok (), s').
Proof.
  intros Hv Hc. destruct (vcpu_list v) as [|c cs] eqn:E; [done|].
  unfold setup_vm_primary_vcpu, new_vmvcpus, vcpu_at, alloc_vcpu_task, deref. st_run. simpl.
  repeat (rewrite Hv; simpl). rewrite E. simpl. repeat (rewrite Hv; simpl).
  unfold queue_insert, drop_vmvcpus. st_run. simpl. destruct (queue s !! vm_id v); by eexists.
Qed.

(** The invariant of the loop: the VMs that are done have their task, the others have no
    queue, and no task waits anywhere. *)
Record set_up s0 (done : list Z) s : Prop := {
  set_up_heap : heap s = heap s0;
  set_up_vms : vms s = vms s0;
  set_up_count : running_vm_count s = 0;
  set_up_wqs : map_Forall (λ wq w, w = [] ∧ wq < next_wq s) (wqs s);
  set_up_done : Forall (has_primary s) done;
  set_up_queue id : is_Some (queue s !! id) → ∃ l v, l ∈ done ∧ heap s !! l = Some v ∧ vm_id v = id;
}.

(** Identifiers tell the listed VMs apart. *)
Definition distinct_ids (h : gmap Z VM) (l : list Z) : Prop :=
  NoDup l ∧ ∀ x y v w, x ∈ l → y ∈ l → h !! x = Some v → h !! y = Some w → vm_id v = vm_id w → x = y.

Lemma set_up_step s0 l done x todo s s' :
  distinct_ids (heap s0) l → l = done ++ x :: todo → (∃ v, heap s0 !! x = Some v) →
  set_up s0 done s → setup_vm_primary_vcpu x s = (Ok (), s') → set_up s0 (done ++ [x]) s'.
Proof.
  intros [Hnd Hdist] -> [v Hv] [Hh Hvms Hcnt Hw Hdone Hq] Hs. rewrite <- Hh in Hv.
  assert (Hx : x ∉ done) by (apply NoDup_app in Hnd as (_ & Hd & _); intros Hin; apply (Hd x Hin); by left).
  assert (Hnone : queue s !! vm_id v = None).
  { apply eq_None_not_Some. intros (y & w & Hy & Hwy & Hid)%Hq. apply Hx.
    replace x with y; [done|]. rewrite Hh in *. apply (Hdist y x w v); set_solver. }
  destruct (setup_primary_ok _ _ _ _ Hv Hnone Hs) as (tid & t & Htid & Ht & Hc & Hp & Hb & ->).
  split; [done|done|done|..]; simpl.
  - apply map_Forall_insert_2; [split; [done|lia]|]. eapply map_Forall_impl; [exact Hw|]. simpl. 
    intros wq w [-> ?]. split; [done|lia].
  - apply Forall_app. split.
    + eapply Forall_impl; [exact Hdone|].
      intros y (w & q & tid' & t' & Hwy & Hqy & Hl & Hwq & Ht' & Hrest).
      exists w, q, tid', t'. simpl. rewrite lookup_insert_ne by congruence.
      split; [done|]. split; [done|]. split; [done|]. split; [|by rewrite lookup_insert_ne by congruence].
      rewrite lookup_insert_is_Some. destruct (decide (next_wq s = wait_queue q)); auto.
    + apply Forall_singleton. exists v, (mkVMVCpus (vm_id v) (next_wq s) [tid] 0), tid, t.
      simpl. rewrite !lookup_insert_eq. by split_and!.
  - intros id. destruct (decide (id = vm_id v)) as [->|Hne].
    + intros _. exists x, v. split_and!; [set_solver|done|done].
    + rewrite lookup_insert_ne by done. intros (y & w & Hy & ?)%Hq. exists y, w. split; [set_solver|done].
Qed.

(** ** Booting *)

Definition is_running s (l : Z) : Prop := vm_status <$> heap s !! l = Some Running.
#[global] Instance is_running_dec s l : Decision (is_running s l).
Proof. unfold is_running. apply _. Defined.

Definition succeeds {E A} (r : outcome E A) : bool := match r with Ok _ => true | _ => false end.

Definition boots s (l : Z) : bool :=
  match heap s !! l with Some v => succeeds (boot v).1 | None => false end.

(** The invariant of the second loop. *)
Record started s0 (done : list Z) s : Prop := {
  started_vms : vms s = vms s0;
  started_tasks : tasks s = tasks s0;
  started_queue : queue s = queue s0;
  started_wqs : wqs s = wqs s0;
  started_others l : l ∉ done → heap s !! l = heap s0 !! l;
  started_done : Forall (λ l, ∃ v, heap s0 !! l = Some v ∧
    heap s !! l = Some (set_vm_status (if succeeds (boot v).1 then Running else vm_status v) v)) done;
  started_count : running_vm_count s =
    wrap64 (Z.of_nat (length (filter (λ l, boots s0 l = true) done)));
}.

Lemma start_one_runs l v q s :
  heap s !! l = Some v → queue s !! vm_id v = Some q → ∃ s', start_one l s = (Ok (), s').
Proof.
  intros Hv Hq. unfold start_one, vm_boot, deref, store. st_run. rewrite Hv. simpl.
  destruct (boot v) as [[[]|e|] st] eqn:Eb; simpl; [|by eexists|by destruct (boot_total v st)].
  rewrite lookup_insert_eq. simpl. unfold notify_primary_vcpu, queue_get, notify_one. st_run. simpl. rewrite Hq. simpl.
  destruct (wqs s !! wait_queue q) as [[|]|]; simpl; by eexists.
Qed.

Lemma started_step s0 l done x todo s s' :
  NoDup l → l = done ++ x :: todo → map_Forall (λ _ w, w = []) (wqs s0) → has_primary s0 x →
  started s0 done s → start_one x s = (Ok (), s') → started s0 (done ++ [x]) s'.
Proof.
  intros Hnd -> Hw (v & q & tid & t & Hv & Hq & _ & [w Hwq] & _) [Hvms Htasks Hqueue Hwqs Hoth Hdone Hcnt] Hs.
  assert (Hx : x ∉ done) by (apply NoDup_app in Hnd as (_ & Hd & _); intros Hin; apply (Hd x Hin); by left).
  apply st_bind_ok in Hs as (r & s1 & Hb & Hs). unfold vm_boot in Hb.
  apply st_bind_ok in Hb as (v0 & s2 & [Hv0 ->]%deref_inv & Hb).
  rewrite Hoth, Hv in Hv0 by done. injection Hv0 as <-. destruct (boot v) as [r0 st] eqn:Eb.
  apply st_bind_ok in Hb as ([] & s3 & [= <-] & Hb).
  assert (r0 = r ∧ s1 = upd_heap <[x := set_vm_status st v]> s ∧ r0 ≠ Panic) as (-> & -> & Hnp)
    by (destruct r0; [by injection Hb as <- <-|by injection Hb as <- <-|done]).
  assert (Hs' : s' = upd_count (λ c, if succeeds r then wrap64 (c + 1) else c)
                      (upd_heap <[x := set_vm_status st v]> s)).
  { destruct r as [[]|e|]; [|injection Hs as <-; by destruct s|done].
    apply st_bind_ok in Hs as (v1 & s4 & [Hv1 ->]%deref_inv & Hs). simpl in Hv1.
    rewrite lookup_insert_eq in Hv1. injection Hv1 as <-.
    apply st_bind_ok in Hs as ([] & s5 & Hn & [= <-]). unfold notify_primary_vcpu in Hn.
    apply st_bind_ok in Hn as (q0 & s6 & [= <- <-] & Hn). simpl in Hn. rewrite Hqueue, Hq in Hn.
    apply st_bind_ok in Hn as (q1 & s7 & [[= <-] ->]%lift_inv & Hn). unfold notify_one in Hn.
    apply st_bind_ok in Hn as (s8 & s9 & [= <- <-] & Hn). simpl in Hn. rewrite Hwqs, Hwq in Hn.
    rewrite (Hw _ _ Hwq) in Hn. by injection Hn as <-. }
  assert (Est : st = if succeeds r then Running else vm_status v).
  { destruct r as [[]|e|]; [by apply (boot_ok v)|by apply (boot_err v e)|done]. }
  subst s'. split; simpl; [done..| | |].
  - intros y Hy. rewrite lookup_insert_ne by set_solver. apply Hoth. set_solver.
  - apply Forall_app. split.
    + rewrite Forall_forall in *. intros y Hy. rewrite lookup_insert_ne by congruence. by apply Hdone.
    + apply Forall_singleton. exists v. rewrite lookup_insert_eq, Eb. simpl. by rewrite <- Est.
  - rewrite filter_app, length_app, Hcnt. assert (boots s0 x = succeeds r) as Ex by (unfold boots; by rewrite Hv, Eb).
    destruct (succeeds r); [rewrite filter_cons_True by done|rewrite filter_cons_False by congruence]; simpl.
    + rewrite Nat2Z.inj_add. unfold wrap64. by rewrite Zplus_mod_idemp_l.
    + by rewrite Nat.add_0_r.
Qed.

(** ** Everything together *)

Lemma listed_places s ids :
  created_ok ids s → distinct_ids (heap s) (btree_iter (vms s)).*2 ∧
    ∀ l, l ∈ (btree_iter (vms s)).*2 ↔ ∃ id, vms s !! id = Some l.
Proof.
  intros Hok.
  assert (Hin : ∀ l, l ∈ (btree_iter (vms s)).*2 ↔ ∃ id, vms s !! id = Some l).
  { intros l. rewrite list_elem_of_fmap. split.
    - intros ([id l'] & -> & Hl%elem_of_btree_iter). by exists id.
    - intros [id Hl%elem_of_btree_iter]. by exists (id, l). }
  split; [|done]. split.
  - assert (Hinj : ∀ p q, p ∈ btree_iter (vms s) → q ∈ btree_iter (vms s) → p.2 = q.2 → p = q).
    { intros [i l] [j k] Hi%elem_of_btree_iter Hj%elem_of_btree_iter. simpl. intros <-.
      destruct (created_vm _ _ Hok i l Hi) as (v & Hv & <- & _).
      destruct (created_vm _ _ Hok j l Hj) as (w & Hw & <- & _). congruence. }
    pose proof (NoDup_fmap_1 _ _ (btree_iter_nodup (vms s))) as Hnd. revert Hinj Hnd.
    generalize (btree_iter (vms s)) as ps. induction ps as [|p ps IH]; intros Hinj Hnd; [apply NoDup_nil_2|].
    apply NoDup_cons in Hnd as [Hp Hnd]. apply NoDup_cons. split.
    + intros (q & Hq & Hq')%list_elem_of_fmap. rewrite (Hinj p q) in Hp; [done|by left|by right|done].
    + apply IH; [|done]. intros x y Hx Hy. apply Hinj; by right.
  - intros x y v w [i Hi]%Hin [j Hj]%Hin Hv Hw Hid.
    destruct (created_vm _ _ Hok i x Hi) as (v' & Hv' & <- & _).
    destruct (created_vm _ _ Hok j y Hj) as (w' & Hw' & <- & _). congruence.
Qed.

(** Every listed VM has a virtual CPU. *)
Definition have_vcpus s : Prop := ∀ id l v, vms s !! id = Some l → heap s !! l = Some v → vcpu_list v ≠ [].

Lemma set_up_all ids s :
  have_vcpus s → created_ok ids s →
  ∃ s', for_each (btree_iter (vms s)).*2 setup_vm_primary_vcpu s = (Ok (), s') ∧
    set_up s (btree_iter (vms s)).*2 s'.
Proof.
  intros Hw Hok. destruct (listed_places s ids Hok) as [Hd Hin]. pose proof Hok as [_ Hvm Ht Hq Hwq Hn].
  apply for_each_ok.
  - intros done x todo s1 Hl Hs1. destruct (proj1 (Hin x)) as [id Hx]; [rewrite Hl; set_solver|].
    destruct (Hvm id x Hx) as (v & Hv & _).
    destruct (setup_primary_runs x v s1) as [s2 Hs2].
    { by rewrite (set_up_heap _ _ _ Hs1). }
    { by eapply Hw. }
    exists s2. split; [done|]. eapply set_up_step; [exact Hd|exact Hl|by exists v|done|done].
  - split; try done; [by rewrite Hwq|]. intros id. rewrite Hq, lookup_empty. by intros [].
Qed.

Lemma start_all_ok s0 l s :
  NoDup l → running_vm_count s = 0 → map_Forall (λ _ w, w = []) (wqs s) → Forall (has_primary s) l → s0 = s →
  ∃ s', for_each l start_one s = (Ok (), s') ∧ started s0 l s'.
Proof.
  intros Hnd Hn Hw Hl ->. apply for_each_ok; [|by split].
  intros done x todo s1 El Hs1. assert (Hx : has_primary s x) by (rewrite Forall_forall in Hl; apply Hl; set_solver).
  pose proof Hx as (v & q & tid & t & Hv & Hq & _).
  assert (x ∉ done) by (rewrite El in Hnd; apply NoDup_app in Hnd as (_ & Hd & _); intros Hi; apply (Hd x Hi); by left).
  destruct (start_one_runs x v q s1) as [s2 Hs2].
  { by rewrite (started_others _ _ _ Hs1). }
  { by rewrite (started_queue _ _ _ Hs1). }
  exists s2. split; [done|]. by eapply started_step.
Qed.

Lemma filter_ext_in {A} (P Q : A → Prop) `{∀ x, Decision (P x)} `{∀ x, Decision (Q x)} (l : list A) :
  (∀ x, x ∈ l → P x ↔ Q x) → filter P l = filter Q l.
Proof.
  induction l as [|x l IH]; intros Hl; [done|]. rewrite !filter_cons.
  assert (P x ↔ Q x) by (apply Hl; by left). rewrite IH by (intros y Hy; apply Hl; by right).
  destruct (decide (P x)), (decide (Q x)); tauto || done.
Qed.

Lemma created_all static raws h s :
  raw_configs static = Ok raws → init_guest_vms static (fresh_state h) = (Ok (), s) →
  created_ok (config_ids raws) s.
Proof.
  intros Hraws Hi. unfold init_guest_vms in Hi. apply st_bind_ok in Hi as ([] & s1 & Hc & Hi).
  apply st_bind_ok in Hi as (configs & s2 & [Hconf ->]%lift_inv & Hi). rewrite Hraws in Hconf. injection Hconf as ->.
  assert (Hok : created_ok ∅ s1).
  { case_bool_decide; [|injection Hc as <-; apply fresh_created].
    apply guest_do_ok in Hc as (g & _ & ->). apply with_guests_created, fresh_created. }
  rewrite <- (union_empty_r_L (config_ids configs)). by apply (init_each_created _ _ _ _ Hok Hi).
Qed.

(** What has become of the VM of identifier [id] at [l]. *)
Definition guest_up s (id l : Z) : Prop :=
  has_primary s l ∧ ∃ v, heap s !! l = Some v ∧ vm_id v = id ∧
    vm_status v = if succeeds (boot (set_vm_status Loaded v)).1 then Running else Loaded.

Lemma guest_up_ok s0 s1 l0 s ids id l :
  created_ok ids s0 → set_up s0 l0 s1 → started s1 l0 s → l ∈ l0 → vms s0 !! id = Some l → guest_up s id l.
Proof.
  intros Hok Hset Hst Hl Hid. destruct (created_vm _ _ Hok id l Hid) as (v & Hv & <- & Hload & _).
  pose proof (set_up_done _ _ _ Hset) as Hp. pose proof (started_done _ _ _ Hst) as Hd.
  rewrite Forall_forall in Hp, Hd. destruct (Hp l Hl) as (v1 & q & tid & t & Hv1 & Hrest).
  destruct (Hd l Hl) as (v2 & Hv2 & Hv'). rewrite (set_up_heap _ _ _ Hset) in Hv1, Hv2.
  assert (v1 = v) as -> by congruence. assert (v2 = v) as -> by congruence. split.
  - eexists _, q, tid, t. split; [exact Hv'|]. cbn [vm_id set_vm_status].
    by rewrite (started_queue _ _ _ Hst), (started_wqs _ _ _ Hst), (started_tasks _ _ _ Hst).
  - eexists. split; [exact Hv'|]. split; [done|]. cbn [vm_status set_vm_status].
    assert (set_vm_status Loaded v = v) as Ev by (destruct v; simpl in *; by subst).
    set (x := if succeeds (boot v).1 then Running else vm_status v).
    change (set_vm_status Loaded (set_vm_status x v)) with (set_vm_status Loaded v).
    subst x. by rewrite Ev, Hload.
Qed.

(** C16: Starting the hypervisor starts every guest that was created.  When creating the
    guests of the configurations has ended in the state [s0] (a bad configuration or a
    failing [axvm] is a panic there, see [VmCreate]) and each of them has a virtual CPU,
    [vmm::init] and the loop of [vmm::start] run through: no panic and no wait is left.
    Then the VMs that are listed are those of the configurations, one for each
    identifier; each has a task for its first virtual CPU, ready to run; it is Running if
    [axvm] could boot it and Loaded if not; and [RUNNING_VM_COUNT], which [start] waits
    for, is the number of those that run. *)
Theorem guests_started static raws h s0 :
  raw_configs static = Ok raws → init_guest_vms static (fresh_state h) = (Ok (), s0) → have_vcpus s0 →
  ∃ s, boot_guests static (fresh_state h) = (Ok (), s) ∧
    (∀ id, is_Some (vms s !! id) ↔ id ∈ config_ids raws) ∧
    (∀ id l, vms s !! id = Some l → guest_up s id l) ∧
    running_vm_count s = wrap64 (Z.of_nat (length (filter (is_running s) (btree_iter (vms s)).*2))).
Proof.
  intros Hraws Hs0 Hw. pose proof (created_all static raws h s0 Hraws Hs0) as Hok.
  destruct (listed_places _ _ Hok) as [[Hnd _] Hin]. destruct (set_up_all _ _ Hw Hok) as (s1 & Hs1 & Hset).
  pose proof Hset as [Hheap Hvms Hcnt Hwqs Hdone _].
  destruct (start_all_ok s1 (btree_iter (vms s0)).*2 s1) as (s & Hs & Hst); [done|done| |done|done|].
  { eapply map_Forall_impl; [exact Hwqs|]. by intros wq w []. }
  pose proof (started_vms _ _ _ Hst) as Ev. rewrite Hvms in Ev.
  assert (Hup : ∀ id l, vms s0 !! id = Some l → guest_up s id l).
  { intros id l Hl. eapply guest_up_ok; [exact Hok|exact Hset|exact Hst| |exact Hl]. apply Hin. by exists id. }
  exists s. split.
  { unfold boot_guests, init, start_boot, get_vm_list, gets. erewrite bind_run.
    2: { erewrite bind_run by exact Hs0. by erewrite bind_run by done. }
    erewrite bind_run by done. by rewrite Hvms. }
  rewrite Ev. split; [apply Hok|]. split; [exact Hup|].
  rewrite (started_count _ _ _ Hst). do 3 f_equal. apply filter_ext_in. intros l [id Hl]%Hin.
  destruct (created_vm _ _ Hok id l Hl) as (v & Hv & _ & Hload & _).
  pose proof (started_done _ _ _ Hst) as Hd. rewrite Forall_forall in Hd.
  destruct (Hd l) as (v2 & Hv2 & Hv'); [apply Hin; by exists id|].
  unfold boots, is_running. rewrite Hv', Hv2. rewrite Hheap, Hv in Hv2. injection Hv2 as <-. simpl. rewrite Hload.
  destruct (succeeds (boot v).1); naive_solver.
Qed.
End startup.

(** The shell comes last: when [main] calls [console_init], virtualization is enabled on
    every core and no VM that was counted as running is left. *)
Lemma shell_comes_last {F G : Type} `{!PagingHandler F} `{!GuestVM G} `{!HyperCallCodes} `{!AxVm}
    `{!OverflowChecks} `{!TargetArch} `{!VmFactory G} `{!GuestSetup G} `{!ConfigFiles}
    enable_core cpu_count static (s s' : vmm_state (hvc_state F G)) :
  main_to_shell enable_core cpu_count static s s' →
  (∀ k, (k < cpu_count)%nat → enable_core k = true) ∧ running_vm_count s' = 0.
Proof.
  intros [(w & Hw & Hr) (s1 & _ & _ & Hc)]. split; [|by apply bool_decide_eq_true in Hc].
  intros k Hk. by apply (virtualization_on_all_cores enable_core cpu_count w).
Qed.

(** ** Examples *)
Module StartupExamples.
Import ToyFdt BootGuestExamples.

#[local] Existing Instances VmExamples.demo_vm VmExamples.demo_vm_ok VmExamples.demo_codes.
#[local] Existing Instances checks on_aarch64 be_u32 logs_info cpu_nodes one_slice simple_align_down linked
  no_image_files BootGuestExamples.no_files c_layout factory views views_ok axvm axvm_ok apart.

(** The device trees, load addresses and images are those of [GuestBoot]. *)
#[local] Instance setup : GuestSetup world := guest_boot (W:=list wcall) (T:=()) FdtWitnesses.host_bytes.

#[local] Instance no_configs : ConfigFiles := {|
  read_dir _ := None;
  open_toml _ := None;
  read_exact _ _ := None;
  read_to_string _ := Panic;
|}.

#[local] Instance factory_ok : VmFactoryOk world.
Proof. split; [by intros cc|by intros cfg v g g' [= <- _]]. Qed.

Definition start : hvc_state () world := (mkIvc ∅ () ∅, (None, mkGuest [] 0 None None None 0 0 (λ _, x00))).
Definition after : vmm_state (hvc_state () world) := (init_guest_vms ["vm1"; "vm1"] (fresh_state start)).2.

Lemma vcpus_there (s : vmm_state (hvc_state () world)) :
  forallb (λ p : Z * VM, negb (is_empty (vcpu_list p.2))) (map_to_list (heap s)) = true → have_vcpus s.
Proof.
  rewrite forallb_forall. intros Hall id l v _ Hv E.
  apply elem_of_map_to_list, list_elem_of_In, Hall in Hv. simpl in Hv. by rewrite E in Hv.
Qed.

Lemma guests_started_witness :
  ∃ s, boot_guests ["vm1"; "vm1"] (fresh_state start) = (Ok (), s) ∧
    (∀ id, is_Some (vms s !! id) ↔ id ∈ config_ids ["vm1"; "vm1"]) ∧
    (∀ id l, vms s !! id = Some l → guest_up s id l).
Proof.
  destruct (guests_started ["vm1"; "vm1"] ["vm1"; "vm1"] start after) as (s & Hs & Hids & Hup & _).
  - reflexivity.
  - unfold after. apply run_pair. vm_refl.
  - apply vcpus_there. vm_refl.
  - exists s. split; [exact Hs|]. split; [exact Hids|exact Hup].
Defined.
End StartupExamples.
