(* ===== verification/DriverProbe.v ===== *)
(** * Probing devices ([modules/driver/src])

    How the drivers are attached to the nodes of the host's device tree: the probe
    functions of [blk/phytium.rs], [blk/rockchip.rs] and [soc/rockchip/clk/*.rs], [iomap] of
    [lib.rs], the one clock that all eMMC controllers share, and the interfaces that the
    block devices and the RK3588 clock offer.  [rdrive], the mapping of
    registers and the host controllers belong to other crates ([ProbeEnv]).  Messages of
    errors are constructors with the values that are printed; [serial/mod.rs] and
    [soc/rockchip/pm.rs] are not part of the build. *)

From Stdlib Require Import Strings.Byte.
From S2P Require Import Prelude Disk Gpt BlockDrivers.

(** ** Nodes and devices *)

Record reg : Type := mkReg {
  address : Z;
  size : option Z;
}.

(** A clock of a node, with the node of the clock unit that it refers to. *)
Record clock_ref : Type := mkClock {
  clk_phandle : option Z;
  clk_select : Z;
  clk_name : option string;
}.

Record fdt_node : Type := mkNode {
  node_name : string;
  node_reg : option (list reg);
  node_clocks : list clock_ref;
}.

Inductive OnProbeError : Type :=
  | HasNoReg (name : string)
  | IomapFailed (text : string)
  | EmmcInitFailed (addr size : Z) (e : SdError)
  | EmmcInfoFailed (addr size : Z) (e : SdError).

(** [ClkDev]: the clock unit, by its device, and the number of the clock. *)
Record ClkDev : Type := mkClkDev {
  inner : Z;
  clk_id : Z;
}.

(** The devices that are registered, with the address of their registers; [D] is an eMMC
    host. *)
Inductive device (D : Type) : Type :=
  | SdCardDriver (sd_addr iopad : Z)
  | BlockDivce (base : Z) (dev : option D)
  | ClkDriver (cru_address : Z)
  | ClkDrv (base : Z).
Arguments SdCardDriver {D}.
Arguments BlockDivce {D}.
Arguments ClkDriver {D}.
Arguments ClkDrv {D}.

Definition is_clock {D} (d : device D) : bool :=
  match d with ClkDriver _ | ClkDrv _ => true | _ => false end.

Definition device_base {D} (d : device D) : Z :=
  match d with SdCardDriver b _ | BlockDivce b _ | ClkDriver b | ClkDrv b => b end.

(** What the drivers call: [axklib::mem::iomap], the identifiers of devices by phandle, the
    lookup of a registered clock, and the eMMC host, whose set-up may depend on the clocks
    it was given. *)
Class ProbeEnv (W D : Type) : Type := {
  axklib_iomap : Z → Z → W → outcome string Z * W;
  PAD_ADDRESS : Z;
  phandle_to_device_id : Z → option Z;
  rdrive_get_clk : Z → list (Z * device D) → bool;
  emmc_new : Z → D;
  emmc_init : list ClkDev → D → W → outcome SdError D * W;
  get_card_info : D → W → outcome SdError () * W;
}.

(** [rdrive::get::<Clk>] finds the clocks that are registered. *)
Class ProbeEnvOk (W D : Type) `{!ProbeEnv W D} : Prop := {
  get_clk_spec id r : rdrive_get_clk id r = true ↔ ∃ d, (id, d) ∈ r ∧ is_clock d = true;
}.

(** The devices in the order of their registration, [CLK_DEV], the clocks that were handed
    to [emmc::clock::init_global_clk], and the rest of the machine. *)
Record probe_state (W D : Type) : Type := mkProbe {
  registry : list (Z * device D);
  CLK_DEV : option ClkDev;
  clk_calls : list ClkDev;
  world : W;
}.
Arguments mkProbe {W D}.
Arguments registry {W D}.
Arguments CLK_DEV {W D}.
Arguments clk_calls {W D}.
Arguments world {W D}.

Section probe.
Context {W D : Type} `{!ProbeEnv W D}.
Abbreviation state := (probe_state W D).
Abbreviation M := (st state OnProbeError).

(** An operation on the machine, with its errors translated. *)
Definition on_world {E A} (f : E → OnProbeError) (m : W → outcome E A * W) : M A := λ s,
  let '(r, w) := m (world s) in
  (match r with Ok a => Ok a | Err e => Err (f e) | Panic => Panic end,
   mkProbe (registry s) (CLK_DEV s) (clk_calls s) w).

(** [iomap] of [lib.rs]; the text of its error is that of [axklib] followed by [:?]. *)
Definition iomap (base sz : Z) : M Z :=
  on_world (λ e, IomapFailed (e +:+ ":?")) (axklib_iomap base sz).

(** [axklib::mem::iomap(..).expect(..)] *)
Definition iomap_expect (base sz : Z) : M Z :=
  expecting (on_world IomapFailed (axklib_iomap base sz)).

(** [plat_dev.register]; the platform device has the identifier [id]. *)
Definition register (id : Z) (d : device D) : M () :=
  modify (λ s, mkProbe (registry s ++ [(id, d)]) (CLK_DEV s) (clk_calls s) (world s)).

Definition first_reg (node : fdt_node) : outcome OnProbeError reg :=
  ok_or (regs ← node_reg node; head regs) (HasNoReg (node_name node)).

(** [NonNull::new(..).expect(..)] *)
Definition non_null (p : Z) : M Z := if bool_decide (p = 0) then panic else mret p.

(** ** The probe functions *)

Definition probe_sdcard (id : Z) (node : fdt_node) : M () :=
  mci_reg ← lift (first_reg node);
  mci_reg_base ← iomap_expect (address mci_reg) (default 0x10000 (size mci_reg));
  iopad_reg_base ← iomap_expect PAD_ADDRESS 0x2000;
  mci ← non_null mci_reg_base;
  iopad ← non_null iopad_reg_base;
  register id (SdCardDriver mci iopad).

(** [CLK_DEV.call_once(|| clk_dev); init_global_clk(CLK_DEV.wait())] *)
Definition use_clock (clk_dev : ClkDev) : M () :=
  modify (λ s, let c := default clk_dev (CLK_DEV s) in
    mkProbe (registry s) (Some c) (clk_calls s ++ [c]) (world s)).

Definition core_clock (clk : clock_ref) : M () :=
  phandle ← lift (unwrap (clk_phandle clk));
  dev_id ← lift (unwrap (phandle_to_device_id phandle));
  s ← get;
  if rdrive_get_clk dev_id (registry s) then use_clock (mkClkDev dev_id (clk_select clk)) else panic.

Fixpoint clock_loop (clks : list clock_ref) : M () :=
  match clks with
  | [] => mret ()
  | clk :: clks =>
      (if bool_decide (clk_name clk = Some "core") then core_clock clk else mret ());;
      clock_loop clks
  end.

Definition probe_emmc (id : Z) (node : fdt_node) : M () :=
  base_reg ← lift (first_reg node);
  let mmio_size := default 0x1000 (size base_reg) in
  mmio_base ← iomap (address base_reg) mmio_size;
  clock_loop (node_clocks node);;
  s ← get;
  emmc ← on_world (EmmcInitFailed (address base_reg) mmio_size) (emmc_init (clk_calls s) (emmc_new mmio_base));
  on_world (EmmcInfoFailed (address base_reg) mmio_size) (get_card_info emmc);;
  register id (BlockDivce mmio_base (Some emmc)).

Definition probe_rk3568_clk (id : Z) (node : fdt_node) : M () :=
  cru_reg ← lift (first_reg node);
  cru_address ← iomap_expect (address cru_reg) (default 0x1000 (size cru_reg));
  register id (ClkDriver cru_address).

Definition probe_rk3588_clk (id : Z) (node : fdt_node) : M () :=
  base_reg ← lift (first_reg node);
  mmio_base ← iomap (address base_reg) (default 0x1000 (size base_reg));
  register id (ClkDrv mmio_base).
End probe.

(** ** The drivers of the build *)

Inductive driver : Type := PhytiumSdCard | RockchipSdhci | Rk3568Cru | Rk3588Cru.

Definition compatibles (d : driver) : list string :=
  match d with
  | PhytiumSdCard => ["phytium,mci"]
  | RockchipSdhci => ["rockchip,dwcmshc-sdhci"]
  | Rk3568Cru => ["rockchip,rk3568-cru"]
  | Rk3588Cru => ["rockchip,rk3588-cru"]
  end.

Definition on_probe {W D} `{!ProbeEnv W D} (d : driver) : Z → fdt_node → st (probe_state W D) OnProbeError () :=
  match d with
  | PhytiumSdCard => probe_sdcard
  | RockchipSdhci => probe_emmc
  | Rk3568Cru => probe_rk3568_clk
  | Rk3588Cru => probe_rk3588_clk
  end.

(** One probe that does not panic; an error leaves the other devices to be probed. *)
Inductive probed {W D} `{!ProbeEnv W D} : relation (probe_state W D) :=
  | probed_one d id node s r s' : on_probe d id node s = (r, s') → r ≠ Panic → probed s s'.

(** ** Interfaces *)

(** [rdif_block::Interface] and [DriverGeneric]: a device of type [S] whose queues are of
    type [Q]; [todo!()] is a panic, and [Event::none()] is [None]. *)
Record Interface (S Q : Type) : Type := mkInterface {
  open : st S KError ();
  close : st S KError ();
  create_queue_of : st S KError (option Q);
  enable_irq : st S KError ();
  disable_irq : st S KError ();
  is_irq_enabled : S → bool;
  handle_irq : st S KError (option Z);
}.
Arguments mkInterface {S Q}.
Arguments create_queue_of {S Q}.

(** The SD card is behind a reference, [sd_card], that every queue shares. *)
Definition sdcard_interface : Interface Z Z :=
  mkInterface (mret ()) (mret ()) (sd_card ← get; mret (Some sd_card)) panic panic (λ _, false) (mret None).

(** The eMMC host moves into its first queue. *)
Definition emmc_interface {D} : Interface (option D) D :=
  mkInterface (mret ()) (mret ()) (dev ← get; let '(q, dev') := create_queue dev in put dev';; mret q)
    panic panic (λ _, false) (mret None).

Record BuffConfig : Type := mkBuffConfig {
  dma_mask : Z;
  align : Z;
  buff_size : Z;
}.

Definition buff_config (block_size : Z) : BuffConfig := mkBuffConfig (2 ^ 64 - 1) 0x1000 block_size.

(** The RK3588 clock unit: [mmc_get_clk] and [mmc_set_clk], with the conversions to the
    types of their arguments. *)
Class Rk3588Unit (U : Type) : Type := {
  unit_id : Z → Z;
  unit_rate : Z → Z;
  mmc_get_clk : Z → U → option Z;
  mmc_set_clk : Z → Z → U → option () * U;
  unit_init : U → U;
}.

Section rk3588.
Context {U : Type} `{!Rk3588Unit U}.

Definition clkdrv_open : st U KError () := modify unit_init.

Definition clkdrv_get_rate (id : Z) : st U KError Z :=
  u ← get;
  rate ← lift (ok_or (mmc_get_clk (unit_id id) u) (InvalidArg "id"));
  mret (wrap64 rate).

Definition clkdrv_set_rate (id rate : Z) : st U KError () := λ u,
  let '(r, u') := mmc_set_clk (unit_id id) (unit_rate rate) u in (ok_or r (InvalidArg "id"), u').
End rk3588.

(** * Theorems *)

Section theorems.
Context {W D : Type} `{!ProbeEnv W D}.
Abbreviation state := (probe_state W D).
Implicit Types (s : state).

(** ** Registration *)

Lemma keeps_on_world {E A} (f : E → OnProbeError) (m : W → outcome E A * W) r0 :
  pres (λ s, registry s = r0) (on_world f m).
Proof. intros s Hs. unfold on_world. by destruct (m (world s)). Qed.

Lemma keeps_iomap base sz r0 : pres (λ s, registry s = r0) (iomap base sz).
Proof. apply keeps_on_world. Qed.

Lemma keeps_expecting {A} (m : st state OnProbeError A) (I : state → Prop) :
  pres I m → pres I (expecting (E':=OnProbeError) m).
Proof. intros Hm s Hs. specialize (Hm s Hs). unfold expecting. by destruct (m s) as [[] ?]. Qed.

Lemma keeps_iomap_expect base sz r0 : pres (λ s, registry s = r0) (iomap_expect base sz).
Proof. apply keeps_expecting, keeps_on_world. Qed.

Lemma keeps_non_null p r0 : pres (λ s, registry s = r0) (non_null p).
Proof. unfold non_null. case_bool_decide; auto with pres. Qed.

Lemma keeps_clock_loop clks r0 : pres (λ s, registry s = r0) (clock_loop clks).
Proof.
  induction clks as [|clk clks IH]; simpl; [auto with pres|]. apply pres_bind; [|done].
  case_bool_decide; [|auto with pres]. unfold core_clock. pres_tac. by intros s' Hs'.
Qed.

(** [m] adds one device, with the identifier [id], when it returns, and none otherwise. *)
Definition registers (id : Z) (m : st state OnProbeError ()) : Prop := ∀ s,
  match m s with
  | (Ok _, s') => ∃ dev, registry s' = registry s ++ [(id, dev)]
  | (_, s') => registry s' = registry s
  end.

Lemma registers_bind {A} id (m : st state OnProbeError A) k :
  (∀ r0, pres (λ s, registry s = r0) m) → (∀ a, registers id (k a)) → registers id (m ≫= k).
Proof.
  intros Hm Hk s. specialize (Hm _ s eq_refl). unfold mbind, st_bind.
  destruct (m s) as [[a|e|] s1]; simpl in Hm; [|done..]. rewrite <- Hm. apply Hk.
Qed.

Lemma registers_register id d : registers id (register id d).
Proof. intros s. by exists d. Qed.

Lemma on_probe_registers d id node : registers id (on_probe d id node).
Proof.
  destruct d; simpl; unfold probe_sdcard, probe_emmc, probe_rk3568_clk, probe_rk3588_clk;
    repeat (apply registers_bind; [intros r0; first
      [ apply pres_lift | apply pres_get | apply keeps_iomap | apply keeps_iomap_expect | apply keeps_non_null
      | apply keeps_clock_loop | apply keeps_on_world ]|intros ?]); apply registers_register.
Qed.

(** How much is mapped for a node that does not say the size of its registers. *)
Definition default_size (d : driver) : Z := match d with PhytiumSdCard => 0x10000 | _ => 0x1000 end.

Lemma probe_world_ok {E A} (f : E → OnProbeError) (m : W → outcome E A * W) s a s' :
  on_world f m s = (Ok a, s') → m (world s) = (Ok a, world s').
Proof. unfold on_world. destruct (m (world s)) as [[x|e|] w]; intros [= ??]; by subst. Qed.

Lemma iomap_expect_ok base sz s p s' :
  iomap_expect base sz s = (Ok p, s') → axklib_iomap base sz (world s) = (Ok p, world s').
Proof.
  unfold iomap_expect, expecting. destruct (on_world _ _ s) as [[x|e|] s1] eqn:E; intros [= ??]; subst.
  by apply probe_world_ok in E.
Qed.

(** The registers of the device that a successful probe registers are those of the node. *)
Lemma on_probe_base d id node s s' :
  on_probe d id node s = (Ok (), s') → ∃ r dev s1 l,
    first_reg node = Ok r ∧ registry s' = l ++ [(id, dev)] ∧
    axklib_iomap (address r) (default (default_size d) (size r)) (world s) = (Ok (device_base dev), world s1).
Proof.
  intros Hp. destruct d; simpl in Hp; apply st_bind_ok in Hp as (r & s0 & Hr & Hp);
    apply lift_inv in Hr as [Hr ->]; apply st_bind_ok in Hp as (b & s1 & Hb & Hp).
  - apply iomap_expect_ok in Hb. apply st_bind_ok in Hp as (b2 & s2 & _ & Hp).
    apply st_bind_ok in Hp as (p & s3 & Hn & Hp). apply st_bind_ok in Hp as (p2 & s4 & _ & [= <-]).
    assert (p = b) as -> by (unfold non_null in Hn; case_bool_decide; [done|by injection Hn]).
    by exists r, (SdCardDriver b p2), s1, (registry s4).
  - apply probe_world_ok in Hb. apply st_bind_ok in Hp as ([] & s2 & _ & Hp).
    apply st_bind_ok in Hp as (? & s3 & _ & Hp). apply st_bind_ok in Hp as (h & s4 & _ & Hp).
    apply st_bind_ok in Hp as ([] & s5 & _ & [= <-]). by exists r, (BlockDivce b (Some h)), s1, (registry s5).
  - apply iomap_expect_ok in Hb. injection Hp as <-. by exists r, (ClkDriver b), s1, (registry s1).
  - apply probe_world_ok in Hb. injection Hp as <-. by exists r, (ClkDrv b), s1, (registry s1).
Qed.

(** A probe registers a device exactly when it succeeds: then one device is added, under
    the identifier of the node and with the registers that the node names first, mapped in
    the size the node gives; a probe that fails adds none, and none is ever removed. *)
Theorem probe_registers_device d id node s r s' :
  on_probe d id node s = (r, s') →
  match r with
  | Ok _ => ∃ rg dev w, first_reg node = Ok rg ∧ registry s' = registry s ++ [(id, dev)] ∧
      axklib_iomap (address rg) (default (default_size d) (size rg)) (world s) = (Ok (device_base dev), w)
  | _ => registry s' = registry s
  end.
Proof.
  intros Hp. pose proof (on_probe_registers d id node s) as Hreg. rewrite Hp in Hreg.
  destruct r as [[]|e|]; [|done..]. destruct Hreg as [dev0 Hreg].
  destruct (on_probe_base _ _ _ _ _ Hp) as (rg & dev & s1 & l & Hr & Hl & Hm).
  rewrite Hreg in Hl. apply app_inj_tail in Hl as [_ [= ->]]. by exists rg, dev, (world s1).
Qed.

(** ** The clock of the eMMC controllers *)

(** Every controller was given the clock that is kept, and it is registered. *)
Record clocks_ok s : Prop := {
  one_clock c : c ∈ clk_calls s → CLK_DEV s = Some c;
  clock_there c : CLK_DEV s = Some c → ∃ d, (inner c, d) ∈ registry s ∧ is_clock d = true;
}.

Lemma clocks_ok_on_world {E A} (f : E → OnProbeError) (m : W → outcome E A * W) : pres clocks_ok (on_world f m).
Proof. intros s [H1 H2]. unfold on_world. destruct (m (world s)). by split. Qed.

Lemma clocks_ok_register id d : pres clocks_ok (register id d).
Proof.
  intros s [H1 H2]. split; [done|]. intros c Hc. destruct (H2 c Hc) as (d' & Hd & ?).
  exists d'. split; [|done]. simpl. apply elem_of_app. by left.
Qed.

Lemma clocks_ok_core clk `{!ProbeEnvOk W D} : pres clocks_ok (core_clock clk).
Proof.
  intros s Hs. unfold core_clock. st_run. destruct (clk_phandle clk) as [ph|]; [|done]. simpl.
  destruct (phandle_to_device_id ph) as [dev|]; [|done]. simpl.
  destruct (rdrive_get_clk dev (registry s)) eqn:Hg; [|done]. apply get_clk_spec in Hg.
  destruct Hs as [H1 H2]. destruct (CLK_DEV s) as [c0|] eqn:Ec; split; simpl; rewrite ?Ec; simpl.
  - intros c [Hc|Hc%list_elem_of_singleton]%elem_of_app; [by apply H1|by subst].
  - exact H2.
  - intros c [Hc|Hc%list_elem_of_singleton]%elem_of_app; [by apply H1 in Hc|by subst].
  - by intros c [= <-].
Qed.

Lemma clocks_ok_probe `{!ProbeEnvOk W D} d id node : pres clocks_ok (on_probe d id node).
Proof.
  assert (Hw : ∀ b sz, pres clocks_ok (iomap b sz)) by (intros; apply clocks_ok_on_world).
  assert (He : ∀ b sz, pres clocks_ok (iomap_expect b sz)) by (intros; apply keeps_expecting, clocks_ok_on_world).
  assert (Hl : ∀ clks, pres clocks_ok (clock_loop clks)).
  { induction clks as [|clk clks IH]; simpl; [auto with pres|]. apply pres_bind; [|done].
    case_bool_decide; [by apply clocks_ok_core|auto with pres]. }
  destruct d; simpl; unfold probe_sdcard, probe_emmc, probe_rk3568_clk, probe_rk3588_clk, non_null;
    repeat (apply pres_bind; [|intros ?]); first
      [ apply clocks_ok_register | apply Hl | apply clocks_ok_on_world | apply Hw | apply He
      | case_bool_decide; auto with pres | auto with pres ].
Qed.

(** All eMMC controllers run on one clock: whatever devices are probed in whatever order,
    every clock that is handed to the eMMC code is the first one, and a clock unit that is
    registered provides it. *)
Theorem controllers_share_clock `{!ProbeEnvOk W D} w s c c' :
  rtc probed (mkProbe [] None [] w) s → c ∈ clk_calls s → c' ∈ clk_calls s →
  c = c' ∧ ∃ d, (inner c, d) ∈ registry s ∧ is_clock d = true.
Proof.
  intros Hr Hc Hc'. assert (Hok : clocks_ok s).
  { assert (H0 : clocks_ok (mkProbe [] None [] w)) by (split; [by intros ? ?%elem_of_nil|done]).
    revert H0. clear Hc Hc'. revert Hr. generalize (mkProbe (D:=D) [] None [] w) as s0. intros s0 Hr.
    induction Hr as [|x y z [d id node ? r ? Hp _] _ IH]; [done|]. intros Hx. apply IH.
    apply (clocks_ok_probe d id node) in Hx. by rewrite Hp in Hx. }
  pose proof (one_clock _ Hok c Hc) as E. pose proof (one_clock _ Hok c' Hc') as E'.
  split; [congruence|by apply (clock_there _ Hok)].
Qed.

Lemma core_clock_ok clk c0 s s' :
  CLK_DEV s = Some c0 → core_clock clk s = (Ok (), s') →
  CLK_DEV s' = Some c0 ∧ clk_calls s' = clk_calls s ++ [c0].
Proof.
  intros Hc Hk. unfold core_clock in Hk. apply st_bind_ok in Hk as (ph & s1 & Hph & Hk).
  apply lift_inv in Hph as [_ ->]. apply st_bind_ok in Hk as (dev & s1 & Hd & Hk). apply lift_inv in Hd as [_ ->].
  st_run. destruct (rdrive_get_clk dev (registry s)); [|done]. injection Hk as <-. simpl. by rewrite Hc.
Qed.

Definition is_core (clk : clock_ref) : Prop := clk_name clk = Some "core".
#[export] Instance is_core_dec clk : Decision (is_core clk).
Proof. unfold is_core. apply _. Defined.

Lemma clock_loop_ok (clks : list clock_ref) c0 s s' :
  CLK_DEV s = Some c0 → clock_loop clks s = (Ok (), s') →
  CLK_DEV s' = Some c0 ∧ clk_calls s' = clk_calls s ++ replicate (length (filter is_core clks)) c0.
Proof.
  revert s. induction clks as [|clk clks IH]; intros s Hc Hk; simpl in Hk.
  { injection Hk as <-. simpl. by rewrite app_nil_r. }
  apply st_bind_ok in Hk as ([] & s1 & H1 & Hk). rewrite filter_cons. unfold is_core at 1.
  case_bool_decide as Hn.
  - apply (core_clock_ok _ c0) in H1 as [Hc1 Hl1]; [|done]. destruct (IH s1 Hc1 Hk) as [Hc' ->].
    rewrite decide_True by done. split; [done|]. rewrite Hl1, <- app_assoc. done.
  - injection H1 as <-. rewrite decide_False by done. by apply IH.
Qed.

(** A second eMMC controller is not run on its own clock: once a clock is kept, a
    successful probe hands over that clock, once for each core clock of the node, and
    whatever clock the node names. *)
Theorem later_controller_gets_first_clock id node c0 s s' :
  CLK_DEV s = Some c0 → probe_emmc id node s = (Ok (), s') →
  clk_calls s' = clk_calls s ++ replicate (length (filter is_core (node_clocks node))) c0.
Proof.
  intros Hc Hp. unfold probe_emmc in Hp. apply st_bind_ok in Hp as (r & s0 & Hr & Hp).
  apply lift_inv in Hr as [_ ->]. apply st_bind_ok in Hp as (b & s1 & Hb & Hp).
  apply st_bind_ok in Hp as ([] & s2 & Hl & Hp). apply st_bind_ok in Hp as (s3 & ? & [= <- <-] & Hp).
  apply st_bind_ok in Hp as (h & s4 & Hi & Hp). apply st_bind_ok in Hp as ([] & s5 & Hg & [= <-]).
  unfold iomap, on_world in *. destruct (axklib_iomap _ _ _) as [r1 w1]. injection Hb as _ <-.
  destruct (emmc_init _ _ _) as [r4 w4]. injection Hi as _ <-. destruct (get_card_info _ _) as [r5 w5].
  injection Hg as _ <-. simpl. apply (clock_loop_ok _ c0) in Hl as [_ Hl]; [|done]. exact Hl.
Qed.
End theorems.

(** ** Queues *)

(** The SD card can be shared by any number of queues; the eMMC host serves one, and every
    later request for a queue is refused. *)
Theorem queues_created {D} (d : D) (card : Z) n :
  Nat.iter n (λ m, m;; create_queue_of sdcard_interface) (create_queue_of sdcard_interface) card = (Ok (Some card), card) ∧
  create_queue_of emmc_interface (Some d) = (Ok (Some d), None) ∧
  Nat.iter n (λ m, m;; create_queue_of emmc_interface) (create_queue_of emmc_interface) None = (Ok (None : option D), None).
Proof.
  split; [|split; [done|]]; (induction n as [|n IH]; [done|]); simpl; by erewrite bind_run by exact IH.
Qed.

(** A buffer that is allocated as the queue asks for is accepted by the SD card. *)
Theorem configured_buffer_valid b :
  let cfg := buff_config BLOCK_SIZE in
  buf_addr b mod align cfg = 0 → len (buf_data b) = buff_size cfg → validate_buffer b = Ok ().
Proof.
  simpl. intros Ha Hl. unfold validate_buffer. rewrite Hl, bool_decide_eq_false_2 by (unfold BLOCK_SIZE; lia).
  unfold aligned. rewrite Hl, !bool_decide_eq_true_2; [done|done|].
  apply Z.mod_divide in Ha as [k ->]; [|done]. apply Z.mod_divide; [done|]. exists (k * 1024). lia.
Qed.

(** ** Examples *)
Module ProbeExamples.

(** A machine with two clock units; addresses are mapped to themselves. *)
#[local] Instance toy_env : ProbeEnv () Z := {|
  axklib_iomap b _ w := (Ok b, w);
  PAD_ADDRESS := 0x32B30000;
  phandle_to_device_id ph := Some ph;
  rdrive_get_clk id r := existsb (λ '(i, d), bool_decide (i = id) && is_clock d) r;
  emmc_new b := b;
  emmc_init _ d w := (Ok d, w);
  get_card_info _ w := (Ok (), w);
|}.

#[local] Instance toy_env_ok : ProbeEnvOk () Z.
Proof.
  split. intros id r. simpl. rewrite existsb_exists. split.
  - intros ([i d] & Hin & [Hi%bool_decide_eq_true Hd]%andb_true_iff). subst. exists d. by rewrite list_elem_of_In.
  - intros (d & Hin & Hd). exists (id, d). rewrite <- list_elem_of_In. by rewrite bool_decide_eq_true_2, Hd.
Qed.

Definition cru (b : Z) : fdt_node := mkNode "cru" (Some [mkReg b None]) [].
Definition mmc (b ph sel : Z) : fdt_node :=
  mkNode "mmc" (Some [mkReg b (Some 0x10000)]) [mkClock (Some ph) sel (Some "core"); mkClock None 0 (Some "bus")].

Definition run (l : list (driver * Z * fdt_node)) : probe_state () Z :=
  foldl (λ s '(d, id, node), (on_probe d id node s).2) (mkProbe [] None [] ()) l.

(** The states after the two clock units, the first and the second controller. *)
Definition one_unit := Eval vm_compute in run [(Rk3588Cru, 1, cru 0x1000)].
Definition two_units := Eval vm_compute in (on_probe Rk3588Cru 2 (cru 0x2000) one_unit).2.
Definition first_mmc := Eval vm_compute in (on_probe RockchipSdhci 3 (mmc 0x3000 1 300) two_units).2.
Definition second_mmc := Eval vm_compute in (on_probe RockchipSdhci 4 (mmc 0x4000 2 301) first_mmc).2.

Lemma probe_registers_device_witness :
  ∃ dev, registry second_mmc = registry first_mmc ++ [(4, dev)] ∧ device_base dev = 0x4000.
Proof.
  destruct (probe_registers_device RockchipSdhci 4 (mmc 0x4000 2 301) first_mmc (Ok ()) second_mmc)
    as (rg & dev & w & [= <-] & Hreg & [= Hb _]); [vm_refl|]. by exists dev.
Defined.

Lemma controllers_share_clock_witness :
  clk_calls second_mmc = [mkClkDev 1 300; mkClkDev 1 300] ∧
  ∃ d, (1, d) ∈ registry second_mmc ∧ is_clock d = true.
Proof.
  split; [reflexivity|].
  destruct (controllers_share_clock () second_mmc (mkClkDev 1 300) (mkClkDev 1 300)) as [_ Hd]; [|by left..|exact Hd].
  apply (rtc_l _ _ one_unit); [by apply (probed_one Rk3588Cru 1 (cru 0x1000) _ (Ok ())); [vm_refl|]|].
  apply (rtc_l _ _ two_units); [by apply (probed_one Rk3588Cru 2 (cru 0x2000) _ (Ok ())); [vm_refl|]|].
  apply (rtc_l _ _ first_mmc); [by apply (probed_one RockchipSdhci 3 (mmc 0x3000 1 300) _ (Ok ())); [vm_refl|]|].
  apply rtc_once. by apply (probed_one RockchipSdhci 4 (mmc 0x4000 2 301) _ (Ok ())); [vm_refl|].
Defined.

Lemma later_controller_gets_first_clock_witness :
  clk_calls second_mmc = clk_calls first_mmc ++ [mkClkDev 1 300].
Proof.
  apply (later_controller_gets_first_clock 4 (mmc 0x4000 2 301) (mkClkDev 1 300) first_mmc second_mmc);
    [reflexivity|vm_refl].
Defined.

Lemma configured_buffer_valid_witness : validate_buffer (mkBuffer 0x5000 (replicate 512 Byte.x00)) = Ok ().
Proof. by apply (configured_buffer_valid (mkBuffer 0x5000 (replicate 512 Byte.x00))). Defined.
End ProbeExamples.
