(* ===== verification/X86Start.v ===== *)
(** * Starting on the x86 platform ([platform/x86-qemu-q35])

    From the entry of the boot loader to the hooks the runtime calls: [rust_entry] and the
    number of processors ([lib.rs]), the link script that [build.rs] fills in, the
    initialisation of interrupts, clock and memory on the primary and the secondary CPUs
    ([init.rs], [apic.rs], [time.rs], [mem.rs]) and switching off ([power.rs]).  What the
    processor and the firmware report, the parsing of multiboot information, and the
    builder of the local APIC ([x2apic]) are parameters ([X86Env]).  The parts that run
    later are in [X86Plat]. *)

From Stdlib Require Import Ascii.
From S2P Require Import Prelude RustStr Devspace FdtCreate Boot BuildScript X86Plat.

(** ** The link script *)

(** The placeholders of [linker.lds.S] are in its first lines; [sections] is the rest. *)
Definition linker_lds (sections : string) : string :=
  "OUTPUT_ARCH(%ARCH%)

BASE_ADDRESS = %KERNEL_BASE%;
SMP = %SMP%;
" +:+ sections.

(** [main] of [build.rs]: the text of [link.x]. *)
Definition link_x (axvisor_smp : option string) (sections : string) : string :=
  let smp := default 1 (s ← axvisor_smp; parse_usize s) in
  let ld_content := linker_lds sections in
  let ld_content := str_replace "%ARCH%" "i386:x86-64" ld_content in
  let ld_content := str_replace "%KERNEL_BASE%" "0xffff800000200000" ld_content in
  str_replace "%SMP%" (pretty smp) ld_content.

(** Whether a script assigns to [SMP] in any way: the name comes with an operator behind it,
    or with a quote. *)
Definition blank (a : ascii) : bool := bool_decide (a ∈ [" "%char; ascii_of_nat 9; ascii_of_nat 10; ascii_of_nat 13]).

Fixpoint operator_next (s : string) : bool :=
  match s with
  | "" => false
  | String a s =>
      if blank a then operator_next s
      else bool_decide (a ∈ ascii_of_nat 34 :: String.list_ascii_of_string "=+-*/&|<>:^")
  end.

Fixpoint assigns_SMP (s : string) : bool :=
  match s with
  | "" => false
  | String _ s' => match strip_prefix "SMP" s with Some r => operator_next r | None => false end || assigns_SMP s'
  end.

(** Text that has neither blocks, comments nor quoted names. *)
Definition plain_text (s : string) : bool :=
  forallb (λ a, negb (bool_decide (a ∈ [ascii_of_nat 34; "/"%char; "{"%char]))) (String.list_ascii_of_string s).

(** The value of [SMP] that the linker finds in a script: the number that it is assigned in
    a statement of its own, when nothing else assigns to it or includes another file. *)
Class Linker : Type := symbol_SMP : string → option Z.
Class LinkerOk `{!Linker} : Prop := symbol_assigned pre n rest :
  plain_text pre = true → in_usize n → assigns_SMP rest = false → str_contains "INCLUDE" rest = false →
  symbol_SMP (pre +:+ ";
" +:+ "SMP" +:+ " = " +:+ pretty n +:+ ";
" +:+ rest) = Some n.

(** [cpu_count] of [lib.rs]: the address of the symbol. *)
Definition platform_cpu_count `{!Linker} (script : string) : option Z := symbol_SMP script.

(** ** The machine *)

(** The settings of the local APIC. *)
Record lapic_config : Type := mkLapic {
  timer_vector : Z;
  error_vector : Z;
  spurious_vector : Z;
  xapic_base_vaddr : option Z;
}.

(** What the local APIC of a CPU is asked to do. *)
Inductive lapic_setup : Type := Enable | SetOneShot | SetDiv1 | EnableTimer.

Class X86Env : Type := {
  feature_info : option bool;
  xapic_base : Z;
  processor_base_frequency : option Z;
  tsc_at_start : Z;
  unix_timestamp : option Z;
  multiboot_regions : Z → option (list (Z * Z * MemoryType));
  lapic_build : lapic_config → option string;
}.

#[export] Instance MemoryType_dec : EqDecision MemoryType.
Proof. solve_decision. Defined.

Definition available (l : list (Z * Z * MemoryType)) : list (Z * Z) :=
  (filter (λ r : Z * Z * MemoryType, r.2 = Available) l).*1.

(** The firmware leaves the memory map at the address it passes, and the local APIC can be
    built with all vectors and, without x2APIC, the address of its registers; [lapic_build]
    gives the error. *)
Class X86EnvOk `{!X86Env} (mbi : Z) : Prop := {
  base_range : 0 ≤ xapic_base < 2 ^ 47;
  build_spec c : (feature_info = Some true ∨ is_Some (xapic_base_vaddr c)) → lapic_build c = None;
  regions_there : ∃ l, multiboot_regions mbi = Some l ∧ (length (available l) ≤ MAX_REGIONS)%nat;
}.

Record machine : Type := mkMachine {
  traps : list Z;
  com_ready : bool;
  clock : time_state;
  RAM_REGIONS : option (list (Z * Z));
  port_writes : list (Z * Z);
  IS_X2APIC : bool;
  LOCAL_APIC : option lapic_config;
  IO_APIC : option Z;
  NANOS_TO_LAPIC_TICKS_RATIO : Z * Z;
  setup : list (Z * lapic_setup);
}.

Definition power_on : machine := mkMachine [] false time_start None [] false None None (0, 0) [].

Definition IO_APIC_BASE : Z := 0xFEC00000.

Section start.
Context `{!OverflowChecks} `{!X86Env}.
Abbreviation M := (st machine AxError).
Implicit Types (m : machine).

(** ** [apic.rs] *)

Definition cpu_has_x2apic : bool := match feature_info with Some b => b | None => false end.

(** [Port::<u8>::new(port).write(value)] *)
Definition port_write (port value : Z) : M () :=
  modify (λ m, mkMachine (traps m) (com_ready m) (clock m) (RAM_REGIONS m) (port_writes m ++ [(port, value)])
    (IS_X2APIC m) (LOCAL_APIC m) (IO_APIC m) (NANOS_TO_LAPIC_TICKS_RATIO m) (setup m)).

Definition set_x2apic : M () :=
  modify (λ m, mkMachine (traps m) (com_ready m) (clock m) (RAM_REGIONS m) (port_writes m)
    true (LOCAL_APIC m) (IO_APIC m) (NANOS_TO_LAPIC_TICKS_RATIO m) (setup m)).

Definition write_local_apic (c : lapic_config) : M () :=
  modify (λ m, mkMachine (traps m) (com_ready m) (clock m) (RAM_REGIONS m) (port_writes m)
    (IS_X2APIC m) (Some c) (IO_APIC m) (NANOS_TO_LAPIC_TICKS_RATIO m) (setup m)).

(** [init_once] panics when the value is there already. *)
Definition init_io_apic (base : Z) : M () :=
  m ← get;
  match IO_APIC m with
  | Some _ => panic
  | None => put (mkMachine (traps m) (com_ready m) (clock m) (RAM_REGIONS m) (port_writes m)
      (IS_X2APIC m) (LOCAL_APIC m) (Some base) (NANOS_TO_LAPIC_TICKS_RATIO m) (setup m))
  end.

Definition lapic_do (cpu : Z) (o : lapic_setup) : M () :=
  modify (λ m, mkMachine (traps m) (com_ready m) (clock m) (RAM_REGIONS m) (port_writes m)
    (IS_X2APIC m) (LOCAL_APIC m) (IO_APIC m) (NANOS_TO_LAPIC_TICKS_RATIO m) (setup m ++ [(cpu, o)])).

(** [local_apic()] assumes that it is initialised; using it before is an error here. *)
Definition local_apic : M lapic_config := m ← get; lift (unwrap (LOCAL_APIC m)).

Definition apic_init_primary (cpu : Z) : M () :=
  port_write 0x21 0xff;;
  port_write 0xA1 0xff;;
  let builder := mkLapic APIC_TIMER_VECTOR APIC_ERROR_VECTOR APIC_SPURIOUS_VECTOR None in
  builder ← (if cpu_has_x2apic then set_x2apic;; mret builder
             else base_vaddr ← lift (phys_to_virt xapic_base);
                  mret (mkLapic (timer_vector builder) (error_vector builder) (spurious_vector builder)
                          (Some base_vaddr)));
  (if lapic_build builder then panic else mret ());;
  lapic_do cpu Enable;;
  write_local_apic builder;;
  io_apic ← lift (phys_to_virt IO_APIC_BASE);
  init_io_apic io_apic.

Definition apic_init_secondary (cpu : Z) : M () := local_apic;; lapic_do cpu Enable.

(** ** [time.rs] *)

Definition set_clock (t : time_state) : M () :=
  modify (λ m, mkMachine (traps m) (com_ready m) t (RAM_REGIONS m) (port_writes m)
    (IS_X2APIC m) (LOCAL_APIC m) (IO_APIC m) (NANOS_TO_LAPIC_TICKS_RATIO m) (setup m)).

Definition set_ratio (r : Z * Z) : M () :=
  modify (λ m, mkMachine (traps m) (com_ready m) (clock m) (RAM_REGIONS m) (port_writes m)
    (IS_X2APIC m) (LOCAL_APIC m) (IO_APIC m) r (setup m)).

Definition time_init_early : M () :=
  m ← get; t ← lift (init_early (clock m) processor_base_frequency tsc_at_start unix_timestamp); set_clock t.

Definition time_init_primary (cpu : Z) : M () :=
  local_apic;;
  lapic_do cpu SetOneShot;;
  lapic_do cpu SetDiv1;;
  lapic_do cpu EnableTimer;;
  set_ratio (LAPIC_TICKS_PER_SEC mod 2 ^ 32, NANOS_PER_SEC mod 2 ^ 32).

Definition time_init_secondary (cpu : Z) : M () := local_apic;; lapic_do cpu EnableTimer.

(** ** [init.rs] *)

Definition init_trap (cpu : Z) : M () :=
  modify (λ m, mkMachine (traps m ++ [cpu]) (com_ready m) (clock m) (RAM_REGIONS m) (port_writes m)
    (IS_X2APIC m) (LOCAL_APIC m) (IO_APIC m) (NANOS_TO_LAPIC_TICKS_RATIO m) (setup m)).

Definition console_init : M () :=
  modify (λ m, mkMachine (traps m) true (clock m) (RAM_REGIONS m) (port_writes m)
    (IS_X2APIC m) (LOCAL_APIC m) (IO_APIC m) (NANOS_TO_LAPIC_TICKS_RATIO m) (setup m)).

(** [mem::init]; [init_once] panics when the value is there already. *)
Definition memory_init (mbi : Z) : M () :=
  regions ← lift (mem_init (multiboot_regions mbi));
  m ← get;
  match RAM_REGIONS m with
  | Some _ => panic
  | None => put (mkMachine (traps m) (com_ready m) (clock m) (Some regions) (port_writes m)
      (IS_X2APIC m) (LOCAL_APIC m) (IO_APIC m) (NANOS_TO_LAPIC_TICKS_RATIO m) (setup m))
  end.

Definition plat_init_early (cpu mbi : Z) : M () :=
  init_trap cpu;; console_init;; time_init_early;; memory_init mbi.

Definition plat_init_early_secondary (cpu : Z) : M () := init_trap cpu.

Definition plat_init_later (cpu : Z) : M () := apic_init_primary cpu;; time_init_primary cpu.

Definition plat_init_later_secondary (cpu : Z) : M () := apic_init_secondary cpu;; time_init_secondary cpu.
End start.

(** ** Entry and exit *)

Definition MULTIBOOT_BOOTLOADER_MAGIC : Z := 0x2BADB002.

(** [current_cpu_id]: the identifier that the processor reports, or 0. *)
Definition current_cpu_id (initial_local_apic_id : option Z) : Z := default 0 initial_local_apic_id.

(** The arguments with which the runtime is called, if it is. *)
Definition rust_entry (apic_id : option Z) (magic mbi : Z) : option (Z * Z) :=
  if bool_decide (magic = MULTIBOOT_BOOTLOADER_MAGIC) then Some (current_cpu_id apic_id, mbi) else None.

Definition rust_entry_secondary (apic_id : option Z) (magic : Z) : option Z :=
  if bool_decide (magic = MULTIBOOT_BOOTLOADER_MAGIC) then Some (current_cpu_id apic_id) else None.

(** [cpu_boot] *)
Definition cpu_boot {T} (code : list Z) (entry cpu_id stack_top_paddr : Z) (page : list Z) (a : apic T)
  : list Z * apic T := start_secondary_cpu code entry cpu_id stack_top_paddr page a.

(** [system_off] polls the console before it reboots; [polls] are the answers it gets, and
    the result is the write to a port before the processor halts, if it comes to that. *)
Fixpoint wait_key (polls : list (option Z)) : bool :=
  match polls with [] => false | Some _ :: _ => true | None :: polls => wait_key polls end.

Definition system_off (reboot_on_system_off : bool) (polls : list (option Z)) : option (Z * Z) :=
  if reboot_on_system_off then if wait_key polls then Some (0x64, 0xfe) else None
  else Some (0x604, 0x2000).

(** * Theorems *)

(** ** The number of processors *)

Lemma digit_pretty (x : N) : (x < 10)%N → digit (pretty_N_char x) = Some (Z.of_N x).
Proof.
  intros Hx. assert (∃ k : nat, x = N.of_nat k ∧ (k < 10)%nat) as (k & -> & Hk).
  { exists (N.to_nat x). rewrite N2Nat.id. split; [done|lia]. }
  do 10 (destruct k as [|k]; [by vm_compute|]). lia.
Qed.

Lemma parse_digits_pretty_go (x : N) s :
  (0 < x)%N → Z.of_N x ≤ usize_max → parse_digits 0 (pretty_N_go x s) = parse_digits (Z.of_N x) s.
Proof.
  revert s. induction (N.lt_wf_0 x) as [x _ IH]. intros s Hx Hmax.
  rewrite pretty_N_go_step by done.
  assert (Hd : digit (pretty_N_char (x `mod` 10)) = Some (Z.of_N (x `mod` 10))).
  { apply digit_pretty. by apply N.mod_lt. }
  assert (Hdm : Z.of_N (x / 10) * 10 + Z.of_N (x `mod` 10) = Z.of_N x).
  { rewrite N2Z.inj_div, N2Z.inj_mod. change (Z.of_N 10) with 10. pose proof (Z.div_mod (Z.of_N x) 10). lia. }
  assert (Hrest : parse_digits (Z.of_N (x / 10)) (String (pretty_N_char (x `mod` 10)) s) = parse_digits (Z.of_N x) s).
  { simpl. rewrite Hd. simpl. rewrite Hdm. by rewrite bool_decide_eq_true_2. }
  destruct (decide (x / 10 = 0)%N) as [E|E].
  - rewrite E in *. by rewrite pretty_N_go_0.
  - assert (Hlt : (x / 10 < x)%N) by (apply N.div_lt; lia).
    rewrite (IH _ Hlt); [done|by apply N.neq_0_lt_0|lia].
Qed.

Lemma pretty_N_go_not_plus (x : N) s : (0 < x)%N → ∃ a t, pretty_N_go x s = String a t ∧ is_Some (digit a).
Proof.
  revert s. induction (N.lt_wf_0 x) as [x _ IH]. intros s Hx. rewrite pretty_N_go_step by done.
  destruct (decide (x / 10 = 0)%N) as [E|E].
  - rewrite E, pretty_N_go_0. do 2 eexists. split; [done|]. eexists. apply digit_pretty. by apply N.mod_lt.
  - apply IH; [apply N.div_lt; lia|by apply N.neq_0_lt_0].
Qed.

(** Printing a [usize] and parsing it gives it back. *)
Lemma parse_usize_pretty n : in_usize n → parse_usize (pretty n) = Some n.
Proof.
  intros [H0 Hmax]. destruct (decide (n = 0)) as [->|Hn]; [by vm_compute|].
  assert (∃ x, n = Z.of_N x ∧ (0 < x)%N) as (x & -> & Hx).
  { exists (Z.to_N n). rewrite Z2N.id by lia. split; [done|lia]. }
  assert (Hp : pretty (Z.of_N x) = pretty_N_go x "").
  { destruct x as [|p]; [lia|]. change (pretty (Z.of_N (N.pos p))) with (pretty (N.pos p)).
    unfold pretty, pretty_N. by rewrite decide_False. }
  rewrite Hp. pose proof (parse_digits_pretty_go x "" Hx Hmax) as Hd.
  destruct (pretty_N_go_not_plus x "" Hx) as (a & t & E & [v Ha]). rewrite E in *.
  unfold parse_usize. rewrite bool_decide_eq_false_2; [exact Hd|]. by intros ->.
Qed.

(** ** Filling in the link script *)

Fixpoint no_percent (s : string) : bool :=
  match s with "" => true | String a s => negb (bool_decide (a = "%"%char)) && no_percent s end.

Lemma replace_none fuel from to s :
  no_percent s = true → (String.length s < fuel)%nat → str_replace_go fuel (String "%" from) to s = s.
Proof.
  revert s. induction fuel as [|fuel IH]; intros s Hs Hl; [lia|]. destruct s as [|a s]; [done|].
  simpl in Hs, Hl. apply andb_true_iff in Hs as [Ha Hs]. cbn [str_replace_go strip_prefix].
  apply negb_true_iff in Ha. rewrite bool_decide_eq_false in Ha.
  rewrite bool_decide_eq_false_2 by congruence. f_equal. apply IH; [done|lia].
Qed.

(** The script that is written. *)
Lemma link_x_text axvisor_smp sections :
  no_percent sections = true →
  link_x axvisor_smp sections =
  "OUTPUT_ARCH(i386:x86-64)

BASE_ADDRESS = 0xffff800000200000" +:+ ";
" +:+ "SMP" +:+ " = " +:+ pretty (default 1 (s ← axvisor_smp; parse_usize s)) +:+ ";
" +:+ sections.
Proof.
  intros Hs. unfold link_x. generalize (default 1 (s ← axvisor_smp; parse_usize s)) as n. intros n.
  assert (H1 : str_replace "%ARCH%" "i386:x86-64" (linker_lds sections) = "OUTPUT_ARCH(i386:x86-64)

BASE_ADDRESS = %KERNEL_BASE%;
SMP = %SMP%;
" +:+ sections).
  { rewrite <- (replace_none (6 + String.length sections) "ARCH%" "i386:x86-64" sections) at 2 by (done || lia).
    reflexivity. }
  assert (H2 : str_replace "%KERNEL_BASE%" "0xffff800000200000" ("OUTPUT_ARCH(i386:x86-64)

BASE_ADDRESS = %KERNEL_BASE%;
SMP = %SMP%;
" +:+ sections) = "OUTPUT_ARCH(i386:x86-64)

BASE_ADDRESS = 0xffff800000200000;
SMP = %SMP%;
" +:+ sections).
  { rewrite <- (replace_none (13 + String.length sections) "KERNEL_BASE%" "0xffff800000200000" sections) at 2
      by (done || lia). reflexivity. }
  cbv zeta. rewrite H1, H2.
  rewrite <- (replace_none (5 + String.length sections) "SMP%" (pretty n) sections) at 2 by (done || lia).
  reflexivity.
Qed.

(** C29: From the build configuration to the processors that run: when the build tool accepts
    a build configuration, the x86 platform is linked for as many processors as the
    configuration names, one if it names none; the runtime counts as many; and with one to
    eight of them its boot ends, in at most [8 * n + 3] steps however the processors are
    interleaved, with the primary in [main] and all others idle, while with none or with
    more than eight no processor ever gets past the barrier.  The rest of the link script
    has no percent sign, does not assign to [SMP] and includes no file. *)
Theorem configured_cpus_started `{!BuildHost} `{!Linker} `{!LinkerOk} c d cargo c' d' sections :
  load_config c d = (Ok (cargo, c'), d') →
  no_percent sections = true → assigns_SMP sections = false → str_contains "INCLUDE" sections = false →
  ∃ text config, d' !! default (path_join (workspace c) ".build.toml") (build_config_path c) = Some text ∧
    parse_config text = Some config ∧
    let n := default 1 (c_smp config) in
    let env := cargo_env cargo !! "AXVISOR_SMP" in
    (in_usize n → platform_cpu_count (link_x env sections) = Some n ∧
       let count := @cpu_count Prelude.X86_64 n env in
       count = n ∧
       (1 ≤ n ≤ MAX_CPU_NUM → ∀ primary_id m j, nsteps (boot_step count primary_id) j boot_start m →
          Z.of_nat j ≤ 8 * n + 3 ∧
          ((∃ m', boot_step count primary_id m m') ∨
           (primary m = PMain ∧ Z.of_nat (length (secondaries m)) = n - 1 ∧
            Forall (λ x, sec_pc x = SIdle) (secondaries m)))) ∧
       (n = 0 ∨ MAX_CPU_NUM < n → ∀ primary_id m, rtc (boot_step count primary_id) boot_start m → ¬ passed m)).
Proof.
  intros Hl Hp Hs Hi. destruct (load_config_ok _ _ _ _ _ Hl) as (text & config & Ht & Hc & He & _).
  exists text, config. split_and!; [done|done|]. rewrite He. intros n env Hn.
  assert (Hparse : default 1 (s ← env; parse_usize s) = n).
  { unfold env, n in *. destruct (c_smp config) as [k|]; simpl in *; [|done]. by rewrite parse_usize_pretty. }
  assert (Hcount : @cpu_count Prelude.X86_64 n env = n).
  { unfold cpu_count, smp. unfold env, n in *. simpl target_arch. destruct (c_smp config) as [k|]; simpl in *; [|done].
    rewrite parse_usize_pretty by done. apply Z.min_id. }
  intros. split; [|intros count; unfold count; rewrite Hcount; split_and!; [done| |]].
  - unfold platform_cpu_count. rewrite link_x_text by done. rewrite Hparse. by apply symbol_assigned.
  - intros Hr primary_id m j Hj. split; [by eapply boot_bounded; [lia|exact Hj]|].
    apply boot_moves; [done|]. by eapply rtc_nsteps_2.
  - intros Hr primary_id m. apply boot_limited; [|done]. destruct Hn. lia.
Qed.

(** ** Initialisation *)

Section init.
Context `{!OverflowChecks} `{!X86Env}.

(** The hooks of the runtime: those of the primary CPU, then those of the others. *)
Fixpoint init_secondaries (cpus : list Z) : st machine AxError () :=
  match cpus with
  | [] => mret ()
  | k :: cpus => plat_init_early_secondary k;; plat_init_later_secondary k;; init_secondaries cpus
  end.

Definition init_platform (cpu mbi : Z) (secondaries : list Z) : st machine AxError () :=
  plat_init_early cpu mbi;; plat_init_later cpu;; init_secondaries secondaries.

Lemma ram_regions_ok regions info :
  (length regions + length (available info) ≤ MAX_REGIONS)%nat →
  ram_regions regions info = Ok (regions ++ available info).
Proof.
  revert regions. induction info as [|[[b l] t] info IH]; intros regions Hlen; [by rewrite app_nil_r|].
  destruct t.
  - change (available ((b, l, Available) :: info)) with ((b, l) :: available info) in *. cbn [length] in Hlen.
    cbn [ram_regions]. rewrite bool_decide_eq_true_2 by lia.
    rewrite IH; [by rewrite <- app_assoc|]. rewrite length_app. simpl length. lia.
  - by apply IH.
Qed.

(** What a secondary CPU adds. *)
Lemma init_secondaries_ok cpus m :
  is_Some (LOCAL_APIC m) → ∃ m', init_secondaries cpus m = (Ok (), m') ∧
    traps m' = traps m ++ cpus ∧ setup m' = setup m ++ (k ← cpus; [(k, Enable); (k, EnableTimer)]) ∧
    LOCAL_APIC m' = LOCAL_APIC m ∧ RAM_REGIONS m' = RAM_REGIONS m ∧ clock m' = clock m ∧
    IS_X2APIC m' = IS_X2APIC m.
Proof.
  revert m. induction cpus as [|k cpus IH]; intros m [c Hc].
  { exists m. by rewrite !app_nil_r. }
  assert (Hone : ∃ m1, (plat_init_early_secondary k;; plat_init_later_secondary k) m = (Ok (), m1) ∧
    traps m1 = traps m ++ [k] ∧ setup m1 = setup m ++ [(k, Enable); (k, EnableTimer)] ∧
    LOCAL_APIC m1 = LOCAL_APIC m ∧ RAM_REGIONS m1 = RAM_REGIONS m ∧ clock m1 = clock m ∧ IS_X2APIC m1 = IS_X2APIC m).
  { unfold plat_init_early_secondary, plat_init_later_secondary, apic_init_secondary, time_init_secondary,
      local_apic, lapic_do, init_trap. st_run. rewrite Hc. simpl.
    eexists. split; [reflexivity|]. simpl. by rewrite <- app_assoc. }
  destruct Hone as (m1 & H1 & Ht & Hs & Hl & Hr & Hk & Hx).
  destruct (IH m1) as (m2 & H2 & Ht2 & Hs2 & Hl2 & Hr2 & Hk2 & Hx2); [rewrite Hl; eauto|].
  exists m2. split.
  - cbn [init_secondaries]. apply st_bind_ok in H1 as ([] & m0 & Ha & Hb).
    erewrite bind_run by exact Ha. erewrite bind_run by exact Hb. exact H2.
  - rewrite Ht2, Ht, Hs2, Hs. split_and!; try congruence; by rewrite <- app_assoc.
Qed.

(** The APIC as the later parts of the platform find it, with a table of handlers. *)
Definition apic_of {T} (m : machine) (t : T) : apic T := mkApic (IS_X2APIC m) ∅ t [].

(** C40: The platform comes up: on a machine whose firmware leaves a memory map with at most
    sixteen usable regions and whose clock can be set, the hooks succeed on the primary CPU
    and on any others.  Then the usable regions are the memory of the platform, every CPU
    has its traps, its local APIC is enabled before its timer, and the timer of the primary
    is set to one-shot; and [cpu_boot] sends INIT, SIPI and SIPI with a destination that
    the APIC which the processor has takes for the CPU that is meant, for any identifier
    of eight bits. *)
Theorem platform_comes_up cpu mbi secondaries t :
  X86EnvOk mbi → init_early time_start processor_base_frequency tsc_at_start unix_timestamp = Ok t →
  ∃ m regions, init_platform cpu mbi secondaries power_on = (Ok (), m) ∧
    multiboot_regions mbi = Some regions ∧ RAM_REGIONS m = Some (available regions) ∧
    clock m = t ∧ IS_X2APIC m = cpu_has_x2apic ∧ traps m = cpu :: secondaries ∧
    setup m = [(cpu, Enable); (cpu, SetOneShot); (cpu, SetDiv1); (cpu, EnableTimer)] ++
              (k ← secondaries; [(k, Enable); (k, EnableTimer)]) ∧
    ∀ T (table : T) code entry id stack_top page, 0 ≤ id < 256 → ∃ dest,
      ops (cpu_boot code entry id stack_top page (apic_of m table)).2 =
        [SendInit dest; SendSipi START_PAGE_IDX dest; SendSipi START_PAGE_IDX dest] ∧
      icr_destination cpu_has_x2apic dest = id.
Proof.
  intros [Hbase Hbuild (regions & Hr & Hlen)] Ht.
  assert (Hv : ∀ p, 0 ≤ p < 2 ^ 47 → phys_to_virt p = Ok (p + PHYS_VIRT_OFFSET)).
  { intros p Hp. unfold phys_to_virt, usize_add. rewrite checked_ok; [done|].
    unfold in_usize, usize_max, PHYS_VIRT_OFFSET. lia. }
  assert (Hm : mem_init (Some regions) = Ok (available regions)).
  { unfold mem_init. simpl. by rewrite ram_regions_ok. }
  assert (Hprim : ∃ m, (plat_init_early cpu mbi;; plat_init_later cpu) power_on = (Ok (), m) ∧
    is_Some (LOCAL_APIC m) ∧ RAM_REGIONS m = Some (available regions) ∧ clock m = t ∧
    IS_X2APIC m = cpu_has_x2apic ∧ traps m = [cpu] ∧
    setup m = [(cpu, Enable); (cpu, SetOneShot); (cpu, SetDiv1); (cpu, EnableTimer)]).
  { unfold plat_init_early, plat_init_later, memory_init, time_init_early, apic_init_primary, time_init_primary,
      init_trap, console_init, set_clock, port_write, lapic_do, write_local_apic, local_apic, init_io_apic,
      set_x2apic, set_ratio.
    rewrite Hr, Hm, (Hv IO_APIC_BASE) by (unfold IO_APIC_BASE; lia). rewrite (Hv xapic_base) by done. st_run.
    simpl clock. rewrite Ht. simpl. unfold cpu_has_x2apic. destruct feature_info as [[]|] eqn:Ef; simpl;
      (rewrite Hbuild; [|first [by left|right; by eexists]]); simpl; eauto 12. }
  destruct Hprim as (m & Hp & Hl & Hram & Hc & Hx & Htr & Hs).
  destruct (init_secondaries_ok secondaries m Hl) as (m' & Hi & Ht' & Hs' & _ & Hr' & Hc' & Hx').
  exists m', regions. rewrite Ht', Hs', Hr', Hc', Hx', Htr, Hs. split_and!; try done.
  - unfold init_platform. apply st_bind_ok in Hp as ([] & m0 & Ha & Hb).
    erewrite bind_run by exact Ha. by erewrite bind_run by exact Hb.
  - intros T table code entry id stack_top page Hid. exists (raw_apic_id (apic_of m' table) id).
    unfold cpu_boot, start_secondary_cpu, u8_cast. rewrite Z.mod_small by lia. split; [done|].
    rewrite <- Hx, <- Hx'. by apply (raw_apic_id_destination (apic_of m' table)).
Qed.
End init.

(** Rebooting waits for a key. *)
Lemma system_off_waits polls : system_off true polls = None ↔ Forall (λ p, p = None) polls.
Proof.
  unfold system_off. induction polls as [|[c|] polls IH]; simpl; [by split|by split; [|intros [? _]%Forall_cons]|].
  rewrite IH. split; [by constructor|by intros [_ ?]%Forall_cons].
Qed.

(** ** Examples *)
Module X86StartExamples.

(** A linker that reads assignments of numbers. *)
Definition nl : ascii := ascii_of_nat 10.
Fixpoint scan (s : string) : option Z :=
  match s with
  | "" => None
  | String a s' =>
      match scan s' with
      | Some n => Some n
      | None => r ← strip_prefix (String nl "SMP = ") s; v ← split_at_char ";" r; parse_usize v.1
      end
  end.

Definition plain (v : string) : Prop := Forall (λ a, a ≠ nl ∧ a ≠ ";"%char) (String.list_ascii_of_string v).

Lemma scan_app pre t n : scan t = Some n → scan (pre +:+ t) = Some n.
Proof. intros Ht. induction pre as [|a pre IH]; [done|]. change (String a pre +:+ t) with (String a (pre +:+ t)). simpl. by rewrite IH. Qed.

Lemma contains_here s r : s = "SMP = " +:+ r → assigns_SMP s = true.
Proof. by intros ->. Qed.

Lemma scan_none s : assigns_SMP s = false → scan s = None.
Proof.
  induction s as [|a s IH]; [done|]. intros Hc. simpl in Hc. apply orb_false_iff in Hc as [_ Hc].
  cbn [scan]. rewrite (IH Hc). destruct (strip_prefix _ _) as [r|] eqn:E; [|done].
  apply strip_prefix_Some in E. injection E as _ E. by rewrite (contains_here _ r E) in Hc.
Qed.

Lemma scan_value v rest :
  plain v → assigns_SMP rest = false → scan (v +:+ ";" +:+ String nl rest) = None.
Proof.
  intros Hv Hc. induction v as [|a v IH].
  - change ("" +:+ ";" +:+ String nl rest) with (String ";" (String nl rest)). cbn [scan]. rewrite (scan_none _ Hc). destruct (strip_prefix _ (String nl rest)) as [r|] eqn:E; [|done].
    apply strip_prefix_Some in E. injection E as E. by rewrite (contains_here _ r E) in Hc.
  - apply Forall_cons in Hv as [[Ha _] Hv]. change (String a v +:+ ?t) with (String a (v +:+ t)).
    cbn [scan]. rewrite (IH Hv). destruct (strip_prefix _ _) as [r|] eqn:E; [|done].
    apply strip_prefix_Some in E. by injection E as -> _.
Qed.

Lemma plain_digits v acc n : parse_digits acc v = Some n → plain v.
Proof.
  revert acc. induction v as [|a v IH]; intros acc Hp; [constructor|]. simpl in Hp.
  destruct (digit a) as [d|] eqn:Ed; [|done]. simpl in Hp. case_bool_decide; [|done].
  constructor; [|by eapply IH]. by split; intros ->.
Qed.

Lemma plain_parse v n : parse_usize v = Some n → plain v.
Proof.
  destruct v as [|a v]; [done|]. unfold parse_usize. case_bool_decide as Ha.
  - destruct (str_is_empty v); [done|]. intros Hp%plain_digits. subst. by constructor.
  - apply plain_digits.
Qed.

Lemma split_plain v t : plain v → split_at_char ";" (v +:+ ";" +:+ t) = Some (v, ";" +:+ t).
Proof.
  induction v as [|a v IH]; intros Hv; [done|]. apply Forall_cons in Hv as [[_ Ha] Hv].
  change (String a v +:+ ?t) with (String a (v +:+ t)). cbn [split_at_char].
  rewrite bool_decide_eq_false_2 by done. by rewrite (IH Hv).
Qed.

#[local] Instance toy_linker : Linker := scan.

#[local] Instance toy_linker_ok : LinkerOk.
Proof.
  intros pre n rest _ Hn Hc _. apply scan_app. pose proof (parse_usize_pretty n Hn) as Hp.
  pose proof (plain_parse _ _ Hp) as Hv. set (value := pretty n) in *. clearbody value.
  change (scan (";" +:+ String nl ("SMP = " +:+ (value +:+ ";" +:+ String nl rest))) = Some n). apply scan_app.
  change (scan (String nl ("SMP = " +:+ (value +:+ ";" +:+ String nl rest))) = Some n). cbn [scan].
  assert (Hs : scan ("SMP = " +:+ (value +:+ ";" +:+ String nl rest)) = None).
  { change ("SMP = " +:+ ?t) with (String "S" (String "M" (String "P" (String " " (String "=" (String " " t)))))).
    cbn [scan]. by rewrite (scan_value _ _ Hv Hc). }
  rewrite Hs. change (String nl ("SMP = " +:+ ?t)) with (String nl "SMP = " +:+ t). rewrite strip_prefix_app. simpl.
  by rewrite (split_plain _ _ Hv).
Qed.

#[local] Existing Instance BuildExamples.tool.

(** Four processors, as the build configuration says. *)
Lemma configured_cpus_started_witness :
  platform_cpu_count (link_x (Some "4") "ENTRY(_start)") = Some 4 ∧
  @cpu_count Prelude.X86_64 4 (Some "4") = 4 ∧
  ∀ m, rtc (boot_step 4 0) boot_start m → (∀ m', ¬ boot_step 4 0 m m') →
    primary m = PMain ∧ Z.of_nat (length (secondaries m)) = 3.
Proof.
  destruct (configured_cpus_started BuildExamples.context BuildExamples.files
    BuildExamples.result.1 BuildExamples.result.2 BuildExamples.loaded.2 "ENTRY(_start)")
    as (text & config & _ & [= <-] & Hn); [apply run_pair; vm_refl|reflexivity..|].
  assert (H4 : in_usize 4) by by split. destruct (Hn H4) as (Hlink & Hcount & Hboot & _).
  split; [exact Hlink|]. split; [exact Hcount|]. intros m Hr Hend.
  assert (H48 : 1 ≤ 4 ≤ MAX_CPU_NUM) by done. apply rtc_nsteps_1 in Hr as [j Hj].
  destruct (Hboot H48 0 m j Hj) as [_ [[m' Hm]|(Hp & Hlen & _)]]; [by destruct (Hend m')|].
  split; [exact Hp|exact Hlen].
Defined.

(** A machine without x2APIC, three regions of memory and two secondary CPUs. *)
#[local] Instance toy_machine : X86Env := {|
  feature_info := Some false;
  xapic_base := 0xfee00000;
  processor_base_frequency := None;
  tsc_at_start := 4000;
  unix_timestamp := Some 1700000000;
  multiboot_regions _ :=
    Some [(0, 0x9fc00, Available); (0xf0000, 0x10000, OtherMemory); (0x100000, 0x7fee0000, Available)];
  lapic_build c := if xapic_base_vaddr c then None else Some "no base";
|}.
#[local] Instance toy_checks : OverflowChecks := true.

Lemma platform_comes_up_witness : ∃ m,
  init_platform 0 0x9500 [1; 2] power_on = (Ok (), m) ∧
  RAM_REGIONS m = Some [(0, 0x9fc00); (0x100000, 0x7fee0000)] ∧ traps m = [0; 1; 2] ∧
  ∃ dest, ops (cpu_boot [] 0x1000 2 0x8000 (replicate 512 0) (apic_of m ())).2 =
    [SendInit dest; SendSipi START_PAGE_IDX dest; SendSipi START_PAGE_IDX dest] ∧ icr_destination false dest = 2.
Proof.
  destruct (platform_comes_up 0 0x9500 [1; 2] (mkTime 4000 4000 1699999999999999000))
    as (m & regions & Hm & [= <-] & Hr & _ & _ & Ht & _ & Hb).
  - split; [done| |].
    + intros c [?|[b Hb]]; [done|]. simpl. by rewrite Hb.
    + eexists. split; [done|]. simpl. unfold MAX_REGIONS. lia.
  - reflexivity.
  - exists m. split; [exact Hm|]. split; [exact Hr|]. split; [exact Ht|]. by apply Hb.
Defined.
End X86StartExamples.
