(* ===== verification/RuntimeStart.v ===== *)
(** * The start of the runtime ([modules/axruntime/src/lib.rs], [mp.rs])

    [rust_main] and [rust_main_secondary] as the sequences of initialisation calls that they
    make, for every selection of the features of the crate; processors that run these
    sequences in any interleaving, with the counters and spin loops through which they wait
    for each other; the handlers that [init_interrupt] registers, and what log messages say
    about where they come from ([LogIfImpl]).  The
    calls themselves belong to other crates or are modelled elsewhere ([X86Start],
    [BootFs], [Boot]); texts that are only printed are left out. *)

From S2P Require Import Prelude Boot.

(** The features of the crate. *)
Record features : Type := mkFeatures {
  f_alloc : bool;
  f_paging : bool;
  f_driver_dyn : bool;
  f_multitask : bool;
  f_fs : bool;
  f_net : bool;
  f_display : bool;
  f_smp : bool;
  f_irq : bool;
  f_ipi : bool;
  f_tls : bool;
}.

(** Handlers of interrupts: the timer's with or without the tick of the scheduler, and that
    of inter-processor interrupts. *)
Inductive handler : Type := TimerHandler (on_timer_tick : bool) | IpiHandler.

Inductive action : Type :=
  | ClearBss | PercpuInitPrimary | InitEarly | AxlogInit | MemInit | InitAllocator
  | InitMemoryManagement | DriverSetup | InitLater | InitScheduler | InitDrivers | InitFilesystems
  | InitNetwork | InitDisplay | StartSecondaryCpus | RegisterIrq (h : handler) | EnableIrqs | InitTls
  | CallCtors | AddInited | WaitInited | CallMain | ExitTask | SystemOff
  | PercpuInitSecondary | InitEarlySecondary | AddEntered | InitMemoryManagementSecondary
  | InitLaterSecondary | InitSchedulerSecondary | AxipiInit | RunIdle | WaitForIrqs.

#[global] Instance handler_eq_dec : EqDecision handler.
Proof. solve_decision. Defined.
#[global] Instance action_eq_dec : EqDecision action.
Proof. solve_decision. Defined.

Section start.
Context (f : features).

(** [#[cfg(..)] call] *)
Definition cfg (b : bool) (l : list action) : list action := if b then l else [].

Definition init_interrupt : list action :=
  [RegisterIrq (TimerHandler (f_multitask f))] ++ cfg (f_ipi f) [RegisterIrq IpiHandler] ++ [EnableIrqs].

(** [rust_main] up to [start_secondary_cpus], from there to the barrier, and from there. *)
Definition primary_before : list action :=
  [ClearBss; PercpuInitPrimary; InitEarly; AxlogInit; MemInit] ++
  cfg (f_alloc f) [InitAllocator] ++
  cfg (f_paging f) [InitMemoryManagement] ++
  cfg (f_driver_dyn f) [DriverSetup] ++
  [InitLater] ++
  cfg (f_multitask f) [InitScheduler] ++
  cfg (f_fs f || f_net f || f_display f)
    ([InitDrivers] ++ cfg (f_fs f) [InitFilesystems] ++ cfg (f_net f) [InitNetwork] ++ cfg (f_display f) [InitDisplay]).

Definition primary_after : list action :=
  cfg (f_irq f) init_interrupt ++
  cfg (f_tls f && negb (f_multitask f)) [InitTls] ++
  [CallCtors].

Definition primary_main : list action := [CallMain; if f_multitask f then ExitTask else SystemOff].

Definition rust_main : list action :=
  primary_before ++ cfg (f_smp f) [StartSecondaryCpus] ++ primary_after ++ [AddInited; WaitInited] ++ primary_main.

(** [rust_main_secondary] up to the increment of [ENTERED_CPUS], from there to the barrier,
    and from there. *)
Definition secondary_before : list action := [PercpuInitSecondary; InitEarlySecondary].

Definition secondary_init : list action :=
  cfg (f_paging f) [InitMemoryManagementSecondary] ++
  [InitLaterSecondary] ++
  cfg (f_multitask f) [InitSchedulerSecondary] ++
  cfg (f_ipi f) [AxipiInit].

Definition secondary_run : list action :=
  cfg (f_irq f) [EnableIrqs] ++
  cfg (f_tls f && negb (f_multitask f)) [InitTls] ++
  [if f_multitask f then RunIdle else WaitForIrqs].

Definition rust_main_secondary : list action :=
  secondary_before ++ [AddEntered] ++ secondary_init ++ [AddInited; WaitInited] ++ secondary_run.

(** ** Log messages *)

(** [is_init_ok] *)
Definition is_init_ok (count : Z) (m : machine) : bool := bool_decide (inited_cpus m = count).

(** [LogIfImpl::current_cpu_id] and [current_task_id], with the CPU that runs and the task
    it runs, if there is one. *)
Definition current_cpu_id (count this_cpu_id : Z) (m : machine) : option Z :=
  if f_smp f then if is_init_ok count m then Some this_cpu_id else None else Some 0.

Definition current_task_id (count : Z) (current_may_uninit : option Z) (m : machine) : option Z :=
  if is_init_ok count m then if f_multitask f then current_may_uninit else None else None.
End start.

(** ** Processors that run these sequences *)

(** What a processor does at a time: one of the calls, or, in the loop of
    [start_secondary_cpus], booting a processor with a number and a stack and waiting for
    it to enter. *)
Inductive op : Type :=
| Do (a : action)
| BootCpu (i logic_cpu_id : Z)
| SpinEntered (logic_cpu_id : Z).

#[global] Instance op_eq_dec : EqDecision op.
Proof. solve_decision. Defined.

(** A processor: what it has done, and what is left. *)
Record cpu : Type := mkCpu { c_done : list op; c_todo : list op }.

(** The counters and the processors that have started, the primary one first. *)
Record system : Type := mkSystem {
  sys_entered : Z;
  sys_inited : Z;
  sys_cpus : list cpu;
}.

Section run.
Context (f : features) (count primary_id : Z).

(** The loop of [start_secondary_cpus], for [n] more processors. *)
Fixpoint start_loop (n : nat) (i logic_cpu_id : Z) : list op :=
  match n with
  | O => []
  | S n =>
      if bool_decide (i ≠ primary_id) && bool_decide (logic_cpu_id < count - 1) then
        BootCpu i logic_cpu_id :: SpinEntered (logic_cpu_id + 1) :: start_loop n (i + 1) (logic_cpu_id + 1)
      else start_loop n (i + 1) logic_cpu_id
  end.

Definition ops (a : action) : list op :=
  match a with StartSecondaryCpus => start_loop (Z.to_nat count) 0 0 | a => [Do a] end.

Definition primary_program : list op := rust_main f ≫= ops.
Definition secondary_program : list op := rust_main_secondary f ≫= ops.

Definition program (k : nat) : list op := match k with O => primary_program | S _ => secondary_program end.

Definition system_start : system := mkSystem 1 0 [mkCpu [] (program 0)].

(** One operation: a spin loop does nothing while it waits, nor does a processor that has
    panicked for want of a boot stack. *)
Definition exec (o : op) (s : system) : option system :=
  let '(mkSystem entered inited cpus) := s in
  match o with
  | Do AddEntered => Some (mkSystem (entered + 1) inited cpus)
  | Do AddInited => Some (mkSystem entered (inited + 1) cpus)
  | Do WaitInited => if bool_decide (inited = count) then Some s else None
  | Do _ => Some s
  | BootCpu _ logic =>
      if bool_decide (logic < MAX_CPU_NUM - 1) then
        Some (mkSystem entered inited (cpus ++ [mkCpu [] (program (length cpus))]))
      else None
  | SpinEntered logic => if bool_decide (entered ≤ logic) then None else Some s
  end.

(** The next operation of a processor. *)
Definition cpu_exec (k : nat) (s : system) : option system :=
  let '(mkSystem entered inited cpus) := s in
  match cpus !! k with
  | Some (mkCpu done (o :: todo)) => exec o (mkSystem entered inited (<[k := mkCpu (done ++ [o]) todo]> cpus))
  | _ => None
  end.

(** Any processor does its next operation. *)
Definition cpu_step : relation system := λ s s', ∃ k, cpu_exec k s = Some s'.
End run.

(** * Theorems *)

(** ** The order of initialisation *)

(** [a] comes before [b]. *)
Definition precedes (a b : action) (l : list action) : Prop := ∃ l1 l2 l3, l = l1 ++ a :: l2 ++ b :: l3.

(** Everything that [rust_main] can do, in order. *)
Definition all_actions : list action :=
  [ClearBss; PercpuInitPrimary; InitEarly; AxlogInit; MemInit; InitAllocator; InitMemoryManagement; DriverSetup;
   InitLater; InitScheduler; InitDrivers; InitFilesystems; InitNetwork; InitDisplay; StartSecondaryCpus;
   RegisterIrq (TimerHandler true); RegisterIrq (TimerHandler false); RegisterIrq IpiHandler; EnableIrqs; InitTls;
   CallCtors; AddInited; WaitInited; CallMain; ExitTask; SystemOff].

(** What has to be done before what: the memory before its users, the platform before its
    devices, the devices before file systems and network, the scheduler before anything
    that may interrupt or spawn, handlers before interrupts, everything before [main]. *)
Definition dependencies : list (action * action) :=
  [(ClearBss, PercpuInitPrimary); (PercpuInitPrimary, InitEarly); (InitEarly, AxlogInit); (InitEarly, MemInit);
   (MemInit, InitAllocator); (InitAllocator, InitMemoryManagement); (InitAllocator, DriverSetup);
   (InitMemoryManagement, InitLater); (DriverSetup, InitDrivers); (InitLater, InitScheduler);
   (InitScheduler, InitDrivers); (InitDrivers, InitFilesystems); (InitDrivers, InitNetwork);
   (InitDrivers, InitDisplay); (InitMemoryManagement, StartSecondaryCpus); (InitScheduler, StartSecondaryCpus);
   (InitLater, RegisterIrq (TimerHandler true)); (InitLater, RegisterIrq (TimerHandler false));
   (InitScheduler, RegisterIrq (TimerHandler true)); (RegisterIrq (TimerHandler true), EnableIrqs);
   (RegisterIrq (TimerHandler false), EnableIrqs); (RegisterIrq IpiHandler, EnableIrqs);
   (InitFilesystems, CallMain); (InitNetwork, CallMain); (EnableIrqs, CallMain); (InitTls, CallMain);
   (CallCtors, AddInited); (StartSecondaryCpus, AddInited); (AddInited, WaitInited); (WaitInited, CallMain);
   (CallMain, ExitTask); (CallMain, SystemOff)].

(** The list before the first [b], and the rest. *)
Fixpoint until (b : action) (l : list action) : list action * list action :=
  match l with
  | [] => ([], [])
  | x :: l => if decide (x = b) then ([], x :: l) else let '(p, r) := until b l in (x :: p, r)
  end.

Lemma until_app b l : l = (until b l).1 ++ (until b l).2.
Proof. induction l as [|x l IH]; [done|]. simpl. case_decide; [done|]. destruct (until b l). simpl. by f_equal/=. Qed.

Lemma until_not b l : b ∉ (until b l).1.
Proof.
  induction l as [|x l IH]; simpl; [apply not_elem_of_nil|]. case_decide; [apply not_elem_of_nil|].
  destruct (until b l). by apply not_elem_of_cons.
Qed.

Lemma sublist_precedes l k a b :
  l `sublist_of` k → a ∉ (until b k).2 → a ∈ l → b ∈ l → precedes a b l.
Proof.
  intros Hs Ha Hal Hbl. rewrite (until_app b k) in Hs. apply sublist_app_r in Hs as (l1 & l2 & -> & H1 & H2).
  assert (Hb1 : b ∉ l1) by (intros Hb; by apply (until_not b k), (sublist_subseteq _ _ H1)).
  assert (Ha2 : a ∉ l2) by (intros Hx; by apply Ha, (sublist_subseteq _ _ H2)).
  apply elem_of_app in Hal as [Hal|]; [|done]. apply elem_of_app in Hbl as [|Hbl]; [done|].
  apply list_elem_of_split in Hal as (x1 & x2 & ->). apply list_elem_of_split in Hbl as (y1 & y2 & ->).
  exists x1, (x2 ++ y1), y2. by simplify_list_eq.
Qed.

Lemma cfg_sublist b l : cfg b l `sublist_of` l.
Proof. destruct b; [done|]. apply sublist_nil_l. Qed.

Lemma cfg_sublist_of b l k : l `sublist_of` k → cfg b l `sublist_of` k.
Proof. intros Hl. etrans; [apply cfg_sublist|done]. Qed.

Lemma rust_main_sublist f : rust_main f `sublist_of` all_actions.
Proof.
  change all_actions with
    (([ClearBss; PercpuInitPrimary; InitEarly; AxlogInit; MemInit] ++ [InitAllocator] ++ [InitMemoryManagement] ++
      [DriverSetup] ++ [InitLater] ++ [InitScheduler] ++ [InitDrivers] ++ [InitFilesystems] ++ [InitNetwork] ++ [InitDisplay]) ++
     [StartSecondaryCpus] ++
     (([RegisterIrq (TimerHandler true); RegisterIrq (TimerHandler false)] ++ [RegisterIrq IpiHandler] ++ [EnableIrqs]) ++
      [InitTls] ++ [CallCtors]) ++ [AddInited; WaitInited] ++ [CallMain; ExitTask; SystemOff]).
  unfold rust_main, primary_before, primary_after, primary_main, init_interrupt.
  repeat (apply sublist_app || apply cfg_sublist_of || done).
  - by destruct (f_multitask f); repeat constructor.
  - by destruct (f_multitask f); repeat constructor.
Qed.

Lemma dependencies_ordered : Forall (λ p, p.1 ∉ (until p.2 all_actions).2) dependencies.
Proof. apply (bool_decide_eq_true_1 _). vm_refl. Qed.

Lemma all_actions_nodup : NoDup all_actions.
Proof. apply (bool_decide_eq_true_1 _). vm_refl. Qed.

(** Initialisation is in order: with any features, whenever [rust_main] takes two of the
    steps of which one needs the other, it takes them in that order, and with every
    selection it ends by calling [main] after the barrier and then ending the task, or the
    machine when there are no tasks. *)
Theorem start_up_in_order f :
  (∀ a b, (a, b) ∈ dependencies → a ∈ rust_main f → b ∈ rust_main f → precedes a b (rust_main f)) ∧
  ∃ l, rust_main f = l ++ [AddInited; WaitInited; CallMain; if f_multitask f then ExitTask else SystemOff] ∧ CallMain ∉ l.
Proof.
  split.
  - intros a b Hab Ha Hb. eapply sublist_precedes; [apply rust_main_sublist| |done|done].
    pose proof dependencies_ordered as Hall. rewrite Forall_forall in Hall. by apply (Hall (a, b)).
  - exists (primary_before f ++ cfg (f_smp f) [StartSecondaryCpus] ++ primary_after f).
    assert (E : rust_main f = (primary_before f ++ cfg (f_smp f) [StartSecondaryCpus] ++ primary_after f) ++
      [AddInited; WaitInited; CallMain; if f_multitask f then ExitTask else SystemOff]).
    { unfold rust_main, primary_main. by simplify_list_eq. }
    split; [exact E|]. assert (Hn : NoDup (rust_main f)).
    { eapply sublist_NoDup; [apply all_actions_nodup|apply rust_main_sublist]. }
    rewrite E in Hn. apply NoDup_app in Hn as (_ & Hd & _). intros Hm. apply (Hd _ Hm).
    do 2 apply list_elem_of_further. apply list_elem_of_here.
Qed.

(** ** Before the barrier *)

(** What a processor does only after the barrier. *)
Definition after_barrier (a : action) : Prop := a ∈ [CallMain; ExitTask; SystemOff; RunIdle; WaitForIrqs].

(** All of a processor's own initialisation, which ends with the increment of
    [INITED_CPUS]; and what it does from the barrier on. *)
Definition initialised (f : features) (count primary_id : Z) (k : nat) : list op :=
  match k with
  | O => primary_before f ++ cfg (f_smp f) [StartSecondaryCpus] ++ primary_after f
  | S _ => secondary_before ++ [AddEntered] ++ secondary_init f
  end ≫= ops count primary_id.

Definition from_barrier (f : features) (count primary_id : Z) (k : nat) : list op :=
  match k with O => primary_main f | S _ => secondary_run f end ≫= ops count primary_id.

Lemma Forall_cfg (P : action → Prop) b l : Forall P l → Forall P (cfg b l).
Proof. by destruct b. Qed.

Ltac each_action :=
  repeat first [apply Forall_app; split | apply Forall_cfg | apply Forall_nil_2 | apply Forall_cons; split
               | match goal with |- context [if ?b then _ else _] => destruct b end];
  unfold after_barrier; set_solver.

Section barrier.
Context (f : features) (count primary_id : Z).

Definition is_boot (o : op) : bool := match o with BootCpu _ _ => true | _ => false end.
Definition boots (l : list op) : nat := length (List.filter is_boot l).

Lemma start_loop_ops n i logic : Forall (λ o, ∀ a, o ≠ Do a) (start_loop count primary_id n i logic).
Proof. revert i logic. induction n as [|n IH]; intros i logic; simpl; [done|]. case_match; by repeat constructor. Qed.

Lemma start_loop_boots n i logic : (boots (start_loop count primary_id n i logic) ≤ Z.to_nat (count - 1 - logic))%nat.
Proof.
  revert i logic. induction n as [|n IH]; intros i logic; simpl; [unfold boots; simpl; lia|].
  case_match eqn:E; [|apply IH]. apply andb_prop in E as [_ E%bool_decide_eq_true].
  specialize (IH (i + 1) (logic + 1)). unfold boots in *. simpl. lia.
Qed.

Lemma do_in_ops l a : Do a ∈ l ≫= ops count primary_id → a ∈ l.
Proof.
  intros (b & Hin & Hb)%list_elem_of_bind. revert Hin. unfold ops.
  destruct b; try (intros [= ->]%list_elem_of_singleton; done).
  intros Hin. pose proof (start_loop_ops (Z.to_nat count) 0 0) as Hf. rewrite Forall_forall in Hf.
  by destruct (Hf _ Hin a).
Qed.

Lemma boots_app l l' : boots (l ++ l') = (boots l + boots l')%nat.
Proof. unfold boots. by rewrite List.filter_app, length_app. Qed.

Lemma boots_no_start l : StartSecondaryCpus ∉ l → boots (l ≫= ops count primary_id) = 0%nat.
Proof.
  induction l as [|a l IH]; [done|]. intros Hn. rewrite bind_cons, boots_app, IH by set_solver.
  unfold ops. destruct a; try done. exfalso. set_solver.
Qed.

(** A program: the initialisation, the barrier, the rest. *)
Lemma program_shape k : program f count primary_id k = initialised f count primary_id k ++ Do AddInited :: Do WaitInited :: from_barrier f count primary_id k.
Proof.
  unfold program, initialised, from_barrier.
  destruct k; unfold primary_program, secondary_program, rust_main, rust_main_secondary;
    repeat rewrite bind_app; repeat rewrite <- app_assoc; reflexivity.
Qed.

Lemma initialised_before k a : a ∈ [AddInited; WaitInited] ∨ after_barrier a → Do a ∉ initialised f count primary_id k.
Proof.
  intros Ha Hin. unfold initialised in Hin. apply do_in_ops in Hin.
  assert (Hf : Forall (λ x, ¬ (x ∈ [AddInited; WaitInited] ∨ after_barrier x))
    (match k with O => primary_before f ++ cfg (f_smp f) [StartSecondaryCpus] ++ primary_after f
     | S _ => secondary_before ++ [AddEntered] ++ secondary_init f end)).
  { destruct k; unfold primary_before, primary_after, init_interrupt, secondary_before, secondary_init; each_action. }
  rewrite Forall_forall in Hf. by apply (Hf a).
Qed.

Lemma from_barrier_after k a : a ∈ [AddInited; StartSecondaryCpus] → a ∉ match k with O => primary_main f | S _ => secondary_run f end.
Proof.
  intros Ha Hin. assert (Hf : Forall (λ x, x ∉ [AddInited; StartSecondaryCpus])
    (match k with O => primary_main f | S _ => secondary_run f end)).
  { destruct k; unfold primary_main, secondary_run; each_action. }
  rewrite Forall_forall in Hf. by apply (Hf a).
Qed.
Lemma past_initialised k done todo a :
  program f count primary_id k = done ++ todo → Do a ∈ done → a ∈ [AddInited; WaitInited] ∨ after_barrier a →
  ∃ l, done = initialised f count primary_id k ++ Do AddInited :: l ∧
       l ++ todo = Do WaitInited :: from_barrier f count primary_id k.
Proof.
  intros Hp Hin Ha. pose proof (initialised_before k a Ha) as Hn. rewrite program_shape in Hp. symmetry in Hp.
  apply app_eq_app in Hp as (l & [[-> E]|[E _]]).
  - destruct l as [|o l]; [by rewrite app_nil_r in Hin|]. injection E as <- E. by exists l.
  - destruct Hn. rewrite E. apply elem_of_app. by left.
Qed.

Lemma added_next k done todo o :
  program f count primary_id k = done ++ o :: todo → Do AddInited ∈ done → o ≠ Do AddInited ∧ is_boot o = false.
Proof.
  intros Hp Hin. destruct (past_initialised k done (o :: todo) AddInited Hp Hin) as (l & _ & Hl); [set_solver|].
  assert (Ho : o ∈ Do WaitInited :: from_barrier f count primary_id k) by (rewrite <- Hl; set_solver).
  apply elem_of_cons in Ho as [->|Ho]; [done|]. unfold from_barrier in Ho. split.
  - intros ->. apply do_in_ops in Ho. revert Ho. apply from_barrier_after. set_solver.
  - destruct (is_boot o) eqn:E; [|done]. exfalso.
    assert (StartSecondaryCpus ∉ match k with O => primary_main f | S _ => secondary_run f end) as Hn%boots_no_start
      by (apply from_barrier_after; set_solver).
    apply list_elem_of_split in Ho as (l1 & l2 & Ho). rewrite Ho, boots_app in Hn. unfold boots in Hn. simpl in Hn.
    rewrite E in Hn. simpl in Hn. lia.
Qed.

Lemma waited_added k done todo :
  program f count primary_id k = done ++ todo → Do WaitInited ∈ done → Do AddInited ∈ done.
Proof. intros Hp Hin. destruct (past_initialised k done todo WaitInited) as (l & -> & _); set_solver. Qed.

Lemma after_waited k done todo a :
  program f count primary_id k = done ++ todo → Do a ∈ done → after_barrier a → Do WaitInited ∈ done.
Proof.
  intros Hp Hin Ha. pose proof (initialised_before k a (or_intror Ha)).
  destruct (past_initialised k done todo a) as (l & -> & Hl); [done..|by right|].
  destruct l as [|o l]; [|injection Hl as -> _; set_solver].
  exfalso. apply elem_of_app in Hin as [?|Hin]; [done|]. apply list_elem_of_singleton in Hin as [= ->].
  unfold after_barrier in Ha. set_solver.
Qed.

(** Only the primary boots processors, at most [count - 1]. *)
Lemma program_boots k : (boots (program f count primary_id k) ≤ match k with O => Z.to_nat (count - 1) | S _ => 0 end)%nat.
Proof.
  assert (Hs : ∀ l, Forall (λ x, x ≠ StartSecondaryCpus) l → boots (l ≫= ops count primary_id) = 0%nat).
  { intros l Hl. apply boots_no_start. rewrite Forall_forall in Hl. intros Hin. by apply (Hl _ Hin). }
  destruct k; unfold program, primary_program, secondary_program, rust_main, rust_main_secondary.
  - rewrite !bind_app, !boots_app, (Hs (primary_before f)), (Hs (primary_after f)), (Hs [_; _]), (Hs (primary_main f))
      by (unfold primary_before, primary_after, init_interrupt, primary_main; each_action).
    destruct (f_smp f); simpl; [|unfold boots; simpl; lia]. rewrite app_nil_r.
    pose proof (start_loop_boots (Z.to_nat count) 0 0). lia.
  - rewrite Hs; [done|]. unfold secondary_before, secondary_init, secondary_run. each_action.
Qed.

(** ** The invariant *)

Definition added (c : cpu) : Prop := Do AddInited ∈ c_done c.
#[local] Instance added_dec c : Decision (added c).
Proof. apply _. Defined.

Definition all_in (s : system) : Prop :=
  Forall added (sys_cpus s) ∧ Z.of_nat (length (sys_cpus s)) = count.

Record runs (s : system) : Prop := {
  r_prog k c : sys_cpus s !! k = Some c → program f count primary_id k = c_done c ++ c_todo c;
  r_inited : sys_inited s = Z.of_nat (length (filter added (sys_cpus s)));
  r_boots : ∃ c, sys_cpus s !! 0%nat = Some c ∧ length (sys_cpus s) = S (boots (c_done c));
  r_waited c : c ∈ sys_cpus s → Do WaitInited ∈ c_done c → all_in s;
}.

Lemma exec_effect o s s' :
  exec f count primary_id o s = Some s' →
  sys_cpus s' = sys_cpus s ++ (if is_boot o then [mkCpu [] (program f count primary_id (length (sys_cpus s)))] else []) ∧
  sys_inited s' = sys_inited s + (if decide (o = Do AddInited) then 1 else 0) ∧
  (o = Do WaitInited → sys_inited s = count).
Proof.
  destruct s as [e n l]. unfold exec. intros He.
  repeat case_match; simplify_eq/=; repeat case_bool_decide; simplify_eq/=; by rewrite ?app_nil_r, ?Z.add_0_r.
Qed.

Lemma filter_insert_length (l : list cpu) k c c' :
  l !! k = Some c →
  (length (filter added (<[k := c']> l)) + (if decide (added c) then 1 else 0) =
   length (filter added l) + (if decide (added c') then 1 else 0))%nat.
Proof.
  intros Hk. rewrite insert_take_drop by by eapply lookup_lt_Some. rewrite <- (take_drop_middle l k c Hk) at 3.
  rewrite !filter_app, !filter_cons, !length_app. repeat case_decide; simpl; lia.
Qed.

Lemma filter_full (l : list cpu) : length (filter added l) = length l → Forall added l.
Proof.
  induction l as [|c l IH]; [by constructor|]. rewrite filter_cons. pose proof (length_filter added l).
  case_decide; simpl; [|lia]. intros [=]. constructor; auto.
Qed.
Section step.
Context (s s' : system) (k : nat) (done todo : list op) (o : op).
Context (Hr : runs s) (Hk : sys_cpus s !! k = Some (mkCpu done (o :: todo))).
Let cpus1 := <[k := mkCpu (done ++ [o]) todo]> (sys_cpus s).
Context (Hcpus : sys_cpus s' = cpus1 ++ (if is_boot o then [mkCpu [] (program f count primary_id (length cpus1))] else [])).
Context (Hinited : sys_inited s' = sys_inited s + (if decide (o = Do AddInited) then 1 else 0)).
Context (Hwait : o = Do WaitInited → sys_inited s = count).

Lemma step_program : program f count primary_id k = done ++ o :: todo.
Proof using All. apply (r_prog s Hr k _ Hk). Qed.

Lemma step_length : length cpus1 = length (sys_cpus s).
Proof using. apply length_insert. Qed.

Lemma step_lookup : cpus1 !! k = Some (mkCpu (done ++ [o]) todo).
Proof using Hk. apply list_lookup_insert_eq. by eapply lookup_lt_Some. Qed.

Lemma step_prog j c : sys_cpus s' !! j = Some c → program f count primary_id j = c_done c ++ c_todo c.
Proof using All.
  rewrite Hcpus. intros [Hj|[Hj Hn]]%lookup_app_Some.
  - destruct (decide (j = k)) as [->|].
    + rewrite step_lookup in Hj. injection Hj as <-. simpl. rewrite <- app_assoc. apply step_program.
    + unfold cpus1 in Hj. rewrite list_lookup_insert_ne in Hj by done. by apply (r_prog s Hr).
  - destruct (is_boot o); [|done]. apply list_lookup_singleton_Some in Hn as [Hn <-]. simpl. f_equal. lia.
Qed.

Lemma step_inited : sys_inited s' = Z.of_nat (length (filter added (sys_cpus s'))).
Proof using All.
  rewrite Hcpus, filter_app, length_app, Hinited, (r_inited s Hr).
  assert (filter added (if is_boot o then [mkCpu [] (program f count primary_id (length cpus1))] else []) = []) as ->.
  { destruct (is_boot o); [|done]. rewrite filter_cons_False; [done|]. apply not_elem_of_nil. }
  pose proof (filter_insert_length _ k _ (mkCpu (done ++ [o]) todo) Hk) as Hl. fold cpus1 in Hl.
  pose proof (added_next k done todo o step_program) as Hn. simpl length.
  rewrite Z.add_comm. destruct (decide (o = Do AddInited)) as [->|Ho].
  - rewrite decide_False in Hl by (intros Hd; by destruct (Hn Hd)).
    rewrite decide_True in Hl by (unfold added; set_solver). lia.
  - destruct (decide (added (mkCpu done (o :: todo)))) as [Hd|Hd]; unfold added in Hd; simpl in Hd;
      [rewrite decide_True in Hl by (unfold added; set_solver)|rewrite decide_False in Hl by (unfold added; set_solver)]; lia.
Qed.

Lemma step_boots : ∃ c, sys_cpus s' !! 0%nat = Some c ∧ length (sys_cpus s') = S (boots (c_done c)).
Proof using All.
  destruct (r_boots s Hr) as (c & H0 & Hl). rewrite Hcpus. destruct (decide (k = 0%nat)) as [Hk0|Hne].
  - pose proof step_lookup as H1. rewrite <- Hk0, Hk in H0. injection H0 as <-. exists (mkCpu (done ++ [o]) todo). split.
    + apply lookup_app_l_Some. by rewrite <- Hk0.
    + simpl in *. rewrite length_app, step_length, Hl, boots_app. unfold boots. simpl. destruct (is_boot o); simpl; lia.
  - exists c. split; [by apply lookup_app_l_Some; unfold cpus1; rewrite list_lookup_insert_ne|].
    pose proof (program_boots k) as Hb. rewrite step_program, boots_app in Hb. unfold boots in Hb. simpl in Hb.
    rewrite length_app, step_length. destruct (is_boot o); simpl in Hb; [destruct k; [done|lia]|simpl; lia].
Qed.

(** Once all are in, all stay in, and none is added. *)
Lemma step_all_in : all_in s → all_in s'.
Proof using All.
  intros [Ha Hl]. pose proof (Forall_lookup_1 _ _ _ _ Ha Hk) as Hd. unfold added in Hd. simpl in Hd.
  destruct (added_next k done todo o step_program Hd) as [_ Hb]. rewrite Hb, app_nil_r in Hcpus.
  unfold all_in. rewrite Hcpus, step_length. split; [|done].
  apply Forall_insert; [done|]. unfold added. simpl. set_solver.
Qed.

(** The processor that finds the barrier open finds all in. *)
Lemma opens_all_in : o = Do WaitInited → all_in s.
Proof using All.
  intros Ho. pose proof (Hwait Ho) as Hn. rewrite (r_inited s Hr) in Hn.
  destruct (r_boots s Hr) as (c & H0 & Hl). pose proof (program_boots 0) as Hb.
  rewrite (r_prog s Hr 0 c H0), boots_app in Hb.
  pose proof (length_filter added (sys_cpus s)) as Hle.
  assert (Hin : mkCpu done (o :: todo) ∈ filter added (sys_cpus s)).
  { apply list_elem_of_filter. split; [|by eapply list_elem_of_lookup_2]. unfold added. simpl.
    pose proof (waited_added k (done ++ [o]) todo) as Hw. rewrite <- app_assoc in Hw.
    specialize (Hw step_program). rewrite Ho in Hw. set_solver. }
  assert (0 < length (filter added (sys_cpus s)))%nat by (destruct (filter added (sys_cpus s)); [set_solver|simpl; lia]).
  split; [apply filter_full|]; lia.
Qed.

Lemma runs_step : runs s'.
Proof using All.
  constructor; [apply step_prog|apply step_inited|apply step_boots|].
  intros c Hc Hw. apply step_all_in. rewrite Hcpus in Hc. apply elem_of_app in Hc as [Hc|Hc].
  - apply list_elem_of_lookup in Hc as [j Hj]. destruct (decide (j = k)) as [->|].
    + rewrite step_lookup in Hj. injection Hj as <-. simpl in Hw. apply elem_of_app in Hw as [Hw|Hw].
      * apply (r_waited s Hr (mkCpu done (o :: todo))); [by eapply list_elem_of_lookup_2|done].
      * apply opens_all_in. by apply list_elem_of_singleton in Hw.
    + unfold cpus1 in Hj. rewrite list_lookup_insert_ne in Hj by done.
      apply (r_waited s Hr c); [by eapply list_elem_of_lookup_2|done].
  - destruct (is_boot o); [|by apply not_elem_of_nil in Hc]. apply list_elem_of_singleton in Hc as ->.
    by apply not_elem_of_nil in Hw.
Qed.
End step.

Lemma runs_cpu_step s s' : runs s → cpu_step f count primary_id s s' → runs s'.
Proof.
  intros Hr [k He]. destruct s as [e n l]. unfold cpu_exec in He. destruct (l !! k) as [[d [|o todo]]|] eqn:Hk; [done| |done].
  apply exec_effect in He as (Hc & Hi & Hw). by apply (runs_step (mkSystem e n l) s' k d todo o).
Qed.

Lemma runs_reachable s : rtc (cpu_step f count primary_id) (system_start f count primary_id) s → runs s.
Proof.
  assert (H0 : runs (system_start f count primary_id)).
  { constructor; [|done|by exists (mkCpu [] (program f count primary_id 0))|].
    - intros [|k] c; [|done]. by intros [= <-].
    - intros c Hc%list_elem_of_singleton Hw. subst. by apply not_elem_of_nil in Hw. }
  revert H0. induction 2; [done|]. eauto using runs_cpu_step.
Qed.
End barrier.

(** C19: Nothing runs before everything is initialised: in every interleaving of the
    processors, each of which runs its own sequence of [rust_main] or
    [rust_main_secondary], as soon as one of them has called [main], gone idle or done
    anything else that comes after the barrier, [count] processors run, and each has done
    all of its initialisation: it is past the increment of [INITED_CPUS], before which its
    sequence has all that it initialises. *)
Theorem main_after_all_initialised f count primary_id s c a :
  rtc (cpu_step f count primary_id) (system_start f count primary_id) s →
  c ∈ sys_cpus s → after_barrier a → Do a ∈ c_done c →
  Z.of_nat (length (sys_cpus s)) = count ∧
  ∀ k c', sys_cpus s !! k = Some c' →
    initialised f count primary_id k ++ [Do AddInited] `prefix_of` c_done c'.
Proof.
  intros Hr%runs_reachable Hc Ha Hin. apply list_elem_of_lookup in Hc as [j Hj].
  assert (all_in count s) as [Hall Hl].
  { apply (r_waited _ _ _ _ Hr c); [by eapply list_elem_of_lookup_2|].
    by eapply after_waited; [apply (r_prog _ _ _ _ Hr j c Hj)| |]. }
  split; [done|]. intros k c' Hk. pose proof (Forall_lookup_1 _ _ _ _ Hall Hk) as Hd.
  destruct (past_initialised f count primary_id k (c_done c') (c_todo c') AddInited) as (l & -> & _);
    [by apply (r_prog _ _ _ _ Hr)|done|set_solver|]. exists l. by rewrite <- app_assoc.
Qed.

(** A message of the log names a processor only when all are initialised. *)
Lemma log_names_cpu f count this m k :
  f_smp f = true → current_cpu_id f count this m = Some k → k = this ∧ inited_cpus m = count.
Proof.
  intros Hs. unfold current_cpu_id, is_init_ok. rewrite Hs. case_bool_decide; [|done]. by intros [= <-].
Qed.

(** Only the secondary processors initialise inter-processor interrupts, for which the
    primary registers the handler. *)
Lemma primary_lacks_ipi_init f :
  f_irq f = true → f_ipi f = true →
  RegisterIrq IpiHandler ∈ rust_main f ∧ AxipiInit ∉ rust_main f ∧ AxipiInit ∈ rust_main_secondary f.
Proof.
  intros Hi Hp. split_and!.
  - unfold rust_main, primary_after, init_interrupt. rewrite Hi, Hp. set_solver.
  - intros Hin. apply (sublist_subseteq _ _ (rust_main_sublist f)) in Hin. revert Hin.
    apply (bool_decide_eq_true_1 _). vm_refl.
  - unfold rust_main_secondary, secondary_init. rewrite Hp. set_solver.
Qed.

(** ** Examples *)
Module RuntimeExamples.

Definition axvisor : features := mkFeatures true true true true true false false true true true false.

(** Two processors, in turn; one that waits is passed over. *)
Definition in_turn (n : nat) (s : system) : system :=
  fold_left (λ s k, default s (cpu_exec axvisor 2 0 k s)) (concat (replicate n [0; 1]%nat)) s.

Lemma in_turn_runs l s : rtc (cpu_step axvisor 2 0) s (fold_left (λ s k, default s (cpu_exec axvisor 2 0 k s)) l s).
Proof.
  revert s. induction l as [|k l IH]; intros s; [done|]. simpl. destruct (cpu_exec axvisor 2 0 k s) as [s1|] eqn:E; [|apply IH].
  eapply rtc_l; [by exists k|]. apply IH.
Qed.

Definition main_called : system := Eval vm_compute in in_turn 40 (system_start axvisor 2 0).

Lemma main_after_all_initialised_witness :
  length (sys_cpus main_called) = 2%nat ∧
  ∀ k c', sys_cpus main_called !! k = Some c' → initialised axvisor 2 0 k ++ [Do AddInited] `prefix_of` c_done c'.
Proof.
  assert (rtc (cpu_step axvisor 2 0) (system_start axvisor 2 0) main_called) as Hr.
  { assert (main_called = in_turn 40 (system_start axvisor 2 0)) as -> by vm_refl. apply in_turn_runs. }
  assert (∃ c, c ∈ sys_cpus main_called ∧ Do CallMain ∈ c_done c) as (c & Hc & Hm).
  { eexists. split; [by left|]. apply (bool_decide_eq_true_1 _). vm_refl. }
  destruct (main_after_all_initialised axvisor 2 0 main_called c CallMain Hr Hc) as [Hl Hk];
    [by left|done|]. split; [lia|done].
Defined.
End RuntimeExamples.
