(* ===== verification/XTask.v ===== *)
(** * The command line of the build tool ([xtask/src/main.rs], [menuconfig.rs], [vmconfig.rs])

    The commands of [xtask] after the command line has been parsed, and [main], which runs
    one of them with the models of [BuildScript], [Clippy], [GuestImages] and [Devspace].
    Each of these has its own view of the files, kept side by side here.  The external build
    tool is asked to build or to run; what it is asked is the result.  The parser of the
    command line, the terminal interface of [menuconfig], the schema that [vmconfig] writes
    and [cargo metadata] are parameters ([ToolHost]). *)

From S2P Require Import Prelude RustStr Command Devspace Clippy GuestImages BuildScript.

(** ** The commands *)

Record BuildArgs : Type := mkBuildArgs {
  ba_build_dir : option string;
  ba_bin_dir : option string;
}.

Record QemuArgs : Type := mkQemuArgs {
  qa_build_config : option string;
  qa_qemu_config : option string;
  qa_vmconfigs : list string;
  qa_build : BuildArgs;
}.

Record UbootArgs : Type := mkUbootArgs {
  ua_build_config : option string;
  ua_uboot_config : option string;
  ua_vmconfigs : list string;
  ua_build : BuildArgs;
}.

Inductive DevspaceCommand : Type := Start | Stop.

Inductive Commands : Type :=
  | CDefconfig (board_name : string)
  | CBuild (args : BuildArgs)
  | CClippy (args : Clippy.ClippyArgs)
  | CQemu (args : QemuArgs)
  | CUboot (args : UbootArgs)
  | CVmconfig
  | CMenuconfig
  | CImage (args : GuestImages.ImageCommands)
  | CDevspace (action : DevspaceCommand).

(** What the external build tool is asked to do. *)
Inductive ostool_call : Type :=
  | CargoBuild (c : BuildScript.Cargo)
  | CargoRun (c : BuildScript.Cargo) (k : CargoRunnerKind).

(** Where the tool runs, what [cargo metadata] reports, the schema of the VM
    configuration, and the menu, which may edit the file and may be cancelled. *)
Class ToolHost : Type := {
  current_dir : option string;
  clippy_metadata : outcome string (list string * list Clippy.Package);
  devspace_metadata : outcome string (list Devspace.Package);
  vmconfig_schema : string;
  jkconfig_run : string → BuildScript.disk → outcome string bool * BuildScript.disk;
}.

Record world (W : Type) : Type := mkWorld {
  w_disk : BuildScript.disk;
  w_images : GuestImages.disk;
  w_space : W;
  w_clippy : Clippy.runner;
}.
Arguments mkWorld {W}.
Arguments w_disk {W}.
Arguments w_images {W}.
Arguments w_space {W}.
Arguments w_clippy {W}.

Section xtask.
Context {W : Type} `{!BuildHost} `{!Clippy.Cargo} `{!GuestImages.Host} `{!Workspace W} `{!ToolHost} `{!OverflowChecks}.
Abbreviation M := (st (world W) string).

(** A command on its view of the files. *)
Definition on_disk {A} (m : st BuildScript.disk string A) : M A := λ w,
  let '(r, d) := m (w_disk w) in (r, mkWorld d (w_images w) (w_space w) (w_clippy w)).
Definition on_images {A} (m : st GuestImages.disk string A) : M A := λ w,
  let '(r, d) := m (w_images w) in (r, mkWorld (w_disk w) d (w_space w) (w_clippy w)).
Definition on_space {A} (m : st W string A) : M A := λ w,
  let '(r, d) := m (w_space w) in (r, mkWorld (w_disk w) (w_images w) d (w_clippy w)).
Definition on_clippy {A} (m : st Clippy.runner string A) : M A := λ w,
  let '(r, d) := m (w_clippy w) in (r, mkWorld (w_disk w) (w_images w) (w_space w) d).

(** ** The commands of the context *)

Definition run_build (c : Context) : st BuildScript.disk string (BuildScript.Cargo * Context) := load_config c.

Definition run_vmconfig : st BuildScript.disk string () :=
  with_context "Failed to write schema file .vmconfig-schema.json"
    (write_file ".vmconfig-schema.json" vmconfig_schema).

Definition run_menuconfig (c : Context) : st BuildScript.disk string () :=
  confirmed ← jkconfig_run (path_join (workspace c) ".build.toml");
  if (confirmed : bool) then mret () else throw "Menuconfig was cancelled".

(** The context of [qemu] and [uboot]: the arguments of the build, the VM configurations and
    the build configuration of the command line. *)
Definition set_args (c : Context) (b : BuildArgs) (vms : list string) (config : option string) : Context :=
  let c := apply_build_args c (ba_build_dir b) (ba_bin_dir b) in
  mkContext (workspace c) (build_dir c) (bin_dir c) (ctx_build_config_path c) config vms.

Definition main (command : Commands) : M (option ostool_call) :=
  ctx ← lift (new_context current_dir);
  match command with
  | CDefconfig board_name => on_disk (defconfig_command board_name);; mret None
  | CBuild args =>
      '(config, _) ← on_disk (run_build (apply_build_args ctx (ba_build_dir args) (ba_bin_dir args)));
      mret (Some (CargoBuild config))
  | CClippy args =>
      '(ids, packages) ← lift clippy_metadata; on_clippy (run_clippy args ids packages);; mret None
  | CQemu args =>
      '(config, kind, _) ← on_disk (run_qemu (set_args ctx (qa_build args) (qa_vmconfigs args) (qa_build_config args))
                                      (qa_qemu_config args));
      mret (Some (CargoRun config kind))
  | CUboot args =>
      '(config, kind, _) ← on_disk (run_uboot (set_args ctx (ua_build args) (ua_vmconfigs args) (ua_build_config args))
                                      (ua_uboot_config args));
      mret (Some (CargoRun config kind))
  | CVmconfig => on_disk run_vmconfig;; mret None
  | CMenuconfig => on_disk (run_menuconfig ctx);; mret None
  | CImage args => on_images (run_image args);; mret None
  | CDevspace Start => packages ← lift devspace_metadata; on_space (Devspace.start packages);; mret None
  | CDevspace Stop => on_space Devspace.stop;; mret None
  end.
End xtask.

(** * Theorems *)

Section theorems.
Context {W : Type} `{!BuildHost} `{!Clippy.Cargo} `{!GuestImages.Host} `{!Workspace W} `{!ToolHost} `{!OverflowChecks}.
Implicit Types (w : world W).

(** The build configuration and the VM configurations on the command line of a command
    that builds. *)
Definition named_configs (command : Commands) : option (option string * list string) :=
  match command with
  | CBuild _ => Some (None, [])
  | CQemu args => Some (qa_build_config args, qa_vmconfigs args)
  | CUboot args => Some (ua_build_config args, ua_vmconfigs args)
  | _ => None
  end.

Definition call_cargo (call : ostool_call) : BuildScript.Cargo :=
  match call with CargoBuild c | CargoRun c _ => c end.

Lemma on_disk_ok {A} (m : st BuildScript.disk string A) w a w' :
  on_disk m w = (Ok a, w') → m (w_disk w) = (Ok a, w_disk w').
Proof. unfold on_disk. destruct (m (w_disk w)) as [r d]. by intros [= -> <-]. Qed.

(** Reading the configuration comes first; what a run adds is a new file. *)
Lemma run_qemu_ok c path d cargo k c' d' :
  run_qemu c path d = (Ok (cargo, k, c'), d') →
  ∃ d1, load_config c d = (Ok (cargo, c'), d1) ∧ ∀ p text, d1 !! p = Some text → d' !! p = Some text.
Proof.
  unfold run_qemu. intros Hr. apply st_bind_ok in Hr as ([cargo' c1] & d1 & Hl & Hr).
  apply st_bind_ok in Hr as (arch & d2 & Ha & Hr).
  assert (d2 = d1) as ->.
  { destruct (str_contains "aarch64" _); [by injection Ha|]. by destruct (str_contains "x86_64" _); [injection Ha|]. }
  cbv zeta in Hr. apply st_bind_ok in Hr as (there & d3 & Ht & Hr). injection Ht as <- <-.
  apply st_bind_ok in Hr as ([] & d4 & Hc & Hr). injection Hr as <- <- <- <-. exists d1. split; [done|].
  intros p text Hp. case_bool_decide as He; [by injection Hc as <-|]. simpl negb in Hc. cbv iota in Hc.
  apply st_bind_ok in Hc as (d5 & d6 & [= <- <-] & Hc). apply st_bind_ok in Hc as (t & d7 & Ht & Hc).
  apply lift_inv in Ht as [_ ->]. unfold write_file in Hc. destruct (BuildScript.can_write _); [|done]. injection Hc as <-.
  rewrite lookup_insert_ne; [done|]. intros Heq. apply He. rewrite Heq. by eexists.
Qed.

Lemma run_uboot_ok c path d cargo k c' d' :
  run_uboot c path d = (Ok (cargo, k, c'), d') → load_config c d = (Ok (cargo, c'), d').
Proof. unfold run_uboot. intros Hr. apply st_bind_ok in Hr as ([cargo' c1] & d1 & Hl & [= <- <- <- <-]). done. Qed.

(** A command that builds loads the configuration in a context with what was named. *)
Lemma main_loads command config vms w call w' :
  named_configs command = Some (config, vms) → main command w = (Ok (Some call), w') →
  ∃ cwd c c' d1, current_dir = Some cwd ∧ workspace c = cwd ∧ build_config_path c = config ∧ vmconfigs c = vms ∧
    load_config c (w_disk w) = (Ok (call_cargo call, c'), d1) ∧
    ∀ p text, d1 !! p = Some text → w_disk w' !! p = Some text.
Proof.
  intros Hn Hm. unfold main in Hm. apply st_bind_ok in Hm as (ctx & w0 & Hc & Hm).
  apply lift_inv in Hc as [Hc ->]. unfold new_context in Hc. destruct current_dir as [cwd|] eqn:Ec; [|done].
  injection Hc as <-. destruct command; simpl in Hn; simplify_eq.
  - apply st_bind_ok in Hm as ([cargo c'] & w1 & Hl & [= <- <-]). apply on_disk_ok in Hl.
    eexists _, _, _, _. split_and!; [..|exact Hl|]; done.
  - apply st_bind_ok in Hm as ([[cargo k] c'] & w1 & Hl & [= <- <-]). apply on_disk_ok, run_qemu_ok in Hl as (d1 & Hl & Hd).
    eexists _, _, _, _. split_and!; [..|exact Hl|exact Hd]; done.
  - apply st_bind_ok in Hm as ([[cargo k] c'] & w1 & Hl & [= <- <-]). apply on_disk_ok, run_uboot_ok in Hl.
    eexists _, _, _, _. split_and!; [..|exact Hl|]; done.
Qed.

(** The tool builds with what it is told: a command that builds or runs and succeeds has
    read the build configuration that was named, [.build.toml] of the current directory if
    none was, and hands over the VM configurations of that file followed by those of the
    command line, each of which, taken as a whole, is the path of an existing file. *)
Theorem tool_hands_over_configs command config vms w call w' :
  named_configs command = Some (config, vms) → main command w = (Ok (Some call), w') →
  ∃ cwd text c, current_dir = Some cwd ∧
    w_disk w' !! default (path_join cwd ".build.toml") config = Some text ∧ parse_config text = Some c ∧
    let paths := (λ p, if BuildScript.is_absolute p then p else path_join cwd p) <$> (c_vm_configs c ++ vms) in
    Forall (λ p, is_Some (w_disk w' !! p)) paths ∧
    cargo_env (call_cargo call) !! "AXVISOR_VM_CONFIGS" = (if is_empty paths then None else join_paths paths).
Proof.
  intros Hn Hm. destruct (main_loads _ _ _ _ _ _ Hn Hm) as (cwd & c & c' & d1 & Hcwd & <- & <- & <- & Hl & Hd).
  apply load_config_ok in Hl as (text & cfg & Ht & Hp & _ & Hall & Hv & _).
  exists (workspace c), text, cfg. split; [done|]. split; [by apply Hd|]. split; [done|].
  split; [|exact Hv]. eapply Forall_impl; [exact Hall|]. intros p [t Hpt]. exists t. by apply Hd.
Qed.

(** A list of VM configurations separated by commas is not taken apart: the command fails
    unless there is a file whose name is the whole list. *)
Lemma comma_list_is_one_path args list_ w call w' cwd :
  qa_vmconfigs args = [list_] → current_dir = Some cwd → BuildScript.is_absolute list_ = false →
  main (CQemu args) w = (Ok (Some call), w') → is_Some (w_disk w' !! path_join cwd list_).
Proof.
  intros Hv Hc Ha Hm. destruct (main_loads (CQemu args) _ _ _ _ _ eq_refl Hm)
    as (cwd' & c & c' & d1 & Hcwd & <- & _ & Hvm & Hl & Hd).
  apply load_config_ok in Hl as (text & cfg & _ & _ & _ & Hall & _). cbv zeta in Hall. rewrite Hc in Hcwd. injection Hcwd as ->.
  rewrite Hvm, Hv in Hall. apply Forall_fmap, Forall_app in Hall as [_ [Hx _]%Forall_cons].
  unfold compose, config_file_path in Hx. rewrite Ha in Hx. destruct Hx as [t Hx]. exists t. by apply Hd.
Qed.
End theorems.

(** ** Examples *)
Module XTaskExamples.

#[local] Existing Instances BuildExamples.tool ClippyExamples.passing GuestImagesExamples.toy DevspaceExamples.files.
#[local] Instance toy_checks : OverflowChecks := true.
#[local] Instance toy_tool : ToolHost := {|
  current_dir := Some "/ws";
  clippy_metadata := Ok ([], []);
  devspace_metadata := Ok [];
  vmconfig_schema := "{}";
  jkconfig_run _ d := (Ok true, d);
|}.

Definition uboot : Commands := CUboot (mkUbootArgs None None ["/tmp/linux.toml"] (mkBuildArgs None None)).
Definition before : world (gmap string string) :=
  mkWorld BuildExamples.files GuestImagesExamples.empty_disk ∅ ClippyExamples.start.
Definition after := main uboot before.
Definition call : ostool_call :=
  match after.1 with Ok (Some c) => c | _ => CargoBuild BuildExamples.result.1 end.

Lemma tool_hands_over_configs_witness :
  cargo_env (call_cargo call) !! "AXVISOR_VM_CONFIGS" = Some "/ws/configs/vms/arceos.toml:/tmp/linux.toml".
Proof.
  destruct (tool_hands_over_configs uboot None ["/tmp/linux.toml"] before call after.2)
    as (cwd & text & c & [= <-] & _ & [= <-] & _ & Hv); [reflexivity|apply run_pair; vm_refl|exact Hv].
Defined.
End XTaskExamples.
