(* ===== verification/FdtPrint.v ===== *)
(** * Printing device trees ([kernel/src/vmm/fdt/print.rs])

    The two functions that print a device tree and statistics of its nodes.  Messages are
    constructors with the values that are printed; the percentages, which are computed in
    floating point from the counts, are left out.  [FdtHeader] and [Fdt] belong to
    [fdt_parser]. *)

From S2P Require Import Prelude Disk FdtTree FdtWrite.

Inductive line : Type :=
  | BadMagic (expected got : Z)
  | NodeLine (number : Z) (name : string) (level properties : Z)
  | PropLine (name : string) (raw_value : list u8)
  | TotalNodes (n : Z)
  | TotalSize (n : Z)
  | MaximumLevel (n : Z)
  | LevelLine (level count : Z).

Record statistics : Type := mkStatistics {
  node_count : Z;
  level_counts : gmap Z Z;
  max_level : Z;
}.

Definition no_statistics : statistics := mkStatistics 0 ∅ 0.

(** What an iteration of the loop counts. *)
Definition count_node (s : statistics) (node : fdt_node) : statistics :=
  let level := n_level node in
  mkStatistics (node_count s + 1)
    (<[level := default 0 (level_counts s !! level) + 1]> (level_counts s))
    (if bool_decide (level > max_level s) then level else max_level s).

(** What it prints. *)
Definition node_lines (number : Z) (node : fdt_node) : list line :=
  let props := nd_props (n_data node) in
  NodeLine number (n_name node) (n_level node) (Z.of_nat (length props)) ::
  ((λ p, PropLine (pr_name p) (pr_raw p)) <$> props).

Fixpoint node_loop (s : statistics) (nodes : list fdt_node) : statistics * list line :=
  match nodes with
  | [] => (s, [])
  | node :: nodes =>
      let s := count_node s node in
      let '(s', ls) := node_loop s nodes in (s', node_lines (node_count s) node ++ ls)
  end.

Definition level_lines (s : statistics) : list line :=
  (λ '(level, count), LevelLine level count) <$> btree_iter (level_counts s).

Section print.
Context `{FdtParser}.

Definition print_guest_fdt (fdt_bytes : list u8) : outcome AxError (list line) :=
  nodes ← unwrap (from_bytes fdt_bytes);
  let '(s, ls) := node_loop no_statistics nodes in
  Ok (ls ++ [TotalNodes (node_count s); MaximumLevel (max_level s)] ++ level_lines s).

Definition FDT_VALID_MAGIC : Z := 0xd00dfeed.

(** The header that is found at the address, magic and total size, if it can be parsed, and
    the bytes there. *)
Definition print_fdt (header : option (Z * Z)) (memory : Z → list u8) : outcome AxError (list line) :=
  '(magic, total_size) ← unwrap header;
  if bool_decide (magic ≠ FDT_VALID_MAGIC) then Ok [BadMagic FDT_VALID_MAGIC magic]
  else
    nodes ← unwrap (from_bytes (memory total_size));
    let '(s, ls) := node_loop no_statistics nodes in
    Ok (ls ++ [TotalNodes (node_count s); TotalSize total_size; MaximumLevel (max_level s)] ++ level_lines s).
End print.

(** * Theorems *)

(** The number of nodes of a level. *)
Definition at_level (l : Z) (nodes : list fdt_node) : Z :=
  Z.of_nat (length (filter (λ n, n_level n = l) nodes)).

Lemma at_level_snoc l nodes node :
  at_level l (nodes ++ [node]) = at_level l nodes + if bool_decide (n_level node = l) then 1 else 0.
Proof.
  unfold at_level. rewrite filter_app, length_app, filter_cons, filter_nil.
  case_decide; case_bool_decide; simpl; lia || done.
Qed.

(** Statistics that are right for the nodes that were seen. *)
Record stats_ok (s : statistics) (nodes : list fdt_node) : Prop := {
  so_count : node_count s = Z.of_nat (length nodes);
  so_levels l : default 0 (level_counts s !! l) = at_level l nodes;
  so_present l : is_Some (level_counts s !! l) ↔ 0 < at_level l nodes;
  so_bound : Forall (λ n, n_level n ≤ max_level s) nodes;
  so_max : max_level s = 0 ∨ ∃ n, n ∈ nodes ∧ n_level n = max_level s;
}.

Lemma count_node_ok s nodes node : stats_ok s nodes → stats_ok (count_node s node) (nodes ++ [node]).
Proof.
  intros [Hc Hl Hp Hb Hm]. split; simpl.
  - rewrite Hc, length_app. simpl. lia.
  - intros l. rewrite at_level_snoc. case_bool_decide as E.
    + rewrite E, lookup_insert_eq. simpl. by rewrite <- E, Hl.
    + rewrite lookup_insert_ne by done. rewrite Hl. lia.
  - intros l. rewrite at_level_snoc. case_bool_decide as E.
    + rewrite E, lookup_insert_eq. unfold at_level. split; [lia|by eexists].
    + rewrite lookup_insert_ne by done. rewrite Hp. by rewrite Z.add_0_r.
  - apply Forall_app. split; [eapply Forall_impl; [exact Hb|]; intros n Hn; simpl in Hn|constructor; [|constructor]];
      case_bool_decide; lia.
  - case_bool_decide as E.
    + right. exists node. split; [|done]. apply elem_of_app. right. apply list_elem_of_here.
    + destruct Hm as [->|(n & Hn & Hx)]; [by left|]. right. exists n. split; [|done]. apply elem_of_app. by left.
Qed.

Lemma node_loop_ok s seen nodes : stats_ok s seen → stats_ok (node_loop s nodes).1 (seen ++ nodes).
Proof.
  revert s seen. induction nodes as [|node nodes IH]; intros s seen Hs; simpl; [by rewrite app_nil_r|].
  specialize (IH _ _ (count_node_ok _ _ node Hs)). destruct (node_loop _ nodes). simpl in *.
  by rewrite <- app_assoc in IH.
Qed.

(** The statistics are right: of every tree that can be parsed, both functions print the
    number of its nodes, the greatest level, and for exactly the levels that occur, once
    each, the number of nodes of that level. *)
Theorem printed_statistics_exact `{FdtParser} fdt_bytes nodes n :
  from_bytes fdt_bytes = Some nodes → ∃ ls m levels,
    print_guest_fdt fdt_bytes = Ok (ls ++ [TotalNodes (Z.of_nat (length nodes)); MaximumLevel m] ++ levels) ∧
    print_fdt (Some (FDT_VALID_MAGIC, n)) (λ _, fdt_bytes) =
      Ok (ls ++ [TotalNodes (Z.of_nat (length nodes)); TotalSize n; MaximumLevel m] ++ levels) ∧
    Forall (λ n, n_level n ≤ m) nodes ∧ (m = 0 ∨ ∃ n, n ∈ nodes ∧ n_level n = m) ∧
    NoDup levels ∧ ∀ x, x ∈ levels ↔ ∃ l, x = LevelLine l (at_level l nodes) ∧ 0 < at_level l nodes.
Proof.
  intros Hf. unfold print_guest_fdt, print_fdt. rewrite Hf. simpl.
  pose proof (node_loop_ok no_statistics [] nodes) as Hs. destruct (node_loop no_statistics nodes) as [s ls].
  destruct Hs as [Hc Hl Hp Hb Hm].
  { split; simpl; [done| | |constructor|by left]; intros l; rewrite lookup_empty; [done|].
    unfold at_level. simpl. split; [by intros []|lia]. }
  simpl in *. exists ls, (max_level s), (level_lines s). rewrite Hc. split_and!; [done..| |].
  - unfold level_lines. apply NoDup_fmap_2_strong; [|eapply NoDup_fmap_1, btree_iter_nodup].
    by intros [] [] _ _ [= -> ->].
  - intros x. unfold level_lines. rewrite list_elem_of_fmap. split.
    + intros ([l c] & -> & Hin%elem_of_btree_iter). exists l.
      assert (c = at_level l nodes) as -> by (rewrite <- Hl, Hin; done). split; [done|]. apply Hp. by eexists.
    + intros (l & -> & Hpos). apply Hp in Hpos as [c Hlc]. exists (l, c). split; [|by apply elem_of_btree_iter].
      f_equal. by rewrite <- Hl, Hlc.
Qed.

(** ** Examples *)
Module PrintExamples.
Definition leaf (level : Z) (name : string) : fdt_node := mkNode level (mkData name [] None None None).
Definition tree : list fdt_node := [leaf 1 "/"; leaf 2 "cpus"; leaf 3 "cpu@0"; leaf 2 "memory"].
#[local] Instance toy_parser : FdtParser := {| from_bytes _ := Some tree; prop_str _ := "" |}.

Lemma printed_statistics_exact_witness : ∃ ls levels,
  print_guest_fdt [] = Ok (ls ++ [TotalNodes 4; MaximumLevel 3] ++ levels) ∧ LevelLine 2 2 ∈ levels.
Proof.
  destruct (printed_statistics_exact [] tree 0) as (ls & m & levels & Hp & _ & Hb & Hm & _ & Hl); [reflexivity|].
  assert (m = 3) as ->.
  { apply Forall_forall with (x := leaf 3 "cpu@0") in Hb; [|by do 2 right; left]. simpl in Hb.
    destruct Hm as [->|(n & Hn & <-)]; [lia|]. revert Hn. unfold tree. rewrite !elem_of_cons, elem_of_nil.
    intros [->|[->|[->|[->|[]]]]]; simpl in *; lia. }
  exists ls, levels. split; [exact Hp|]. apply Hl. by exists 2.
Defined.
End PrintExamples.
