(* ===== verification/AxConfig.v ===== *)
(** * Build-time constants ([modules/axconfig/src/lib.rs])

    The constants that the runtime and the platforms share, and what depends on them: that
    they agree with the x86 platform, and that the periodic timer of the runtime, whose
    interval is one of them, never asks the platform for a deadline it cannot set. *)

From S2P Require Import Prelude Boot X86Plat.

Definition ARCH : string := "aarch64".
Definition PACKAGE : string := "axplat-aarch64-generic".
Definition PLATFORM : string := "aarch64-generic".
Definition TASK_STACK_SIZE : Z := 0x40000.
Definition TICKS_PER_SEC : Z := 100.

(** The module [devices]. *)
Record device_config : Type := mkDevices {
  MMIO_REGIONS : list (Z * Z);
  PCI_BUS_END : Z;
  PCI_ECAM_BASE : Z;
  PCI_RANGES : list (Z * Z);
  TIMER_IRQ : Z;
  VIRTIO_MMIO_REGIONS : list (Z * Z);
}.

Definition devices : device_config := {|
  MMIO_REGIONS := [(0xb0000000, 0x10000000); (0xfe000000, 0xc00000); (0xfec00000, 0x1000);
                   (0xfed00000, 0x1000); (0xfee00000, 0x1000)];
  PCI_BUS_END := 0xff;
  PCI_ECAM_BASE := 0xb0000000;
  PCI_RANGES := [];
  TIMER_IRQ := 0xf0;
  VIRTIO_MMIO_REGIONS := [];
|}.

(** The module [plat]. *)
Record plat_config : Type := mkPlat {
  CPU_NUM : Z;
  FAMILY : string;
  KERNEL_ASPACE_BASE : Z;
  KERNEL_ASPACE_SIZE : Z;
  KERNEL_BASE_PADDR : Z;
  KERNEL_BASE_VADDR : Z;
  PHYS_BUS_OFFSET : Z;
  PHYS_MEMORY_BASE : Z;
  PHYS_MEMORY_SIZE : Z;
  CONFIG_PHYS_VIRT_OFFSET : Z;
}.

Definition plat : plat_config := {|
  CPU_NUM := 16;
  FAMILY := "";
  KERNEL_ASPACE_BASE := 0xffff800000000000;
  KERNEL_ASPACE_SIZE := 0x00007ffffffff000;
  KERNEL_BASE_PADDR := 0x200000;
  KERNEL_BASE_VADDR := 0xffff800000200000;
  PHYS_BUS_OFFSET := 0;
  PHYS_MEMORY_BASE := 0;
  PHYS_MEMORY_SIZE := 0;
  CONFIG_PHYS_VIRT_OFFSET := 0;
|}.

(** [PERIODIC_INTERVAL_NANOS] of [init_interrupt]. *)
Definition PERIODIC_INTERVAL_NANOS : Z := NANOS_PER_SEC / TICKS_PER_SEC.

(** * Theorems *)

(** The constants are those of the x86 platform, apart from the ranges of its PCI devices
    and the offset of the direct map. *)
Lemma constants_agree :
  MMIO_REGIONS devices = take 5 MMIO_RANGES ∧ TIMER_IRQ devices = APIC_TIMER_VECTOR ∧
  (KERNEL_ASPACE_BASE plat, KERNEL_ASPACE_SIZE plat) = kernel_aspace ∧
  KERNEL_BASE_VADDR plat = KERNEL_BASE_PADDR plat + PHYS_VIRT_OFFSET ∧
  CONFIG_PHYS_VIRT_OFFSET plat ≠ PHYS_VIRT_OFFSET ∧ MAX_CPU_NUM < CPU_NUM plat.
Proof. by vm_compute. Qed.

(** ** The periodic timer *)

Section timer.
Context `{!OverflowChecks} `{!Ratio} `{!RatioOk}.

(** The state of a processor's timer: the stored deadline and the one programmed last.  An
    interrupt comes when the timer fires, not before the deadline. *)
Inductive tick : relation (Z * Z) :=
  | timer_fires deadline last now programmed next :
      last ≤ now < 2 ^ 63 → update_timer PERIODIC_INTERVAL_NANOS now deadline = Ok (programmed, next) →
      tick (deadline, last) (next, programmed).

Lemma interval_value : PERIODIC_INTERVAL_NANOS = 10000000.
Proof. reflexivity. Qed.

Lemma update_near deadline last now :
  0 ≤ deadline ≤ last + 10000000 → 0 ≤ last ≤ now → now < 2 ^ 63 →
  ∃ p, update_timer PERIODIC_INTERVAL_NANOS now deadline = Ok (p, p + 10000000) ∧ now < p ≤ now + 10000000.
Proof.
  intros Hd Hl Hn. rewrite interval_value. unfold update_timer, usize_add. case_bool_decide.
  - exists (now + 10000000). rewrite !checked_ok by (unfold in_usize, usize_max; lia). orun.
    rewrite checked_ok by (unfold in_usize, usize_max; lia). split; [done|lia].
  - exists deadline. orun. rewrite checked_ok by (unfold in_usize, usize_max; lia). split; [done|lia].
Qed.

Lemma tick_inv s : rtc tick (0, 0) s → 0 ≤ s.1 ≤ s.2 + 10000000 ∧ 0 ≤ s.2.
Proof.
  intros Hr. assert (Hinit : 0 ≤ (0, 0).1 ≤ (0, 0).2 + 10000000 ∧ 0 ≤ (0, 0).2) by (simpl; lia).
  revert Hinit. induction Hr as [|x y z [d l now p next Hn Hu] _ IH]; [done|]. intros [Hd Hl]. simpl in *. apply IH.
  destruct (update_near d l now) as (p' & Hu' & Hp); [lia..|]. rewrite Hu in Hu'. injection Hu' as -> ->. simpl. lia.
Qed.

(** C39: The periodic timer is never lost: at every timer interrupt the runtime finds a deadline
    less than or exactly one interval ahead, and the platform can set it, however late it
    gets to it; the limit of 4.3 seconds of the x86 platform is never reached. *)
Theorem periodic_timer_set deadline last now t tsc :
  rtc tick (0, 0) (deadline, last) → last ≤ now < 2 ^ 63 →
  0 < CPU_FREQ_MHZ t → 0 ≤ tsc - INIT_TICK t → in_usize ((tsc - INIT_TICK t) * 1000) →
  let later := (tsc - INIT_TICK t) * 1000 / CPU_FREQ_MHZ t in
  now ≤ later →
  ∃ p next, update_timer PERIODIC_INTERVAL_NANOS now deadline = Ok (p, next) ∧
    now < p ≤ now + PERIODIC_INTERVAL_NANOS ∧ rtc tick (0, 0) (next, p) ∧
    set_oneshot_timer t tsc p = Ok (if bool_decide (p ≤ later) then 1 else p - later).
Proof.
  intros Hr Hn Hf Ht Hu later Hl. destruct (tick_inv _ Hr) as [Hd Hlast]. simpl in Hd, Hlast.
  destruct (update_near deadline last now) as (p & Hup & Hp); [lia..|].
  exists p, (p + 10000000). rewrite interval_value. split_and!; [done|lia|lia| |].
  - eapply rtc_r; [exact Hr|]. by apply (timer_fires _ _ now).
  - rewrite oneshot_set by done. fold later. repeat case_bool_decide; try lia; done.
Qed.
End timer.

(** ** Examples *)
Module AxConfigExamples.
#[local] Existing Instances X86Examples.toy_checks X86Examples.toy_ratio X86Examples.toy_ratio_ok.

Lemma periodic_timer_set_witness : ∃ p next,
  update_timer PERIODIC_INTERVAL_NANOS 5000 0 = Ok (p, next) ∧ 5000 < p.
Proof.
  destruct (periodic_timer_set 0 0 5000 (mkTime 0 4000 0) 40000) as (p & next & Hu & Hp & _);
    [apply rtc_refl|lia|by vm_compute|by vm_compute|by split; vm_compute|by vm_compute|].
  exists p, next. split; [exact Hu|apply Hp].
Defined.
End AxConfigExamples.
