(* ===== verification/ApiFiles.v ===== *)
(** * Whole files ([read], [read_to_string] and [write] of [modules/axfs/src/api/mod.rs])

    The functions that read or write a file in one call.  They open a file of [Fops] and
    use the methods [read_to_end], [read_to_string] and [write_all] that the traits of
    [axio] provide for every reader and writer; that crate is a parameter with its
    documented behaviour ([AxIo], [AxIoOk]). *)

From Stdlib Require Import Ascii Strings.Byte.
From S2P Require Import Prelude RustStr Disk Vfs RootFs Fops Api.

(** A reader fills a buffer and a writer takes a buffer, and both return a count. *)
Abbreviation reader S := (list u8 → st S AxError (Z * list u8)).
Abbreviation writer S := (list u8 → st S AxError Z).

(** [vec_max] is the size of the largest vector that can be allocated. *)
Class AxIo : Type := {
  vec_max : Z;
  read_to_end : ∀ S, reader S → st S AxError (list u8);
  read_to_string : ∀ S, reader S → st S AxError string;
  write_all : ∀ S, writer S → list u8 → st S AxError ();
}.
Arguments read_to_end {_ S}.
Arguments read_to_string {_ S}.
Arguments write_all {_ S}.

(** [J rest s]: the reader has [rest] left in the state [s], and every read of a buffer
    that is not empty returns some of it, nothing only at the end. *)
Definition serves {S} (read : reader S) (J : list u8 → S → Prop) : Prop :=
  ∀ rest s buf, J rest s → buf ≠ [] → ∃ n buf' s',
    read buf s = (Ok (n, buf'), s') ∧ 0 ≤ n ≤ len buf ∧ take (Z.to_nat n) buf' = take (Z.to_nat n) rest ∧
    n ≤ len rest ∧ (n = 0 → rest = []) ∧ J (drop (Z.to_nat n) rest) s'.

(** [J rest s]: [rest] is still to be written, and every write takes some of it. *)
Definition takes {S} (write : writer S) (J : list u8 → S → Prop) : Prop :=
  ∀ rest s, J rest s → rest ≠ [] → ∃ n s',
    write rest s = (Ok n, s') ∧ 0 < n ≤ len rest ∧ J (drop (Z.to_nat n) rest) s'.

(** What the methods are documented to do: read until the reader has nothing left, and
    refuse what is not UTF-8; write until everything is written. *)
Class AxIoOk `{!AxIo} : Prop := {
  read_to_end_ok {S} (read : reader S) J data s :
    serves read J → J data s → len data ≤ vec_max → ∃ s', read_to_end read s = (Ok data, s') ∧ J [] s';
  read_to_string_ok {S} (read : reader S) J data s :
    serves read J → J data s → len data ≤ vec_max → ∃ s', J [] s' ∧
      read_to_string read s = (if is_utf8 (String.string_of_list_byte data) then Ok (String.string_of_list_byte data)
                               else Err InvalidData, s');
  write_all_ok {S} (write : writer S) J data s :
    takes write J → J data s → ∃ s', write_all write data s = (Ok (), s') ∧ J [] s';
}.

Section api.
Context `{OverflowChecks} {W F N Cap : Type} `{!Vfs W F N, !CapAccess Cap, !AxIo}.

Abbreviation root_state := (root_st (W:=W) (F:=F) (N:=N)).
Abbreviation io := (st root_state AxError).
Abbreviation ofile := (OFile (N:=N) (Cap:=Cap)).

(** Code with a file that is dropped at the end, whatever the result. *)
Definition with_file {A} (f : ofile) (m : st (ofile * root_state) AxError A) : io A := λ s,
  let '(r, (f', s')) := m (f, s) in (r, file_drop f' s').

(** [file.metadata().map(|m| m.len()).unwrap_or(0)], and [with_capacity] of that size. *)
Definition with_capacity : st (ofile * root_state) AxError () :=
  f ← gets fst;
  attr ← attempt (on_root (api_file_metadata f));
  if bool_decide (default 0 (a_size <$> attr) ≤ vec_max) then mret () else panic.

Definition api_read (path : string) : io (list u8) :=
  file ← api_open path;
  with_file file (with_capacity;; read_to_end file_read).

Definition api_read_to_string (path : string) : io string :=
  file ← api_open path;
  with_file file (with_capacity;; read_to_string file_read).

Definition api_write (path : string) (contents : list u8) : io () :=
  file ← api_create path;
  with_file file (write_all file_write contents).
End api.

(** * Theorems *)

Section theorems.
Context `{OverflowChecks} {W F N Cap : Type}.
Context `{!Vfs W F N, !CapAccess Cap, !CapAccessOk Cap, !AxIo, !AxIoOk}.
Implicit Types (f : OFile (N:=N) (Cap:=Cap)) (s : root_st (W:=W) (F:=F) (N:=N)).

(** [path] names a readable and writable file: in every state with [I s bytes] the path
    is found, its node stores the bytes, and opening, releasing and truncating work. *)
Record file_at (path : string) (node : VfsNodeRef (N:=N))
    (I : root_st (W:=W) (F:=F) (N:=N) → list u8 → Prop) : Prop := {
  fa_stores : stores node I;
  fa_lookup s bytes : I s bytes → ∃ s', lookup None path s = (Ok node, s') ∧ I s' bytes;
  fa_attr s bytes : I s bytes → ∃ a s', nref_get_attr node s = (Ok a, s') ∧ I s' bytes ∧
    attr_is_dir a = false ∧ owner_readable (a_perm a) = true ∧ owner_writable (a_perm a) = true;
  fa_open s bytes : I s bytes → ∃ s', nref_open node s = (Ok (), s') ∧ I s' bytes;
  fa_release s bytes : I s bytes → I (nref_release node s).2 bytes;
  fa_truncate s bytes : I s bytes → ∃ s', nref_truncate node 0 s = (Ok (), s') ∧ I s' [];
}.

Lemma perm_allows perm o :
  owner_readable perm = true → owner_writable perm = true →
  cap_contains (perm_to_cap (Cap:=Cap) perm) (options_cap o) = true.
Proof.
  intros Hr Hw. apply cap_contains_spec. intros fl. rewrite options_cap_has.
  unfold perm_to_cap. rewrite Hr, Hw.
  destruct fl; [| |done]; destruct (owner_executable perm); rewrite ?cap_has_or, ?cap_has_read, ?cap_has_write, ?orb_true_r; done.
Qed.

(** Opening an existing file. *)
Lemma file_open_run path node I o s bytes :
  file_at path node I → I s bytes → is_valid o = true → o_create_new o = false →
  ∃ s', file_open path o s = (Ok (mkOFile node (options_cap (Cap:=Cap) o) (o_append o) 0), s') ∧
    I s' (if o_truncate o then [] else bytes).
Proof.
  intros Hf HI Hv Hn. destruct (fa_lookup _ _ _ Hf s bytes HI) as (s1 & Hl & HI1).
  destruct (fa_attr _ _ _ Hf s1 bytes HI1) as (a & s2 & Ha & HI2 & Hd & Hr & Hw).
  destruct (fa_open _ _ _ Hf s2 bytes HI2) as (s3 & Ho & HI3).
  unfold file_open, file_open_at. rewrite Hv. cbn [negb].
  assert (Hon : on_result (lookup None path) (λ node_option,
      if o_create o || o_create_new o then
        match node_option with
        | inr node => if o_create_new o then throw AlreadyExists else mret node
        | inl NotFound => create_file None path
        | inl e => throw e
        end
      else match node_option with inr node => mret node | inl e => throw e end) s = (Ok node, s1)).
  { unfold on_result. rewrite Hl. rewrite Hn. by destruct (o_create o). }
  erewrite bind_run by exact Hon. erewrite bind_run by exact Ha. rewrite Hd. cbn [andb].
  rewrite perm_allows by done. cbn [negb]. erewrite bind_run by exact Ho. destruct (o_truncate o).
  - destruct (fa_truncate _ _ _ Hf s3 bytes HI3) as (s4 & Ht & HI4). exists s4. by erewrite bind_run by exact Ht.
  - exists s3. by erewrite bind_run by done.
Qed.

Lemma access_read f : cap_has (fl_cap f) CapRead = true → file_access f cap_READ = Ok (fl_node f).
Proof. intros Hr. unfold file_access. by rewrite (access_flag _ _ _ CapRead), Hr by apply cap_has_read. Qed.

Lemma access_write f : cap_has (fl_cap f) CapWrite = true → file_access f cap_WRITE = Ok (fl_node f).
Proof. intros Hw. unfold file_access. by rewrite (access_flag _ _ _ CapWrite), Hw by apply cap_has_write. Qed.

Lemma with_capacity_run node I f s bytes :
  stores node I → fl_node f = node → I s bytes → len bytes ≤ vec_max →
  ∃ s', with_capacity (f, s) = (Ok (), (f, s')) ∧ I s' bytes.
Proof.
  intros Hn <- HI Hl. destruct (stores_attr _ _ Hn s bytes HI) as (a & s' & Ha & Hsz & HI'). exists s'. split; [|done].
  unfold with_capacity, api_file_metadata, file_get_attr, file_access, attempt, on_root. st_run. cbn [fst].
  rewrite access_none, Ha. simpl. by rewrite Hsz, bool_decide_eq_true_2.
Qed.

(** What is left to read, and what is left to write. *)
Definition reading (node : VfsNodeRef (N:=N)) (I : root_st (W:=W) (F:=F) (N:=N) → list u8 → Prop) (data rest : list u8)
    (k : OFile (N:=N) (Cap:=Cap) * root_st (W:=W) (F:=F) (N:=N)) : Prop :=
  ∃ pre, data = pre ++ rest ∧ fl_node k.1 = node ∧ cap_has (fl_cap k.1) CapRead = true ∧
    fl_offset k.1 = len pre ∧ I k.2 data.

Definition writing (node : VfsNodeRef (N:=N)) (I : root_st (W:=W) (F:=F) (N:=N) → list u8 → Prop) (data rest : list u8)
    (k : OFile (N:=N) (Cap:=Cap) * root_st (W:=W) (F:=F) (N:=N)) : Prop :=
  ∃ pre, data = pre ++ rest ∧ fl_node k.1 = node ∧ cap_has (fl_cap k.1) CapWrite = true ∧
    fl_append k.1 = false ∧ fl_offset k.1 = len pre ∧ I k.2 pre.

Lemma file_read_serves node I data :
  stores node I → in_usize (len data) → serves file_read (reading node I data).
Proof.
  intros Hn Hu rest [f s] buf (pre & -> & <- & Hc & Ho & HI) Hb. simpl in *.
  destruct (stores_read _ _ Hn s _ (fl_offset f) buf HI) as (s' & Hr & HI'); [rewrite Ho; apply len_nonneg|].
  rewrite Ho in Hr. set (k := ((len (pre ++ rest) - len pre) `max` 0) `min` len buf) in *.
  assert (Hk : k = len rest `min` len buf).
  { unfold k, len. rewrite length_app. lia. }
  pose proof (len_nonneg rest). pose proof (len_nonneg buf). pose proof (len_nonneg pre).
  assert (Hsub : sub (len pre) k (pre ++ rest) = take (Z.to_nat k) rest).
  { unfold sub, len. rewrite drop_app_length'; [done|lia]. }
  assert (Hbuf : 0 < len buf) by (destruct buf; [done|unfold len; simpl; lia]).
  eexists k, _, (mkOFile (fl_node f) (fl_cap f) (fl_append f) (len pre + k), s'). split.
  { unfold file_read, on_root, set_offset. st_run. cbn [fst]. rewrite access_read, Ho, Hr by done.
    unfold usize_add. rewrite checked_ok; [done|]. unfold in_usize, len in *. rewrite length_app in Hu. lia. }
  split_and!; [lia|lia| |lia| |].
  - rewrite Hsub. unfold splice. simpl. rewrite take_app_le; [by rewrite take_take, Nat.min_id|].
    rewrite length_take. unfold len in *. lia.
  - intros Hk0. destruct rest; [done|]. unfold len in *. simpl in *. lia.
  - exists (pre ++ take (Z.to_nat k) rest). rewrite <- app_assoc, take_drop. split_and!; try done. simpl.
    unfold len in *. rewrite length_app, length_take. lia.
Qed.

Lemma file_write_takes node I data :
  stores node I → in_usize (len data) → takes file_write (writing node I data).
Proof.
  intros Hn Hu rest [f s] (pre & -> & <- & Hc & Ha & Ho & HI) Hr. simpl in *.
  pose proof (len_nonneg pre).
  destruct (stores_write _ _ Hn s pre (fl_offset f) rest HI) as (s' & Hw & HI'); [lia|]. rewrite Ho in *.
  assert (Hsp : splice (len pre) rest pre = pre ++ rest).
  { unfold splice, len. rewrite take_ge, drop_ge by lia. by rewrite app_nil_r. }
  rewrite Hsp in HI'. exists (len rest), (mkOFile (fl_node f) (fl_cap f) (fl_append f) (len pre + len rest), s'). split.
  { unfold file_write, on_root, set_offset. st_run. cbn [fst]. rewrite Ha, Ho, access_write, Hw by done.
    unfold usize_add. rewrite checked_ok; [by rewrite Ha|]. unfold in_usize, len in *. rewrite length_app in Hu. lia. }
  split; [destruct rest; [done|unfold len; simpl; lia]|].
  exists (pre ++ rest). rewrite drop_ge by (unfold len; lia). rewrite app_nil_r. split_and!; try done. simpl.
  unfold len. rewrite length_app. lia.
Qed.

Lemma write_file_run path node I s bytes contents :
  file_at path node I → I s bytes → in_usize (len contents) →
  ∃ s', api_write (Cap:=Cap) path contents s = (Ok (), s') ∧ I s' contents.
Proof.
  intros Hf HI Hu.
  destruct (file_open_run path node I (set_truncate true (set_create true (set_write true options_new))) s bytes)
    as (s1 & Ho & HI1); [done..|]. simpl in HI1.
  destruct (write_all_ok (S:=OFile (N:=N) (Cap:=Cap) * root_st (W:=W) (F:=F) (N:=N)) file_write
    (writing node I contents) contents (mkOFile node (options_cap (set_truncate true (set_create true (set_write true options_new)))) false 0, s1))
    as ([f' s2] & Hw & pre & Hpre & Hnode & _ & _ & _ & HI2).
  { by apply file_write_takes; [apply (fa_stores _ _ _ Hf)|]. }
  { exists []. split_and!; try done. simpl. by rewrite options_cap_has. }
  rewrite app_nil_r in Hpre. simpl in *. subst pre.
  exists (file_drop f' s2). split.
  - unfold api_write, api_create. erewrite bind_run by exact Ho. unfold with_file. by rewrite Hw.
  - unfold file_drop. rewrite Hnode. by apply (fa_release _ _ _ Hf).
Qed.

(** Opening for reading, and what reading leaves behind. *)
Lemma read_file_run {A} path node I s bytes (m : st (OFile (N:=N) (Cap:=Cap) * root_st (W:=W) (F:=F) (N:=N)) AxError A) r :
  file_at path node I → I s bytes → in_usize (len bytes) → len bytes ≤ vec_max →
  (∀ k, reading node I bytes bytes k → ∃ k', m k = (r, k') ∧ reading node I bytes [] k') →
  ∃ s', (file ← api_open path; with_file file (with_capacity;; m)) s = (r, s') ∧ I s' bytes.
Proof.
  intros Hf HI Hu Hmax Hm.
  destruct (file_open_run path node I (set_read true options_new) s bytes) as (s1 & Ho & HI1); [done..|].
  simpl in HI1. set (f := mkOFile node _ _ _) in Ho.
  destruct (with_capacity_run node I f s1 bytes) as (s2 & Hc & HI2); [apply (fa_stores _ _ _ Hf)|done..|].
  destruct (Hm (f, s2)) as ([f' s3] & Hr & pre & Hpre & Hnode & _ & _ & HI3).
  { exists []. split_and!; try done. simpl. by rewrite options_cap_has. }
  rewrite app_nil_r in Hpre. simpl in *. subst pre. exists (file_drop f' s3). split.
  - unfold api_open. erewrite bind_run by exact Ho. unfold with_file. erewrite bind_run by exact Hc. by rewrite Hr.
  - unfold file_drop. rewrite Hnode. by apply (fa_release _ _ _ Hf).
Qed.

(** C33: Writing a file and reading it gives back what was written: [write] on the path of a
    readable and writable file replaces its contents, whatever they were and however many
    calls it takes; [read] then returns exactly these bytes, and [read_to_string] the text
    they are, or [InvalidData] when they are not UTF-8.  Reading changes nothing. *)
Theorem api_write_read path node I s bytes contents :
  file_at path node I → I s bytes → in_usize (len contents) → len contents ≤ vec_max →
  ∃ s1 s2 s3, api_write (Cap:=Cap) path contents s = (Ok (), s1) ∧ I s1 contents ∧
    api_read (Cap:=Cap) path s1 = (Ok contents, s2) ∧ I s2 contents ∧
    api_read_to_string (Cap:=Cap) path s2 =
      (if is_utf8 (String.string_of_list_byte contents) then Ok (String.string_of_list_byte contents)
       else Err InvalidData, s3) ∧ I s3 contents.
Proof.
  intros Hf HI Hu Hmax. pose proof (fa_stores _ _ _ Hf) as Hst.
  destruct (write_file_run path node I s bytes contents) as (s1 & Hw & HI1); [done..|].
  destruct (read_file_run path node I s1 contents (read_to_end file_read) (Ok contents)) as (s2 & Hr & HI2); [done..| |].
  { intros k Hk. apply (read_to_end_ok _ (reading node I contents)); [by apply file_read_serves|done..]. }
  destruct (read_file_run path node I s2 contents (read_to_string file_read)
    (if is_utf8 (String.string_of_list_byte contents) then Ok (String.string_of_list_byte contents) else Err InvalidData))
    as (s3 & Hs & HI3); [done..| |by exists s1, s2, s3].
  intros k Hk. destruct (read_to_string_ok file_read (reading node I contents) contents k) as (k' & Hk' & Hs);
    [by apply file_read_serves|done..|]. by exists k'.
Qed.
End theorems.

(** ** Examples *)
Module ApiFilesExamples.
Import TinyFs TinyCap.

(** Loops with enough fuel for vectors of a thousand bytes. *)
Fixpoint read_loop {S} (fuel : nat) (read : reader S) : st S AxError (list u8) := λ s,
  match fuel with
  | O => (Panic, s)
  | Datatypes.S fuel =>
      match read (replicate 32 x00) s with
      | (Ok (n, buf), s') =>
          if bool_decide (n = 0) then (Ok [], s')
          else match read_loop fuel read s' with
               | (Ok l, s'') => (Ok (take (Z.to_nat n) buf ++ l), s'')
               | r => r
               end
      | (Err e, s') => (Err e, s')
      | (Panic, s') => (Panic, s')
      end
  end.

Fixpoint write_loop {S} (fuel : nat) (write : writer S) (buf : list u8) : st S AxError () := λ s,
  match fuel, buf with
  | _, [] => (Ok (), s)
  | O, _ => (Panic, s)
  | Datatypes.S fuel, _ =>
      match write buf s with
      | (Ok n, s') => write_loop fuel write (drop (Z.to_nat n) buf) s'
      | (Err e, s') => (Err e, s')
      | (Panic, s') => (Panic, s')
      end
  end.

#[local] Instance toy_io : AxIo := {|
  vec_max := 1000;
  read_to_end S read := read_loop 1001 read;
  read_to_string S read :=
    l ← read_loop 1001 read;
    if is_utf8 (String.string_of_list_byte l) then mret (String.string_of_list_byte l) else throw InvalidData;
  write_all S write buf := write_loop (length buf) write buf;
|}.

Lemma read_loop_ok {S} (read : reader S) J data s fuel :
  serves read J → J data s → (length data < fuel)%nat → ∃ s', read_loop fuel read s = (Ok data, s') ∧ J [] s'.
Proof.
  intros Hs. revert data s. induction fuel as [|fuel IH]; intros data s HJ Hf; [lia|].
  destruct (Hs data s (replicate 32 x00) HJ ltac:(done)) as (n & buf' & s1 & Hr & Hn & Ht & Hle & H0 & HJ1).
  cbn [read_loop]. rewrite Hr. case_bool_decide as Hz.
  - rewrite (H0 Hz) in *. subst n. exists s1. by rewrite drop_nil in HJ1.
  - unfold len in *. destruct (IH (drop (Z.to_nat n) data) s1 HJ1) as (s2 & Hl & HJ2); [rewrite length_drop; lia|].
    exists s2. rewrite Hl, Ht, take_drop. done.
Qed.

Lemma write_loop_ok {S} (write : writer S) J data s fuel :
  takes write J → J data s → (length data ≤ fuel)%nat → ∃ s', write_loop fuel write data s = (Ok (), s') ∧ J [] s'.
Proof.
  intros Hs. revert data s. induction fuel as [|fuel IH]; intros data s HJ Hf.
  { destruct data; [by exists s|simpl in Hf; lia]. }
  destruct data as [|b data]; [by exists s|].
  destruct (Hs (b :: data) s HJ ltac:(done)) as (n & s1 & Hw & Hn & HJ1). cbn [write_loop]. rewrite Hw.
  apply IH; [done|]. unfold len in *. rewrite length_drop. simpl in *. lia.
Qed.

#[local] Instance toy_io_ok : AxIoOk.
Proof.
  split.
  - intros S read J data s Hs HJ Hl. apply (read_loop_ok read J); [done..|]. unfold len in Hl. simpl in Hl. lia.
  - intros S read J data s Hs HJ Hl. destruct (read_loop_ok read J data s 1001) as (s' & Hr & HJ'); [done..| |].
    { unfold len in Hl. simpl in Hl. lia. }
    exists s'. split; [done|]. simpl. erewrite bind_run by exact Hr. by destruct (is_utf8 _).
  - intros S write J data s Hs HJ. by apply (write_loop_ok write J).
Qed.

#[local] Instance checks : OverflowChecks := true.

(** The file system of the examples of [Fops], with its file holding [bytes]. *)
Definition holds (s : root_st (W:=tiny) (F:=Z) (N:=Z * string)) (bytes : list u8) : Prop :=
  ∃ ns, s = mkRootSt (mkTiny 1 ns []) (Some (rd_new 0)) (Some RootNode) "/" ∧ ns !! (0, "a") = Some (File, bytes).

Lemma holds_stores : stores (FsNode (0, "a")) holds.
Proof.
  split.
  - intros s b (ns & -> & Hn). eexists _, _. unfold nref_get_attr, in_world. simpl. unfold with_node, found. simpl.
    rewrite Hn. split_and!; [done|done|by exists ns].
  - intros s b off buf (ns & -> & Hn) Hoff. eexists. unfold nref_read_at, in_world. simpl. unfold with_node, found. simpl.
    rewrite Hn. split; [done|by exists ns].
  - intros s b off buf (ns & -> & Hn) Hoff. eexists. unfold nref_write_at, in_world. simpl. unfold with_node, found. simpl.
    rewrite Hn. split; [done|]. eexists. split; [done|]. rewrite lookup_insert_eq. simpl. do 2 f_equal. unfold overwrite.
    pose proof (len_nonneg buf). unfold splice. rewrite take_app_le by (unfold len in *; lia).
    f_equal. f_equal. rewrite drop_app. unfold len in *.
    rewrite (drop_ge (replicate _ _)) by (rewrite length_replicate; lia). by rewrite app_nil_r.
Qed.

Lemma holds_file_at : file_at "/a" (FsNode (0, "a")) holds.
Proof.
  split; [exact holds_stores|..].
  - intros s b (ns & -> & Hn). set (s := mkRootSt _ _ _ _). exists s. split; [|by exists ns].
    assert (Hl : nref_lookup RootNode "/a" s = (Ok (FsNode (0, "a")), s)).
    { assert (Hw : with_node (0, "a") (λ _, mret (0, "a")) (world s) = (Ok (0, "a"), world s)).
      { unfold with_node, found. simpl. by rewrite Hn. }
      assert (Hin : in_world (rd_lookup (rd_new 0) "/a") s = (Ok (0, "a"), s)).
      { unfold in_world. change (rd_lookup (rd_new 0) "/a" (world s)) with (with_node (0, "a") (λ _, mret (0, "a")) (world s)).
        by rewrite Hw. }
      unfold nref_lookup. erewrite bind_run; [|erewrite bind_run by reflexivity; exact Hin]. done. }
    unfold lookup. cbn [str_is_empty]. erewrite bind_run by reflexivity. by erewrite bind_run by exact Hl.
  - intros s b (ns & -> & Hn). eexists _, _. unfold nref_get_attr, in_world. simpl. unfold with_node, found. simpl.
    rewrite Hn. split; [done|]. split; [by exists ns|done].
  - intros s b (ns & -> & Hn). eexists. split; [done|]. by exists ns.
  - intros s b (ns & -> & Hn). by exists ns.
  - intros s b (ns & -> & Hn). eexists. unfold nref_truncate, in_world. simpl. unfold with_node, found. simpl.
    rewrite Hn. split; [done|]. eexists. split; [done|]. by rewrite lookup_insert_eq.
Qed.

Lemma api_write_read_witness : ∃ s1 s2,
  api_write (Cap:=tiny_cap) "/a" [x68; x69] FopsExamples.state0 = (Ok (), s1) ∧
  api_read (Cap:=tiny_cap) "/a" s1 = (Ok [x68; x69], s2).
Proof.
  destruct (api_write_read (Cap:=tiny_cap) "/a" (FsNode (0, "a")) holds FopsExamples.state0 [x61; x62] [x68; x69])
    as (s1 & s2 & _ & Hw & _ & Hr & _); [exact holds_file_at|by eexists|by split; vm_compute|by vm_compute|].
  exists s1, s2. split; [exact Hw|exact Hr].
Defined.
End ApiFilesExamples.
